(** * Log-Analyzer: a shallow embedding of the analysis core

    The development follows the Go packages of the repository:
    [models] (log.go, stats.go), [parser] (parser.go, json parser,
    plain.go, detector), [analyzer] (aggregator, filters, analyzer) and
    [watcher] (watcher.go).

    Conventions.
    - A Go [string] is a sequence of bytes: Rocq's [string].
    - A Go [int]/[int64] is a [Z].  The counters of [Statistics] never
      reach the 64-bit boundary: the aggregator keeps every counted
      entry in a slice, and a slice length is an [int].
    - A [time.Time] is the instant it denotes, in nanoseconds since the
      zero time (January 1, year 1, 00:00:00 UTC); [IsZero], [Before]
      and [After] only depend on that instant.
    - Functions of the Go standard library are modelled by what their
      documentation promises on the inputs the program gives them; where
      a model is narrower than the library (ASCII only), this is said at
      the definition. *)

From Stdlib Require Import ZArith Lia Ascii String List Permutation Sorted Bool.
From stdpp Require Import gmap strings list fin_maps.

Local Open Scope string_scope.
Local Open Scope Z_scope.

(** ** Go strings *)

Module GoString.

(** [s[i:j]] for [0 <= i <= j <= len(s)]. *)
Definition slice (s : string) (i j : nat) : string :=
  String.substring i (j - i) s.

(** [s[i:]] *)
Fixpoint drop (n : nat) (s : string) : string :=
  match n, s with
  | O, _ => s
  | S n', String _ s' => drop n' s'
  | S _, EmptyString => EmptyString
  end.

(** [strings.HasPrefix(s, p)] *)
Fixpoint HasPrefix (s p : string) : bool :=
  match p, s with
  | EmptyString, _ => true
  | String c p', String d s' => if Ascii.eqb c d then HasPrefix s' p' else false
  | String _ _, EmptyString => false
  end.

(** [strings.HasSuffix(s, p)]:
    [len(s) >= len(p) && s[len(s)-len(p):] == p]. *)
Definition HasSuffix (s p : string) : bool :=
  (String.length p <=? String.length s)%nat &&
  String.eqb (drop (String.length s - String.length p) s) p.

(** [unicode.White_Space]: the code points for which [unicode.IsSpace]
    holds (tab to carriage return, space, next line, no-break space, and
    the spaces of the Ogham, general punctuation and CJK blocks). *)
Definition White_Space : list Z :=
  [0x0009; 0x000A; 0x000B; 0x000C; 0x000D; 0x0020; 0x0085; 0x00A0; 0x1680;
   0x2000; 0x2001; 0x2002; 0x2003; 0x2004; 0x2005; 0x2006; 0x2007; 0x2008;
   0x2009; 0x200A; 0x2028; 0x2029; 0x202F; 0x205F; 0x3000]%list.

(** [utf8.RuneError], the code point that stands for invalid input. *)
Definition RuneError : Z := 0xFFFD.

Definition asByte (n : Z) : ascii := ascii_of_nat (Z.to_nat n).

(** [utf8.EncodeRune]: the bytes of [string(r)].  A code point out of
    range or a surrogate half is written as [RuneError]. *)
Definition EncodeRune (r : Z) : string :=
  let r :=
    if (r <? 0) || (0x10FFFF <? r) || ((0xD800 <=? r) && (r <=? 0xDFFF))
    then RuneError else r in
  if r <=? 0x7F then String (asByte r) ""
  else if r <=? 0x7FF then
    String (asByte (Z.lor 0xC0 (Z.shiftr r 6)))
      (String (asByte (Z.lor 0x80 (Z.land r 0x3F))) "")
  else if r <=? 0xFFFF then
    String (asByte (Z.lor 0xE0 (Z.shiftr r 12)))
      (String (asByte (Z.lor 0x80 (Z.land (Z.shiftr r 6) 0x3F)))
         (String (asByte (Z.lor 0x80 (Z.land r 0x3F))) ""))
  else
    String (asByte (Z.lor 0xF0 (Z.shiftr r 18)))
      (String (asByte (Z.lor 0x80 (Z.land (Z.shiftr r 12) 0x3F)))
         (String (asByte (Z.lor 0x80 (Z.land (Z.shiftr r 6) 0x3F)))
            (String (asByte (Z.lor 0x80 (Z.land r 0x3F))) ""))).

(** The width of the white space rune that [s] starts with, if it starts
    with one.  The decoder of package utf8 reads a rune [r] at the head
    of [s] exactly when [s] starts with the bytes of [EncodeRune r]: it
    accepts the shortest encoding of a code point and no other, and reads
    a byte sequence that is not valid UTF-8 as [RuneError], one byte
    wide, which is no space. *)
Fixpoint spaceWidth (runes : list Z) (s : string) : option nat :=
  match runes with
  | (r :: runes')%list =>
      if HasPrefix s (EncodeRune r) then Some (String.length (EncodeRune r))
      else spaceWidth runes' s
  | nil => None
  end.

(** The same at the end of [s] ([utf8.DecodeLastRuneInString]). *)
Fixpoint lastSpaceWidth (runes : list Z) (s : string) : option nat :=
  match runes with
  | (r :: runes')%list =>
      if HasSuffix s (EncodeRune r) then Some (String.length (EncodeRune r))
      else lastSpaceWidth runes' s
  | nil => None
  end.

(** [strings.TrimLeftFunc(s, unicode.IsSpace)]: the runes at the head of
    [s] are dropped as long as they are white space.  [fuel] bounds the
    number of runes looked at; the length of [s] is enough. *)
Fixpoint trimLeft_loop (fuel : nat) (s : string) : string :=
  match fuel with
  | O => s
  | S fuel' =>
      match spaceWidth White_Space s with
      | Some n => trimLeft_loop fuel' (drop n s)
      | None => s
      end
  end.

Definition trimLeft (s : string) : string := trimLeft_loop (String.length s) s.

(** [strings.TrimRightFunc(s, unicode.IsSpace)] *)
Fixpoint trimRight_loop (fuel : nat) (s : string) : string :=
  match fuel with
  | O => s
  | S fuel' =>
      match lastSpaceWidth White_Space s with
      | Some n => trimRight_loop fuel' (slice s 0 (String.length s - n))
      | None => s
      end
  end.

Definition trimRight (s : string) : string :=
  trimRight_loop (String.length s) s.

(** [strings.TrimSpace]: all leading and trailing white space removed, as
    defined by Unicode.  (The library first skips the ASCII white space
    at both ends and turns to the rune-wise functions at the first byte
    that is not ASCII; the result is the same.) *)
Definition TrimSpace (s : string) : string := trimRight (trimLeft s).

Definition upperByte (c : ascii) : ascii :=
  let n := nat_of_ascii c in
  if ((97 <=? n) && (n <=? 122))%nat then ascii_of_nat (n - 32) else c.

(** [strings.ToUpper] on ASCII letters; other bytes are kept.  On a
    string of ASCII bytes this is the library's function; the library
    also maps the letters beyond ASCII, by the tables of package unicode,
    which this model leaves as they are. *)
Fixpoint ToUpper (s : string) : string :=
  match s with
  | String c s' => String (upperByte c) (ToUpper s')
  | EmptyString => EmptyString
  end.

(** [strings.Contains(s, sub)] *)
Fixpoint Contains (s sub : string) : bool :=
  HasPrefix s sub ||
  match s with
  | String _ s' => Contains s' sub
  | EmptyString => false
  end.

End GoString.

(** ** package time *)

Module GoTime.

(** Nanoseconds since January 1, year 1, 00:00:00 UTC. *)
Abbreviation Time := Z (only parsing).

Definition zero : Time := 0.

Definition IsZero (t : Time) : bool := t =? 0.
Definition Before (t u : Time) : bool := t <? u.
Definition After (t u : Time) : bool := u <? t.

(** *** Calendar *)

Definition isLeap (year : Z) : bool :=
  (year mod 4 =? 0) && (negb (year mod 100 =? 0) || (year mod 400 =? 0)).

Definition daysIn (month year : Z) : Z :=
  if month =? 2 then (if isLeap year then 29 else 28)
  else if (month =? 4) || (month =? 6) || (month =? 9) || (month =? 11) then 30
  else 31.

(** Days from January 1 of year 1 to January 1 of [year] (proleptic
    Gregorian calendar; negative for year 0). *)
Definition daysBeforeYear (year : Z) : Z :=
  let y := year - 1 in
  365 * y + y / 4 - y / 100 + y / 400.

Fixpoint daysBeforeMonth_loop (n : nat) (m year : Z) : Z :=
  match n with
  | O => 0
  | S n' => daysIn m year + daysBeforeMonth_loop n' (m + 1) year
  end.

Definition daysBeforeMonth (month year : Z) : Z :=
  daysBeforeMonth_loop (Z.to_nat (month - 1)) 1 year.

(** [time.Date(year, month, day, hour, min, sec, nsec, time.UTC)] for
    fields in their normal ranges. *)
Definition Date (year month day hour min sec nsec : Z) : Time :=
  let days := daysBeforeYear year + daysBeforeMonth month year + (day - 1) in
  (((days * 24 + hour) * 60 + min) * 60 + sec) * 1000000000 + nsec.

(** Seconds since January 1, 1970 UTC. *)
Definition Unix (t : Time) : Z := t / 1000000000 - 62135596800.

(** *** time.Parse

    The layouts of this program are made of the reference fields
    [2006], [01], [02], [15], [04], [05], the fraction [.999999999], the
    zone [Z07:00] and literal bytes; [chunks] cuts a layout into these
    (the other reference fields of package time do not occur). *)

Inductive chunk : Type :=
| stdLongYear | stdZeroMonth | stdZeroDay | stdHour | stdZeroMinute
| stdZeroSecond | stdFracSecond9 | stdISO8601ColonTZ
| literal (c : ascii).

Definition isDigit (c : ascii) : bool :=
  let n := nat_of_ascii c in ((48 <=? n) && (n <=? 57))%nat.

Definition digitVal (c : ascii) : Z := Z.of_nat (nat_of_ascii c) - 48.

Fixpoint skipNines (s : string) : string :=
  match s with
  | String c s' => if Ascii.eqb c "9" then skipNines s' else s
  | EmptyString => EmptyString
  end.

Definition startsWithDigit (s : string) : bool :=
  match s with
  | String c _ => isDigit c
  | EmptyString => false
  end.

Fixpoint chunks_fuel (n : nat) (layout : string) : list chunk :=
  match n with
  | O => []
  | S n' =>
      match layout with
      | EmptyString => []
      | String c rest =>
          if GoString.HasPrefix layout "2006" then
            stdLongYear :: chunks_fuel n' (GoString.drop 4 layout)
          else if GoString.HasPrefix layout "01" then
            stdZeroMonth :: chunks_fuel n' (GoString.drop 2 layout)
          else if GoString.HasPrefix layout "02" then
            stdZeroDay :: chunks_fuel n' (GoString.drop 2 layout)
          else if GoString.HasPrefix layout "15" then
            stdHour :: chunks_fuel n' (GoString.drop 2 layout)
          else if GoString.HasPrefix layout "04" then
            stdZeroMinute :: chunks_fuel n' (GoString.drop 2 layout)
          else if GoString.HasPrefix layout "05" then
            stdZeroSecond :: chunks_fuel n' (GoString.drop 2 layout)
          else if GoString.HasPrefix layout "Z07:00" then
            stdISO8601ColonTZ :: chunks_fuel n' (GoString.drop 6 layout)
          else if GoString.HasPrefix layout ".9"
                  && negb (startsWithDigit (skipNines rest)) then
            stdFracSecond9 :: chunks_fuel n' (skipNines rest)
          else literal c :: chunks_fuel n' rest
      end
  end.

Definition chunks (layout : string) : list chunk :=
  chunks_fuel (String.length layout) layout.

(** [getnum]: one or two digits, exactly two when [fixed]. *)
Definition getnum (s : string) (fixed : bool) : option (Z * string) :=
  match s with
  | String a rest =>
      if isDigit a then
        match rest with
        | String b rest' =>
            if isDigit b then Some (digitVal a * 10 + digitVal b, rest')
            else if fixed then None else Some (digitVal a, rest)
        | EmptyString => if fixed then None else Some (digitVal a, rest)
        end
      else None
  | EmptyString => None
  end.

Fixpoint cutspace (s : string) : string :=
  match s with
  | String c s' => if Ascii.eqb c " " then cutspace s' else s
  | EmptyString => EmptyString
  end.

(** [skip] for a one-byte literal: a space of the layout stands for any
    run of spaces of the value. *)
Definition skip (value : string) (c : ascii) : option string :=
  if Ascii.eqb c " " then
    match value with
    | String d _ => if Ascii.eqb d " " then Some (cutspace value) else None
    | EmptyString => Some EmptyString
    end
  else
    match value with
    | String d value' => if Ascii.eqb d c then Some value' else None
    | EmptyString => None
    end.

Definition commaOrPeriod (c : ascii) : bool :=
  Ascii.eqb c "." || Ascii.eqb c ",".

(** The digits at the head of [s] and what follows them. *)
Fixpoint spanDigits (s : string) : list Z * string :=
  match s with
  | String c s' =>
      if isDigit c then
        let '(ds, r) := spanDigits s' in (digitVal c :: ds, r)
      else ([], s)
  | EmptyString => ([], EmptyString)
  end.

(** [parseNanoseconds]: at most nine digits count, scaled to
    nanoseconds. *)
Definition nanosOfDigits (ds : list Z) : Z :=
  let ds9 := firstn 9 ds in
  fold_left (fun acc d => acc * 10 + d) ds9 0 * 10 ^ (9 - Z.of_nat (length ds9)).

(** A fraction of a second at the head of the value, when there is one:
    a comma or period followed by at least one digit. *)
Definition takeFraction (value : string) : option (Z * string) :=
  match value with
  | String c rest =>
      if commaOrPeriod c && startsWithDigit rest then
        let '(ds, r) := spanDigits rest in Some (nanosOfDigits ds, r)
      else None
  | EmptyString => None
  end.

Record fields := mkFields {
  f_year : Z; f_month : Z; f_day : Z; f_hour : Z; f_min : Z; f_sec : Z;
  f_nsec : Z; f_zoneOffset : Z
}.

Definition fields0 : fields :=
  {| f_year := 0; f_month := 1; f_day := 1; f_hour := 0; f_min := 0;
     f_sec := 0; f_nsec := 0; f_zoneOffset := 0 |}.

Definition nextIsFraction (layout : list chunk) : bool :=
  match layout with
  | stdFracSecond9 :: _ => true
  | _ => false
  end.

Definition parseZone (value : string) : option (Z * string) :=
  match value with
  | String "Z" rest => Some (0, rest)
  | String sign (String h1 (String h2 (String ":" (String m1 (String m2 rest))))) =>
      match getnum (String h1 (String h2 EmptyString)) true,
            getnum (String m1 (String m2 EmptyString)) true with
      | Some (hr, _), Some (mm, _) =>
          if (24 <? hr) || (60 <? mm) then None
          else if Ascii.eqb sign "+" then Some ((hr * 60 + mm) * 60, rest)
          else if Ascii.eqb sign "-" then Some (- ((hr * 60 + mm) * 60), rest)
          else None
      | _, _ => None
      end
  | _ => None
  end.

Fixpoint parseChunks (layout : list chunk) (value : string) (f : fields)
  : option fields :=
  match layout with
  | [] => if String.eqb value "" then Some f else None
  | literal c :: layout' =>
      match skip value c with
      | Some value' => parseChunks layout' value' f
      | None => None
      end
  | stdLongYear :: layout' =>
      match value with
      | String a (String b (String c (String d value'))) =>
          if isDigit a && isDigit b && isDigit c && isDigit d then
            parseChunks layout' value'
              {| f_year := ((digitVal a * 10 + digitVal b) * 10 + digitVal c) * 10
                           + digitVal d;
                 f_month := f_month f; f_day := f_day f; f_hour := f_hour f;
                 f_min := f_min f; f_sec := f_sec f; f_nsec := f_nsec f;
                 f_zoneOffset := f_zoneOffset f |}
          else None
      | _ => None
      end
  | stdZeroMonth :: layout' =>
      match getnum value true with
      | Some (month, value') =>
          if (month <=? 0) || (12 <? month) then None
          else parseChunks layout' value'
              {| f_year := f_year f; f_month := month; f_day := f_day f;
                 f_hour := f_hour f; f_min := f_min f; f_sec := f_sec f;
                 f_nsec := f_nsec f; f_zoneOffset := f_zoneOffset f |}
      | None => None
      end
  | stdZeroDay :: layout' =>
      match getnum value true with
      | Some (day, value') =>
          parseChunks layout' value'
              {| f_year := f_year f; f_month := f_month f; f_day := day;
                 f_hour := f_hour f; f_min := f_min f; f_sec := f_sec f;
                 f_nsec := f_nsec f; f_zoneOffset := f_zoneOffset f |}
      | None => None
      end
  | stdHour :: layout' =>
      match getnum value false with
      | Some (hour, value') =>
          if 24 <=? hour then None
          else parseChunks layout' value'
              {| f_year := f_year f; f_month := f_month f; f_day := f_day f;
                 f_hour := hour; f_min := f_min f; f_sec := f_sec f;
                 f_nsec := f_nsec f; f_zoneOffset := f_zoneOffset f |}
      | None => None
      end
  | stdZeroMinute :: layout' =>
      match getnum value true with
      | Some (min, value') =>
          if 60 <=? min then None
          else parseChunks layout' value'
              {| f_year := f_year f; f_month := f_month f; f_day := f_day f;
                 f_hour := f_hour f; f_min := min; f_sec := f_sec f;
                 f_nsec := f_nsec f; f_zoneOffset := f_zoneOffset f |}
      | None => None
      end
  | stdZeroSecond :: layout' =>
      match getnum value true with
      | Some (sec, value') =>
          if 60 <=? sec then None
          else
            let f' := {| f_year := f_year f; f_month := f_month f;
                         f_day := f_day f; f_hour := f_hour f;
                         f_min := f_min f; f_sec := sec; f_nsec := f_nsec f;
                         f_zoneOffset := f_zoneOffset f |} in
            if nextIsFraction layout' then parseChunks layout' value' f'
            else
              match takeFraction value' with
              | Some (nsec, value'') =>
                  parseChunks layout' value''
                    {| f_year := f_year f'; f_month := f_month f';
                       f_day := f_day f'; f_hour := f_hour f';
                       f_min := f_min f'; f_sec := f_sec f'; f_nsec := nsec;
                       f_zoneOffset := f_zoneOffset f' |}
              | None => parseChunks layout' value' f'
              end
      | None => None
      end
  | stdFracSecond9 :: layout' =>
      match takeFraction value with
      | Some (nsec, value') =>
          parseChunks layout' value'
              {| f_year := f_year f; f_month := f_month f; f_day := f_day f;
                 f_hour := f_hour f; f_min := f_min f; f_sec := f_sec f;
                 f_nsec := nsec; f_zoneOffset := f_zoneOffset f |}
      | None => parseChunks layout' value f
      end
  | stdISO8601ColonTZ :: layout' =>
      match parseZone value with
      | Some (off, value') =>
          parseChunks layout' value'
              {| f_year := f_year f; f_month := f_month f; f_day := f_day f;
                 f_hour := f_hour f; f_min := f_min f; f_sec := f_sec f;
                 f_nsec := f_nsec f; f_zoneOffset := off |}
      | None => None
      end
  end.

(** [time.Parse(layout, value)]; [None] stands for its error. *)
Definition Parse (layout value : string) : option Time :=
  match parseChunks (chunks layout) value fields0 with
  | Some f =>
      if (f_day f <? 1) || (daysIn (f_month f) (f_year f) <? f_day f) then None
      else Some (Date (f_year f) (f_month f) (f_day f) (f_hour f) (f_min f)
                      (f_sec f) (f_nsec f)
                 - f_zoneOffset f * 1000000000)
  | None => None
  end.

Definition RFC3339 : string := "2006-01-02T15:04:05Z07:00".
Definition RFC3339Nano : string := "2006-01-02T15:04:05.999999999Z07:00".

End GoTime.

(** ** package models: log.go *)

Module models.

Import GoTime.

(** [type LogLevel int] with the constants numbered by [iota]. *)
Abbreviation LogLevel := Z (only parsing).

Definition DEBUG : LogLevel := 0.
Definition INFO : LogLevel := 1.
Definition WARN : LogLevel := 2.
Definition ERROR : LogLevel := 3.
Definition FATAL : LogLevel := 4.
Definition UNKNOWN : LogLevel := 5.

(** [LogLevel.String] *)
Definition LogLevel_String (l : LogLevel) : string :=
  if l =? DEBUG then "DEBUG"
  else if l =? INFO then "INFO"
  else if l =? WARN then "WARN"
  else if l =? ERROR then "ERROR"
  else if l =? FATAL then "FATAL"
  else "UNKNOWN".

Definition ParseLogLevel (s : string) : LogLevel :=
  if String.eqb s "DEBUG" then DEBUG
  else if String.eqb s "INFO" then INFO
  else if String.eqb s "WARN" || String.eqb s "WARNING" then WARN
  else if String.eqb s "ERROR" then ERROR
  else if String.eqb s "FATAL" then FATAL
  else UNKNOWN.

Record LogEntry := mkLogEntry {
  Timestamp : Time;
  Level : LogLevel;
  Message : string;
  Source : string;
  Raw : string
}.

Definition MatchesLevel (e : LogEntry) (level : LogLevel) : bool :=
  Level e =? level.

(** The loop of [findSubstring]: [i] runs from its current value while
    [i <= len(s)-len(substr)]; [n] bounds the iterations left. *)
Fixpoint findSubstring_loop (n i : nat) (s substr : string) : bool :=
  match n with
  | O => false
  | S n' =>
      if String.eqb (GoString.slice s i (i + String.length substr)) substr
      then true
      else findSubstring_loop n' (S i) s substr
  end.

(** [for i := 0; i <= len(s)-len(substr); i++]: with ints, the body runs
    [len(s)-len(substr)+1] times when that is positive and never
    otherwise. *)
Definition findSubstring (s substr : string) : bool :=
  let d := Z.of_nat (String.length s) - Z.of_nat (String.length substr) in
  findSubstring_loop (Z.to_nat (d + 1)) 0 s substr.

Definition contains (s substr : string) : bool :=
  (String.length substr <=? String.length s)%nat &&
  (String.eqb s substr || findSubstring s substr).

Definition MatchesPattern (e : LogEntry) (pattern : string) : bool :=
  if String.eqb pattern "" then true
  else contains (Message e) pattern || contains (Raw e) pattern.

(** ** package models: stats.go *)

Record Statistics := mkStatistics {
  TotalEntries : Z;
  LevelCounts : gmap Z Z;
  PatternCounts : gmap string Z;
  SourceCounts : gmap string Z;
  FirstTimestamp : Time;
  LastTimestamp : Time;
  ProcessingTime : Z;
  FilesProcessed : Z;
  BytesProcessed : Z
}.

(** Reading a Go map: a missing key reads as the zero value. *)
Definition get `{Countable K} (m : gmap K Z) (k : K) : Z :=
  default 0 (m !! k).

(** [m[k]++] *)
Definition incr `{Countable K} (m : gmap K Z) (k : K) : gmap K Z :=
  <[k := get m k + 1]> m.

Definition NewStatistics : Statistics :=
  {| TotalEntries := 0; LevelCounts := ∅; PatternCounts := ∅;
     SourceCounts := ∅; FirstTimestamp := zero; LastTimestamp := zero;
     ProcessingTime := 0; FilesProcessed := 0; BytesProcessed := 0 |}.

Definition AddEntry (s : Statistics) (entry : LogEntry) : Statistics :=
  {| TotalEntries := TotalEntries s + 1;
     LevelCounts := incr (LevelCounts s) (Level entry);
     PatternCounts := PatternCounts s;
     SourceCounts := incr (SourceCounts s) (Source entry);
     FirstTimestamp :=
       if IsZero (FirstTimestamp s) || Before (Timestamp entry) (FirstTimestamp s)
       then Timestamp entry else FirstTimestamp s;
     LastTimestamp :=
       if After (Timestamp entry) (LastTimestamp s)
       then Timestamp entry else LastTimestamp s;
     ProcessingTime := ProcessingTime s;
     FilesProcessed := FilesProcessed s;
     BytesProcessed := BytesProcessed s |}.

Definition IncrementPattern (s : Statistics) (pattern : string) : Statistics :=
  {| TotalEntries := TotalEntries s;
     LevelCounts := LevelCounts s;
     PatternCounts := incr (PatternCounts s) pattern;
     SourceCounts := SourceCounts s;
     FirstTimestamp := FirstTimestamp s;
     LastTimestamp := LastTimestamp s;
     ProcessingTime := ProcessingTime s;
     FilesProcessed := FilesProcessed s;
     BytesProcessed := BytesProcessed s |}.

Definition AddFile (s : Statistics) (bytesRead : Z) : Statistics :=
  {| TotalEntries := TotalEntries s;
     LevelCounts := LevelCounts s;
     PatternCounts := PatternCounts s;
     SourceCounts := SourceCounts s;
     FirstTimestamp := FirstTimestamp s;
     LastTimestamp := LastTimestamp s;
     ProcessingTime := ProcessingTime s;
     FilesProcessed := FilesProcessed s + 1;
     BytesProcessed := BytesProcessed s + bytesRead |}.

Definition SetProcessingTime (s : Statistics) (duration : Z) : Statistics :=
  {| TotalEntries := TotalEntries s;
     LevelCounts := LevelCounts s;
     PatternCounts := PatternCounts s;
     SourceCounts := SourceCounts s;
     FirstTimestamp := FirstTimestamp s;
     LastTimestamp := LastTimestamp s;
     ProcessingTime := duration;
     FilesProcessed := FilesProcessed s;
     BytesProcessed := BytesProcessed s |}.

Definition GetLevelCount (s : Statistics) (level : LogLevel) : Z :=
  get (LevelCounts s) level.

End models.

(** ** package bufio: Scanner with the [ScanLines] split function *)

Module bufio.

Definition LF : ascii := ascii_of_nat 10.
Definition CR : ascii := ascii_of_nat 13.

(** [MaxScanTokenSize = 64 * 1024], the limit of a Scanner whose buffer
    was not set. *)
Definition MaxScanTokenSize : Z := 64 * 1024.

Record Scanned := mkScanned {
  tokens : list string;   (* what the successive calls of Text return *)
  consumed : Z;           (* bytes read from the reader *)
  tooLong : bool          (* Err() is ErrTooLong *)
}.

(** [dropCR] on a token kept in reverse. *)
Definition dropCR (rtok : list ascii) : list ascii :=
  match rtok with
  | c :: rtok' => if Ascii.eqb c CR then rtok' else rtok
  | [] => []
  end.

Definition token (rtok : list ascii) : string :=
  string_of_list_ascii (rev (dropCR rtok)).

(** Scanning [data], the bytes between the reader's position and the end
    of the file.  [rtok] holds, in reverse, the [n] bytes of the line
    being read and [pos] counts the bytes seen.  A line ends at a newline
    or at the end of the data (a last empty line is no token).  The
    buffer never grows beyond [maxTokenSize]: when it holds that many
    bytes of one line and no newline, scanning stops with ErrTooLong, and
    the reader stands after those bytes. *)
Fixpoint scan (maxTokenSize : Z) (data : string) (rtok : list ascii)
    (n pos : Z) : Scanned :=
  match data with
  | EmptyString =>
      {| tokens := match rtok with [] => [] | _ => [token rtok] end;
         consumed := pos; tooLong := false |}
  | String c data' =>
      if Ascii.eqb c LF then
        let r := scan maxTokenSize data' [] 0 (pos + 1) in
        {| tokens := token rtok :: tokens r; consumed := consumed r;
           tooLong := tooLong r |}
      else if maxTokenSize <=? n + 1 then
        {| tokens := []; consumed := pos + 1; tooLong := true |}
      else scan maxTokenSize data' (c :: rtok) (n + 1) (pos + 1)
  end.

Definition Scan (maxTokenSize : Z) (data : string) : Scanned :=
  scan maxTokenSize data [] 0 0.

End bufio.

(** ** package sort: [sort.Slice]

    [sort.Slice] is the pattern-defeating quicksort of the library
    (pdqsort_func and its helpers, Go 1.19 and later; the README asks for
    Go 1.21).  The slice is a list, [Less] and [Swap] read and write it
    by index as the closures that [sort.Slice] builds do. *)

Module sort.

Local Open Scope nat_scope.

Inductive sortedHint : Type := unknownHint | increasingHint | decreasingHint.

Definition isIncreasing (h : sortedHint) : bool :=
  match h with increasingHint => true | _ => false end.

Definition isDecreasing (h : sortedHint) : bool :=
  match h with decreasingHint => true | _ => false end.

(** [bits.Len] *)
Definition bits_Len (n : nat) : nat :=
  match n with O => 0 | _ => S (Nat.log2 n) end.

Definition uint64 (z : Z) : Z := (z mod 2 ^ 64)%Z.

(** [xorshift.Next] *)
Definition xorshift_Next (r : Z) : Z :=
  let r := Z.lxor r (uint64 (Z.shiftl r 13)) in
  let r := Z.lxor r (Z.shiftr r 7) in
  let r := Z.lxor r (uint64 (Z.shiftl r 17)) in
  r.

Definition nextPowerOfTwo (length : nat) : Z :=
  Z.shiftl 1 (Z.of_nat (bits_Len length)).

Section Slice.

Context {A : Type}.

(** What the [less] closure computes from the two elements it reads. *)
Variable lessv : A -> A -> bool.

Definition Less (data : list A) (i j : nat) : bool :=
  match data !! i, data !! j with
  | Some x, Some y => lessv x y
  | _, _ => false
  end.

Definition Swap (data : list A) (i j : nat) : list A :=
  match data !! i, data !! j with
  | Some x, Some y => <[i := y]> (<[j := x]> data)
  | _, _ => data
  end.

(** [for j := i; j > a && less(j, j-1); j-- { swap(j, j-1) }] *)
Fixpoint insertionSort_inner (data : list A) (a j : nat) : list A :=
  match j with
  | O => data
  | S j' =>
      if (a <? j) && Less data j j'
      then insertionSort_inner (Swap data j j') a j'
      else data
  end.

(** [for i := ...; i < b; i++], with [n] iterations left. *)
Fixpoint insertionSort_outer (n : nat) (data : list A) (a i : nat) : list A :=
  match n with
  | O => data
  | S n' => insertionSort_outer n' (insertionSort_inner data a i) a (S i)
  end.

Definition insertionSort_func (data : list A) (a b : nat) : list A :=
  insertionSort_outer (b - (a + 1)) data a (a + 1).

(** The loop of [siftDown_func]; [root] grows at every turn and stays
    below [hi]. *)
Fixpoint siftDown_loop (fuel : nat) (data : list A) (root hi first : nat)
  : list A :=
  match fuel with
  | O => data
  | S fuel' =>
      let child := 2 * root + 1 in
      if hi <=? child then data
      else
        let child :=
          if (child + 1 <? hi) && Less data (first + child) (first + child + 1)
          then child + 1 else child in
        if negb (Less data (first + root) (first + child)) then data
        else siftDown_loop fuel' (Swap data (first + root) (first + child))
                           child hi first
  end.

Definition siftDown_func (data : list A) (lo hi first : nat) : list A :=
  siftDown_loop hi data lo hi first.

(** [for i := (hi - 1) / 2; i >= 0; i--], with [n = i + 1]. *)
Fixpoint heapSort_build (n : nat) (data : list A) (hi first : nat) : list A :=
  match n with
  | O => data
  | S i => heapSort_build i (siftDown_func data i hi first) hi first
  end.

(** [for i := hi - 1; i >= 0; i--], with [n = i + 1]. *)
Fixpoint heapSort_pop (n : nat) (data : list A) (first : nat) : list A :=
  match n with
  | O => data
  | S i =>
      heapSort_pop i (siftDown_func (Swap data first (first + i)) 0 i first)
                   first
  end.

Definition heapSort_func (data : list A) (a b : nat) : list A :=
  let first := a in
  let hi := b - a in
  heapSort_pop hi (heapSort_build ((hi - 1) / 2 + 1) data hi first) first.

(** [for i <= j && less(data[i], data[a]) { i++ }] *)
Fixpoint scanUp_less (fuel : nat) (data : list A) (a i j : nat) : nat :=
  match fuel with
  | O => i
  | S fuel' =>
      if (i <=? j) && Less data i a then scanUp_less fuel' data a (S i) j
      else i
  end.

(** [for i <= j && !less(data[j], data[a]) { j-- }] *)
Fixpoint scanDown_notless (fuel : nat) (data : list A) (a i j : nat) : nat :=
  match fuel with
  | O => j
  | S fuel' =>
      if (i <=? j) && negb (Less data j a)
      then scanDown_notless fuel' data a i (j - 1)
      else j
  end.

(** The second loop of [partition_func]. *)
Fixpoint partition_loop (fuel : nat) (data : list A) (a i j : nat)
  : list A * nat :=
  match fuel with
  | O => (data, j)
  | S fuel' =>
      let i := scanUp_less (S j - i) data a i j in
      let j := scanDown_notless (S j - i) data a i j in
      if j <? i then (data, j)
      else partition_loop fuel' (Swap data i j) a (S i) (j - 1)
  end.

Definition partition_func (data : list A) (a b pivot : nat)
  : list A * nat * bool :=
  let data := Swap data a pivot in
  let i := a + 1 in
  let j := b - 1 in
  let i := scanUp_less (S j - i) data a i j in
  let j := scanDown_notless (S j - i) data a i j in
  if j <? i then (Swap data j a, j, true)
  else
    let data := Swap data i j in
    let '(data, j) := partition_loop (b - a) data a (S i) (j - 1) in
    (Swap data j a, j, false).

(** [for i <= j && !less(data[a], data[i]) { i++ }] *)
Fixpoint scanUp_notgreater (fuel : nat) (data : list A) (a i j : nat) : nat :=
  match fuel with
  | O => i
  | S fuel' =>
      if (i <=? j) && negb (Less data a i)
      then scanUp_notgreater fuel' data a (S i) j
      else i
  end.

(** [for i <= j && less(data[a], data[j]) { j-- }] *)
Fixpoint scanDown_greater (fuel : nat) (data : list A) (a i j : nat) : nat :=
  match fuel with
  | O => j
  | S fuel' =>
      if (i <=? j) && Less data a j
      then scanDown_greater fuel' data a i (j - 1)
      else j
  end.

Fixpoint partitionEqual_loop (fuel : nat) (data : list A) (a i j : nat)
  : list A * nat :=
  match fuel with
  | O => (data, i)
  | S fuel' =>
      let i := scanUp_notgreater (S j - i) data a i j in
      let j := scanDown_greater (S j - i) data a i j in
      if j <? i then (data, i)
      else partitionEqual_loop fuel' (Swap data i j) a (S i) (j - 1)
  end.

Definition partitionEqual_func (data : list A) (a b pivot : nat)
  : list A * nat :=
  let data := Swap data a pivot in
  partitionEqual_loop (S (b - a)) data a (a + 1) (b - 1).

(** [for i < b && !less(data[i], data[i-1]) { i++ }] *)
Fixpoint scanSorted (fuel : nat) (data : list A) (i b : nat) : nat :=
  match fuel with
  | O => i
  | S fuel' =>
      if (i <? b) && negb (Less data i (i - 1))
      then scanSorted fuel' data (S i) b
      else i
  end.

(** [for j := i - 1; j >= 1; j--], started at [j]. *)
Fixpoint shiftLeft (data : list A) (j : nat) : list A :=
  match j with
  | O => data
  | S j' =>
      if negb (Less data j j') then data
      else shiftLeft (Swap data j j') j'
  end.

(** [for j := i + 1; j < b; j++], with [fuel] iterations left. *)
Fixpoint shiftRight (fuel : nat) (data : list A) (j : nat) : list A :=
  match fuel with
  | O => data
  | S fuel' =>
      if negb (Less data j (j - 1)) then data
      else shiftRight fuel' (Swap data j (j - 1)) (S j)
  end.

(** [for j := 0; j < maxSteps; j++], with [steps] iterations left. *)
Fixpoint partialInsertionSort_loop (steps : nat) (data : list A) (a b i : nat)
  : list A * bool :=
  match steps with
  | O => (data, false)
  | S steps' =>
      let i := scanSorted (b - i) data i b in
      if i =? b then (data, true)
      else if b - a <? 50 then (data, false)
      else
        let data := Swap data i (i - 1) in
        let data := if 2 <=? i - a then shiftLeft data (i - 1) else data in
        let data :=
          if 2 <=? b - i then shiftRight (b - (i + 1)) data (i + 1) else data in
        partialInsertionSort_loop steps' data a b i
  end.

Definition partialInsertionSort_func (data : list A) (a b : nat)
  : list A * bool :=
  partialInsertionSort_loop 5 data a b (a + 1).

(** [other := int(uint(random.Next()) & (modulus - 1))], three times. *)
Fixpoint breakPatterns_loop (n : nat) (data : list A) (a length idx i : nat)
    (random modulus : Z) : list A :=
  match n with
  | O => data
  | S n' =>
      let random := xorshift_Next random in
      let other := Z.to_nat (Z.land random (modulus - 1)) in
      let other := if length <=? other then other - length else other in
      breakPatterns_loop n' (Swap data (idx - 1 + i) (a + other)) a length idx
                         (S i) random modulus
  end.

Definition breakPatterns_func (data : list A) (a b : nat) : list A :=
  let length := b - a in
  if 8 <=? length then
    let random := Z.of_nat length in
    let modulus := nextPowerOfTwo length in
    let idx := a + (length / 4) * 2 - 1 in
    breakPatterns_loop 3 data a length idx 0 random modulus
  else data.

Definition order2_func (data : list A) (a b swaps : nat) : nat * nat * nat :=
  if Less data b a then (b, a, S swaps) else (a, b, swaps).

Definition median_func (data : list A) (a b c swaps : nat) : nat * nat :=
  let '(a, b, swaps) := order2_func data a b swaps in
  let '(b, c, swaps) := order2_func data b c swaps in
  let '(a, b, swaps) := order2_func data a b swaps in
  (b, swaps).

Definition medianAdjacent_func (data : list A) (a swaps : nat) : nat * nat :=
  median_func data (a - 1) a (a + 1) swaps.

Definition choosePivot_func (data : list A) (a b : nat) : nat * sortedHint :=
  let l := b - a in
  let swaps := 0 in
  let i := a + l / 4 * 1 in
  let j := a + l / 4 * 2 in
  let k := a + l / 4 * 3 in
  let '(j, swaps) :=
    if 8 <=? l then
      let '(i, j, k, swaps) :=
        if 50 <=? l then
          let '(i, swaps) := medianAdjacent_func data i swaps in
          let '(j, swaps) := medianAdjacent_func data j swaps in
          let '(k, swaps) := medianAdjacent_func data k swaps in
          (i, j, k, swaps)
        else (i, j, k, swaps) in
      median_func data i j k swaps
    else (j, swaps) in
  if swaps =? 0 then (j, increasingHint)
  else if swaps =? 4 * 3 then (j, decreasingHint)
  else (j, unknownHint).

(** [for i < j { swap(i, j); i++; j-- }] *)
Fixpoint reverseRange_loop (fuel : nat) (data : list A) (i j : nat) : list A :=
  match fuel with
  | O => data
  | S fuel' =>
      if i <? j then reverseRange_loop fuel' (Swap data i j) (S i) (j - 1)
      else data
  end.

Definition reverseRange_func (data : list A) (a b : nat) : list A :=
  reverseRange_loop (b - a) data a (b - 1).

(** [pdqsort_func]: the [for] loop and the recursive call both work on a
    range shorter than [b - a]; [fuel] bounds them. *)
Fixpoint pdqsort_loop (fuel : nat) (data : list A) (a b limit : nat)
    (wasBalanced wasPartitioned : bool) : list A :=
  match fuel with
  | O => data
  | S fuel' =>
      let length := b - a in
      if length <=? 12 then insertionSort_func data a b
      else if limit =? 0 then heapSort_func data a b
      else
        let '(data, limit) :=
          if negb wasBalanced then (breakPatterns_func data a b, limit - 1)
          else (data, limit) in
        let '(pivot, hint) := choosePivot_func data a b in
        let '(data, pivot, hint) :=
          if isDecreasing hint
          then (reverseRange_func data a b, (b - 1) - (pivot - a), increasingHint)
          else (data, pivot, hint) in
        let '(data, sorted) :=
          if wasBalanced && wasPartitioned && isIncreasing hint
          then partialInsertionSort_func data a b
          else (data, false) in
        if sorted then data
        else if (0 <? a) && negb (Less data (a - 1) pivot) then
          let '(data, mid) := partitionEqual_func data a b pivot in
          pdqsort_loop fuel' data mid b limit wasBalanced wasPartitioned
        else
          let '(data, mid, alreadyPartitioned) := partition_func data a b pivot in
          let wasPartitioned := alreadyPartitioned in
          let leftLen := mid - a in
          let rightLen := b - mid in
          let balanceThreshold := length / 8 in
          if leftLen <? rightLen then
            let wasBalanced := balanceThreshold <=? leftLen in
            let data := pdqsort_loop fuel' data a mid limit true true in
            pdqsort_loop fuel' data (mid + 1) b limit wasBalanced wasPartitioned
          else
            let wasBalanced := balanceThreshold <=? rightLen in
            let data := pdqsort_loop fuel' data (mid + 1) b limit true true in
            pdqsort_loop fuel' data a mid limit wasBalanced wasPartitioned
  end.

Definition pdqsort_func (data : list A) (a b limit : nat) : list A :=
  pdqsort_loop (S (b - a)) data a b limit true true.

(** [sort.Slice(x, less)] *)
Definition Slice (x : list A) : list A :=
  let length := List.length x in
  let limit := bits_Len length in
  pdqsort_func x 0 length limit.

End Slice.

End sort.

(** ** errors *)

(** An error value: a sentinel made by [errors.New] (also the opaque
    errors of os, bufio, filepath and encoding/json, by their text), or
    the result of [fmt.Errorf] with its format and operands. *)
Inductive error : Type :=
| errors_New (text : string)
| fmt_Errorf (format : string) (operands : list operand)
with operand : Type :=
| op_string (s : string)
| op_int (n : Z)
| op_error (e : error).

Inductive result (A : Type) : Type :=
| Ok (a : A)
| Err (e : error).

Arguments Ok {A} a.
Arguments Err {A} e.

(** ** package parser *)

Module parser.

Import GoTime models.

Definition ErrInvalidFormat : error := errors_New "invalid log format".
Definition ErrEmptyLine : error := errors_New "empty log line".
Definition ErrParseFailure : error := errors_New "failed to parse log line".

(** [type ParserType int] *)
Abbreviation ParserType := Z (only parsing).
Definition JSONParser : ParserType := 0.
Definition PlainTextParser : ParserType := 1.
Definition AutoDetect : ParserType := 2.

(** [ParserType.String] *)
Definition ParserType_String (p : ParserType) : string :=
  if p =? JSONParser then "JSON"
  else if p =? PlainTextParser then "PlainText"
  else if p =? AutoDetect then "AutoDetect"
  else "Unknown".

(** The two implementations of the [LogParser] interface. *)
Inductive LogParser : Type := JSONLogParser | PlainTextLogParser.

Record jsonLogEntry := mkJsonLogEntry {
  j_Timestamp : string;
  j_Time : string;
  j_Level : string;
  j_Message : string;
  j_Msg : string
}.

(** [parseTimestamp]: the first layout that parses. *)
Fixpoint parseTimestamp_loop (formats : list string) (s : string) : option Time :=
  match formats with
  | format :: formats' =>
      match GoTime.Parse format s with
      | Some t => Some t
      | None => parseTimestamp_loop formats' s
      end
  | [] => None
  end.

Definition parseTimestamp (s : string) : result Time :=
  match parseTimestamp_loop
          [RFC3339; RFC3339Nano; "2006-01-02T15:04:05"; "2006-01-02 15:04:05";
           "2006/01/02 15:04:05"] s with
  | Some t => Ok t
  | None => Err (fmt_Errorf "unable to parse timestamp: %s" [op_string s])
  end.

(** *** plain.go *)

(** The loop over the three layouts of [extractTimestamp]; [line] has
    lost its leading bracket. *)
Fixpoint extractTimestamp_loop (formats : list (string * nat)) (line : string)
    (hasBracket : bool) : option (Time * string) :=
  match formats with
  | (format, length) :: formats' =>
      let next := extractTimestamp_loop formats' line hasBracket in
      if (length <=? String.length line)%nat then
        let timestampStr := GoString.slice line 0 length in
        match GoTime.Parse format timestampStr with
        | Some t =>
            let rest := GoString.drop length line in
            let rest :=
              if hasBracket && GoString.HasPrefix rest "]"
              then GoString.drop 1 rest else rest in
            Some (t, GoString.TrimSpace rest)
        | None => next
        end
      else next
  | [] => None
  end.

Definition extractTimestamp (line : string) : result (Time * string) :=
  let line := GoString.TrimSpace line in
  let hasBracket := GoString.HasPrefix line "[" in
  let line := if hasBracket then GoString.drop 1 line else line in
  match extractTimestamp_loop
          [("2006-01-02 15:04:05", 19%nat); ("2006/01/02 15:04:05", 19%nat);
           ("2006-01-02T15:04:05", 19%nat)] line hasBracket with
  | Some r => Ok r
  | None => Err (fmt_Errorf "no timestamp found" [])
  end.

Definition levels : list string :=
  ["FATAL"; "ERROR"; "WARN"; "WARNING"; "INFO"; "DEBUG"].

(** The inner loop over ["LEVEL:"], ["LEVEL -"], ["LEVEL "]. *)
Fixpoint matchPatterns (patterns : list string) (line : string) : option string :=
  match patterns with
  | pattern :: patterns' =>
      if GoString.HasPrefix (GoString.ToUpper line) pattern
      then Some (GoString.TrimSpace (GoString.drop (String.length pattern) line))
      else matchPatterns patterns' line
  | [] => None
  end.

Fixpoint matchLevelPrefix (lvls : list string) (line : string)
  : option (LogLevel * string) :=
  match lvls with
  | lvl :: lvls' =>
      match matchPatterns [lvl ++ ":"; lvl ++ " -"; lvl ++ " "] line with
      | Some message => Some (ParseLogLevel lvl, message)
      | None => matchLevelPrefix lvls' line
      end
  | [] => None
  end.

Fixpoint matchLevelAnywhere (lvls : list string) (line : string)
  : option (LogLevel * string) :=
  match lvls with
  | lvl :: lvls' =>
      if GoString.Contains (GoString.ToUpper line) lvl
      then Some (ParseLogLevel lvl, line)
      else matchLevelAnywhere lvls' line
  | [] => None
  end.

Definition extractLevelAndMessage (line : string) : LogLevel * string :=
  let line := GoString.TrimSpace line in
  match matchLevelPrefix levels line with
  | Some r => r
  | None =>
      match matchLevelAnywhere levels line with
      | Some r => r
      | None => (INFO, line)
      end
  end.

(** [PlainTextLogParser.Parse]; [now] is what [time.Now()] returns if it
    is called. *)
Definition PlainTextLogParser_Parse (now : Time) (line source : string)
  : result LogEntry :=
  if String.eqb (GoString.TrimSpace line) "" then Err ErrEmptyLine
  else
    let '(timestamp, rest) :=
      match extractTimestamp line with
      | Ok (timestamp, rest) => (timestamp, rest)
      | Err _ => (now, line)
      end in
    let '(level, message) := extractLevelAndMessage rest in
    Ok {| Timestamp := timestamp; Level := level;
          Message := GoString.TrimSpace message; Source := source;
          Raw := line |}.

Definition PlainTextLogParser_CanParse (line : string) : bool :=
  (0 <? String.length (GoString.TrimSpace line))%nat.

(** *** the JSON parser *)

Definition JSONLogParser_CanParse (line : string) : bool :=
  let line := GoString.TrimSpace line in
  if String.eqb line "" then false
  else GoString.HasPrefix line "{" && GoString.HasSuffix line "}".

Section WithJSON.

(** [json.Unmarshal([]byte(line), &jsonEntry)]: the decoded fields, or
    the error of encoding/json. *)
Variable json_Unmarshal : string -> result jsonLogEntry.

Definition JSONLogParser_Parse (now : Time) (line source : string)
  : result LogEntry :=
  if String.eqb (GoString.TrimSpace line) "" then Err ErrEmptyLine
  else
    match json_Unmarshal line with
    | Err err =>
        Err (fmt_Errorf "%w: %v" [op_error ErrInvalidFormat; op_error err])
    | Ok jsonEntry =>
        let timestampStr :=
          if String.eqb (j_Timestamp jsonEntry) "" then j_Time jsonEntry
          else j_Timestamp jsonEntry in
        let timestamp :=
          match parseTimestamp timestampStr with
          | Ok t => t
          | Err _ => now
          end in
        let message :=
          if String.eqb (j_Message jsonEntry) "" then j_Msg jsonEntry
          else j_Message jsonEntry in
        Ok {| Timestamp := timestamp;
              Level := ParseLogLevel (GoString.ToUpper (j_Level jsonEntry));
              Message := message; Source := source; Raw := line |}
    end.

(** Method dispatch on the interface value. *)
Definition Parse (p : LogParser) (now : Time) (line source : string)
  : result LogEntry :=
  match p with
  | JSONLogParser => JSONLogParser_Parse now line source
  | PlainTextLogParser => PlainTextLogParser_Parse now line source
  end.

End WithJSON.

Definition CanParse (p : LogParser) (line : string) : bool :=
  match p with
  | JSONLogParser => JSONLogParser_CanParse line
  | PlainTextLogParser => PlainTextLogParser_CanParse line
  end.

Definition Name (p : LogParser) : string :=
  match p with
  | JSONLogParser => "JSON"
  | PlainTextLogParser => "PlainText"
  end.

Definition DetectParser (line : string) : LogParser :=
  let line := GoString.TrimSpace line in
  if JSONLogParser_CanParse line then JSONLogParser else PlainTextLogParser.

Definition GetParser (parserType : ParserType) : LogParser :=
  if parserType =? JSONParser then JSONLogParser
  else if parserType =? PlainTextParser then PlainTextLogParser
  else PlainTextLogParser.

End parser.

(** ** package path/filepath (Unix separator) *)

Module filepath.

Definition isSep (c : ascii) : bool := Ascii.eqb c "/".

Fixpoint dropSeps (r : list ascii) : list ascii :=
  match r with
  | c :: r' => if isSep c then dropSeps r' else r
  | [] => []
  end.

Fixpoint takeElem (r : list ascii) : list ascii :=
  match r with
  | c :: r' => if isSep c then [] else c :: takeElem r'
  | [] => []
  end.

(** [filepath.Base]: the last element of the path, read backwards. *)
Definition Base (path : string) : string :=
  if String.eqb path "" then "."
  else
    let elem := takeElem (dropSeps (rev (list_ascii_of_string path))) in
    match elem with
    | [] => "/"
    | _ => string_of_list_ascii (rev elem)
    end.

(** The loop of [filepath.Ext], from the last byte backwards: [acc] is
    the suffix passed so far. *)
Fixpoint Ext_loop (r : list ascii) (acc : list ascii) : string :=
  match r with
  | c :: r' =>
      if isSep c then ""
      else if Ascii.eqb c "." then string_of_list_ascii (c :: acc)
      else Ext_loop r' (c :: acc)
  | [] => ""
  end.

Definition Ext (path : string) : string :=
  Ext_loop (rev (list_ascii_of_string path)) [].

(** One call of the function given to [filepath.Walk]: the path, whether
    [info.IsDir()], and the error Walk met there, if any. *)
Record Visit := mkVisit {
  v_path : string;
  v_isDir : bool;
  v_err : option error
}.

End filepath.

(** ** package analyzer *)

Module analyzer.

Import GoTime models parser.

Local Open Scope list_scope.

(** *** the aggregator *)

Record Aggregator := mkAggregator {
  entries : list LogEntry;
  stats : Statistics
}.

Definition NewAggregator : Aggregator :=
  {| entries := []; stats := NewStatistics |}.

Definition Add (a : Aggregator) (entry : LogEntry) : Aggregator :=
  {| entries := entries a ++ [entry]; stats := AddEntry (stats a) entry |}.

(** [for _, entry := range entries { ... }] under one lock. *)
Definition AddBatch (a : Aggregator) (batch : list LogEntry) : Aggregator :=
  fold_left Add batch a.

Definition GetEntries (a : Aggregator) : list LogEntry := entries a.

Definition GetStats (a : Aggregator) : Statistics := stats a.

Definition Count (a : Aggregator) : Z := Z.of_nat (length (entries a)).

(** The [less] closure of [SortByTime], on the two entries it reads. *)
Definition byTimestamp (x y : LogEntry) : bool :=
  Before (Timestamp x) (Timestamp y).

Definition SortByTime (a : Aggregator) : Aggregator :=
  {| entries := sort.Slice byTimestamp (entries a); stats := stats a |}.

(** [GetTopN]; [None] is the panic of [make([]*models.LogEntry, n)] when
    [n] is negative. *)
Definition GetTopN (a : Aggregator) (n : Z) : option (list LogEntry) :=
  let n := if Z.of_nat (length (entries a)) <? n
           then Z.of_nat (length (entries a)) else n in
  if n <? 0 then None else Some (firstn (Z.to_nat n) (entries a)).

Definition FilterEntries (a : Aggregator) (filter : LogEntry -> bool)
  : list LogEntry :=
  List.filter filter (entries a).

Definition Clear (a : Aggregator) : Aggregator := NewAggregator.

(** *** filters *)

Definition FilterFunc : Type := LogEntry -> bool.

(** [Filter[T]], [NewFilter] and [Apply] *)
Record Filter (T : Type) := mkFilter { predicate : T -> bool }.

Arguments mkFilter {T} predicate.
Arguments predicate {T} f item.

Definition NewFilter {T : Type} (predicate : T -> bool) : Filter T :=
  mkFilter predicate.

Definition Apply {T : Type} (f : Filter T) (item : T) : bool :=
  predicate f item.

Definition LevelFilter (level : LogLevel) : FilterFunc :=
  fun entry => Level entry =? level.

Definition MinLevelFilter (minLevel : LogLevel) : FilterFunc :=
  fun entry => minLevel <=? Level entry.

Definition PatternFilter (pattern : string) : FilterFunc :=
  fun entry => MatchesPattern entry pattern.

Definition TimeRangeFilter (start end_ : Time) : FilterFunc :=
  fun entry =>
    if negb (IsZero start) && Before (Timestamp entry) start then false
    else if negb (IsZero end_) && After (Timestamp entry) end_ then false
    else true.

Definition SourceFilter (source : string) : FilterFunc :=
  fun entry => String.eqb (Source entry) source.

Fixpoint ApplyFilters (entry : LogEntry) (filters : list FilterFunc) : bool :=
  match filters with
  | filter :: filters' =>
      if negb (filter entry) then false else ApplyFilters entry filters'
  | [] => true
  end.

Definition CombineFilters (filters : list FilterFunc) : FilterFunc :=
  fun entry => ApplyFilters entry filters.

(** *** the analyzer *)

Record Config := mkConfig {
  Workers : Z;
  Level : LogLevel;
  Pattern : string;
  StartTime : Time;
  EndTime : Time;
  AutoDetect : bool;
  ParserType : parser.ParserType
}.

Record Analyzer := mkAnalyzer {
  config : Config;
  aggregator : Aggregator;
  parser : option LogParser   (* [None] is the nil interface *)
}.

Definition NewAnalyzer (config : Config) : Analyzer :=
  {| config := config;
     aggregator := NewAggregator;
     parser := if AutoDetect config then None
               else Some (GetParser (ParserType config)) |}.

Definition GetResults (a : Analyzer) : Aggregator := aggregator a.

Definition shouldInclude (cfg : Config) (entry : LogEntry) : bool :=
  if negb (Level cfg =? UNKNOWN) && (models.Level entry <? Level cfg) then false
  else if negb (String.eqb (Pattern cfg) "")
          && negb (MatchesPattern entry (Pattern cfg)) then false
  else if negb (IsZero (StartTime cfg))
          && Before (Timestamp entry) (StartTime cfg) then false
  else if negb (IsZero (EndTime cfg))
          && After (Timestamp entry) (EndTime cfg) then false
  else true.

(** What [os.Open] gives for a path: the bytes a reader gets before the
    end of the file or a read error, and the result of [Stat] (the size). *)
Record OsFile := mkOsFile {
  file_bytes : string;
  file_readErr : option error;
  file_Stat : result Z
}.

(** What a goroutine does to the shared aggregator, one lock at a time. *)
Inductive Action : Type :=
| DoAddBatch (batch : list LogEntry)
| DoAddFile (bytesRead : Z).

Definition perform (agg : Aggregator) (act : Action) : Aggregator :=
  match act with
  | DoAddBatch batch => AddBatch agg batch
  | DoAddFile bytesRead =>
      {| entries := entries agg; stats := AddFile (stats agg) bytesRead |}
  end.

Definition ErrTooLong : error := errors_New "bufio.Scanner: token too long".

(** [findLogFiles]: the function given to Walk, over the calls Walk makes;
    Walk stops at the first call that returns an error and returns it. *)
Fixpoint findLogFiles_walk (visits : list filepath.Visit) (files : list string)
  : list string * option error :=
  match visits with
  | v :: visits' =>
      match filepath.v_err v with
      | Some err => (files, Some err)
      | None =>
          if negb (filepath.v_isDir v)
             && String.eqb (filepath.Ext (filepath.v_path v)) ".log"
          then findLogFiles_walk visits' (files ++ [filepath.v_path v])
          else findLogFiles_walk visits' files
      end
  | [] => (files, None)
  end.

(** A worker goroutine of [AnalyzeDirectory]: about to receive from the
    file channel, inside [AnalyzeFile] with the rest of its actions and
    the error it will return, or returned. *)
Inductive Worker : Type :=
| Receiving
| Running (pending : list Action) (err : option error)
| Returned.

Record Pool := mkPool {
  fileChan : list string;
  errChan : list error;
  workers : list Worker;
  shared : Aggregator
}.

Section WithOS.

Variable json_Unmarshal : string -> result jsonLogEntry.

(** [os.Open(path)] *)
Variable os_Open : string -> result OsFile.

(** [filepath.Walk(root, fn)]: the calls of [fn] that Walk makes as long
    as [fn] returns nil. *)
Variable filepath_Walk : string -> list filepath.Visit.

(** [time.Now()] as read while line [lineCount] of the file at a path is
    parsed. *)
Variable time_Now : string -> nat -> Time.

(** The scanning loop of [AnalyzeFile]: the batches it hands to the
    aggregator, in order.  [entries] is the local slice. *)
Fixpoint AnalyzeFile_loop (a : Analyzer) (filePath : string)
    (lines : list string) (lineCount : nat) (entries : list LogEntry)
  : list Action :=
  match lines with
  | [] =>
      if (0 <? length entries)%nat then [DoAddBatch entries] else []
  | line :: lines' =>
      let lineCount := S lineCount in
      if String.eqb line "" then
        AnalyzeFile_loop a filePath lines' lineCount entries
      else
        let currentParser :=
          match parser a with
          | Some p => p
          | None => DetectParser line
          end in
        match Parse json_Unmarshal currentParser (time_Now filePath lineCount)
                    line (filepath.Base filePath) with
        | Err _ => AnalyzeFile_loop a filePath lines' lineCount entries
        | Ok entry =>
            if negb (shouldInclude (config a) entry) then
              AnalyzeFile_loop a filePath lines' lineCount entries
            else
              let entries := entries ++ [entry] in
              if 1000 <=? Z.of_nat (length entries) then
                DoAddBatch entries
                  :: AnalyzeFile_loop a filePath lines' lineCount []
              else AnalyzeFile_loop a filePath lines' lineCount entries
        end
  end.

(** [AnalyzeFile] as the goroutine that runs it sees it: its actions on
    the shared aggregator and the error it returns. *)
Definition AnalyzeFile_trace (a : Analyzer) (filePath : string)
  : list Action * option error :=
  match os_Open filePath with
  | Err err =>
      ([], Some (fmt_Errorf "failed to open file %s: %w"
                            [op_string filePath; op_error err]))
  | Ok file =>
      match file_Stat file with
      | Err err =>
          ([], Some (fmt_Errorf "failed to get file info: %w" [op_error err]))
      | Ok size =>
          let scanned := bufio.Scan (1024 * 1024) (file_bytes file) in
          let batches :=
            AnalyzeFile_loop a filePath (bufio.tokens scanned) 0 [] in
          let scanErr :=
            if bufio.tooLong scanned then Some ErrTooLong
            else file_readErr file in
          match scanErr with
          | Some err =>
              (batches,
               Some (fmt_Errorf "error reading file: %w" [op_error err]))
          | None => (batches ++ [DoAddFile size], None)
          end
      end
  end.

Definition withAggregator (a : Analyzer) (agg : Aggregator) : Analyzer :=
  {| config := config a; aggregator := agg; parser := parser a |}.

Definition AnalyzeFile (a : Analyzer) (filePath : string)
  : Analyzer * option error :=
  let '(actions, err) := AnalyzeFile_trace a filePath in
  (withAggregator a (fold_left perform actions (aggregator a)), err).

Definition findLogFiles (dirPath : string) : list string * option error :=
  findLogFiles_walk (filepath_Walk dirPath) [].

Definition setWorker (p : Pool) (i : nat) (w : Worker) : Pool :=
  {| fileChan := fileChan p; errChan := errChan p;
     workers := <[i := w]> (workers p); shared := shared p |}.

(** One step of worker [workerID], chosen by the scheduler. *)
Definition step (a : Analyzer) (p : Pool) (workerID : nat) : Pool :=
  match workers p !! workerID with
  | Some Receiving =>
      match fileChan p with
      | file :: rest =>
          let '(actions, err) := AnalyzeFile_trace a file in
          {| fileChan := rest; errChan := errChan p;
             workers := <[workerID := Running actions err]> (workers p);
             shared := shared p |}
      | [] => setWorker p workerID Returned
      end
  | Some (Running (act :: pending) err) =>
      {| fileChan := fileChan p; errChan := errChan p;
         workers := <[workerID := Running pending err]> (workers p);
         shared := perform (shared p) act |}
  | Some (Running [] err) =>
      {| fileChan := fileChan p;
         errChan :=
           match err with
           | Some e =>
               errChan p ++ [fmt_Errorf "worker %d: %w"
                               [op_int (Z.of_nat workerID); op_error e]]
           | None => errChan p
           end;
         workers := <[workerID := Receiving]> (workers p);
         shared := shared p |}
  | Some Returned => p
  | None => p
  end.

(** Worker [workerID] runs alone until it returns: the rest of its file,
    then every file left in the channel. *)
Fixpoint drainFiles (a : Analyzer) (workerID : nat) (files : list string)
    (errs : list error) (agg : Aggregator) : list error * Aggregator :=
  match files with
  | file :: files' =>
      let '(actions, err) := AnalyzeFile_trace a file in
      let errs :=
        match err with
        | Some e =>
            errs ++ [fmt_Errorf "worker %d: %w"
                       [op_int (Z.of_nat workerID); op_error e]]
        | None => errs
        end in
      drainFiles a workerID files' errs (fold_left perform actions agg)
  | [] => (errs, agg)
  end.

Definition runToReturn (a : Analyzer) (p : Pool) (workerID : nat) : Pool :=
  match workers p !! workerID with
  | Some Receiving =>
      let '(errs, agg) :=
        drainFiles a workerID (fileChan p) (errChan p) (shared p) in
      {| fileChan := []; errChan := errs;
         workers := <[workerID := Returned]> (workers p); shared := agg |}
  | Some (Running pending err) =>
      let errs :=
        match err with
        | Some e =>
            errChan p ++ [fmt_Errorf "worker %d: %w"
                            [op_int (Z.of_nat workerID); op_error e]]
        | None => errChan p
        end in
      let '(errs, agg) :=
        drainFiles a workerID (fileChan p) errs
                   (fold_left perform pending (shared p)) in
      {| fileChan := []; errChan := errs;
         workers := <[workerID := Returned]> (workers p); shared := agg |}
  | Some Returned => p
  | None => p
  end.

(** [wg.Wait()]: the workers run as the schedule says, one step of the
    named worker at a time; when the schedule ends, those still at work
    run to their return one after the other. *)
Definition runWorkers (a : Analyzer) (schedule : list nat) (p : Pool) : Pool :=
  let p := fold_left (step a) schedule p in
  fold_left (runToReturn a) (seq 0 (length (workers p))) p.

(** [AnalyzeDirectory]; [schedule] is the interleaving of the workers
    and [elapsed] what [time.Since(startTime)] returns. *)
Definition AnalyzeDirectory (schedule : list nat) (elapsed : Z)
    (a : Analyzer) (dirPath : string) : Analyzer * option error :=
  match findLogFiles dirPath with
  | (_, Some err) =>
      (a, Some (fmt_Errorf "failed to find log files: %w" [op_error err]))
  | (files, None) =>
      if (length files =? 0)%nat then
        (a, Some (fmt_Errorf "no log files found in %s" [op_string dirPath]))
      else
        let numWorkers := if Workers (config a) <=? 0 then 4 else Workers (config a) in
        let pool :=
          {| fileChan := files; errChan := [];
             workers := replicate (Z.to_nat numWorkers) Receiving;
             shared := aggregator a |} in
        let pool := runWorkers a schedule pool in
        let errors := errChan pool in
        let agg := shared pool in
        let agg :=
          {| entries := entries agg;
             stats := SetProcessingTime (stats agg) elapsed |} in
        let agg := SortByTime agg in
        (withAggregator a agg,
         if (0 <? length errors)%nat then
           Some (fmt_Errorf "encountered %d errors during processing"
                            [op_int (Z.of_nat (length errors))])
         else None)
  end.

End WithOS.

End analyzer.

(** ** package watcher *)

Module watcher.

Import GoTime models parser.

Local Open Scope list_scope.

Record Config := mkConfig {
  FilePath : string;
  Pattern : string;
  MinLevel : LogLevel;
  Interval : Z;
  ShowAll : bool
}.

(** The [file] field is an open [*os.File]; what the watcher's code
    depends on is the offset at which its next read starts, which [Seek]
    sets and every read moves. *)
Record Watcher := mkWatcher {
  config : Config;
  parser : LogParser;
  fileOffset : Z;
  lastOffset : Z
}.

Definition NewWatcher (config : Config) : Watcher :=
  {| config := config; parser := DetectParser ""; fileOffset := 0;
     lastOffset := 0 |}.

(** The watched file during one look of the watcher.  [Stat] comes
    first: [view_size] is the size it reports, [view_statErr] its error
    if it fails.  The reads come after it: [view_bytes] holds the bytes of
    the file as they find them, up to the end of the file that stops
    them.  Another process may write to the file or cut it in between,
    so the size need not be the length of the bytes. *)
Record FileView := mkFileView {
  view_size : Z;
  view_statErr : option error;
  view_bytes : string
}.

(** [fileInfo.Size()] *)
Definition Size (file : FileView) : Z := view_size file.

(** [fsnotify.Write] *)
Definition fsnotify_Write : Z := 2.

(** What [select] receives. *)
Inductive Trigger : Type :=
| ctx_Done
| fs_Event (op : Z)
| fs_Error (err : error)
| ticker_C.

Section WithJSON.

Variable json_Unmarshal : string -> result jsonLogEntry.

(** [processLine]: the entry handed to [displayEntry], if any. *)
Definition processLine (w : Watcher) (now : Time) (line : string)
  : option LogEntry :=
  if String.eqb line "" then None
  else
    let currentParser := DetectParser line in
    match Parse json_Unmarshal currentParser now line (FilePath (config w)) with
    | Err _ => None
    | Ok entry =>
        if negb (MinLevel (config w) =? UNKNOWN)
           && (Level entry <? MinLevel (config w)) then None
        else if negb (String.eqb (Pattern (config w)) "")
                && negb (MatchesPattern entry (Pattern (config w))) then None
        else Some entry
    end.

(** [for scanner.Scan() { w.processLine(scanner.Text()) }]: the entries
    displayed, in order; [time_Now n] is the clock while line [n] of this
    scan is processed. *)
Fixpoint processLines (w : Watcher) (time_Now : nat -> Time)
    (lines : list string) (n : nat) : list LogEntry :=
  match lines with
  | line :: lines' =>
      match processLine w (time_Now n) line with
      | Some entry => entry :: processLines w time_Now lines' (S n)
      | None => processLines w time_Now lines' (S n)
      end
  | [] => []
  end.

(** [readNewLines]: the watcher afterwards and the entries displayed.
    The scanner is a fresh one with the default buffer; it reads the file
    from the offset of the open file to the end that its reads find,
    whatever size [Stat] reported before. *)
Definition readNewLines (w : Watcher) (time_Now : nat -> Time)
    (file : FileView) : Watcher * list LogEntry :=
  match view_statErr file with
  | Some _ => (w, [])
  | None =>
      let currentSize := Size file in
      let '(lastOffset, fileOffset) :=
        if currentSize <? lastOffset w then (0, 0)
        else (lastOffset w, fileOffset w) in
      let scanned :=
        bufio.Scan bufio.MaxScanTokenSize
          (GoString.drop (Z.to_nat fileOffset) (view_bytes file)) in
      let shown := processLines w time_Now (bufio.tokens scanned) 0 in
      ({| config := config w; parser := parser w;
          fileOffset := fileOffset + bufio.consumed scanned;
          lastOffset := currentSize |},
       shown)
  end.

(** The first part of [Watch], up to the loop: open the file and, unless
    [ShowAll], seek to its end.  [setupErr] is the error of [Seek] or of
    setting up fsnotify, if one fails (with its message). *)
Definition Watch_open (w : Watcher) (opened : result FileView)
    (setupErr : option error) : result Watcher :=
  match opened with
  | Err err => Err (fmt_Errorf "failed to open file: %w" [op_error err])
  | Ok file =>
      let positioned :=
        if negb (ShowAll (config w)) then
          match view_statErr file with
          | Some err =>
              Err (fmt_Errorf "failed to get file info: %w" [op_error err])
          | None =>
              Ok {| config := config w; parser := parser w;
                    fileOffset := Size file; lastOffset := Size file |}
          end
        else Ok w in
      match positioned, setupErr with
      | Ok w', Some err => Err err
      | _, _ => positioned
      end
  end.

(** The loop of [Watch] over what [select] receives, each with the file
    and the clock of that moment.  The result is the watcher, what was
    displayed, and [Some r] when [Watch] returned [r]. *)
Fixpoint Watch_loop (w : Watcher)
    (received : list (Trigger * FileView * (nat -> Time)))
  : Watcher * list LogEntry * option (option error) :=
  match received with
  | (trigger, file, time_Now) :: received' =>
      match trigger with
      | ctx_Done => (w, [], Some None)
      | fs_Error err =>
          (w, [], Some (Some (fmt_Errorf "watcher error: %w" [op_error err])))
      | fs_Event op =>
          if Z.land op fsnotify_Write =? fsnotify_Write then
            let '(w1, shown) := readNewLines w time_Now file in
            let '(w2, shown', r) := Watch_loop w1 received' in
            (w2, shown ++ shown', r)
          else Watch_loop w received'
      | ticker_C =>
          let '(w1, shown) := readNewLines w time_Now file in
          let '(w2, shown', r) := Watch_loop w1 received' in
          (w2, shown ++ shown', r)
      end
  | [] => (w, [], None)
  end.

End WithJSON.

End watcher.

(** ** Notions used to state the properties *)

Module aggregation.

Import GoTime models analyzer.

Local Open Scope list_scope.

(** A call of one of the two adding methods of the aggregator.  Both
    hold the aggregator's lock from start to end, so the calls of any
    number of goroutines take effect one after the other, in some
    interleaving of the callers' own orders. *)
Inductive Call : Type :=
| CallAdd (entry : LogEntry)
| CallAddBatch (batch : list LogEntry).

Definition call (a : Aggregator) (c : Call) : Aggregator :=
  match c with
  | CallAdd entry => Add a entry
  | CallAddBatch batch => AddBatch a batch
  end.

Definition callEntries (c : Call) : list LogEntry :=
  match c with
  | CallAdd entry => [entry]
  | CallAddBatch batch => batch
  end.

(** The entries added by a sequence of calls. *)
Definition added (calls : list Call) : list LogEntry :=
  flat_map callEntries calls.

(** [interleaving ls t]: [t] merges the lists [ls], keeping the order of
    each. *)
Inductive interleaving {A : Type} : list (list A) -> list A -> Prop :=
| interleaving_done (ls : list (list A)) :
    Forall (fun l => l = []) ls -> interleaving ls []
| interleaving_next (ls1 ls2 : list (list A)) (x : A) (l t : list A) :
    interleaving (ls1 ++ l :: ls2) t ->
    interleaving (ls1 ++ (x :: l) :: ls2) (x :: t).

Definition countLevel (level : LogLevel) (es : list LogEntry) : Z :=
  Z.of_nat (length (List.filter (fun e => models.Level e =? level) es)).

Definition countSource (source : string) (es : list LogEntry) : Z :=
  Z.of_nat (length (List.filter (fun e => String.eqb (Source e) source) es)).

(** The sum of the values of a map. *)
Definition sumValues `{Countable K} (m : gmap K Z) : Z :=
  map_fold (fun _ v acc => v + acc) 0 m.

Definition isEarliest (t : Time) (es : list LogEntry) : Prop :=
  (exists e, In e es /\ Timestamp e = t) /\
  (forall e, In e es -> t <= Timestamp e).

Definition isLatest (t : Time) (es : list LogEntry) : Prop :=
  (exists e, In e es /\ Timestamp e = t) /\
  (forall e, In e es -> Timestamp e <= t).

End aggregation.

(** ** Concrete entries used in examples *)

Module examples.

Import GoTime models analyzer aggregation.

Local Open Scope list_scope.

(** The entry of the line [0001-01-01 00:00:00 INFO boot]: its timestamp
    is the zero time. *)
Definition bootEntry : LogEntry :=
  {| Timestamp := 0; models.Level := INFO; Message := "boot";
     Source := "a.log"; Raw := "0001-01-01 00:00:00 INFO boot" |}.

Definition diskFull : LogEntry :=
  {| Timestamp := Date 2024 1 20 15 4 5 0; models.Level := ERROR;
     Message := "disk full"; Source := "a.log";
     Raw := "[2024-01-20 15:04:05] ERROR: disk full" |}.

Definition started : LogEntry :=
  {| Timestamp := Date 2024 1 20 15 4 6 0; models.Level := INFO;
     Message := "started"; Source := "b.log";
     Raw := "2024-01-20 15:04:06 INFO started" |}.

Definition retrying : LogEntry :=
  {| Timestamp := Date 2024 1 20 15 4 7 0; models.Level := WARN;
     Message := "retrying"; Source := "b.log";
     Raw := "2024-01-20 15:04:07 WARN retrying" |}.

Definition twoCallers : list (list Call) :=
  [[CallAdd diskFull; CallAddBatch [started; retrying]]; [CallAdd started]].

Definition oneTrace : list Call :=
  [CallAdd diskFull; CallAdd started; CallAddBatch [started; retrying]].

End examples.

Module filtering.

Import GoTime models.

(** [pattern] occurs in [s] as a run of consecutive bytes. *)
Definition occursIn (pattern s : string) : Prop :=
  exists pre post : string, s = (pre ++ pattern ++ post)%string.

(** The record matches the pattern: the pattern occurs in its message
    or in its raw text. *)
Definition matches (pattern : string) (e : LogEntry) : Prop :=
  occursIn pattern (Message e) \/ occursIn pattern (Raw e).

End filtering.

(** ** White space *)

Module whitespace.

Import GoString.

(** [string(runes)]: the UTF-8 encoding of a sequence of code points. *)
Definition EncodeRunes (runes : list Z) : string :=
  fold_right (fun r acc => (EncodeRune r ++ acc)%string) ""%string runes.

(** The string is made of white space runes only (as the empty string
    is). *)
Definition whiteSpaceOnly (s : string) : Prop :=
  exists runes,
    Forall (fun r => In r White_Space) runes /\ s = EncodeRunes runes.

(** A continuation byte of UTF-8. *)
Definition continuation (c : ascii) : bool :=
  ((128 <=? nat_of_ascii c) && (nat_of_ascii c <=? 191))%nat.

Fixpoint continuations (s : string) : bool :=
  match s with
  | String c s' => continuation c && continuations s'
  | EmptyString => true
  end.

Fixpoint occurs (c : ascii) (s : string) : bool :=
  match s with
  | String d s' => Ascii.eqb c d || occurs c s'
  | EmptyString => false
  end.

(** The byte is part of the encoding of no white space rune. *)
Definition plain (c : ascii) : bool :=
  forallb (fun r => negb (occurs c (EncodeRune r))) White_Space.

End whitespace.

Module levels.

Import models analyzer.

(** The level texts that [ParseLogLevel] knows. *)
Definition recognized (text : string) : Prop :=
  In text ["DEBUG"; "INFO"; "WARN"; "WARNING"; "ERROR"; "FATAL"].

(** The configuration with the minimum level left unset. *)
Definition withoutMinimum (cfg : Config) : Config :=
  {| Workers := Workers cfg; Level := UNKNOWN; Pattern := Pattern cfg;
     StartTime := StartTime cfg; EndTime := EndTime cfg;
     AutoDetect := AutoDetect cfg; ParserType := ParserType cfg |}.

(** A decoder that reads every line as an entry of level [trace]. *)
Definition traceDecoder (line : string) : result parser.jsonLogEntry :=
  Ok {| parser.j_Timestamp := "2024-01-20T15:04:05Z"; parser.j_Time := "";
        parser.j_Level := "trace"; parser.j_Message := "tick";
        parser.j_Msg := "" |}.

Definition errorsOnly : Config :=
  {| Workers := 4; Level := ERROR; Pattern := ""; StartTime := 0;
     EndTime := 0; AutoDetect := true; ParserType := parser.JSONParser |}.

End levels.

Module analysis.

Import GoTime models parser analyzer.

Local Open Scope list_scope.

(** The entries that a sequence of actions adds. *)
Definition actionEntries (acts : list Action) : list LogEntry :=
  flat_map (fun act => match act with
                       | DoAddBatch batch => batch
                       | DoAddFile _ => []
                       end) acts.

(** The sizes that a sequence of actions records. *)
Definition actionSizes (acts : list Action) : list Z :=
  flat_map (fun act => match act with
                       | DoAddBatch _ => []
                       | DoAddFile n => [n]
                       end) acts.

Definition sumZ (l : list Z) : Z := fold_right Z.add 0 l.

Section WithOS.

Variable json_Unmarshal : string -> result jsonLogEntry.
Variable os_Open : string -> result OsFile.
Variable time_Now : string -> nat -> Time.
Variable a : Analyzer.

(** What one line of a file contributes: nothing when it is empty, when
    it fails to parse or when the filters reject its entry. *)
Definition lineEntries (filePath : string) (lineCount : nat) (line : string)
  : list LogEntry :=
  if String.eqb line "" then []
  else
    let currentParser :=
      match analyzer.parser a with
      | Some p => p
      | None => DetectParser line
      end in
    match Parse json_Unmarshal currentParser (time_Now filePath lineCount)
                line (filepath.Base filePath) with
    | Err _ => []
    | Ok entry => if shouldInclude (config a) entry then [entry] else []
    end.

(** The contributions of the lines of a file, numbered from
    [lineCount + 1]. *)
Fixpoint kept (filePath : string) (lines : list string) (lineCount : nat)
  : list LogEntry :=
  match lines with
  | line :: lines' =>
      lineEntries filePath (S lineCount) line
        ++ kept filePath lines' (S lineCount)
  | [] => []
  end.

End WithOS.

(** The parser that [AnalyzeFile] uses for a line. *)
Definition selected (a : Analyzer) (line : string) : LogParser :=
  match analyzer.parser a with
  | Some p => p
  | None => DetectParser line
  end.

(** The analyzer with another number of workers. *)
Definition withWorkers (a : Analyzer) (n : Z) : Analyzer :=
  {| config :=
       {| Workers := n; Level := Level (config a);
          Pattern := Pattern (config a); StartTime := StartTime (config a);
          EndTime := EndTime (config a); AutoDetect := AutoDetect (config a);
          ParserType := ParserType (config a) |};
     aggregator := aggregator a;
     analyzer.parser := analyzer.parser a |}.

End analysis.

(** ** Scenario A: two files of structured lines *)

Module scenarioA.

Import GoTime models parser analyzer.

Local Open Scope string_scope.

Definition quote : string := String (ascii_of_nat 34) "".

Definition newline : string := String bufio.LF "".

(** The line [{"level":LEVEL,"message":MESSAGE}] with both values in
    double quotes. *)
Definition structured (level message : string) : string :=
  "{" ++ quote ++ "level" ++ quote ++ ":" ++ quote ++ level ++ quote ++ ","
      ++ quote ++ "message" ++ quote ++ ":" ++ quote ++ message ++ quote ++ "}".

(** A line in braces that is not valid JSON: the value of [message] is
    missing. *)
Definition malformed : string :=
  "{" ++ quote ++ "level" ++ quote ++ ":" ++ quote ++ "INFO" ++ quote ++ ","
      ++ quote ++ "message" ++ quote ++ ":}".

Definition wellFormed : list string :=
  [structured "INFO" "service started";
   structured "WARN" "cache miss";
   structured "ERROR" "disk full";
   structured "INFO" "request served";
   structured "DEBUG" "heartbeat";
   structured "FATAL" "out of memory"].

Definition line (n : nat) : string := nth n wellFormed "".

Definition fileOne : OsFile :=
  {| file_bytes := line 0 ++ newline ++ line 1 ++ newline ++ malformed
                   ++ newline ++ line 2 ++ newline;
     file_readErr := None;
     file_Stat := Ok 153 |}.

Definition fileTwo : OsFile :=
  {| file_bytes := line 3 ++ newline ++ line 4 ++ newline ++ line 5 ++ newline;
     file_readErr := None;
     file_Stat := Ok 128 |}.

Definition disk (path : string) : result OsFile :=
  if String.eqb path "logs/one.log" then Ok fileOne
  else if String.eqb path "logs/two.log" then Ok fileTwo
  else Err (errors_New "open: no such file or directory").

(** What encoding/json answers on the seven lines of the scenario (an
    error on every other line). *)
Definition decoder (text : string) : result jsonLogEntry :=
  let entry level message :=
    Ok {| j_Timestamp := ""; j_Time := ""; j_Level := level;
          j_Message := message; j_Msg := "" |} in
  if String.eqb text (line 0) then entry "INFO" "service started"
  else if String.eqb text (line 1) then entry "WARN" "cache miss"
  else if String.eqb text (line 2) then entry "ERROR" "disk full"
  else if String.eqb text (line 3) then entry "INFO" "request served"
  else if String.eqb text (line 4) then entry "DEBUG" "heartbeat"
  else if String.eqb text (line 5) then entry "FATAL" "out of memory"
  else Err (errors_New "invalid character '}' looking for beginning of value").

(** The configuration that the command line builds when no filter is
    asked for. *)
Definition unfiltered : Config :=
  {| Workers := 4; Level := DEBUG; Pattern := ""; StartTime := 0;
     EndTime := 0; AutoDetect := true; ParserType := JSONParser |}.

Definition clock (path : string) (lineCount : nat) : Time :=
  Date 2024 1 20 15 4 5 0.

End scenarioA.

(** ** The worker pool: what is done, pending and left to do *)

Module pool.

Import GoTime models parser analyzer analysis.

Local Open Scope list_scope.

(** The actions a worker has still to perform in its current file. *)
Definition pendingOf (w : Worker) : list Action :=
  match w with
  | Running pending _ => pending
  | _ => []
  end.

Definition errorOf (err : option error) : list error :=
  match err with
  | Some e => [e]
  | None => []
  end.

(** The error a worker will send when its current file is done. *)
Definition pendingErr (w : Worker) : list error :=
  match w with
  | Running _ err => errorOf err
  | _ => []
  end.

(** What identifies an entry in the counts: its level and its source. *)
Definition key (e : LogEntry) : Z * string := (models.Level e, Source e).

Section WithOS.

Variable json_Unmarshal : string -> result jsonLogEntry.
Variable os_Open : string -> result OsFile.
Variable time_Now : string -> nat -> Time.
Variable a : Analyzer.

Definition fileActions (filePath : string) : list Action :=
  fst (AnalyzeFile_trace json_Unmarshal os_Open time_Now a filePath).

Definition fileError (filePath : string) : list error :=
  errorOf (snd (AnalyzeFile_trace json_Unmarshal os_Open time_Now a filePath)).

(** The pool is a state of a run over [files] that started from the
    aggregator [agg0]: [done] lists the actions performed so far. *)
Definition consistent (agg0 : Aggregator) (files : list string) (p : Pool)
    (done : list Action) : Prop :=
  shared p = fold_left perform done agg0 /\
  Permutation (done ++ flat_map pendingOf (workers p)
                    ++ flat_map fileActions (fileChan p))
              (flat_map fileActions files) /\
  length (errChan p ++ flat_map pendingErr (workers p)
                    ++ flat_map fileError (fileChan p))
  = length (flat_map fileError files) /\
  (In Returned (workers p) -> fileChan p = []).

End WithOS.


(** The configuration sets a time window. *)
Definition hasTimeWindow (cfg : Config) : Prop :=
  StartTime cfg <> zero \/ EndTime cfg <> zero.

End pool.

(** ** Directories used in examples *)

Module scenarioE.

Import GoTime models parser analyzer scenarioA.

Local Open Scope list_scope.

(** The calls Walk makes on [logs]: the directory, two log files and a
    text file. *)
Definition logsWalk (root : string) : list filepath.Visit :=
  if String.eqb root "logs" then
    [ {| filepath.v_path := "logs"; filepath.v_isDir := true;
         filepath.v_err := None |};
      {| filepath.v_path := "logs/one.log"; filepath.v_isDir := false;
         filepath.v_err := None |};
      {| filepath.v_path := "logs/readme.txt"; filepath.v_isDir := false;
         filepath.v_err := None |};
      {| filepath.v_path := "logs/two.log"; filepath.v_isDir := false;
         filepath.v_err := None |} ]
  else if String.eqb root "notes" then
    [ {| filepath.v_path := "notes"; filepath.v_isDir := true;
         filepath.v_err := None |};
      {| filepath.v_path := "notes/todo.txt"; filepath.v_isDir := false;
         filepath.v_err := None |};
      {| filepath.v_path := "notes/old.log"; filepath.v_isDir := true;
         filepath.v_err := None |} ]
  else
    [ {| filepath.v_path := root; filepath.v_isDir := false;
         filepath.v_err := Some (errors_New "lstat: no such file or directory") |} ].

(** A schedule for four workers. *)
Definition interleaved : list nat := [0; 1; 2; 1; 0; 3; 1; 0; 1; 2]%nat.


Definition crashFile : OsFile :=
  {| file_bytes := "2024-01-20 15:04:05 ERROR disk full" ++ newline;
     file_readErr := None;
     file_Stat := Ok 36 |}.


(** A schedule for two workers: each takes a file, then the second adds
    its entries before the first does. *)
Definition secondFirst : list nat := [0; 1; 1; 0]%nat.

(** The same directory again; the line of the first file carries no
    timestamp. *)
Definition untimedFile : OsFile :=
  {| file_bytes := "ERROR boom" ++ newline;
     file_readErr := None;
     file_Stat := Ok 11 |}.

Definition untimedDisk (path : string) : result OsFile :=
  if String.eqb path "logs/one.log" then Ok untimedFile
  else if String.eqb path "logs/two.log" then Ok crashFile
  else Err (errors_New "open: no such file or directory").

(** A configuration with a time window that ends on January 20, 2024,
    15:04:05, and a clock that reads one second later. *)
Definition windowed : Config :=
  {| Workers := 4; Level := DEBUG; Pattern := ""; StartTime := 0;
     EndTime := Date 2024 1 20 15 4 5 0; AutoDetect := true;
     ParserType := JSONParser |}.

Definition lateClock (path : string) (lineCount : nat) : Time :=
  Date 2024 1 20 15 4 6 0.

End scenarioE.

(** ** Tailing a file *)

Module tailing.

Import GoTime models parser watcher.

Local Open Scope list_scope.

(** The lines a fresh scanner returns when the file is read from byte
    [offset] on. *)
Definition scanFrom (file : FileView) (offset : Z) : bufio.Scanned :=
  bufio.Scan bufio.MaxScanTokenSize
    (GoString.drop (Z.to_nat offset) (view_bytes file)).

(** The file was not written to between [Stat] and the last read: the
    reads find as many bytes as [Stat] reported. *)
Definition unchanged (file : FileView) : Prop :=
  Size file = Z.of_nat (String.length (view_bytes file)).

(** Where [readNewLines] starts to read. *)
Definition readStart (w : Watcher) (file : FileView) : Z :=
  if Size file <? lastOffset w then 0 else fileOffset w.

Section WithJSON.

Variable json_Unmarshal : string -> result jsonLogEntry.

(** The states of a watch session: after [Watch] opened the file, and
    after each [readNewLines]. *)
Inductive reachable (cfg : Config) : Watcher -> Prop :=
| reachable_open (file : FileView) (w : Watcher) :
    Watch_open (NewWatcher cfg) (Ok file) None = Ok w -> reachable cfg w
| reachable_read (w : Watcher) (time_Now : nat -> Time) (file : FileView) :
    reachable cfg w ->
    reachable cfg (fst (readNewLines json_Unmarshal w time_Now file)).

(** The states of a quiet session: no scan stopped on a line too long
    for the scanner's buffer, and the file was not written to between the
    [Stat] and the last read of a step. *)
Inductive reachableQuiet (cfg : Config) : Watcher -> Prop :=
| quiet_open (file : FileView) (w : Watcher) :
    0 <= Size file ->
    Watch_open (NewWatcher cfg) (Ok file) None = Ok w -> reachableQuiet cfg w
| quiet_read (w : Watcher) (time_Now : nat -> Time) (file : FileView) :
    reachableQuiet cfg w ->
    unchanged file ->
    bufio.tooLong (scanFrom file (readStart w file)) = false ->
    reachableQuiet cfg (fst (readNewLines json_Unmarshal w time_Now file)).

End WithJSON.

(** A file whose first line has 65536 bytes, followed by a short line. *)
Fixpoint bytes (n : nat) (c : ascii) (rest : string) : string :=
  match n with
  | O => rest
  | S n' => String c (bytes n' c rest)
  end.

Definition longLineFile : FileView :=
  {| view_size := 65548; view_statErr := None;
     view_bytes := bytes (Z.to_nat 65536) "a"
                     (String bufio.LF ("ERROR boom" ++ String bufio.LF "")) |}.

Definition showAll : Config :=
  {| FilePath := "app.log"; Pattern := ""; MinLevel := UNKNOWN;
     Interval := 1000000000; ShowAll := true |}.

Definition tailOnly : Config :=
  {| FilePath := "app.log"; Pattern := ""; MinLevel := UNKNOWN;
     Interval := 1000000000; ShowAll := false |}.

(** A file of 500 bytes, and the 50 bytes it holds after a rotation. *)
Definition before500 : FileView :=
  {| view_size := 500; view_statErr := None;
     view_bytes := bytes 499 "x" (String bufio.LF "") |}.

Definition after50 : FileView :=
  {| view_size := 50; view_statErr := None;
     view_bytes := "2024-01-20 15:04:05 WARN rotated" ++ String bufio.LF
                     ("INFO fresh start" ++ String bufio.LF "") |}.

Definition noDecoder (text : string) : result jsonLogEntry :=
  Err (errors_New "unexpected end of JSON input").

Definition fixedClock (n : nat) : Time := Date 2024 1 20 15 4 5 0.

End tailing.

(** ** Sorting by a key *)

Module sorting.

Local Open Scope nat_scope.

Section Keys.

Context {A : Type}.

(** The order that [less] reads off the elements: a key in [Z]. *)
Variable key : A -> Z.

Definition byKey (x y : A) : bool := (key x <? key y)%Z.

(** The key at index [i] (0 outside the slice). *)
Definition keyAt (data : list A) (i : nat) : Z :=
  match data !! i with
  | Some x => key x
  | None => 0%Z
  end.

(** [data[a:b]] is in non-decreasing order of keys. *)
Definition sortedOn (data : list A) (a b : nat) : Prop :=
  forall i j, a <= i -> i <= j -> j < b -> (keyAt data i <= keyAt data j)%Z.

(** [data'] comes from [data] by swaps of elements of [data[a:b]]. *)
Inductive swapsIn (a b : nat) : list A -> list A -> Prop :=
| swapsIn_none (data : list A) : swapsIn a b data data
| swapsIn_swap (data data' : list A) (i j : nat) :
    a <= i < b -> a <= j < b ->
    swapsIn a b (sort.Swap data i j) data' -> swapsIn a b data data'.

(** The key before the range [data[a:b]] is not above the keys of the
    range; pdqsort keeps this true of every range it works on. *)
Definition boundedBelow (data : list A) (a b : nat) : Prop :=
  0 < a -> forall k, a <= k -> k < b -> (keyAt data (a - 1) <= keyAt data k)%Z.

(** The elements with key [k], in the order of the slice. *)
Definition withKey (k : Z) (data : list A) : list A :=
  List.filter (fun x => (key x =? k)%Z) data.

(** [data'] keeps the relative order of the elements of [data] that have
    the same key. *)
Definition stable (data data' : list A) : Prop :=
  forall k, withKey k data' = withKey k data.

(** The heap order of [heapSort_func] on [data[first:first+hi]], at the
    nodes from [lo] on: a node is not below its children. *)
Definition heapFrom (data : list A) (first lo hi : nat) : Prop :=
  forall i c, lo <= i -> (c = 2 * i + 1 \/ c = 2 * i + 2) -> c < hi ->
              (keyAt data (first + c) <= keyAt data (first + i))%Z.

End Keys.

End sorting.

(** ** The order of the aggregated entries *)

Module ordering.

Import GoTime models analyzer.

Local Open Scope list_scope.
Local Open Scope nat_scope.

(** No entry is followed by one with an earlier timestamp. *)
Definition nonDecreasing (es : list LogEntry) : Prop :=
  forall i j x y, i <= j -> es !! i = Some x -> es !! j = Some y ->
                  After (Timestamp x) (Timestamp y) = false.

(** The entries with timestamp [t], in the order of the collection. *)
Definition entriesAt (t : Time) (es : list LogEntry) : list LogEntry :=
  sorting.withKey Timestamp t es.

(** [es'] keeps the entries of equal timestamps in the relative order they
    have in [es]. *)
Definition keepsTies (es es' : list LogEntry) : Prop :=
  forall t, entriesAt t es' = entriesAt t es.

(** Line [message] of app.log, logged at second [sec] of 15:04 on
    2024-01-20. *)
Definition entryAt (sec : Z) (message : string) : LogEntry :=
  {| Timestamp := Date 2024 1 20 15 4 sec 0; models.Level := INFO;
     Message := message; Source := "app.log"; Raw := message |}.

(** Three entries, the last one the earliest. *)
Definition three : Aggregator :=
  AddBatch NewAggregator [entryAt 6 "a"; entryAt 6 "b"; entryAt 5 "c"].

(** Thirteen entries: twelve of the same second, then an earlier one. *)
Definition thirteen : Aggregator :=
  AddBatch NewAggregator
    [entryAt 6 "a"; entryAt 6 "b"; entryAt 6 "c"; entryAt 6 "d";
     entryAt 6 "e"; entryAt 6 "f"; entryAt 6 "g"; entryAt 6 "h";
     entryAt 6 "i"; entryAt 6 "j"; entryAt 6 "k"; entryAt 6 "l";
     entryAt 5 "m"].

End ordering.

(** ** The aggregators a program can hold *)

Module states.

Import GoTime models analyzer.

Local Open Scope list_scope.

(** What the methods of the aggregator, and the two updates that the
    analyzer makes through [GetStats] ([AddFile], [SetProcessingTime]),
    build from a new aggregator. *)
Inductive built : Aggregator -> Prop :=
| built_New : built NewAggregator
| built_Add (a : Aggregator) (entry : LogEntry) :
    built a -> built (Add a entry)
| built_AddBatch (a : Aggregator) (batch : list LogEntry) :
    built a -> built (AddBatch a batch)
| built_SortByTime (a : Aggregator) :
    built a -> built (SortByTime a)
| built_Clear (a : Aggregator) :
    built a -> built (Clear a)
| built_AddFile (a : Aggregator) (bytesRead : Z) :
    built a ->
    built {| entries := entries a; stats := AddFile (stats a) bytesRead |}
| built_SetProcessingTime (a : Aggregator) (duration : Z) :
    built a ->
    built {| entries := entries a;
             stats := SetProcessingTime (stats a) duration |}.

(** The statistics agree with the entries. *)
Definition counted (a : Aggregator) : Prop :=
  Count a = TotalEntries (GetStats a) /\
  (forall level,
      GetLevelCount (GetStats a) level
      = Z.of_nat (length (FilterEntries a (LevelFilter level)))) /\
  (forall source,
      get (SourceCounts (GetStats a)) source
      = Z.of_nat (length (FilterEntries a (SourceFilter source)))) /\
  PatternCounts (GetStats a) = ∅.

End states.

(** ** What a directory walk finds *)

Module directory.

Import GoTime models parser analyzer.

Local Open Scope list_scope.

(** The calls of a walk up to the first one that carries an error. *)
Fixpoint beforeError (visits : list filepath.Visit) : list filepath.Visit :=
  match visits with
  | v :: visits' =>
      match filepath.v_err v with
      | Some _ => []
      | None => v :: beforeError visits'
      end
  | [] => []
  end.

(** The first error of a walk. *)
Fixpoint firstError (visits : list filepath.Visit) : option error :=
  match visits with
  | v :: visits' =>
      match filepath.v_err v with
      | Some err => Some err
      | None => firstError visits'
      end
  | [] => None
  end.

(** Not a directory, and the path ends in [.log]. *)
Definition isLogFile (v : filepath.Visit) : bool :=
  negb (filepath.v_isDir v) && GoString.HasSuffix (filepath.v_path v) ".log".

Section WithOS.

Variable json_Unmarshal : string -> result jsonLogEntry.
Variable os_Open : string -> result OsFile.
Variable time_Now : string -> nat -> Time.
Variable a : Analyzer.

(** [AnalyzeFile] returns an error on the file. *)
Definition fails (filePath : string) : bool :=
  match snd (AnalyzeFile_trace json_Unmarshal os_Open time_Now a filePath) with
  | Some _ => true
  | None => false
  end.

Definition failed (files : list string) : list string :=
  List.filter fails files.

Definition analyzed (files : list string) : list string :=
  List.filter (fun filePath => negb (fails filePath)) files.

End WithOS.

End directory.

(** ** The watcher's view of a file, and its filters as a configuration *)

Module watching.

Import GoTime models parser watcher.

(** A file with the given bytes that is not written to while the watcher
    looks at it: [Stat] reports their number. *)
Definition view (bytes : string) : FileView :=
  {| view_size := Z.of_nat (String.length bytes); view_statErr := None;
     view_bytes := bytes |}.

(** A file of which [Stat] reports [size] and in which the reads that
    follow find [bytes]. *)
Definition viewed (size : Z) (bytes : string) : FileView :=
  {| view_size := size; view_statErr := None; view_bytes := bytes |}.

(** The analyzer configuration with the watcher's level and pattern, no
    time window and automatic detection of the parser. *)
Definition asAnalyzerConfig (cfg : watcher.Config) : analyzer.Config :=
  {| analyzer.Workers := 0; analyzer.Level := MinLevel cfg;
     analyzer.Pattern := Pattern cfg; analyzer.StartTime := zero;
     analyzer.EndTime := zero; analyzer.AutoDetect := true;
     analyzer.ParserType := parser.AutoDetect |}.

End watching.

(** ** package reporter *)

Module reporter.

Import GoTime models.

Local Open Scope list_scope.

(** [type OutputFormat int] *)
Abbreviation OutputFormat := Z (only parsing).
Definition TableFormat : OutputFormat := 0.
Definition JSONFormat : OutputFormat := 1.
Definition CSVFormat : OutputFormat := 2.

(** [OutputFormat.String] *)
Definition OutputFormat_String (o : OutputFormat) : string :=
  if o =? TableFormat then "table"
  else if o =? JSONFormat then "json"
  else if o =? CSVFormat then "csv"
  else "unknown".

(** The two implementations of the [Reporter] interface. *)
Inductive Reporter : Type := JSONReporter | TableReporter.

Definition GetReporter (format : OutputFormat) : Reporter :=
  if format =? JSONFormat then JSONReporter
  else if format =? TableFormat then TableReporter
  else TableReporter.

Definition Name (r : Reporter) : string :=
  match r with
  | JSONReporter => "JSON"
  | TableReporter => "Table"
  end.

(** [truncate]; [None] is the panic of the slice [s[:maxLen-3]] when
    [maxLen-3] is negative ([maxLen-3] is below [len(s)] where the slice
    is taken). *)
Definition truncate (s : string) (maxLen : Z) : option string :=
  if Z.of_nat (String.length s) <=? maxLen then Some s
  else if maxLen - 3 <? 0 then None
  else Some (GoString.slice s 0 (Z.to_nat (maxLen - 3)) ++ "...")%string.

(** What is written to the writer: the calls of [fmt.Fprintln] and
    [fmt.Fprintf] with their operands.  An operand made by package color
    is kept with the attributes of the colour and what is formatted. *)
Inductive Value : Type :=
| v_int (n : Z)
| v_string (s : string).

Inductive Operand : Type :=
| o_value (v : Value)
| o_Sprintf (attributes : list Z) (format : string) (operands : list Value).

Inductive Printed : Type :=
| Fprintln (text : string)
| Fprintf (format : string) (operands : list Operand).

(** [color.FgYellow] *)
Definition FgYellow : Z := 33.

(** [strings.Repeat] *)
Fixpoint Repeat (s : string) (count : nat) : string :=
  match count with
  | O => ""
  | S count' => (s ++ Repeat s count')%string
  end.

(** [type patternCount struct] of [PrintTopErrors] *)
Record patternCount := mkPatternCount {
  pattern : string;
  count : Z
}.

(** [for j := i + 1; j < len(patterns); j++], at [j] with [n] iterations
    left: [patterns[i]] and [patterns[j]] change places when the count at
    [j] is the greater one. *)
Fixpoint PrintTopErrors_inner (n : nat) (patterns : list patternCount)
    (i j : nat) : list patternCount :=
  match n with
  | O => patterns
  | S n' =>
      let patterns :=
        match patterns !! i, patterns !! j with
        | Some pi, Some pj =>
            if count pi <? count pj
            then <[i := pj]> (<[j := pi]> patterns)
            else patterns
        | _, _ => patterns
        end in
      PrintTopErrors_inner n' patterns i (S j)
  end.

(** [for i := 0; i < len(patterns); i++], at [i] with [n] iterations
    left. *)
Fixpoint PrintTopErrors_outer (n : nat) (patterns : list patternCount)
    (i : nat) : list patternCount :=
  match n with
  | O => patterns
  | S n' =>
      PrintTopErrors_outer n'
        (PrintTopErrors_inner (length patterns - (i + 1)) patterns i (i + 1))
        (S i)
  end.

(** The line of one pattern. *)
Definition topErrorRow (i : nat) (p : patternCount) : Printed :=
  Fprintf ("%2d. %s: %s" ++ String bufio.LF "")
          [o_value (v_int (Z.of_nat i + 1));
           o_Sprintf [FgYellow] "%5d occurrences" [v_int (count p)];
           o_value (v_string (pattern p))].

(** [for i := 0; i < limit; i++], at [i] with [n] iterations left. *)
Fixpoint PrintTopErrors_rows (n : nat) (patterns : list patternCount)
    (i : nat) : list Printed :=
  match n with
  | O => []
  | S n' =>
      match patterns !! i with
      | Some p => topErrorRow i p :: PrintTopErrors_rows n' patterns (S i)
      | None => []
      end
  end.

(** [PrintTopErrors]; [ranged] is [stats.PatternCounts] as the [range]
    loop yields it: its keys and values in an order that Go does not
    fix. *)
Definition PrintTopErrors (ranged : list (string * Z)) (limit : Z)
  : list Printed :=
  let patterns := map (fun kv => mkPatternCount (fst kv) (snd kv)) ranged in
  let patterns := PrintTopErrors_outer (length patterns) patterns 0 in
  let limit := if Z.of_nat (length patterns) <? limit
               then Z.of_nat (length patterns) else limit in
  [Fprintln (String bufio.LF "🔥 Top Error Patterns");
   Fprintln (Repeat "─" 80)]
  ++ PrintTopErrors_rows (Z.to_nat limit) patterns 0.

(** [PrintSourceBreakdown]; [ranged] is [stats.SourceCounts] as the
    [range] loop yields it. *)
Definition PrintSourceBreakdown (ranged : list (string * Z)) : list Printed :=
  [Fprintln (String bufio.LF "📁 Breakdown by Source");
   Fprintln (Repeat "─" 80)]
  ++ map (fun kv => Fprintf ("%-30s: %6d entries" ++ String bufio.LF "")
                            [o_value (v_string (fst kv));
                             o_value (v_int (snd kv))])
         ranged.

End reporter.

(** ** The order of a list of counts *)

Module ranking.

Import reporter.

Local Open Scope list_scope.

(** No pattern is followed by one with a greater count. *)
Definition nonIncreasing (ps : list patternCount) : Prop :=
  forall i j x y, (i <= j)%nat -> ps !! i = Some x -> ps !! j = Some y ->
                  count y <= count x.

(** [range] yields every key of the map once, with its value. *)
Definition ranges (ranged : list (string * Z)) (m : gmap string Z) : Prop :=
  Permutation ranged (map_to_list m).

(** The sort key that puts greater counts first. *)
Definition byCount (p : patternCount) : Z := - count p.

End ranking.

(** ** Written timestamps *)

Module stamps.

Import GoTime.

(** The decimal digit [n], for [n] from 0 to 9. *)
Definition digit (n : Z) : ascii := ascii_of_nat (48 + Z.to_nat n).

(** [n] written with two digits, for [n] from 0 to 99. *)
Definition two (n : Z) : string :=
  String (digit (n / 10)) (String (digit (n mod 10)) "").

(** [n] written with four digits, for [n] from 0 to 9999. *)
Definition four (n : Z) : string := (two (n / 100) ++ two (n mod 100))%string.

(** A date and a time of day written as [YYYY-MM-DD HH:MM:SS], with
    [dateSep] between the fields of the date and [timeSep] between the
    date and the time. *)
Definition stamp (dateSep timeSep : ascii) (year month day hour min sec : Z)
  : string :=
  (four year ++ String dateSep (two month) ++ String dateSep (two day)
   ++ String timeSep (two hour) ++ ":" ++ two min ++ ":" ++ two sec)%string.

(** The layout of package time for this way of writing. *)
Definition layoutOf (dateSep timeSep : ascii) : string :=
  ("2006" ++ String dateSep "01" ++ String dateSep "02"
   ++ String timeSep "15:04:05")%string.

(** The three ways of writing that [extractTimestamp] knows. *)
Definition known (dateSep timeSep : ascii) : Prop :=
  (dateSep = "-"%char /\ timeSep = " "%char) \/
  (dateSep = "/"%char /\ timeSep = " "%char) \/
  (dateSep = "-"%char /\ timeSep = "T"%char).

(** Numbers that can be written with four and with two digits. *)
Definition writable (year month day hour min sec : Z) : Prop :=
  0 <= year <= 9999 /\ 0 <= month <= 99 /\ 0 <= day <= 99 /\
  0 <= hour <= 99 /\ 0 <= min <= 99 /\ 0 <= sec <= 99.

(** The date exists and the time is a time of day. *)
Definition valid (year month day hour min sec : Z) : Prop :=
  1 <= month <= 12 /\ 1 <= day <= daysIn month year /\
  hour < 24 /\ min < 60 /\ sec < 60.

End stamps.

(** ** package main: the configurations that the commands build *)

Module main.

Import GoTime models.

(** [handleAnalyze], from the flags to the configuration: the minimum
    level read from [--level] (DEBUG when the flag is empty, and DEBUG
    with a warning when its text is no level), and whether the warning
    is printed. *)
Definition handleAnalyze_config (level pattern : string) (workers : Z)
  : analyzer.Config * bool :=
  let '(minLevel, warned) :=
    if negb (String.eqb level "") then
      let minLevel := ParseLogLevel (GoString.ToUpper level) in
      if minLevel =? UNKNOWN then (DEBUG, true) else (minLevel, false)
    else (DEBUG, false) in
  ({| analyzer.Workers := workers; analyzer.Level := minLevel;
      analyzer.Pattern := pattern; analyzer.StartTime := zero;
      analyzer.EndTime := zero; analyzer.AutoDetect := true;
      analyzer.ParserType := parser.JSONParser |},
   warned).

(** [handleStats]: the configuration. *)
Definition handleStats_config (workers : Z) : analyzer.Config :=
  {| analyzer.Workers := workers; analyzer.Level := DEBUG;
     analyzer.Pattern := ""; analyzer.StartTime := zero;
     analyzer.EndTime := zero; analyzer.AutoDetect := true;
     analyzer.ParserType := parser.JSONParser |}.

(** [handleWatch]: the configuration. *)
Definition handleWatch_config (file pattern level : string) (interval : Z)
    (showAll : bool) : watcher.Config :=
  let minLevel :=
    if negb (String.eqb level "") then ParseLogLevel (GoString.ToUpper level)
    else DEBUG in
  {| watcher.FilePath := file; watcher.Pattern := pattern;
     watcher.MinLevel := minLevel; watcher.Interval := interval;
     watcher.ShowAll := showAll |}.

End main.

(** * Properties *)

(** ** The aggregator and its statistics *)

Section Aggregation.

Import GoTime models analyzer aggregation.

Local Open Scope list_scope.

Lemma AddBatch_app (a : Aggregator) (xs ys : list LogEntry) :
  AddBatch a (xs ++ ys) = AddBatch (AddBatch a xs) ys.
Proof. unfold AddBatch. apply fold_left_app. Qed.

Lemma AddBatch_snoc (a : Aggregator) (xs : list LogEntry) (e : LogEntry) :
  AddBatch a (xs ++ [e]) = Add (AddBatch a xs) e.
Proof. rewrite AddBatch_app. reflexivity. Qed.

Lemma calls_as_batch (calls : list Call) (a : Aggregator) :
  fold_left call calls a = AddBatch a (added calls).
Proof.
  revert a. induction calls as [|c calls IH]; intros a; simpl; [reflexivity|].
  rewrite IH. unfold added. simpl. rewrite AddBatch_app.
  destruct c; reflexivity.
Qed.

Lemma AddBatch_entries (a : Aggregator) (es : list LogEntry) :
  entries (AddBatch a es) = entries a ++ es.
Proof.
  induction es as [|e es IH] using rev_ind.
  - simpl. symmetry. apply app_nil_r.
  - rewrite AddBatch_snoc. simpl. rewrite IH. symmetry. apply app_assoc.
Qed.

Lemma get_incr_same `{Countable K} (m : gmap K Z) (k : K) :
  get (incr m k) k = get m k + 1.
Proof. unfold get, incr. rewrite lookup_insert_eq. reflexivity. Qed.

Lemma get_incr_other `{Countable K} (m : gmap K Z) (k k' : K) :
  k <> k' -> get (incr m k) k' = get m k'.
Proof. intros Hne. unfold get, incr. rewrite lookup_insert_ne; auto. Qed.

Lemma sumValues_insert_fresh `{Countable K} (m : gmap K Z) (k : K) (v : Z) :
  m !! k = None -> sumValues (<[k := v]> m) = v + sumValues m.
Proof.
  intros Hk. unfold sumValues.
  rewrite map_fold_insert_L; [reflexivity | intros; lia | exact Hk].
Qed.

Lemma sumValues_incr `{Countable K} (m : gmap K Z) (k : K) :
  sumValues (incr m k) = sumValues m + 1.
Proof.
  unfold incr, get. destruct (m !! k) as [v|] eqn:Hk; simpl.
  - rewrite <- (insert_delete_eq m k (v + 1)).
    rewrite sumValues_insert_fresh by apply lookup_delete_eq.
    rewrite <- (insert_delete_id m k v Hk) at 2.
    rewrite sumValues_insert_fresh by apply lookup_delete_eq. lia.
  - rewrite sumValues_insert_fresh by exact Hk. lia.
Qed.

Lemma sumValues_empty `{Countable K} : sumValues (∅ : gmap K Z) = 0.
Proof. unfold sumValues. apply map_fold_empty. Qed.

Lemma countLevel_snoc (l : Z) (es : list LogEntry) (e : LogEntry) :
  countLevel l (es ++ [e]) =
  countLevel l es + (if models.Level e =? l then 1 else 0).
Proof.
  unfold countLevel. rewrite List.filter_app, length_app. simpl.
  destruct (models.Level e =? l); simpl; lia.
Qed.

Lemma countSource_snoc (s : string) (es : list LogEntry) (e : LogEntry) :
  countSource s (es ++ [e]) =
  countSource s es + (if String.eqb (Source e) s then 1 else 0).
Proof.
  unfold countSource. rewrite List.filter_app, length_app. simpl.
  destruct (String.eqb (Source e) s); simpl; lia.
Qed.

(** The counters after a batch, from any starting state. *)
Lemma AddBatch_counts (a : Aggregator) (es : list LogEntry) :
  let s := stats a in
  let s' := stats (AddBatch a es) in
  TotalEntries s' = TotalEntries s + Z.of_nat (length es) /\
  sumValues (LevelCounts s') = sumValues (LevelCounts s) + Z.of_nat (length es) /\
  sumValues (SourceCounts s') = sumValues (SourceCounts s) + Z.of_nat (length es) /\
  (forall l, get (LevelCounts s') l = get (LevelCounts s) l + countLevel l es) /\
  (forall src, get (SourceCounts s') src
               = get (SourceCounts s) src + countSource src es) /\
  PatternCounts s' = PatternCounts s /\
  FilesProcessed s' = FilesProcessed s /\
  BytesProcessed s' = BytesProcessed s /\
  ProcessingTime s' = ProcessingTime s.
Proof.
  induction es as [|e es IH] using rev_ind; cbn zeta.
  - simpl. unfold countLevel, countSource. simpl.
    repeat split; intros; lia.
  - rewrite AddBatch_snoc. cbn zeta in IH.
    destruct IH as (Ht & Hl & Hs & Hlc & Hsc & Hp & Hf & Hb & Hpt).
    simpl. rewrite length_app. simpl.
    rewrite !sumValues_incr, Ht, Hl, Hs.
    repeat split; try lia; try assumption.
    + intros l. rewrite countLevel_snoc.
      destruct (models.Level e =? l) eqn:E.
      * apply Z.eqb_eq in E. subst l. rewrite get_incr_same, Hlc. lia.
      * apply Z.eqb_neq in E. rewrite get_incr_other by exact E.
        rewrite Hlc. lia.
    + intros src. rewrite countSource_snoc.
      destruct (String.eqb (Source e) src) eqn:E.
      * apply String.eqb_eq in E. subst src. rewrite get_incr_same, Hsc. lia.
      * apply String.eqb_neq in E. rewrite get_incr_other by exact E.
        rewrite Hsc. lia.
Qed.

End Aggregation.

Section Timestamps.

Import GoTime models analyzer aggregation.

Local Open Scope list_scope.

(** [FirstTimestamp] while no added entry carries the zero time: unset
    before the first entry, the earliest timestamp afterwards. *)
Lemma FirstTimestamp_invariant (es : list LogEntry) :
  (forall e, In e es -> Timestamp e <> zero) ->
  let s := stats (AddBatch NewAggregator es) in
  (es = [] /\ FirstTimestamp s = zero) \/
  (FirstTimestamp s <> zero /\ isEarliest (FirstTimestamp s) es).
Proof.
  induction es as [|e es IH] using rev_ind; intros Hnz; cbn zeta.
  - left. split; reflexivity.
  - right. rewrite AddBatch_snoc. simpl.
    assert (He : Timestamp e <> zero) by (apply Hnz, in_or_app; right; left; reflexivity).
    assert (Hes : forall x, In x es -> Timestamp x <> zero)
      by (intros x Hx; apply Hnz, in_or_app; left; exact Hx).
    specialize (IH Hes). cbn zeta in IH.
    unfold IsZero, Before in *; try unfold zero in *.
    destruct IH as [[-> H0] | [Hne [[w [Hw Hwt]] Hmin]]].
    + simpl in *. split; [exact He|].
      split; [exists e; split; [left; reflexivity | reflexivity]|].
      intros x [<- | []]. lia.
    + destruct (FirstTimestamp (stats (AddBatch NewAggregator es)) =? 0) eqn:E0;
        [apply Z.eqb_eq in E0; contradiction|]. simpl.
      destruct (Timestamp e <? FirstTimestamp (stats (AddBatch NewAggregator es))) eqn:E1.
      * apply Z.ltb_lt in E1. split; [exact He|]. split.
        -- exists e. split; [apply in_or_app; right; left; reflexivity | reflexivity].
        -- intros x Hx. apply in_app_or in Hx. destruct Hx as [Hx | [<- | []]].
           ++ specialize (Hmin x Hx). lia.
           ++ lia.
      * apply Z.ltb_ge in E1. split; [exact Hne|]. split.
        -- exists w. split; [apply in_or_app; left; exact Hw | exact Hwt].
        -- intros x Hx. apply in_app_or in Hx. destruct Hx as [Hx | [<- | []]].
           ++ apply Hmin, Hx.
           ++ exact E1.
Qed.

(** [LastTimestamp] is the latest of the zero time and the timestamps
    added. *)
Lemma LastTimestamp_invariant (es : list LogEntry) :
  let s := stats (AddBatch NewAggregator es) in
  (forall e, In e es -> Timestamp e <= LastTimestamp s) /\
  (LastTimestamp s = zero \/ exists e, In e es /\ Timestamp e = LastTimestamp s).
Proof.
  induction es as [|e es IH] using rev_ind; cbn zeta.
  - split; [intros e [] | left; reflexivity].
  - rewrite AddBatch_snoc. simpl. cbn zeta in IH.
    destruct IH as [Hub Hatt]. unfold After in *; try unfold zero in *.
    destruct (LastTimestamp (stats (AddBatch NewAggregator es)) <? Timestamp e) eqn:E.
    + apply Z.ltb_lt in E. split.
      * intros x Hx. apply in_app_or in Hx. destruct Hx as [Hx | [<- | []]].
        -- specialize (Hub x Hx). lia.
        -- lia.
      * right. exists e. split; [apply in_or_app; right; left; reflexivity | reflexivity].
    + apply Z.ltb_ge in E. split.
      * intros x Hx. apply in_app_or in Hx. destruct Hx as [Hx | [<- | []]].
        -- apply Hub, Hx.
        -- exact E.
      * destruct Hatt as [H0 | [w [Hw Hwt]]]; [left; exact H0 | right].
        exists w. split; [apply in_or_app; left; exact Hw | exact Hwt].
Qed.

Lemma interleaving_Permutation {A : Type} (ls : list (list A)) (t : list A) :
  interleaving ls t -> Permutation t (concat ls).
Proof.
  induction 1 as [ls Hnil | ls1 ls2 x l t _ IH].
  - induction Hnil as [|l ls -> _ IH]; simpl; [constructor | exact IH].
  - rewrite concat_app in *. simpl in *.
    rewrite IH. apply Permutation_middle.
Qed.

Lemma added_Permutation (cs cs' : list Call) :
  Permutation cs cs' -> Permutation (added cs) (added cs').
Proof. intros HP. unfold added. apply Permutation_flat_map, HP. Qed.

Lemma filter_Permutation {A : Type} (f : A -> bool) (l l' : list A) :
  Permutation l l' -> Permutation (List.filter f l) (List.filter f l').
Proof.
  induction 1 as [|x l l' _ IH|x y l|l l' l'' _ IH1 _ IH2]; simpl.
  - constructor.
  - destruct (f x); [constructor|]; exact IH.
  - destruct (f x), (f y); try reflexivity. constructor.
  - etransitivity; eassumption.
Qed.

Lemma countLevel_Permutation (l : Z) (es es' : list LogEntry) :
  Permutation es es' -> countLevel l es = countLevel l es'.
Proof.
  intros HP. unfold countLevel. f_equal.
  apply Permutation_length, filter_Permutation, HP.
Qed.

Lemma countSource_Permutation (src : string) (es es' : list LogEntry) :
  Permutation es es' -> countSource src es = countSource src es'.
Proof.
  intros HP. unfold countSource. f_equal.
  apply Permutation_length, filter_Permutation, HP.
Qed.

Lemma isEarliest_Permutation (t : Z) (es es' : list LogEntry) :
  Permutation es es' -> isEarliest t es -> isEarliest t es'.
Proof.
  intros HP [[w [Hw Hwt]] Hmin]. split.
  - exists w. split; [eapply Permutation_in; eassumption | exact Hwt].
  - intros x Hx. apply Hmin. eapply Permutation_in; [symmetry|]; eassumption.
Qed.

Lemma isLatest_Permutation (t : Z) (es es' : list LogEntry) :
  Permutation es es' -> isLatest t es -> isLatest t es'.
Proof.
  intros HP [[w [Hw Hwt]] Hmax]. split.
  - exists w. split; [eapply Permutation_in; eassumption | exact Hwt].
  - intros x Hx. apply Hmax. eapply Permutation_in; [symmetry|]; eassumption.
Qed.

(** C1 (as amended).  Calls of [Add] and [AddBatch] by any number of
    goroutines on a fresh aggregator take effect in some interleaving
    [trace] of the callers' sequences.  Whatever the interleaving, the
    aggregator holds exactly the entries added, and the statistics count
    them: [TotalEntries] is their number, and is the sum of the level
    counts and the sum of the source counts; each level count and each
    source count is the number of added entries with that level or
    source.  [FirstTimestamp] is the earliest timestamp added when at
    least one entry was added and none carries the zero time;
    [LastTimestamp] is the latest timestamp added when some added entry
    is not before the zero time. *)
Theorem aggregator_statistics_consistent
    (callers : list (list Call)) (trace : list Call) :
  interleaving callers trace ->
  let a := fold_left call trace NewAggregator in
  let all := added (concat callers) in
  let s := stats a in
  Permutation (entries a) all /\
  TotalEntries s = Z.of_nat (length all) /\
  TotalEntries s = sumValues (LevelCounts s) /\
  TotalEntries s = sumValues (SourceCounts s) /\
  (forall level, get (LevelCounts s) level = countLevel level all) /\
  (forall source, get (SourceCounts s) source = countSource source all) /\
  (all <> [] -> (forall e, In e all -> Timestamp e <> zero) ->
   isEarliest (FirstTimestamp s) all) /\
  ((exists e, In e all /\ zero <= Timestamp e) ->
   isLatest (LastTimestamp s) all).
Proof.
  intros Hil. cbn zeta.
  assert (HP : Permutation (added trace) (added (concat callers)))
    by (apply added_Permutation, interleaving_Permutation, Hil).
  rewrite calls_as_batch.
  destruct (AddBatch_counts NewAggregator (added trace))
    as (Ht & Hl & Hs & Hlc & Hsc & _).
  cbn zeta in *.
  change (LevelCounts (stats NewAggregator)) with (∅ : gmap Z Z) in Hl, Hlc.
  change (SourceCounts (stats NewAggregator)) with (∅ : gmap string Z) in Hs, Hsc.
  rewrite sumValues_empty in Hl. rewrite sumValues_empty in Hs.
  change (TotalEntries (stats NewAggregator)) with 0 in Ht.
  rewrite AddBatch_entries. simpl.
  split; [exact HP|].
  split; [rewrite Ht, (Permutation_length HP); lia|].
  split; [lia|]. split; [lia|].
  split; [intros l; rewrite Hlc, (countLevel_Permutation l _ _ HP);
          unfold get; rewrite lookup_empty; reflexivity|].
  split; [intros src; rewrite Hsc, (countSource_Permutation src _ _ HP);
          unfold get; rewrite lookup_empty; reflexivity|].
  split.
  - intros Hne Hnz. apply (isEarliest_Permutation _ _ _ HP).
    destruct (FirstTimestamp_invariant (added trace)) as [[Hnil _] | [_ H]].
    + intros e He. apply Hnz. eapply Permutation_in; eassumption.
    + exfalso. apply Hne. rewrite Hnil in HP.
      apply Permutation_nil in HP. exact HP.
    + exact H.
  - intros [e [He Hpos]]. apply (isLatest_Permutation _ _ _ HP).
    destruct (LastTimestamp_invariant (added trace)) as [Hub Hatt].
    assert (He' : In e (added trace))
      by (eapply Permutation_in; [symmetry|]; eassumption).
    split; [|exact Hub].
    destruct Hatt as [H0 | H]; [|exact H].
    exists e. split; [exact He'|]. specialize (Hub e He').
    unfold zero in *. lia.
Qed.

End Timestamps.

Section AggregationExamples.

Import GoTime models analyzer aggregation examples.

Local Open Scope list_scope.

Lemma aggregator_statistics_consistent_witness :
  interleaving twoCallers oneTrace /\
  let a := fold_left call oneTrace NewAggregator in
  let all := added (concat twoCallers) in
  let s := stats a in
  Permutation (entries a) all /\
  TotalEntries s = Z.of_nat (length all) /\
  TotalEntries s = sumValues (LevelCounts s) /\
  TotalEntries s = sumValues (SourceCounts s) /\
  (forall level, get (LevelCounts s) level = countLevel level all) /\
  (forall source, get (SourceCounts s) source = countSource source all) /\
  (all <> [] -> (forall e, In e all -> Timestamp e <> zero) ->
   isEarliest (FirstTimestamp s) all) /\
  ((exists e, In e all /\ zero <= Timestamp e) ->
   isLatest (LastTimestamp s) all).
Proof.
  assert (H : interleaving twoCallers oneTrace).
  { unfold twoCallers, oneTrace.
    apply (interleaving_next [] [[CallAdd started]]).
    apply (interleaving_next [[CallAddBatch [started; retrying]]] []).
    apply (interleaving_next [] [[]]).
    apply interleaving_done. repeat constructor. }
  split; [exact H|].
  exact (aggregator_statistics_consistent twoCallers oneTrace H).
Defined.

(** C1, the claim as written, fails: after the entry of a line stamped
    with the zero time, the next entry replaces [FirstTimestamp], which is
    then not the earliest timestamp added. *)
Lemma first_timestamp_after_zero_time_entry :
  let calls := [CallAdd bootEntry; CallAdd diskFull] in
  let s := stats (fold_left call calls NewAggregator) in
  parser.PlainTextLogParser_Parse 1 "0001-01-01 00:00:00 INFO boot" "a.log"
    = Ok bootEntry /\
  interleaving [calls] calls /\
  FirstTimestamp s = Timestamp diskFull /\
  ~ isEarliest (FirstTimestamp s) (added calls).
Proof.
  cbn zeta. split; [vm_compute; reflexivity|]. split.
  { apply (interleaving_next [] []). apply (interleaving_next [] []).
    apply interleaving_done. repeat constructor. }
  split; [vm_compute; reflexivity|].
  intros [_ Hmin]. specialize (Hmin bootEntry (or_introl eq_refl)).
  vm_compute in Hmin. apply Hmin. reflexivity.
Qed.

End AggregationExamples.

(** ** Filtering *)

Section Filtering.

Import GoTime models analyzer filtering.

Local Open Scope string_scope.

Local Arguments String.append !_ _ /.

Lemma string_length_app (s t : string) :
  String.length (s ++ t) = (String.length s + String.length t)%nat.
Proof. induction s as [|c s IH]; simpl; [reflexivity | rewrite IH; reflexivity]. Qed.

Lemma string_app_assoc (s t u : string) : (s ++ t) ++ u = s ++ t ++ u.
Proof. induction s as [|c s IH]; simpl; [reflexivity | rewrite IH; reflexivity]. Qed.

Lemma string_app_nil_r (s : string) : s ++ "" = s.
Proof. induction s as [|c s IH]; simpl; [reflexivity | rewrite IH; reflexivity]. Qed.

(** A slice that equals [sub] shows where [sub] occurs. *)
Lemma substring_eq_occurs (s sub : string) (i : nat) :
  String.substring i (String.length sub) s = sub -> occursIn sub s.
Proof.
  revert s. induction i as [|i IH]; intros s.
  - revert s. induction sub as [|c sub IHsub]; intros s H.
    + exists "", s. reflexivity.
    + destruct s as [|d s]; simpl in H; [discriminate|].
      injection H as -> H. destruct (IHsub s H) as (pre & post & Hs).
      destruct pre as [|p pre].
      * exists "", post. simpl in *. rewrite Hs. reflexivity.
      * (* the occurrence found in the tail starts at its head *)
        exists "". clear Hs IHsub.
        revert s H. induction sub as [|c' sub IH']; intros s H.
        -- exists s. reflexivity.
        -- destruct s as [|d' s]; simpl in H; [discriminate|].
           injection H as -> H. destruct (IH' s H) as [post' Hp].
           simpl in Hp. injection Hp as Hp. exists post'. simpl.
           rewrite Hp. reflexivity.
  - destruct s as [|d s]; simpl.
    + intros H. exists "", "". destruct sub; [reflexivity | discriminate].
    + intros H. destruct (IH s H) as (pre & post & Hs).
      exists (String d pre), post. simpl. rewrite Hs. reflexivity.
Qed.

Lemma substring_at_occurrence (pre sub post : string) :
  String.substring (String.length pre) (String.length sub) (pre ++ sub ++ post)
  = sub.
Proof.
  induction pre as [|c pre IH]; simpl; [|exact IH].
  induction sub as [|c sub IH]; simpl.
  - destruct post; reflexivity.
  - rewrite IH. reflexivity.
Qed.

Lemma slice_substring (s : string) (i n : nat) :
  GoString.slice s i (i + n) = String.substring i n s.
Proof. unfold GoString.slice. f_equal. lia. Qed.

Lemma findSubstring_loop_true (n i : nat) (s sub : string) :
  findSubstring_loop n i s sub = true -> occursIn sub s.
Proof.
  revert i. induction n as [|n IH]; intros i; simpl; [discriminate|].
  rewrite slice_substring.
  destruct (String.eqb_spec (String.substring i (String.length sub) s) sub) as [E|_].
  - intros _. eapply substring_eq_occurs, E.
  - apply IH.
Qed.

Lemma findSubstring_loop_finds (n i k : nat) (s sub : string) :
  (k < n)%nat ->
  String.substring (i + k) (String.length sub) s = sub ->
  findSubstring_loop n i s sub = true.
Proof.
  revert i k. induction n as [|n IH]; intros i k Hk H; [lia|]. simpl.
  rewrite slice_substring.
  destruct (String.eqb_spec (String.substring i (String.length sub) s) sub) as [_|Hne];
    [reflexivity|].
  destruct k as [|k].
  - rewrite Nat.add_0_r in H. contradiction.
  - apply (IH (S i) k); [lia|]. rewrite <- H at 2. f_equal. lia.
Qed.

(** [contains] decides occurrence as a substring. *)
Lemma contains_occursIn (s sub : string) :
  contains s sub = true <-> occursIn sub s.
Proof.
  unfold contains. split.
  - intros H. apply andb_true_iff in H. destruct H as [_ H].
    apply orb_true_iff in H. destruct H as [H | H].
    + apply String.eqb_eq in H. subst. exists "", "". simpl.
      symmetry. apply string_app_nil_r.
    + unfold findSubstring in H. eapply findSubstring_loop_true, H.
  - intros (pre & post & ->).
    rewrite !string_length_app.
    apply andb_true_iff. split; [apply Nat.leb_le; lia|].
    apply orb_true_iff. right. unfold findSubstring.
    apply (findSubstring_loop_finds _ 0 (String.length pre)).
    + rewrite !string_length_app. lia.
    + simpl. apply substring_at_occurrence.
Qed.

Lemma MatchesPattern_matches (e : LogEntry) (pattern : string) :
  MatchesPattern e pattern = true <-> pattern = "" \/ matches pattern e.
Proof.
  unfold MatchesPattern, matches.
  destruct (String.eqb_spec pattern "") as [->|Hne].
  - split; [intros _; left; reflexivity | reflexivity].
  - rewrite orb_true_iff, !contains_occursIn. tauto.
Qed.

(** C2.  [shouldInclude] accepts a record exactly when: no minimum level
    is set or the record's level is at least the minimum; no pattern is
    set or the pattern occurs in the record's message or raw text; no
    start time is set or the record is not before it; no end time is set
    or the record is not after it. *)
Theorem shouldInclude_iff (cfg : Config) (entry : LogEntry) :
  shouldInclude cfg entry = true <->
  (Level cfg = UNKNOWN \/ Level cfg <= models.Level entry) /\
  (Pattern cfg = "" \/ matches (Pattern cfg) entry) /\
  (StartTime cfg = zero \/ StartTime cfg <= Timestamp entry) /\
  (EndTime cfg = zero \/ Timestamp entry <= EndTime cfg).
Proof.
  unfold shouldInclude, IsZero, Before, After, zero.
  destruct (Z.eqb_spec (Level cfg) UNKNOWN) as [HL|HL];
  destruct (Z.ltb_spec (models.Level entry) (Level cfg)) as [HL'|HL'];
  destruct (String.eqb_spec (Pattern cfg) "") as [HP|HP];
  destruct (MatchesPattern entry (Pattern cfg)) eqn:HM;
  destruct (Z.eqb_spec (StartTime cfg) 0) as [HS|HS];
  destruct (Z.ltb_spec (Timestamp entry) (StartTime cfg)) as [HS'|HS'];
  destruct (Z.eqb_spec (EndTime cfg) 0) as [HE|HE];
  destruct (Z.ltb_spec (EndTime cfg) (Timestamp entry)) as [HE'|HE'];
  simpl;
  (assert (HM' : Pattern cfg = "" \/ matches (Pattern cfg) entry
                 <-> MatchesPattern entry (Pattern cfg) = true)
     by (symmetry; apply MatchesPattern_matches));
  rewrite HM in HM';
  (split; [intros H; try discriminate H;
           repeat split; try (left; assumption); try (right; lia);
           try (apply HM'; reflexivity)
          | intros (H1 & H2 & H3 & H4); try reflexivity; exfalso;
            try (apply HM' in H2; discriminate H2);
            try (destruct H1; [contradiction | lia]);
            try (destruct H3; [contradiction | lia]);
            try (destruct H4; [contradiction | lia]);
            try (destruct H2; contradiction)]).
Qed.

End Filtering.

(** ** Levels *)

Section Levels.

Import GoTime models parser analyzer levels.

Lemma ParseLogLevel_unrecognized (text : string) :
  ~ recognized text -> ParseLogLevel text = UNKNOWN.
Proof.
  unfold recognized, ParseLogLevel. intros H.
  repeat match goal with
  | |- context [String.eqb text ?k] =>
      destruct (String.eqb_spec text k) as [->|_];
      [exfalso; apply H; simpl; tauto|]
  end.
  reflexivity.
Qed.

Lemma shouldInclude_unknown_entry (cfg : Config) (entry : LogEntry) :
  models.Level entry = UNKNOWN -> Level cfg <= FATAL ->
  shouldInclude cfg entry = shouldInclude (withoutMinimum cfg) entry.
Proof.
  intros He Hc. unfold shouldInclude, withoutMinimum. simpl.
  rewrite He.
  destruct (Z.ltb_spec UNKNOWN (Level cfg)) as [H|_];
    [unfold UNKNOWN, FATAL in *; lia|].
  rewrite andb_false_r. reflexivity.
Qed.

(** C10.  A structured line whose level text is none of the known ones
    is parsed into an entry of level [UNKNOWN]; [UNKNOWN] is above
    [FATAL], so for every minimum level from [DEBUG] to [FATAL] the
    minimum-level test of [shouldInclude] does not reject the entry:
    [shouldInclude] decides as if no minimum level were set. *)
Theorem unknown_level_passes_every_minimum
    (json_Unmarshal : string -> result jsonLogEntry)
    (now : Z) (line source : string) (decoded : jsonLogEntry)
    (entry : LogEntry) (cfg : Config) :
  json_Unmarshal line = Ok decoded ->
  ~ recognized (GoString.ToUpper (j_Level decoded)) ->
  JSONLogParser_Parse json_Unmarshal now line source = Ok entry ->
  DEBUG <= Level cfg <= FATAL ->
  models.Level entry = UNKNOWN /\
  FATAL < UNKNOWN /\
  (models.Level entry <? Level cfg) = false /\
  shouldInclude cfg entry = shouldInclude (withoutMinimum cfg) entry.
Proof.
  intros Hdec Hun Hparse [_ Hmax].
  assert (HL : models.Level entry = UNKNOWN).
  { unfold JSONLogParser_Parse in Hparse. rewrite Hdec in Hparse.
    destruct (String.eqb (GoString.TrimSpace line) ""); [discriminate|].
    injection Hparse as <-. simpl. apply ParseLogLevel_unrecognized, Hun. }
  split; [exact HL|]. split; [reflexivity|]. split.
  - rewrite HL. apply Z.ltb_ge. unfold UNKNOWN, FATAL in *. lia.
  - apply shouldInclude_unknown_entry; assumption.
Qed.

Lemma unknown_level_passes_every_minimum_witness :
  let line := "{trace}" in
  let entry :=
    {| Timestamp := Date 2024 1 20 15 4 5 0; models.Level := UNKNOWN;
       Message := "tick"; Source := "a.log"; Raw := line |} in
  models.Level entry = UNKNOWN /\
  FATAL < UNKNOWN /\
  (models.Level entry <? Level errorsOnly) = false /\
  shouldInclude errorsOnly entry = shouldInclude (withoutMinimum errorsOnly) entry.
Proof.
  cbn zeta.
  refine (unknown_level_passes_every_minimum traceDecoder 0 "{trace}" "a.log"
            _ _ errorsOnly eq_refl _ _ _).
  - unfold recognized. vm_compute. intros H.
    repeat (destruct H as [H | H]; [discriminate H|]). exact H.
  - vm_compute. reflexivity.
  - vm_compute. split; discriminate.
Defined.

End Levels.

(** ** White space *)

Section WhiteSpace.

Import GoString whitespace.

Local Open Scope list_scope.

Local Arguments String.append !_ _ /.

Lemma HasPrefix_app (s p : string) :
  HasPrefix s p = true <-> exists post, s = (p ++ post)%string.
Proof.
  revert s. induction p as [|c p IH]; intros s; simpl.
  - split; [intros _; exists s; reflexivity | intros _; destruct s; reflexivity].
  - destruct s as [|d s]; simpl.
    + split; [discriminate | intros [post H]; discriminate H].
    + destruct (Ascii.eqb_spec c d) as [->|Hne].
      * rewrite IH. split; intros [post H]; exists post; congruence.
      * split; [discriminate | intros [post H]; congruence].
Qed.

Lemma drop_app_length (pre p : string) :
  GoString.drop (String.length pre) (pre ++ p)%string = p.
Proof. induction pre as [|c pre IH]; simpl; [reflexivity | exact IH]. Qed.

Lemma drop_split (n : nat) (s : string) :
  (n <= String.length s)%nat ->
  exists pre, s = (pre ++ GoString.drop n s)%string.
Proof.
  revert s. induction n as [|n IH]; intros s Hn.
  - exists ""%string. reflexivity.
  - destruct s as [|c s]; [simpl in Hn; lia|].
    destruct (IH s ltac:(simpl in Hn; lia)) as [pre Hpre].
    exists (String c pre). simpl. rewrite <- Hpre. reflexivity.
Qed.

Lemma HasSuffix_app (s p : string) :
  HasSuffix s p = true <-> exists pre, s = (pre ++ p)%string.
Proof.
  unfold HasSuffix. split.
  - intros H. apply andb_true_iff in H. destruct H as [Hlen Heq].
    apply Nat.leb_le in Hlen. apply String.eqb_eq in Heq.
    destruct (drop_split (String.length s - String.length p) s ltac:(lia))
      as [pre Hpre].
    exists pre. rewrite Heq in Hpre. exact Hpre.
  - intros [pre ->]. rewrite string_length_app.
    apply andb_true_iff. split; [apply Nat.leb_le; lia|].
    replace (String.length pre + String.length p - String.length p)%nat
      with (String.length pre) by lia.
    rewrite drop_app_length. apply String.eqb_refl.
Qed.

Lemma drop_length (n : nat) (s : string) :
  String.length (GoString.drop n s) = (String.length s - n)%nat.
Proof.
  revert s. induction n as [|n IH]; intros [|c s]; simpl; try reflexivity.
  apply IH.
Qed.

Lemma slice_prefix (pre rest : string) :
  slice (pre ++ rest) 0 (String.length pre) = pre.
Proof.
  unfold slice. rewrite Nat.sub_0_r.
  pose proof (substring_at_occurrence "" pre rest) as H. exact H.
Qed.

(** Two ways of cutting one string. *)
Lemma string_app_inv (a b c d : string) :
  (a ++ b = c ++ d)%string ->
  exists m, (c = a ++ m /\ b = m ++ d)%string \/ (a = c ++ m /\ d = m ++ b)%string.
Proof.
  revert c. induction a as [|x a IH]; intros c H.
  - exists c. left. split; [reflexivity | exact H].
  - destruct c as [|y c].
    + exists (String x a). right. split; [reflexivity | symmetry; exact H].
    + cbn [String.append] in H. injection H as -> H.
      destruct (IH c H) as [m [[-> ->] | [-> ->]]]; exists m;
        [left | right]; split; reflexivity.
Qed.

Lemma string_app_nil (a b : string) : (a ++ b)%string = ""%string -> a = ""%string /\ b = ""%string.
Proof. destruct a; [intros H; split; [reflexivity | exact H] | discriminate]. Qed.

Lemma string_app_cancel_l (a b c : string) : (a ++ b = a ++ c)%string -> b = c.
Proof.
  induction a as [|x a IH]; cbn [String.append]; [tauto|].
  intros H. injection H as H. exact (IH H).
Qed.

Lemma string_app_same_r (a b : string) : (a ++ b)%string = a -> b = ""%string.
Proof.
  intros H. apply (string_app_cancel_l a). rewrite string_app_nil_r. exact H.
Qed.

Lemma EncodeRunes_app (rs1 rs2 : list Z) :
  EncodeRunes (rs1 ++ rs2) = (EncodeRunes rs1 ++ EncodeRunes rs2)%string.
Proof.
  induction rs1 as [|r rs1 IH]; [reflexivity|].
  cbn [EncodeRunes fold_right app]. fold (EncodeRunes (rs1 ++ rs2)).
  fold (EncodeRunes rs1). rewrite IH, string_app_assoc. reflexivity.
Qed.

Lemma continuations_app (a b : string) :
  continuations (a ++ b) = continuations a && continuations b.
Proof.
  induction a as [|c a IH]; cbn [String.append continuations]; [reflexivity|].
  rewrite IH, andb_assoc. reflexivity.
Qed.

Lemma occurs_app (c : ascii) (a b : string) :
  occurs c (a ++ b) = occurs c a || occurs c b.
Proof.
  induction a as [|d a IH]; cbn [String.append occurs]; [reflexivity|].
  rewrite IH, orb_assoc. reflexivity.
Qed.

(** *** The encodings of the white space runes *)

Lemma space_facts (r : Z) :
  In r White_Space ->
  (1 <= String.length (EncodeRune r))%nat /\
  (exists b cs, EncodeRune r = String b cs /\ continuation b = false /\
                continuations cs = true) /\
  (forall q, In q White_Space ->
     HasPrefix (EncodeRune r) (EncodeRune q) = true ->
     EncodeRune q = EncodeRune r) /\
  (forall q, In q White_Space ->
     HasSuffix (EncodeRune r) (EncodeRune q) = true ->
     EncodeRune q = EncodeRune r).
Proof.
  assert (H : forallb (fun r =>
                (1 <=? String.length (EncodeRune r))%nat &&
                match EncodeRune r with
                | String b cs => negb (continuation b) && continuations cs
                | EmptyString => false
                end &&
                forallb (fun q =>
                  implb (HasPrefix (EncodeRune r) (EncodeRune q))
                        (String.eqb (EncodeRune q) (EncodeRune r)) &&
                  implb (HasSuffix (EncodeRune r) (EncodeRune q))
                        (String.eqb (EncodeRune q) (EncodeRune r)))
                  White_Space) White_Space = true)
    by (vm_compute; reflexivity).
  rewrite forallb_forall in H. intros Hr. specialize (H r Hr).
  apply andb_true_iff in H. destruct H as [H H3].
  apply andb_true_iff in H. destruct H as [H1 H2].
  split; [apply Nat.leb_le; exact H1|]. split.
  { destruct (EncodeRune r) as [|b cs]; [discriminate|].
    apply andb_true_iff in H2. destruct H2 as [Hb Hcs].
    exists b, cs. split; [reflexivity|].
    split; [apply negb_true_iff; exact Hb | exact Hcs]. }
  rewrite forallb_forall in H3.
  split; intros q Hq Hp; specialize (H3 q Hq);
    apply andb_true_iff in H3; destruct H3 as [Ha Hb];
    rewrite Hp in *; apply String.eqb_eq; assumption.
Qed.

Lemma space_prefix_free (r q : Z) (x y : string) :
  In r White_Space -> In q White_Space ->
  (EncodeRune r ++ x = EncodeRune q ++ y)%string ->
  EncodeRune q = EncodeRune r /\ x = y.
Proof.
  intros Hr Hq H.
  assert (E : EncodeRune q = EncodeRune r).
  { destruct (string_app_inv _ _ _ _ H) as [m [[Hm _] | [Hm _]]].
    - destruct (space_facts q Hq) as (_ & _ & Hpre & _).
      symmetry. apply Hpre; [exact Hr|]. apply HasPrefix_app. exists m. exact Hm.
    - destruct (space_facts r Hr) as (_ & _ & Hpre & _).
      apply Hpre; [exact Hq|]. apply HasPrefix_app. exists m. exact Hm. }
  split; [exact E|]. rewrite E in H. exact (string_app_cancel_l _ _ _ H).
Qed.

Lemma string_app_cancel_r (a b c : string) : (a ++ c = b ++ c)%string -> a = b.
Proof.
  revert b. induction a as [|x a IH]; intros b H.
  - destruct b as [|y b]; [reflexivity|]. exfalso.
    apply (f_equal String.length) in H. cbn [String.append String.length] in H.
    rewrite string_length_app in H. lia.
  - destruct b as [|y b].
    + exfalso. apply (f_equal String.length) in H.
      cbn [String.append String.length] in H.
      rewrite string_length_app in H. lia.
    + cbn [String.append] in H. injection H as -> H. rewrite (IH b H). reflexivity.
Qed.

Lemma space_suffix_free (r q : Z) (x y : string) :
  In r White_Space -> In q White_Space ->
  (x ++ EncodeRune r = y ++ EncodeRune q)%string ->
  EncodeRune q = EncodeRune r /\ x = y.
Proof.
  intros Hr Hq H.
  assert (E : EncodeRune q = EncodeRune r).
  { destruct (string_app_inv _ _ _ _ H) as [m [[_ Hm] | [_ Hm]]].
    - destruct (space_facts r Hr) as (_ & _ & _ & Hsuf).
      apply Hsuf; [exact Hq|]. apply HasSuffix_app. exists m. exact Hm.
    - destruct (space_facts q Hq) as (_ & _ & _ & Hsuf).
      symmetry. apply Hsuf; [exact Hr|]. apply HasSuffix_app. exists m. exact Hm. }
  split; [exact E|]. rewrite E in H. exact (string_app_cancel_r _ _ _ H).
Qed.

(** *** The white space at the head and at the end of a string *)

Lemma spaceWidth_Some (runes : list Z) (s : string) (n : nat) :
  spaceWidth runes s = Some n ->
  exists r rest, In r runes /\ s = (EncodeRune r ++ rest)%string /\
                 n = String.length (EncodeRune r).
Proof.
  induction runes as [|r runes IH]; [discriminate|]. cbn [spaceWidth].
  destruct (HasPrefix s (EncodeRune r)) eqn:E.
  - intros [= <-]. apply HasPrefix_app in E. destruct E as [rest ->].
    exists r, rest. split; [left; reflexivity | split; reflexivity].
  - intros H. destruct (IH H) as (q & rest & Hq & Hs & Hn).
    exists q, rest. split; [right; exact Hq | split; assumption].
Qed.

Lemma spaceWidth_None (runes : list Z) (s : string) :
  spaceWidth runes s = None <->
  (forall r rest, In r runes -> s <> (EncodeRune r ++ rest)%string).
Proof.
  induction runes as [|r runes IH]; cbn [spaceWidth].
  - split; [intros _ r rest [] | reflexivity].
  - destruct (HasPrefix s (EncodeRune r)) eqn:E.
    + split; [discriminate|]. intros H. exfalso.
      apply HasPrefix_app in E. destruct E as [rest E].
      exact (H r rest (or_introl eq_refl) E).
    + rewrite IH. split.
      * intros H q rest [<-|Hq] Hs; [|exact (H q rest Hq Hs)].
        assert (HasPrefix s (EncodeRune r) = true)
          by (apply HasPrefix_app; exists rest; exact Hs).
        congruence.
      * intros H q rest Hq. apply H. right. exact Hq.
Qed.

Lemma lastSpaceWidth_Some (runes : list Z) (s : string) (n : nat) :
  lastSpaceWidth runes s = Some n ->
  exists r pre, In r runes /\ s = (pre ++ EncodeRune r)%string /\
                n = String.length (EncodeRune r).
Proof.
  induction runes as [|r runes IH]; [discriminate|]. cbn [lastSpaceWidth].
  destruct (HasSuffix s (EncodeRune r)) eqn:E.
  - intros [= <-]. apply HasSuffix_app in E. destruct E as [pre ->].
    exists r, pre. split; [left; reflexivity | split; reflexivity].
  - intros H. destruct (IH H) as (q & pre & Hq & Hs & Hn).
    exists q, pre. split; [right; exact Hq | split; assumption].
Qed.

Lemma lastSpaceWidth_None (runes : list Z) (s : string) :
  lastSpaceWidth runes s = None <->
  (forall r pre, In r runes -> s <> (pre ++ EncodeRune r)%string).
Proof.
  induction runes as [|r runes IH]; cbn [lastSpaceWidth].
  - split; [intros _ r pre [] | reflexivity].
  - destruct (HasSuffix s (EncodeRune r)) eqn:E.
    + split; [discriminate|]. intros H. exfalso.
      apply HasSuffix_app in E. destruct E as [pre E].
      exact (H r pre (or_introl eq_refl) E).
    + rewrite IH. split.
      * intros H q pre [<-|Hq] Hs; [|exact (H q pre Hq Hs)].
        assert (HasSuffix s (EncodeRune r) = true)
          by (apply HasSuffix_app; exists pre; exact Hs).
        congruence.
      * intros H q pre Hq. apply H. right. exact Hq.
Qed.

Lemma slice_app_prefix (pre p : string) :
  slice (pre ++ p) 0 (String.length (pre ++ p) - String.length p) = pre.
Proof.
  rewrite string_length_app.
  replace (String.length pre + String.length p - String.length p)%nat
    with (String.length pre) by lia.
  apply slice_prefix.
Qed.

(** *** Trimming at the left *)

Lemma trimLeft_loop_nil (fuel : nat) : trimLeft_loop fuel "" = ""%string.
Proof. destruct fuel; reflexivity. Qed.

Lemma trimLeft_loop_enough (fuel1 fuel2 : nat) (s : string) :
  (String.length s <= fuel1)%nat -> (String.length s <= fuel2)%nat ->
  trimLeft_loop fuel1 s = trimLeft_loop fuel2 s.
Proof.
  revert fuel2 s. induction fuel1 as [|fuel1 IH]; intros fuel2 s H1 H2.
  - destruct s; [|simpl in H1; lia]. rewrite !trimLeft_loop_nil. reflexivity.
  - destruct fuel2 as [|fuel2].
    { destruct s; [|simpl in H2; lia]. rewrite !trimLeft_loop_nil. reflexivity. }
    cbn [trimLeft_loop].
    destruct (spaceWidth White_Space s) as [n|] eqn:E; [|reflexivity].
    destruct (spaceWidth_Some _ _ _ E) as (r & rest & Hr & -> & ->).
    destruct (space_facts r Hr) as (Hlen & _).
    rewrite drop_app_length. rewrite string_length_app in H1, H2.
    apply IH; lia.
Qed.

Lemma trimLeft_eq (s : string) :
  trimLeft s
  = match spaceWidth White_Space s with
    | Some n => trimLeft (GoString.drop n s)
    | None => s
    end.
Proof.
  unfold trimLeft. destruct s as [|c s]; [reflexivity|].
  cbn [String.length trimLeft_loop].
  destruct (spaceWidth White_Space (String c s)) as [n|] eqn:E; [|reflexivity].
  destruct (spaceWidth_Some _ _ _ E) as (r & rest & Hr & Hs & ->).
  destruct (space_facts r Hr) as (Hlen & _).
  apply trimLeft_loop_enough; rewrite drop_length; cbn [String.length]; lia.
Qed.

Lemma trimLeft_fixed (s : string) :
  spaceWidth White_Space s = None -> trimLeft s = s.
Proof. intros H. rewrite trimLeft_eq, H. reflexivity. Qed.

Lemma trimLeft_space (r : Z) (s : string) :
  In r White_Space -> trimLeft (EncodeRune r ++ s) = trimLeft s.
Proof.
  intros Hr. rewrite trimLeft_eq.
  destruct (spaceWidth White_Space (EncodeRune r ++ s)) as [n|] eqn:E.
  - destruct (spaceWidth_Some _ _ _ E) as (q & rest & Hq & Hs & ->).
    destruct (space_prefix_free r q s rest Hr Hq Hs) as [-> ->].
    rewrite drop_app_length. reflexivity.
  - exfalso. rewrite spaceWidth_None in E. exact (E r s Hr eq_refl).
Qed.

Lemma trimLeft_spaces (runes : list Z) (s : string) :
  Forall (fun r => In r White_Space) runes ->
  trimLeft (EncodeRunes runes ++ s) = trimLeft s.
Proof.
  induction 1 as [|r runes Hr _ IH]; [reflexivity|].
  cbn [EncodeRunes fold_right]. fold (EncodeRunes runes).
  rewrite string_app_assoc, trimLeft_space by exact Hr. exact IH.
Qed.

Lemma trimLeft_loop_split (fuel : nat) (s : string) :
  exists runes, Forall (fun r => In r White_Space) runes /\
                s = (EncodeRunes runes ++ trimLeft_loop fuel s)%string.
Proof.
  revert s. induction fuel as [|fuel IH]; intros s.
  - exists []. split; [constructor | reflexivity].
  - cbn [trimLeft_loop].
    destruct (spaceWidth White_Space s) as [n|] eqn:E.
    + destruct (spaceWidth_Some _ _ _ E) as (r & rest & Hr & -> & ->).
      rewrite drop_app_length. destruct (IH rest) as (runes & Hall & Hrest).
      exists (r :: runes). split; [constructor; assumption|].
      cbn [EncodeRunes fold_right]. fold (EncodeRunes runes).
      rewrite string_app_assoc, <- Hrest. reflexivity.
    + exists []. split; [constructor | reflexivity].
Qed.

Lemma trimLeft_split (s : string) :
  exists runes, Forall (fun r => In r White_Space) runes /\
                s = (EncodeRunes runes ++ trimLeft s)%string.
Proof. apply trimLeft_loop_split. Qed.

Lemma trimLeft_stops (s : string) :
  spaceWidth White_Space (trimLeft s) = None.
Proof.
  remember (String.length s) as k eqn:Hk. revert s Hk.
  induction k as [k IH] using lt_wf_ind. intros s Hk.
  rewrite trimLeft_eq.
  destruct (spaceWidth White_Space s) as [n|] eqn:E; [|exact E].
  destruct (spaceWidth_Some _ _ _ E) as (r & rest & Hr & -> & ->).
  destruct (space_facts r Hr) as (Hlen & _).
  rewrite drop_app_length. rewrite string_length_app in Hk.
  apply (IH (String.length rest)); [lia | reflexivity].
Qed.

(** *** Trimming at the right *)

Lemma trimRight_loop_nil (fuel : nat) : trimRight_loop fuel "" = ""%string.
Proof. destruct fuel; reflexivity. Qed.

Lemma trimRight_loop_enough (fuel1 fuel2 : nat) (s : string) :
  (String.length s <= fuel1)%nat -> (String.length s <= fuel2)%nat ->
  trimRight_loop fuel1 s = trimRight_loop fuel2 s.
Proof.
  revert fuel2 s. induction fuel1 as [|fuel1 IH]; intros fuel2 s H1 H2.
  - destruct s; [|simpl in H1; lia]. rewrite !trimRight_loop_nil. reflexivity.
  - destruct fuel2 as [|fuel2].
    { destruct s; [|simpl in H2; lia]. rewrite !trimRight_loop_nil. reflexivity. }
    cbn [trimRight_loop].
    destruct (lastSpaceWidth White_Space s) as [n|] eqn:E; [|reflexivity].
    destruct (lastSpaceWidth_Some _ _ _ E) as (r & pre & Hr & -> & ->).
    destruct (space_facts r Hr) as (Hlen & _).
    rewrite slice_app_prefix. rewrite string_length_app in H1, H2.
    apply IH; lia.
Qed.

Lemma trimRight_eq (s : string) :
  trimRight s
  = match lastSpaceWidth White_Space s with
    | Some n => trimRight (slice s 0 (String.length s - n))
    | None => s
    end.
Proof.
  unfold trimRight. destruct s as [|c s]; [reflexivity|].
  cbn [String.length trimRight_loop].
  destruct (lastSpaceWidth White_Space (String c s)) as [n|] eqn:E;
    [|reflexivity].
  destruct (lastSpaceWidth_Some _ _ _ E) as (r & pre & Hr & Hs & ->).
  destruct (space_facts r Hr) as (Hlen & _).
  change (S (String.length s)) with (String.length (String c s)).
  rewrite Hs, slice_app_prefix.
  apply (f_equal String.length) in Hs. rewrite string_length_app in Hs.
  cbn [String.length] in Hs.
  apply trimRight_loop_enough; lia.
Qed.

Lemma trimRight_fixed (s : string) :
  lastSpaceWidth White_Space s = None -> trimRight s = s.
Proof. intros H. rewrite trimRight_eq, H. reflexivity. Qed.

Lemma trimRight_space (r : Z) (s : string) :
  In r White_Space -> trimRight (s ++ EncodeRune r) = trimRight s.
Proof.
  intros Hr. rewrite trimRight_eq.
  destruct (lastSpaceWidth White_Space (s ++ EncodeRune r)) as [n|] eqn:E.
  - destruct (lastSpaceWidth_Some _ _ _ E) as (q & pre & Hq & Hs & ->).
    destruct (space_suffix_free r q s pre Hr Hq Hs) as [-> _].
    rewrite slice_app_prefix. reflexivity.
  - exfalso. rewrite lastSpaceWidth_None in E. exact (E r s Hr eq_refl).
Qed.

Lemma trimRight_spaces (runes : list Z) (s : string) :
  Forall (fun r => In r White_Space) runes ->
  trimRight (s ++ EncodeRunes runes) = trimRight s.
Proof.
  induction runes as [|r runes IH] using rev_ind; intros Hall.
  - cbn [EncodeRunes fold_right]. rewrite string_app_nil_r. reflexivity.
  - apply Forall_app in Hall. destruct Hall as [Hall Hr].
    inversion Hr as [|? ? Hr' _]; subst.
    rewrite EncodeRunes_app. cbn [EncodeRunes fold_right].
    rewrite string_app_nil_r, <- string_app_assoc, trimRight_space by exact Hr'.
    apply IH, Hall.
Qed.

Lemma trimRight_loop_split (fuel : nat) (s : string) :
  exists runes, Forall (fun r => In r White_Space) runes /\
                s = (trimRight_loop fuel s ++ EncodeRunes runes)%string.
Proof.
  revert s. induction fuel as [|fuel IH]; intros s.
  - exists []. split; [constructor|]. cbn [trimRight_loop EncodeRunes fold_right].
    rewrite string_app_nil_r. reflexivity.
  - cbn [trimRight_loop].
    destruct (lastSpaceWidth White_Space s) as [n|] eqn:E.
    + destruct (lastSpaceWidth_Some _ _ _ E) as (r & pre & Hr & -> & ->).
      rewrite slice_app_prefix. destruct (IH pre) as (runes & Hall & Hpre).
      exists (runes ++ [r]). split.
      * apply Forall_app. split; [exact Hall | constructor; [exact Hr | constructor]].
      * rewrite EncodeRunes_app. cbn [EncodeRunes fold_right].
        rewrite string_app_nil_r, <- string_app_assoc, <- Hpre. reflexivity.
    + exists []. split; [constructor|]. cbn [EncodeRunes fold_right].
      rewrite string_app_nil_r. reflexivity.
Qed.

Lemma trimRight_split (s : string) :
  exists runes, Forall (fun r => In r White_Space) runes /\
                s = (trimRight s ++ EncodeRunes runes)%string.
Proof. apply trimRight_loop_split. Qed.

Lemma trimRight_stops (s : string) :
  lastSpaceWidth White_Space (trimRight s) = None.
Proof.
  remember (String.length s) as k eqn:Hk. revert s Hk.
  induction k as [k IH] using lt_wf_ind. intros s Hk.
  rewrite trimRight_eq.
  destruct (lastSpaceWidth White_Space s) as [n|] eqn:E; [|exact E].
  destruct (lastSpaceWidth_Some _ _ _ E) as (r & pre & Hr & -> & ->).
  destruct (space_facts r Hr) as (Hlen & _).
  rewrite slice_app_prefix. rewrite string_length_app in Hk.
  apply (IH (String.length pre)); [lia | reflexivity].
Qed.

Lemma trimRight_idempotent (s : string) : trimRight (trimRight s) = trimRight s.
Proof. apply trimRight_fixed, trimRight_stops. Qed.

(** *** Both ends *)

Lemma EncodeRunes_head (runes : list Z) :
  Forall (fun r => In r White_Space) runes ->
  EncodeRunes runes = ""%string \/
  exists r rest, In r White_Space /\
                 EncodeRunes runes = (EncodeRune r ++ rest)%string.
Proof.
  intros [|r runes' Hr _]; [left; reflexivity|].
  right. exists r, (EncodeRunes runes'). split; [exact Hr | reflexivity].
Qed.

(** What is left of a string that does not start with white space does
    not start with white space either. *)
Lemma spaceWidth_prefix (t suf : string) :
  spaceWidth White_Space (t ++ suf) = None -> t <> ""%string ->
  spaceWidth White_Space t = None.
Proof.
  rewrite !spaceWidth_None. intros H Hne r rest Hr Ht.
  apply (H r (rest ++ suf)%string Hr). rewrite Ht, string_app_assoc. reflexivity.
Qed.

Lemma TrimSpace_idempotent (s : string) :
  TrimSpace (TrimSpace s) = TrimSpace s.
Proof.
  unfold TrimSpace.
  destruct (trimRight_split (trimLeft s)) as (runes & _ & Hw).
  pose proof (trimLeft_stops s) as Hstop. rewrite Hw in Hstop.
  destruct (String.eqb_spec (trimRight (trimLeft s)) "") as [->|Hne];
    [reflexivity|].
  rewrite (trimLeft_fixed _ (spaceWidth_prefix _ _ Hstop Hne)).
  apply trimRight_idempotent.
Qed.

Lemma trimRight_whiteSpaceOnly (s : string) :
  whiteSpaceOnly s -> trimRight s = ""%string.
Proof.
  intros (runes & Hall & ->).
  change (EncodeRunes runes) with (""%string ++ EncodeRunes runes)%string.
  rewrite trimRight_spaces by exact Hall. reflexivity.
Qed.

(** A string is blank for [strings.TrimSpace] exactly when it is made of
    white space only. *)
Lemma TrimSpace_empty (s : string) :
  TrimSpace s = ""%string <-> whiteSpaceOnly s.
Proof.
  unfold TrimSpace. split.
  - intros H.
    destruct (trimRight_split (trimLeft s)) as (runes & Hall & Hw).
    rewrite H in Hw. cbn [String.append] in Hw.
    pose proof (trimLeft_stops s) as Hstop. rewrite Hw in Hstop.
    destruct (EncodeRunes_head runes Hall) as [E | (r & rest & Hr & E)].
    + destruct (trimLeft_split s) as (runes' & Hall' & Hs).
      rewrite Hw, E, string_app_nil_r in Hs. exists runes'. split; assumption.
    + exfalso. rewrite spaceWidth_None in Hstop. exact (Hstop r rest Hr E).
  - intros (runes & Hall & ->).
    rewrite <- (string_app_nil_r (EncodeRunes runes)).
    rewrite trimLeft_spaces by exact Hall. reflexivity.
Qed.

(** The end of a run of white space runes that starts at a byte which is
    no continuation byte and goes on with continuation bytes is the last
    rune of the run. *)
Lemma EncodeRunes_last (runes : list Z) (y : string) (b : ascii) (cs : string) :
  Forall (fun r => In r White_Space) runes ->
  EncodeRunes runes = (y ++ String b cs)%string ->
  continuation b = false -> continuations cs = true ->
  exists q, In q White_Space /\ String b cs = EncodeRune q.
Proof.
  intros Hall. revert y. induction Hall as [|r runes Hr Hall IH]; intros y H Hb Hcs.
  - destruct y; discriminate H.
  - cbn [EncodeRunes fold_right] in H. fold (EncodeRunes runes) in H.
    destruct (string_app_inv _ _ _ _ H) as [m [[-> Hm] | [Hm Hd]]].
    + exact (IH m Hm Hb Hcs).
    + destruct m as [|b' m].
      * cbn [String.append] in Hd. apply (IH ""%string); [|exact Hb|exact Hcs].
        symmetry. exact Hd.
      * cbn [String.append] in Hd. injection Hd as <- Hd.
        destruct (space_facts r Hr) as (_ & (br & csr & Er & Hbr & Hcsr) & _).
        destruct y as [|by' y].
        -- cbn [String.append] in Hm.
           destruct (EncodeRunes_head runes Hall) as [E | (q & rest & Hq & E)].
           ++ rewrite E, string_app_nil_r in Hd. subst cs.
              exists r. split; [exact Hr | symmetry; exact Hm].
           ++ exfalso. rewrite E in Hd. subst cs.
              destruct (space_facts q Hq) as (_ & (bq & csq & Eq & Hbq & _) & _).
              rewrite Eq in Hcs. rewrite continuations_app in Hcs.
              cbn [String.append continuations] in Hcs.
              rewrite Hbq in Hcs. cbn [andb] in Hcs.
              rewrite andb_false_r in Hcs. discriminate Hcs.
        -- exfalso. rewrite Er in Hm. cbn [String.append] in Hm.
           injection Hm as _ Hm. rewrite Hm in Hcsr.
           rewrite continuations_app in Hcsr. cbn [continuations] in Hcsr.
           rewrite Hb in Hcsr. cbn [andb] in Hcsr.
           rewrite andb_false_r in Hcsr. discriminate Hcsr.
Qed.

(** White space before a string that does not end with white space does
    not make it end with white space. *)
Lemma lastSpaceWidth_after_spaces (runes : list Z) (t : string) :
  Forall (fun r => In r White_Space) runes -> t <> ""%string ->
  lastSpaceWidth White_Space t = None ->
  lastSpaceWidth White_Space (EncodeRunes runes ++ t) = None.
Proof.
  intros Hall Hne Ht. rewrite lastSpaceWidth_None in *.
  intros r pre Hr H.
  destruct (string_app_inv _ _ _ _ H) as [m [[-> Hm] | [Hm Hd]]].
  - exact (Ht r m Hr Hm).
  - destruct m as [|b m].
    + cbn [String.append] in Hd. apply (Ht r ""%string Hr). symmetry. exact Hd.
    + destruct (space_facts r Hr) as (_ & (br & csr & Er & Hbr & Hcsr) & _).
      rewrite Er in Hd. cbn [String.append] in Hd. injection Hd as -> Hd.
      rewrite Hd, continuations_app in Hcsr.
      apply andb_true_iff in Hcsr. destruct Hcsr as [Hm' _].
      destruct (EncodeRunes_last runes pre b m Hall Hm Hbr Hm')
        as (q & Hq & Eq).
      assert (E : (EncodeRune q ++ t)%string = (EncodeRune r ++ "")%string).
      { rewrite string_app_nil_r, Er, <- Eq, Hd. reflexivity. }
      destruct (space_prefix_free q r t ""%string Hq Hr E) as [_ Hnil].
      contradiction.
Qed.

Lemma TrimSpace_trimRight (s : string) : TrimSpace (trimRight s) = TrimSpace s.
Proof.
  destruct (trimLeft_split s) as (pre & Hpre & Hs).
  destruct (trimRight_split (trimLeft s)) as (suf & Hsuf & Hw).
  pose proof (trimLeft_stops s) as Hstop.
  pose proof (trimRight_stops (trimLeft s)) as Hlast.
  fold (TrimSpace s) in Hw, Hlast. rewrite Hw in Hstop, Hs.
  destruct (String.eqb_spec (TrimSpace s) "") as [E|Hne].
  - rewrite E. rewrite E in Hs. cbn [String.append] in Hs.
    assert (Hall : whiteSpaceOnly s).
    { exists (pre ++ suf). split; [apply Forall_app; split; assumption|].
      rewrite EncodeRunes_app. exact Hs. }
    rewrite (trimRight_whiteSpaceOnly s Hall). reflexivity.
  - assert (Hr : trimRight s = (EncodeRunes pre ++ TrimSpace s)%string).
    { rewrite Hs at 1. rewrite <- string_app_assoc.
      rewrite trimRight_spaces by exact Hsuf.
      apply trimRight_fixed, lastSpaceWidth_after_spaces; assumption. }
    rewrite Hr. unfold TrimSpace at 1.
    rewrite trimLeft_spaces by exact Hpre.
    rewrite (trimLeft_fixed _ (spaceWidth_prefix _ _ Hstop Hne)).
    apply trimRight_fixed, Hlast.
Qed.

(** *** Bytes that are part of no white space *)

Lemma plain_occurs (c : ascii) (r : Z) (u v : string) :
  plain c = true -> In r White_Space -> EncodeRune r <> (u ++ String c v)%string.
Proof.
  unfold plain. rewrite forallb_forall. intros H Hr E.
  specialize (H r Hr). rewrite E, occurs_app in H.
  cbn [occurs] in H. rewrite Ascii.eqb_refl in H. cbn [orb] in H.
  rewrite orb_true_r in H. discriminate H.
Qed.

Lemma trimLeft_plain (c : ascii) (s : string) :
  plain c = true -> trimLeft (String c s) = String c s.
Proof.
  intros Hc. apply trimLeft_fixed, spaceWidth_None. intros r rest Hr E.
  destruct (space_facts r Hr) as (_ & (b & cs & Er & _) & _).
  rewrite Er in E. cbn [String.append] in E. injection E as <- _.
  exact (plain_occurs c r ""%string cs Hc Hr Er).
Qed.

Lemma trimRight_plain (pre : string) (c : ascii) (rest : string) :
  plain c = true ->
  trimRight (pre ++ String c rest) = (pre ++ String c (trimRight rest))%string.
Proof.
  intros Hc. destruct (trimRight_split rest) as (runes & Hall & Hrest).
  rewrite Hrest at 1.
  replace (pre ++ String c (trimRight rest ++ EncodeRunes runes))%string
    with ((pre ++ String c (trimRight rest)) ++ EncodeRunes runes)%string
    by (rewrite string_app_assoc; reflexivity).
  rewrite trimRight_spaces by exact Hall.
  apply trimRight_fixed, lastSpaceWidth_None. intros r y Hr E.
  pose proof (trimRight_stops rest) as Hstop.
  rewrite lastSpaceWidth_None in Hstop.
  destruct (string_app_inv _ _ _ _ E) as [m [[-> Hm] | [_ Hd]]].
  - destruct m as [|c' m].
    + cbn [String.append] in Hm.
      exact (plain_occurs c r ""%string _ Hc Hr (eq_sym Hm)).
    + cbn [String.append] in Hm. injection Hm as _ Hm.
      exact (Hstop r m Hr Hm).
  - exact (plain_occurs c r m _ Hc Hr Hd).
Qed.

End WhiteSpace.

(** ** The free-text parser *)

Section PlainText.

Import GoTime models parser whitespace.

(** C7.  The line [[2024-01-20 15:04:05] ERROR: disk full] is parsed,
    for any source label and whatever the clock, into the record with
    level ERROR, message [disk full] and timestamp January 20, 2024,
    15:04:05 UTC (1705763045 seconds after the Unix epoch). *)
Theorem plain_text_scenario (now : Z) (source : string) :
  PlainTextLogParser_Parse now "[2024-01-20 15:04:05] ERROR: disk full" source
  = Ok {| Timestamp := Date 2024 1 20 15 4 5 0; Level := ERROR;
          Message := "disk full"; Source := source;
          Raw := "[2024-01-20 15:04:05] ERROR: disk full" |}
  /\ Unix (Date 2024 1 20 15 4 5 0) = 1705763045.
Proof. split; vm_compute; reflexivity. Qed.

(** C8 (as amended).  [CanParse] of the free-text parser accepts every
    line that holds something other than white space (white space as
    Unicode defines it, which is what [strings.TrimSpace] removes), and
    only those: the lines that its [Parse] accepts. *)
Theorem plain_text_CanParse_iff (line : string) :
  (PlainTextLogParser_CanParse line = true <-> ~ whiteSpaceOnly line) /\
  (forall (now : Z) (source : string),
     PlainTextLogParser_CanParse line = true <->
     exists entry, PlainTextLogParser_Parse now line source = Ok entry).
Proof.
  assert (Hblank : PlainTextLogParser_CanParse line = true
                   <-> GoString.TrimSpace line <> "").
  { unfold PlainTextLogParser_CanParse.
    destruct (GoString.TrimSpace line); simpl; split;
      congruence || discriminate || reflexivity. }
  split.
  - rewrite Hblank, TrimSpace_empty. reflexivity.
  - intros now source. rewrite Hblank. unfold PlainTextLogParser_Parse.
    destruct (String.eqb_spec (GoString.TrimSpace line) "") as [E|E].
    + split; [contradiction | intros [e He]; discriminate].
    + split; [|intros _; exact E]. intros _.
      destruct (match extractTimestamp line with
                | Ok (timestamp, rest) => (timestamp, rest)
                | Err _ => (now, line) end) as [t r].
      destruct (extractLevelAndMessage r) as [l m]. eexists. reflexivity.
Qed.

(** C8, the claim as written, fails: [CanParse] rejects the empty line, a
    line of spaces, and a line of a no-break space and a tab. *)
Lemma plain_text_CanParse_blank :
  PlainTextLogParser_CanParse "" = false /\
  PlainTextLogParser_CanParse "   " = false /\
  PlainTextLogParser_CanParse
    (GoString.EncodeRune 160 ++ String (ascii_of_nat 9) "") = false.
Proof. repeat split; vm_compute; reflexivity. Qed.

End PlainText.

(** ** The analyzer: one file *)

Section AnalyzeFile.

Import GoTime models parser analyzer analysis.

Local Open Scope list_scope.

Variable json_Unmarshal : string -> result jsonLogEntry.
Variable os_Open : string -> result OsFile.
Variable filepath_Walk : string -> list filepath.Visit.
Variable time_Now : string -> nat -> Z.

Lemma actionEntries_app (xs ys : list Action) :
  actionEntries (xs ++ ys) = actionEntries xs ++ actionEntries ys.
Proof. unfold actionEntries. apply flat_map_app. Qed.

Lemma actionSizes_app (xs ys : list Action) :
  actionSizes (xs ++ ys) = actionSizes xs ++ actionSizes ys.
Proof. unfold actionSizes. apply flat_map_app. Qed.

Lemma actionEntries_batch (batch : list LogEntry) (acts : list Action) :
  actionEntries (DoAddBatch batch :: acts) = batch ++ actionEntries acts.
Proof. reflexivity. Qed.

Lemma actionSizes_batch (batch : list LogEntry) (acts : list Action) :
  actionSizes (DoAddBatch batch :: acts) = actionSizes acts.
Proof. reflexivity. Qed.

(** The batches of the scanning loop hold, in order, the local slice and
    then the contributions of the lines. *)
Lemma AnalyzeFile_loop_entries (a : Analyzer) (filePath : string)
    (lines : list string) (lineCount : nat) (local : list LogEntry) :
  actionEntries
    (AnalyzeFile_loop json_Unmarshal time_Now a filePath lines lineCount local)
  = local ++ kept json_Unmarshal time_Now a filePath lines lineCount.
Proof.
  revert lineCount local.
  induction lines as [|line lines IH]; intros lineCount local; simpl.
  - destruct local; simpl; [reflexivity|]. rewrite !app_nil_r. reflexivity.
  - unfold lineEntries.
    destruct (String.eqb line ""); [apply IH|].
    destruct (Parse json_Unmarshal _ _ line _) as [entry|err]; [|apply IH].
    destruct (shouldInclude (config a) entry); cbn [negb]; cbn zeta; [|apply IH].
    destruct (1000 <=? Z.of_nat (length (local ++ [entry]))).
    + rewrite actionEntries_batch, IH. simpl. rewrite <- app_assoc. reflexivity.
    + rewrite IH. rewrite <- app_assoc. reflexivity.
Qed.

Lemma AnalyzeFile_loop_sizes (a : Analyzer) (filePath : string)
    (lines : list string) (lineCount : nat) (local : list LogEntry) :
  actionSizes
    (AnalyzeFile_loop json_Unmarshal time_Now a filePath lines lineCount local)
  = [].
Proof.
  revert lineCount local.
  induction lines as [|line lines IH]; intros lineCount local; simpl.
  - destruct local; reflexivity.
  - destruct (String.eqb line ""); [apply IH|].
    destruct (Parse json_Unmarshal _ _ line _) as [entry|err]; [|apply IH].
    destruct (negb (shouldInclude (config a) entry)); [apply IH|]. cbn zeta.
    destruct (1000 <=? Z.of_nat (length (local ++ [entry]))); [|apply IH].
    rewrite actionSizes_batch. apply IH.
Qed.

Lemma perform_entries (acts : list Action) (agg : Aggregator) :
  entries (fold_left perform acts agg) = entries agg ++ actionEntries acts.
Proof.
  revert agg. induction acts as [|act acts IH]; intros agg; simpl.
  - symmetry. apply app_nil_r.
  - rewrite IH. destruct act; simpl.
    + rewrite AddBatch_entries. unfold actionEntries. simpl.
      symmetry. apply app_assoc.
    + reflexivity.
Qed.

End AnalyzeFile.

Section AnalyzeFileSkips.

Import GoTime models parser analyzer analysis scenarioA.

Local Open Scope list_scope.

Variable json_Unmarshal : string -> result jsonLogEntry.
Variable os_Open : string -> result OsFile.
Variable time_Now : string -> nat -> Z.

Lemma AnalyzeFile_entries (a : Analyzer) (filePath : string)
    (file : OsFile) (size : Z) :
  os_Open filePath = Ok file -> file_Stat file = Ok size ->
  let scanned := bufio.Scan (1024 * 1024) (file_bytes file) in
  let r := AnalyzeFile json_Unmarshal os_Open time_Now a filePath in
  entries (aggregator (fst r))
  = entries (aggregator a)
    ++ kept json_Unmarshal time_Now a filePath (bufio.tokens scanned) 0 /\
  (snd r = None <-> bufio.tooLong scanned = false /\ file_readErr file = None).
Proof.
  intros Hopen Hstat. cbn zeta.
  unfold AnalyzeFile, AnalyzeFile_trace. rewrite Hopen, Hstat.
  destruct (bufio.tooLong _) eqn:Hlong; simpl.
  - rewrite perform_entries, AnalyzeFile_loop_entries. simpl.
    split; [reflexivity|]. split; [discriminate | intros [H _]; discriminate].
  - destruct (file_readErr file) as [err|]; simpl.
    + rewrite perform_entries, AnalyzeFile_loop_entries. simpl.
      split; [reflexivity|]. split; [discriminate | intros [_ H]; discriminate].
    + rewrite perform_entries, actionEntries_app, AnalyzeFile_loop_entries.
      simpl. rewrite app_nil_r. split; [reflexivity|]. tauto.
Qed.

Lemma lineEntries_skipped (a : Analyzer) (filePath : string)
    (lineCount : nat) (line : string) :
  line = "" \/
  (exists err,
     Parse json_Unmarshal (selected a line) (time_Now filePath lineCount)
           line (filepath.Base filePath) = Err err) ->
  lineEntries json_Unmarshal time_Now a filePath lineCount line = [].
Proof.
  unfold lineEntries, selected. intros [-> | [err H]]; [reflexivity|].
  rewrite H. destruct (String.eqb line ""); reflexivity.
Qed.

Lemma lineEntries_structured (a : Analyzer) (filePath : string)
    (lineCount : nat) (line : string) (decoded : jsonLogEntry) :
  line <> "" -> GoString.TrimSpace line <> "" ->
  selected a line = JSONLogParser ->
  json_Unmarshal line = Ok decoded ->
  (forall e, 0 <= models.Level e -> shouldInclude (config a) e = true) ->
  length (lineEntries json_Unmarshal time_Now a filePath lineCount line) = 1%nat.
Proof.
  intros Hne Htrim Hsel Hdec Hpass. unfold lineEntries, selected in *.
  destruct (String.eqb_spec line ""); [contradiction|].
  rewrite Hsel. simpl. unfold JSONLogParser_Parse.
  destruct (String.eqb_spec (GoString.TrimSpace line) ""); [contradiction|].
  rewrite Hdec. rewrite Hpass; [reflexivity|]. simpl.
  unfold ParseLogLevel, DEBUG, INFO, WARN, ERROR, FATAL, UNKNOWN.
  repeat match goal with |- context [if ?b then _ else _] => destruct b end; lia.
Qed.

Lemma no_filter_includes (cfg : Config) (e : LogEntry) :
  Level cfg = DEBUG \/ Level cfg = UNKNOWN -> Pattern cfg = "" ->
  StartTime cfg = zero -> EndTime cfg = zero ->
  0 <= models.Level e -> shouldInclude cfg e = true.
Proof.
  intros HL HP HS HE He. apply shouldInclude_iff.
  split; [destruct HL as [HL|HL]; [right; rewrite HL; exact He | left; exact HL]|].
  split; [left; exact HP|]. split; left; assumption.
Qed.

(** C4.  For a file that opens, [AnalyzeFile] adds to the aggregator the
    contributions of its lines, in order, and returns an error only when
    reading stops on a line too long for the buffer or on a read error;
    an empty line and a line that the parser rejects contribute nothing
    and cause no error.  In particular (scenario A), after a file with
    three well-formed structured lines and one malformed structured line,
    and a second file with three well-formed structured lines, analysed
    without filters by the structured parser (fixed or chosen by the
    detector), the aggregator holds six entries and no error was
    returned. *)
Theorem AnalyzeFile_skips_unparsable_lines :
  (forall (a : Analyzer) (filePath : string) (file : OsFile) (size : Z),
     os_Open filePath = Ok file -> file_Stat file = Ok size ->
     let scanned := bufio.Scan (1024 * 1024) (file_bytes file) in
     let r := AnalyzeFile json_Unmarshal os_Open time_Now a filePath in
     entries (aggregator (fst r))
     = entries (aggregator a)
       ++ kept json_Unmarshal time_Now a filePath (bufio.tokens scanned) 0 /\
     (snd r = None <->
      bufio.tooLong scanned = false /\ file_readErr file = None)) /\
  (forall (a : Analyzer) (filePath : string) (lineCount : nat) (line : string),
     line = "" \/
     (exists err,
        Parse json_Unmarshal (selected a line) (time_Now filePath lineCount)
              line (filepath.Base filePath) = Err err) ->
     lineEntries json_Unmarshal time_Now a filePath lineCount line = []) /\
  (forall cfg : Config,
     (forall text, In text wellFormed -> exists decoded, json_Unmarshal text = Ok decoded) ->
     (exists err, json_Unmarshal malformed = Err err) ->
     os_Open "logs/one.log" = Ok fileOne ->
     os_Open "logs/two.log" = Ok fileTwo ->
     AutoDetect cfg = true \/ ParserType cfg = JSONParser ->
     Level cfg = DEBUG \/ Level cfg = UNKNOWN ->
     Pattern cfg = "" -> StartTime cfg = zero -> EndTime cfg = zero ->
     let r1 := AnalyzeFile json_Unmarshal os_Open time_Now (NewAnalyzer cfg)
                           "logs/one.log" in
     let r2 := AnalyzeFile json_Unmarshal os_Open time_Now (fst r1)
                           "logs/two.log" in
     Count (aggregator (fst r2)) = 6 /\
     TotalEntries (stats (aggregator (fst r2))) = 6 /\
     snd r1 = None /\ snd r2 = None).
Proof.
  split; [exact AnalyzeFile_entries|]. split; [exact lineEntries_skipped|].
  intros cfg Hgood [err Hbad] Hone Htwo Hparser HL HP HS HE. cbn zeta.
  set (a0 := NewAnalyzer cfg).
  set (r1 := AnalyzeFile json_Unmarshal os_Open time_Now a0 "logs/one.log").
  set (r2 := AnalyzeFile json_Unmarshal os_Open time_Now (fst r1) "logs/two.log").
  assert (Hcfg : forall a, config a = cfg -> forall e, 0 <= models.Level e ->
                 shouldInclude (config a) e = true)
    by (intros a -> e He; apply no_filter_includes; assumption).
  assert (Hsel : forall a text, analyzer.parser a = analyzer.parser a0 ->
                 In text (malformed :: wellFormed) ->
                 selected a text = JSONLogParser).
  { intros a text Hp Hin. unfold selected. rewrite Hp.
    unfold a0, NewAnalyzer. simpl.
    destruct (AutoDetect cfg) eqn:Hauto.
    - simpl in Hin.
      repeat (destruct Hin as [<- | Hin]; [vm_compute; reflexivity|]).
      destruct Hin.
    - destruct Hparser as [H|H]; [discriminate|]. rewrite H. reflexivity. }
  assert (Hone' : forall a path lc text, config a = cfg ->
                  analyzer.parser a = analyzer.parser a0 -> In text wellFormed ->
                  length (lineEntries json_Unmarshal time_Now a path lc text) = 1%nat).
  { intros a path lc text Hc Hp Hin. destruct (Hgood text Hin) as [decoded Hd].
    apply (lineEntries_structured a path lc text decoded).
    - simpl in Hin.
      repeat (destruct Hin as [<- | Hin]; [discriminate|]). destruct Hin.
    - simpl in Hin.
      repeat (destruct Hin as [<- | Hin]; [vm_compute; discriminate|]).
      destruct Hin.
    - apply Hsel; [exact Hp | right; exact Hin].
    - exact Hd.
    - apply Hcfg, Hc. }
  assert (Hzero : forall a path lc, analyzer.parser a = analyzer.parser a0 ->
                  lineEntries json_Unmarshal time_Now a path lc malformed = []).
  { intros a path lc Hp. apply lineEntries_skipped. right.
    exists (fmt_Errorf "%w: %v" [op_error ErrInvalidFormat; op_error err]).
    rewrite (Hsel a malformed Hp (or_introl eq_refl)). simpl.
    unfold JSONLogParser_Parse. rewrite Hbad.
    destruct (String.eqb_spec (GoString.TrimSpace malformed) "") as [E|_];
      [vm_compute in E; discriminate | reflexivity]. }
  destruct (AnalyzeFile_entries a0 "logs/one.log" fileOne 153 Hone eq_refl)
    as [E1 R1].
  fold r1 in E1, R1.
  assert (Hc1 : config (fst r1) = cfg /\ analyzer.parser (fst r1) = analyzer.parser a0).
  { unfold r1, AnalyzeFile.
    destruct (AnalyzeFile_trace _ _ _ a0 _). split; reflexivity. }
  destruct Hc1 as [Hc1 Hp1].
  destruct (AnalyzeFile_entries (fst r1) "logs/two.log" fileTwo 128 Htwo eq_refl)
    as [E2 R2].
  fold r2 in E2, R2.
  assert (Hlen : length (entries (aggregator (fst r2))) = 6%nat).
  { rewrite E2, E1.
    assert (T1 : bufio.tokens (bufio.Scan (1024 * 1024) (file_bytes fileOne))
                 = [line 0; line 1; malformed; line 2])
      by (vm_compute; reflexivity).
    assert (T2 : bufio.tokens (bufio.Scan (1024 * 1024) (file_bytes fileTwo))
                 = [line 3; line 4; line 5])
      by (vm_compute; reflexivity).
    rewrite T1, T2. 
    unfold kept. rewrite Hzero by reflexivity. 
    rewrite !length_app.
    assert (Hin : forall k, (k < 6)%nat -> In (line k) wellFormed)
      by (intros k Hk; unfold line; apply nth_In; exact Hk).
    rewrite !Hone' by (try reflexivity; try assumption; apply Hin; lia).
    reflexivity. }
  split; [unfold Count; rewrite Hlen; reflexivity|].
  split.
  - (* the statistics count the same entries *)
    unfold r2, AnalyzeFile.
    destruct (AnalyzeFile_trace json_Unmarshal os_Open time_Now (fst r1) _)
      as [acts2 e2] eqn:T2. simpl.
    unfold r2, AnalyzeFile in Hlen. rewrite T2 in Hlen. simpl in Hlen.
    revert Hlen. unfold r1, AnalyzeFile.
    destruct (AnalyzeFile_trace json_Unmarshal os_Open time_Now a0 _)
      as [acts1 e1] eqn:T1. simpl.
    rewrite <- fold_left_app.
    generalize (acts1 ++ acts2). intros acts.
    assert (G : forall agg,
              TotalEntries (stats (fold_left perform acts agg))
              - Z.of_nat (length (entries (fold_left perform acts agg)))
              = TotalEntries (stats agg) - Z.of_nat (length (entries agg))).
    { induction acts as [|act acts IH]; intros agg; simpl; [reflexivity|].
      rewrite IH. destruct act; simpl; [|reflexivity].
      destruct (AddBatch_counts agg batch) as [Ht _]. cbn zeta in Ht.
      rewrite Ht, AddBatch_entries, length_app. lia. }
    intros Hlen. specialize (G (aggregator a0)).
    change (aggregator a0) with NewAggregator in G, Hlen.
    rewrite Hlen in G. simpl in G. lia.
  - split; [apply R1 | apply R2]; split; reflexivity.
Qed.

End AnalyzeFileSkips.

Section ScenarioA.

Import GoTime models parser analyzer analysis scenarioA.

Lemma AnalyzeFile_skips_unparsable_lines_witness :
  let r1 := AnalyzeFile decoder disk clock (NewAnalyzer unfiltered)
                        "logs/one.log" in
  let r2 := AnalyzeFile decoder disk clock (fst r1) "logs/two.log" in
  Count (aggregator (fst r2)) = 6 /\
  TotalEntries (stats (aggregator (fst r2))) = 6 /\
  snd r1 = None /\ snd r2 = None.
Proof.
  refine (proj2 (proj2 (AnalyzeFile_skips_unparsable_lines decoder disk clock))
            unfiltered _ _ eq_refl eq_refl (or_introl eq_refl)
            (or_introl eq_refl) eq_refl eq_refl eq_refl).
  - intros text Hin. simpl in Hin.
    repeat (destruct Hin as [<- | Hin]; [eexists; vm_compute; reflexivity|]).
    destruct Hin.
  - eexists. vm_compute. reflexivity.
Defined.

End ScenarioA.

(** ** The analyzer: the worker pool *)

Section PoolRun.

Import GoTime models parser analyzer analysis pool.

Local Open Scope list_scope.

Variable json_Unmarshal : string -> result jsonLogEntry.
Variable os_Open : string -> result OsFile.
Variable time_Now : string -> nat -> Z.
Variable a : Analyzer.

Local Abbreviation trace := (AnalyzeFile_trace json_Unmarshal os_Open time_Now a).
Local Abbreviation actionsOf := (fileActions json_Unmarshal os_Open time_Now a).
Local Abbreviation errorsOf := (fileError json_Unmarshal os_Open time_Now a).
Local Abbreviation ok := (consistent json_Unmarshal os_Open time_Now a).

Lemma flat_map_insert {A B : Type} (f : A -> list B) (l : list A) (i : nat)
    (x y : A) :
  l !! i = Some x ->
  Permutation (f x ++ flat_map f (<[i:=y]> l)) (f y ++ flat_map f l).
Proof.
  revert i. induction l as [|z l IH]; intros [|i] H; simpl in *;
    try discriminate.
  - injection H as ->. solve_Permutation.
  - specialize (IH i H). 
    transitivity (f z ++ (f x ++ flat_map f (<[i:=y]> l))); [solve_Permutation|].
    rewrite IH. solve_Permutation.
Qed.

Lemma In_insert_Returned (ws : list Worker) (i : nat) (w : Worker) :
  w <> Returned -> In Returned (<[i:=w]> ws) -> In Returned ws.
Proof.
  revert i. induction ws as [|z ws IH]; intros [|i] Hw; simpl; try tauto.
  intros [H | H]; [left; exact H | right; eapply IH; eassumption].
Qed.

Lemma lookup_In {A : Type} (l : list A) (i : nat) (x : A) :
  l !! i = Some x -> In x l.
Proof.
  revert i. induction l as [|z l IH]; intros [|i] H; simpl in *;
    try discriminate.
  - injection H as ->. left. reflexivity.
  - right. eapply IH, H.
Qed.

Lemma step_consistent (agg0 : Aggregator) (files : list string) (p : Pool)
    (done : list Action) (workerID : nat) :
  ok agg0 files p done ->
  exists done', ok agg0 files (step json_Unmarshal os_Open time_Now a p workerID) done'.
Proof.
  intros (Hs & Hp & He & Hr). unfold step.
  destruct (workers p !! workerID) as [[|pending err|]|] eqn:Hw;
    try (exists done; repeat split; assumption).
  - (* receiving *)
    destruct (fileChan p) as [|file rest] eqn:Hq.
    + exists done. unfold consistent, setWorker. simpl. rewrite Hq.
      repeat split; try assumption.
      * rewrite <- Hp. apply Permutation_app_head, Permutation_app_tail.
        pose proof (flat_map_insert pendingOf (workers p) workerID Receiving
                      Returned Hw) as H. simpl in H. exact H.
      * rewrite <- He, !length_app. f_equal. f_equal.
        apply Permutation_length.
        pose proof (flat_map_insert pendingErr (workers p) workerID Receiving
                      Returned Hw) as H. simpl in H. exact H.
    + destruct (trace file) as [actions err] eqn:Ht.
      exists done. unfold consistent. simpl.
      assert (Ha : actionsOf file = actions) by (unfold fileActions; rewrite Ht; reflexivity).
      assert (Hf : errorsOf file = errorOf err) by (unfold fileError; rewrite Ht; reflexivity).
      repeat split; try assumption.
      * rewrite <- Hp. simpl. rewrite Ha.
        pose proof (flat_map_insert pendingOf (workers p) workerID Receiving
                      (Running actions err) Hw) as H. simpl in H.
        rewrite H. solve_Permutation.
      * rewrite <- He. simpl. rewrite Hf. apply Permutation_length.
        pose proof (flat_map_insert pendingErr (workers p) workerID Receiving
                      (Running actions err) Hw) as H. simpl in H.
        rewrite H. solve_Permutation.
      * intros H. apply In_insert_Returned in H; [|discriminate].
        specialize (Hr H). discriminate.
  - (* running *)
    destruct pending as [|act pending].
    + exists done. unfold consistent. simpl.
      repeat split; try assumption.
      * rewrite <- Hp. apply Permutation_app_head, Permutation_app_tail.
        pose proof (flat_map_insert pendingOf (workers p) workerID
                      (Running [] err) Receiving Hw) as H. simpl in H. exact H.
      * rewrite <- He.
        pose proof (flat_map_insert pendingErr (workers p) workerID
                      (Running [] err) Receiving Hw) as H. simpl in H.
        apply Permutation_length in H. rewrite length_app in H.
        rewrite !length_app.
        destruct err as [e|]; simpl in *; rewrite ?length_app; simpl; lia.
      * intros H. apply In_insert_Returned in H; [|discriminate]. auto.
    + exists (done ++ [act]). unfold consistent. simpl.
      repeat split.
      * rewrite fold_left_app. simpl. rewrite Hs. reflexivity.
      * rewrite <- Hp.
        pose proof (flat_map_insert pendingOf (workers p) workerID
                      (Running (act :: pending) err) (Running pending err) Hw) as H.
        simpl in H.
        assert (H' : Permutation
                       (act :: flat_map pendingOf
                                 (<[workerID:=Running pending err]> (workers p)))
                       (flat_map pendingOf (workers p))).
        { apply (Permutation_app_inv_l pending). rewrite <- H.
          solve_Permutation. }
        rewrite <- H'. solve_Permutation.
      * rewrite <- He. apply Permutation_length.
        pose proof (flat_map_insert pendingErr (workers p) workerID
                      (Running (act :: pending) err) (Running pending err) Hw) as H.
        simpl in H. apply Permutation_app_inv_l in H. rewrite H. reflexivity.
      * intros H. apply In_insert_Returned in H; [|discriminate]. auto.
Qed.

Lemma drainFiles_spec (workerID : nat) (files : list string)
    (errs : list error) (agg : Aggregator) :
  let r := drainFiles json_Unmarshal os_Open time_Now a workerID files errs agg in
  snd r = fold_left perform (flat_map actionsOf files) agg /\
  length (fst r) = length (errs ++ flat_map errorsOf files).
Proof.
  revert errs agg. induction files as [|file files IH]; intros errs agg; simpl.
  - rewrite app_nil_r. split; reflexivity.
  - assert (Ha : actionsOf file = fst (trace file)) by reflexivity.
    assert (Hf : errorsOf file = errorOf (snd (trace file))) by reflexivity.
    rewrite Ha, Hf. clear Ha Hf. destruct (trace file) as [actions err].
    simpl. destruct (IH (match err with
                         | Some e => errs ++ [fmt_Errorf "worker %d: %w"
                                      [op_int (Z.of_nat workerID); op_error e]]
                         | None => errs end)
                        (fold_left perform actions agg)) as [IH1 IH2].
    split.
    + rewrite IH1, fold_left_app. reflexivity.
    + rewrite IH2. destruct err; cbn [errorOf]; rewrite !length_app;
        cbn [length]; lia.
Qed.

Lemma flat_map_all_Returned {B : Type} (f : Worker -> list B) (ws : list Worker) :
  f Returned = [] ->
  (forall j, (j < length ws)%nat -> ws !! j = Some Returned) ->
  flat_map f ws = [].
Proof.
  intros Hf. induction ws as [|w ws IH]; intros H; simpl; [reflexivity|].
  assert (Hw : w = Returned).
  { specialize (H 0%nat). simpl in H. assert (Some w = Some Returned) by (apply H; lia).
    congruence. }
  rewrite Hw, Hf. simpl. apply IH. intros j Hj.
  apply (H (S j)). simpl. lia.
Qed.

Lemma runToReturn_consistent (agg0 : Aggregator) (files : list string)
    (p : Pool) (done : list Action) (workerID : nat) :
  ok agg0 files p done ->
  let p' := runToReturn json_Unmarshal os_Open time_Now a p workerID in
  (exists done', ok agg0 files p' done') /\
  length (workers p') = length (workers p) /\
  (forall j, workers p !! j = Some Returned -> workers p' !! j = Some Returned) /\
  ((workerID < length (workers p))%nat -> workers p' !! workerID = Some Returned).
Proof.
  intros (Hs & Hp & He & Hr). cbn zeta. unfold runToReturn.
  destruct (workers p !! workerID) as [[|pending err|]|] eqn:Hw.
  - (* receiving *)
    pose proof (drainFiles_spec workerID (fileChan p) (errChan p) (shared p))
      as [D1 D2]. cbn zeta in D1, D2.
    destruct (drainFiles _ _ _ _ _ _ _ _) as [errs agg]. simpl in D1, D2.
    simpl. split; [|split; [apply length_insert | split]].
    + exists (done ++ flat_map actionsOf (fileChan p)).
      unfold consistent. simpl. repeat split.
      * rewrite D1, fold_left_app, Hs. reflexivity.
      * rewrite <- Hp.
        pose proof (flat_map_insert pendingOf (workers p) workerID Receiving
                      Returned Hw) as H. simpl in H. rewrite H.
        solve_Permutation.
      * rewrite <- He.
        pose proof (flat_map_insert pendingErr (workers p) workerID Receiving
                      Returned Hw) as H. simpl in H.
        apply Permutation_length in H.
        rewrite !length_app in *. simpl. lia.
    + intros j Hj. destruct (decide (workerID = j)) as [->|Hne].
      * congruence.
      * rewrite list_lookup_insert_ne by exact Hne. exact Hj.
    + intros Hlt. apply list_lookup_insert_eq. exact Hlt.
  - (* running *)
    pose proof (drainFiles_spec workerID (fileChan p)
                  (match err with
                   | Some e => errChan p ++ [fmt_Errorf "worker %d: %w"
                                 [op_int (Z.of_nat workerID); op_error e]]
                   | None => errChan p end)
                  (fold_left perform pending (shared p))) as [D1 D2].
    cbn zeta in D1, D2.
    destruct (drainFiles _ _ _ _ _ _ _ _) as [errs agg]. simpl in D1, D2.
    simpl. split; [|split; [apply length_insert | split]].
    + exists (done ++ pending ++ flat_map actionsOf (fileChan p)).
      unfold consistent. simpl. repeat split.
      * rewrite D1, !fold_left_app, Hs. reflexivity.
      * rewrite <- Hp.
        pose proof (flat_map_insert pendingOf (workers p) workerID
                      (Running pending err) Returned Hw) as H. simpl in H.
        rewrite <- H. solve_Permutation.
      * rewrite <- He.
        pose proof (flat_map_insert pendingErr (workers p) workerID
                      (Running pending err) Returned Hw) as H. simpl in H.
        apply Permutation_length in H.
        rewrite !length_app in *. simpl.
        destruct err; simpl in *; rewrite ?length_app in *; simpl in *; lia.
    + intros j Hj. destruct (decide (workerID = j)) as [->|Hne].
      * congruence.
      * rewrite list_lookup_insert_ne by exact Hne. exact Hj.
    + intros Hlt. apply list_lookup_insert_eq. exact Hlt.
  - split; [exists done; repeat split; assumption|].
    split; [reflexivity|]. split; [auto|]. intros _. exact Hw.
  - split; [exists done; repeat split; assumption|].
    split; [reflexivity|]. split; [auto|]. intros Hlt.
    apply lookup_ge_None in Hw. lia.
Qed.

Lemma runAll_consistent (agg0 : Aggregator) (files : list string) (n : nat)
    (p : Pool) (done : list Action) :
  ok agg0 files p done ->
  let p' := fold_left (runToReturn json_Unmarshal os_Open time_Now a)
                      (seq 0 n) p in
  (exists done', ok agg0 files p' done') /\
  length (workers p') = length (workers p) /\
  (forall j, (j < n)%nat -> (j < length (workers p))%nat ->
             workers p' !! j = Some Returned).
Proof.
  intros Hok. induction n as [|n IH]; cbn zeta.
  - simpl. split; [exists done; exact Hok|]. split; [reflexivity|]. lia.
  - rewrite seq_S, fold_left_app. simpl.
    destruct IH as ([done1 Hok1] & Hlen & Hret).
    destruct (runToReturn_consistent agg0 files _ done1 n Hok1)
      as (Hok2 & Hlen2 & Hkeep & Hnew).
    split; [exact Hok2|]. split; [congruence|].
    intros j Hj Hjl. destruct (decide (j = n)) as [->|Hne].
    + apply Hnew. rewrite Hlen. exact Hjl.
    + apply Hkeep, Hret; [lia | exact Hjl].
Qed.

Lemma step_workers_length (p : Pool) (workerID : nat) :
  length (workers (step json_Unmarshal os_Open time_Now a p workerID))
  = length (workers p).
Proof.
  unfold step.
  destruct (workers p !! workerID) as [[|[|act pending] err|]|]; simpl;
    try reflexivity; try apply length_insert.
  destruct (fileChan p); [apply length_insert|].
  destruct (trace s). apply length_insert.
Qed.

Lemma steps_consistent (agg0 : Aggregator) (files : list string)
    (schedule : list nat) (p : Pool) (done : list Action) :
  ok agg0 files p done ->
  let p' := fold_left (step json_Unmarshal os_Open time_Now a) schedule p in
  (exists done', ok agg0 files p' done') /\
  length (workers p') = length (workers p).
Proof.
  revert p done. induction schedule as [|i schedule IH]; intros p done Hok.
  - simpl. split; [exists done; exact Hok | reflexivity].
  - simpl. destruct (step_consistent agg0 files p done i Hok) as [done1 Hok1].
    destruct (IH _ done1 Hok1) as [H1 H2]. split; [exact H1|].
    rewrite H2. apply step_workers_length.
Qed.

Lemma flat_map_replicate_nil {A B : Type} (f : A -> list B) (x : A) (n : nat) :
  f x = [] -> flat_map f (replicate n x) = [].
Proof.
  intros Hf. induction n as [|n IH]; simpl; [reflexivity|].
  rewrite Hf, IH. reflexivity.
Qed.

(** When the wait group is done, whatever the schedule and the number of
    workers (at least one), the shared aggregator has gone through the
    actions of all the files, in some order, and the error channel holds
    one error for each file that failed. *)
Lemma runWorkers_result (schedule : list nat) (n : nat) (files : list string)
    (agg0 : Aggregator) :
  (0 < n)%nat ->
  let p := runWorkers json_Unmarshal os_Open time_Now a schedule
             {| fileChan := files; errChan := [];
                workers := replicate n Receiving; shared := agg0 |} in
  (exists done,
     shared p = fold_left perform done agg0 /\
     Permutation done (flat_map actionsOf files)) /\
  length (errChan p) = length (flat_map errorsOf files).
Proof.
  intros Hn. cbn zeta. unfold runWorkers.
  set (p0 := {| fileChan := files; errChan := [];
                workers := replicate n Receiving; shared := agg0 |}).
  assert (Hok0 : ok agg0 files p0 []).
  { unfold consistent, p0. simpl.
    rewrite !flat_map_replicate_nil by reflexivity. simpl.
    repeat split; try reflexivity.
    intros H. exfalso. apply list_elem_of_In, elem_of_replicate in H.
    destruct H as [H _]. discriminate. }
  destruct (steps_consistent agg0 files schedule p0 [] Hok0)
    as ([done1 Hok1] & Hlen1).
  cbn zeta in *.
  set (p1 := fold_left (step json_Unmarshal os_Open time_Now a) schedule p0) in *.
  destruct (runAll_consistent agg0 files (length (workers p1)) p1 done1 Hok1)
    as ([done2 Hok2] & Hlen2 & Hret).
  cbn zeta in *.
  set (p2 := fold_left (runToReturn json_Unmarshal os_Open time_Now a)
                       (seq 0 (length (workers p1))) p1) in *.
  destruct Hok2 as (Hs & Hp & He & Hr).
  assert (Hlen : length (workers p2) = n).
  { rewrite Hlen2, Hlen1. unfold p0. simpl. apply length_replicate. }
  assert (Hall : forall j, (j < length (workers p2))%nat ->
                 workers p2 !! j = Some Returned).
  { intros j Hj. apply Hret; lia. }
  assert (Hq : fileChan p2 = []).
  { apply Hr. apply (lookup_In _ 0%nat). apply Hall. lia. }
  rewrite Hq in Hp, He. simpl in Hp, He.
  rewrite (flat_map_all_Returned pendingOf) in Hp by (reflexivity || exact Hall).
  rewrite (flat_map_all_Returned pendingErr) in He by (reflexivity || exact Hall).
  rewrite !app_nil_r in *.
  split; [exists done2; split; assumption | exact He].
Qed.

End PoolRun.

(** ** Counters do not depend on the order of the actions *)

Section Counters.

Import GoTime models parser analyzer analysis pool.

Local Open Scope list_scope.

Lemma incr_comm `{Countable K} (m : gmap K Z) (x y : K) :
  incr (incr m x) y = incr (incr m y) x.
Proof.
  unfold incr, get. destruct (decide (x = y)) as [->|Hne]; [reflexivity|].
  rewrite !lookup_insert_ne by congruence.
  apply insert_insert_ne. congruence.
Qed.


Lemma AddBatch_LevelCounts (a : Aggregator) (es : list LogEntry) :
  LevelCounts (stats (AddBatch a es))
  = fold_left incr (map models.Level es) (LevelCounts (stats a)).
Proof.
  induction es as [|e es IH] using rev_ind; [reflexivity|].
  rewrite AddBatch_snoc, map_app, fold_left_app. simpl. rewrite IH. reflexivity.
Qed.

Lemma AddBatch_SourceCounts (a : Aggregator) (es : list LogEntry) :
  SourceCounts (stats (AddBatch a es))
  = fold_left incr (map Source es) (SourceCounts (stats a)).
Proof.
  induction es as [|e es IH] using rev_ind; [reflexivity|].
  rewrite AddBatch_snoc, map_app, fold_left_app. simpl. rewrite IH. reflexivity.
Qed.

Lemma sumZ_app (xs ys : list Z) : sumZ (xs ++ ys) = sumZ xs + sumZ ys.
Proof. unfold sumZ. induction xs as [|x xs IH]; simpl; lia. Qed.


(** The counters after a sequence of actions, from the counters before
    and from the entries and sizes the actions carry. *)
Lemma perform_counters (acts : list Action) (agg : Aggregator) :
  let s := stats agg in
  let s' := stats (fold_left perform acts agg) in
  TotalEntries s' = TotalEntries s + Z.of_nat (length (actionEntries acts)) /\
  LevelCounts s'
  = fold_left incr (map models.Level (actionEntries acts)) (LevelCounts s) /\
  SourceCounts s'
  = fold_left incr (map Source (actionEntries acts)) (SourceCounts s) /\
  PatternCounts s' = PatternCounts s /\
  FilesProcessed s' = FilesProcessed s + Z.of_nat (length (actionSizes acts)) /\
  BytesProcessed s' = BytesProcessed s + sumZ (actionSizes acts).
Proof.
  revert agg. induction acts as [|act acts IH]; intros agg; cbn zeta.
  - simpl. repeat split; lia.
  - simpl. specialize (IH (perform agg act)). cbn zeta in IH.
    destruct IH as (H1 & H2 & H3 & H4 & H5 & H6).
    rewrite H1, H2, H3, H4, H5, H6. clear H1 H2 H3 H4 H5 H6.
    destruct act as [batch | n]; simpl.
    + destruct (AddBatch_counts agg batch) as (Ht & _ & _ & _ & _ & Hp & Hf & Hb & _).
      cbn zeta in *. rewrite Ht, Hp, Hf, Hb.
      rewrite AddBatch_LevelCounts, AddBatch_SourceCounts.
      rewrite !map_app, !fold_left_app, length_app.
      repeat split; lia.
    + unfold sumZ. simpl. repeat split; lia.
Qed.


End Counters.

(** ** The analyzer: a directory *)

Section AnalyzeDirectory.

Import GoTime models parser analyzer analysis pool.

Local Open Scope list_scope.

Variable json_Unmarshal : string -> result jsonLogEntry.
Variable os_Open : string -> result OsFile.
Variable filepath_Walk : string -> list filepath.Visit.




Section TwoClocks.

Variables time_Now1 time_Now2 : string -> nat -> Z.
Variable a : Analyzer.
Variables n1 n2 : Z.

Hypothesis same_clock_or_no_window :
  ~ hasTimeWindow (config a) \/
  (forall path lineCount, time_Now1 path lineCount = time_Now2 path lineCount).



End TwoClocks.

(** What the trace of a file carries, read off the file. *)
Lemma trace_contents (time_Now : string -> nat -> Z) (a : Analyzer)
    (filePath : string) :
  let t := AnalyzeFile_trace json_Unmarshal os_Open time_Now a filePath in
  match os_Open filePath with
  | Err _ => actionEntries (fst t) = [] /\ actionSizes (fst t) = []
             /\ errorOf (snd t) <> []
  | Ok file =>
      match file_Stat file with
      | Err _ => actionEntries (fst t) = [] /\ actionSizes (fst t) = []
                 /\ errorOf (snd t) <> []
      | Ok size =>
          let scanned := bufio.Scan (1024 * 1024) (file_bytes file) in
          actionEntries (fst t)
          = kept json_Unmarshal time_Now a filePath (bufio.tokens scanned) 0 /\
          if bufio.tooLong scanned
             || match file_readErr file with Some _ => true | None => false end
          then actionSizes (fst t) = [] /\ errorOf (snd t) <> []
          else actionSizes (fst t) = [size] /\ errorOf (snd t) = []
      end
  end.
Proof.
  cbn zeta. unfold AnalyzeFile_trace.
  destruct (os_Open filePath) as [file|e]; [|simpl; repeat split; discriminate].
  destruct (file_Stat file) as [size|e]; [|simpl; repeat split; discriminate].
  destruct (bufio.tooLong _) eqn:Hlong; simpl.
  - rewrite AnalyzeFile_loop_entries, AnalyzeFile_loop_sizes.
    repeat split; discriminate.
  - destruct (file_readErr file) as [e|]; simpl.
    + rewrite AnalyzeFile_loop_entries, AnalyzeFile_loop_sizes.
      repeat split; discriminate.
    + rewrite actionEntries_app, actionSizes_app.
      rewrite AnalyzeFile_loop_entries, AnalyzeFile_loop_sizes. simpl.
      rewrite app_nil_r. repeat split.
Qed.


Section TwoRuns.

Variables time_Now1 time_Now2 : string -> nat -> Z.
Variable a : Analyzer.
Variables n1 n2 : Z.

Hypothesis same_clock_or_no_window :
  ~ hasTimeWindow (config a) \/
  (forall path lineCount, time_Now1 path lineCount = time_Now2 path lineCount).

Local Abbreviation actions1 :=
  (fileActions json_Unmarshal os_Open time_Now1 (withWorkers a n1)).
Local Abbreviation actions2 :=
  (fileActions json_Unmarshal os_Open time_Now2 (withWorkers a n2)).
Local Abbreviation errors1 :=
  (fileError json_Unmarshal os_Open time_Now1 (withWorkers a n1)).
Local Abbreviation errors2 :=
  (fileError json_Unmarshal os_Open time_Now2 (withWorkers a n2)).



End TwoRuns.


Lemma actionSizes_Permutation (xs ys : list Action) :
  Permutation xs ys -> Permutation (actionSizes xs) (actionSizes ys).
Proof. intros H. unfold actionSizes. apply Permutation_flat_map, H. Qed.


(** C9.  When the enumeration of the directory succeeds and finds no
    [.log] file, [AnalyzeDirectory] returns the error [no log files found
    in <dir>] and leaves the analyzer, with its aggregator and
    statistics, as it was: no worker ran and no file was opened. *)
Theorem AnalyzeDirectory_no_log_files
    (time_Now : string -> nat -> Z) (a : Analyzer) (dirPath : string)
    (schedule : list nat) (elapsed : Z) :
  findLogFiles filepath_Walk dirPath = ([], None) ->
  AnalyzeDirectory json_Unmarshal os_Open filepath_Walk time_Now
                   schedule elapsed a dirPath
  = (a, Some (fmt_Errorf "no log files found in %s" [op_string dirPath])).
Proof. intros H. unfold AnalyzeDirectory. rewrite H. reflexivity. Qed.

End AnalyzeDirectory.

Section DirectoryExamples.

Import GoTime models parser analyzer analysis pool scenarioA scenarioE.

Lemma AnalyzeDirectory_no_log_files_witness :
  findLogFiles logsWalk "notes" = ([], None) /\
  AnalyzeDirectory decoder disk logsWalk clock interleaved 900
                   (NewAnalyzer unfiltered) "notes"
  = (NewAnalyzer unfiltered,
     Some (fmt_Errorf "no log files found in %s" [op_string "notes"])).
Proof.
  assert (H : findLogFiles logsWalk "notes" = ([], None))
    by (vm_compute; reflexivity).
  split; [exact H|].
  exact (AnalyzeDirectory_no_log_files decoder disk logsWalk clock
           (NewAnalyzer unfiltered) "notes" interleaved 900 H).
Defined.

End DirectoryExamples.

(** ** The watcher *)

Section Watcher.

Import GoTime models parser watcher tailing.

Local Open Scope list_scope.

Variable json_Unmarshal : string -> result jsonLogEntry.

Lemma scan_consumed (maxTokenSize : Z) (data : string) (rtok : list ascii)
    (n pos : Z) :
  bufio.tooLong (bufio.scan maxTokenSize data rtok n pos) = false ->
  bufio.consumed (bufio.scan maxTokenSize data rtok n pos)
  = pos + Z.of_nat (String.length data).
Proof.
  revert rtok n pos. induction data as [|c data IH]; intros rtok n pos; simpl.
  - intros _. lia.
  - destruct (Ascii.eqb c bufio.LF); simpl.
    + intros H. rewrite IH by exact H. lia.
    + destruct (maxTokenSize <=? n + 1); simpl; [discriminate|].
      intros H. rewrite IH by exact H. lia.
Qed.

Lemma readNewLines_reads (w : Watcher) (time_Now : nat -> Z) (file : FileView) :
  view_statErr file = None ->
  let r := readNewLines json_Unmarshal w time_Now file in
  let scanned := scanFrom file (readStart w file) in
  lastOffset (fst r) = Size file /\
  fileOffset (fst r) = readStart w file + bufio.consumed scanned /\
  config (fst r) = config w /\
  snd r = processLines json_Unmarshal w time_Now (bufio.tokens scanned) 0.
Proof.
  intros Hstat. cbn zeta. unfold readNewLines, scanFrom, readStart.
  rewrite Hstat. destruct (Size file <? lastOffset w); simpl; repeat split.
Qed.

Lemma Watch_open_offsets (cfg : Config) (file : FileView) (w : Watcher) :
  Watch_open (NewWatcher cfg) (Ok file) None = Ok w ->
  fileOffset w = lastOffset w /\
  (lastOffset w = 0 \/ lastOffset w = Size file).
Proof.
  unfold Watch_open, NewWatcher. simpl.
  destruct (ShowAll cfg); simpl.
  - intros H. injection H as <-. simpl. split; [reflexivity | left; reflexivity].
  - destruct (view_statErr file); [discriminate|].
    intros H. injection H as <-. simpl. split; [reflexivity | right; reflexivity].
Qed.

(** In a quiet session the open file stands at the last recorded
    offset. *)
Lemma reachableQuiet_offsets (cfg : Config) (w : Watcher) :
  reachableQuiet json_Unmarshal cfg w ->
  fileOffset w = lastOffset w /\ 0 <= lastOffset w.
Proof.
  induction 1 as [file w Hsize Hopen
                 | w time_Now file _ [IH1 IH2] Hquiet Hwhole].
  - destruct (Watch_open_offsets cfg file w Hopen) as [Heq [H0 | HS]];
      (split; [exact Heq | lia]).
  - destruct (view_statErr file) as [e|] eqn:Hstat.
    + unfold readNewLines. rewrite Hstat. simpl. split; assumption.
    + destruct (readNewLines_reads w time_Now file Hstat) as (HL & HF & _).
      cbn zeta in HL, HF. rewrite HL, HF.
      unfold scanFrom, bufio.Scan in *.
      rewrite scan_consumed by exact Hwhole.
      rewrite drop_length. unfold readStart, unchanged in *.
      destruct (Z.ltb_spec (Size file) (lastOffset w)); lia.
Qed.

(** C6 (as amended).  A step of [readNewLines] in which [Stat] succeeds
    stores the size that [Stat] reported as the last offset, whatever it
    reads.  If that size is below the last recorded offset, the offset is
    reset and the file is read from its first byte (in particular when a
    file of 500 bytes has shrunk to 50).  Otherwise reading goes on from
    the position of the open file, where the scan before it stopped; that
    position is the last recorded offset in a quiet session: one in which
    no earlier scan stopped on a line too long for the scanner's buffer
    and the file was not written to between the [Stat] and the last read
    of an earlier step. *)
Theorem readNewLines_offsets (cfg : Config) (w : Watcher)
    (time_Now : nat -> Z) (file : FileView) :
  view_statErr file = None ->
  let r := readNewLines json_Unmarshal w time_Now file in
  lastOffset (fst r) = Size file /\
  (Size file < lastOffset w ->
   snd r = processLines json_Unmarshal w time_Now
             (bufio.tokens (scanFrom file 0)) 0) /\
  (lastOffset w = 500 -> Size file = 50 ->
   lastOffset (fst r) = 50 /\
   snd r = processLines json_Unmarshal w time_Now
             (bufio.tokens (scanFrom file 0)) 0) /\
  (lastOffset w <= Size file ->
   snd r = processLines json_Unmarshal w time_Now
             (bufio.tokens (scanFrom file (fileOffset w))) 0) /\
  (lastOffset w <= Size file -> reachableQuiet json_Unmarshal cfg w ->
   snd r = processLines json_Unmarshal w time_Now
             (bufio.tokens (scanFrom file (lastOffset w))) 0).
Proof.
  intros Hstat. cbn zeta.
  destruct (readNewLines_reads w time_Now file Hstat) as (HL & _ & _ & HS).
  cbn zeta in HL, HS. unfold readStart in HS.
  split; [exact HL|]. split.
  { intros Hlt. rewrite HS.
    destruct (Z.ltb_spec (Size file) (lastOffset w)); [reflexivity | lia]. }
  split.
  { intros H500 H50. split; [rewrite HL; exact H50|]. rewrite HS.
    destruct (Z.ltb_spec (Size file) (lastOffset w)); [reflexivity | lia]. }
  split.
  { intros Hge. rewrite HS.
    destruct (Z.ltb_spec (Size file) (lastOffset w)); [lia | reflexivity]. }
  intros Hge Hreach. rewrite HS.
  destruct (reachableQuiet_offsets cfg w Hreach) as [Heq _].
  destruct (Z.ltb_spec (Size file) (lastOffset w)); [lia|].
  rewrite Heq. reflexivity.
Qed.

End Watcher.

Section WatcherExamples.

Import GoTime models parser watcher tailing watching.

Local Open Scope list_scope.

Lemma readNewLines_offsets_witness :
  let w := {| config := tailOnly; parser := PlainTextLogParser;
              fileOffset := 500; lastOffset := 500 |} in
  view_statErr after50 = None /\
  Watch_open (NewWatcher tailOnly) (Ok before500) None = Ok w /\
  let r := readNewLines noDecoder w fixedClock after50 in
  lastOffset (fst r) = 50 /\
  snd r = processLines noDecoder w fixedClock
            (bufio.tokens (scanFrom after50 0)) 0.
Proof.
  cbn zeta. split; [reflexivity|]. split; [vm_compute; reflexivity|].
  refine (proj1 (proj2 (proj2
            (readNewLines_offsets noDecoder tailOnly
               {| config := tailOnly; parser := PlainTextLogParser;
                  fileOffset := 500; lastOffset := 500 |}
               fixedClock after50 eq_refl))) eq_refl _).
  vm_compute. reflexivity.
Defined.

(** C6, the claim as written, fails: a first line of 65536 bytes stops
    the scanner of the first step, which leaves the file open at byte
    65536 while the size, 65548, is stored as the last offset; the next
    step finds the file unchanged, yet it reads from byte 65536 and
    displays the second line, where reading from the last offset would
    display nothing. *)
Lemma readNewLines_after_long_line :
  exists w0 : Watcher,
    Watch_open (NewWatcher showAll) (Ok longLineFile) None = Ok w0 /\
    unchanged longLineFile /\
    let w1 := fst (readNewLines noDecoder w0 fixedClock longLineFile) in
    reachable noDecoder showAll w1 /\
    lastOffset w1 = 65548 /\ fileOffset w1 = 65536 /\
    Size longLineFile = 65548 /\
    snd (readNewLines noDecoder w1 fixedClock longLineFile)
    <> processLines noDecoder w1 fixedClock
         (bufio.tokens (scanFrom longLineFile (lastOffset w1))) 0.
Proof.
  exists {| config := showAll; parser := PlainTextLogParser;
            fileOffset := 0; lastOffset := 0 |}.
  split; [vm_compute; reflexivity|].
  split; [vm_compute; reflexivity|]. cbn zeta.
  split.
  { apply reachable_read. apply (reachable_open _ _ longLineFile).
    vm_compute. reflexivity. }
  split; [vm_compute; reflexivity|]. split; [vm_compute; reflexivity|].
  split; [vm_compute; reflexivity|].
  vm_compute. discriminate.
Qed.

(** The same happens when the file is written to between the [Stat] and
    the reads of a step: [Stat] reports the 13 bytes of a first line, the
    scan that follows also finds a second line, written in between, and
    displays both; the file then stands at byte 24 while 13 is stored.
    The next step finds nothing new and displays nothing, where reading
    from the last offset would display the second line again. *)
Lemma readNewLines_after_growth :
  let first := ("INFO started" ++ String bufio.LF "")%string in
  let both := (first ++ "ERROR boom" ++ String bufio.LF "")%string in
  exists w0 : Watcher,
    Watch_open (NewWatcher showAll) (Ok (view "")) None = Ok w0 /\
    let r1 := readNewLines noDecoder w0 fixedClock (viewed 13 both) in
    length (snd r1) = 2%nat /\
    lastOffset (fst r1) = 13 /\ fileOffset (fst r1) = 24 /\
    snd (readNewLines noDecoder (fst r1) fixedClock (view both)) = [] /\
    processLines noDecoder (fst r1) fixedClock
      (bufio.tokens (scanFrom (view both) (lastOffset (fst r1)))) 0 <> [].
Proof.
  cbn zeta.
  exists {| config := showAll; parser := PlainTextLogParser;
            fileOffset := 0; lastOffset := 0 |}.
  split; [vm_compute; reflexivity|].
  split; [vm_compute; reflexivity|]. split; [vm_compute; reflexivity|].
  split; [vm_compute; reflexivity|]. split; [vm_compute; reflexivity|].
  vm_compute. discriminate.
Qed.

End WatcherExamples.

(** ** sort.Slice: swaps *)

Section SortSwaps.

Import sort sorting.

Local Open Scope nat_scope.

Context {A : Type}.
Variable key : A -> Z.

Local Abbreviation Less := (sort.Less (byKey key)).
Local Abbreviation keyAt := (sorting.keyAt key).
Local Abbreviation sortedOn := (sorting.sortedOn key).

Lemma Swap_length (data : list A) (i j : nat) :
  length (Swap data i j) = length data.
Proof.
  unfold Swap. destruct (data !! i), (data !! j); try reflexivity.
  rewrite !length_insert. reflexivity.
Qed.

Lemma Swap_lookup (data : list A) (i j k : nat) :
  i < length data -> j < length data ->
  Swap data i j !! k
  = if decide (k = i) then data !! j
    else if decide (k = j) then data !! i else data !! k.
Proof.
  intros Hi Hj. unfold Swap.
  destruct (lookup_lt_is_Some_2 data i Hi) as [x Hx].
  destruct (lookup_lt_is_Some_2 data j Hj) as [y Hy].
  rewrite Hx, Hy.
  destruct (decide (k = i)) as [->|Hki].
  - rewrite list_lookup_insert_eq by (rewrite length_insert; exact Hi).
    reflexivity.
  - rewrite list_lookup_insert_ne by congruence.
    destruct (decide (k = j)) as [->|Hkj].
    + rewrite list_lookup_insert_eq by exact Hj. reflexivity.
    + rewrite list_lookup_insert_ne by congruence. reflexivity.
Qed.

Lemma Swap_outside (data : list A) (i j : nat) :
  length data <= i \/ length data <= j -> Swap data i j = data.
Proof.
  intros H. unfold Swap. destruct H as [H | H].
  - rewrite (lookup_ge_None_2 data i H). reflexivity.
  - rewrite (lookup_ge_None_2 data j H). destruct (data !! i); reflexivity.
Qed.

Lemma Swap_lookup_other (data : list A) (i j k : nat) :
  k <> i -> k <> j -> Swap data i j !! k = data !! k.
Proof.
  intros Hi Hj. destruct (le_lt_dec (length data) i) as [H|H].
  { rewrite Swap_outside by (left; exact H). reflexivity. }
  destruct (le_lt_dec (length data) j) as [H'|H'].
  { rewrite Swap_outside by (right; exact H'). reflexivity. }
  rewrite Swap_lookup by assumption.
  destruct (decide (k = i)); [contradiction|].
  destruct (decide (k = j)); [contradiction | reflexivity].
Qed.

Lemma Swap_same (data : list A) (i : nat) : Swap data i i = data.
Proof.
  unfold Swap. destruct (data !! i) as [x|] eqn:Hx; [|reflexivity].
  rewrite list_insert_insert_eq. apply list_insert_id, Hx.
Qed.

Lemma Swap_Permutation (data : list A) (i j : nat) :
  Permutation (Swap data i j) data.
Proof.
  destruct (le_lt_dec (length data) i) as [H|Hi].
  { rewrite Swap_outside by (left; exact H). reflexivity. }
  destruct (le_lt_dec (length data) j) as [H|Hj].
  { rewrite Swap_outside by (right; exact H). reflexivity. }
  (* both in range: by induction on the list, wlog on the indices *)
  assert (G : forall (l : list A) (p q : nat), p < q -> q < length l ->
              Permutation (Swap l p q) l).
  { clear. intros l. induction l as [|z l IH]; intros p q Hpq Hq;
      [simpl in Hq; lia|].
    destruct q as [|q]; [lia|]. simpl in Hq.
    destruct p as [|p].
    - unfold Swap. simpl.
      destruct (l !! q) as [y|] eqn:Hy;
        [|apply lookup_ge_None in Hy; lia].
      simpl. pose proof (take_drop_middle l q y Hy) as E.
      rewrite insert_take_drop by (apply lookup_lt_Some in Hy; exact Hy).
      transitivity (z :: take q l ++ y :: drop (S q) l);
        [solve_Permutation | rewrite E; reflexivity].
    - assert (E : Swap (z :: l) (S p) (S q) = z :: Swap l p q).
      { unfold Swap. simpl. destruct (l !! p), (l !! q); reflexivity. }
      rewrite E. constructor. apply IH; lia. }
  destruct (lt_eq_lt_dec i j) as [[Hlt | ->] | Hgt].
  - apply G; assumption.
  - rewrite Swap_same. reflexivity.
  - assert (E : Swap data i j = Swap data j i).
    { apply list_eq. intros k. rewrite !Swap_lookup by assumption.
      destruct (decide (k = i)), (decide (k = j)); subst; try reflexivity; lia. }
    rewrite E. apply G; assumption.
Qed.

Lemma keyAt_Swap (data : list A) (i j k : nat) :
  i < length data -> j < length data ->
  keyAt (Swap data i j) k
  = if decide (k = i) then keyAt data j
    else if decide (k = j) then keyAt data i else keyAt data k.
Proof.
  intros Hi Hj. unfold sorting.keyAt. rewrite Swap_lookup by assumption.
  destruct (decide (k = i)); [reflexivity|].
  destruct (decide (k = j)); reflexivity.
Qed.

Lemma Less_keyAt (data : list A) (i j : nat) :
  i < length data -> j < length data ->
  Less data i j = (keyAt data i <? keyAt data j)%Z.
Proof.
  intros Hi Hj. unfold sort.Less, sorting.keyAt, byKey.
  destruct (lookup_lt_is_Some_2 data i Hi) as [x ->].
  destruct (lookup_lt_is_Some_2 data j Hj) as [y ->]. reflexivity.
Qed.

End SortSwaps.

(** ** sort.Slice: permuting a range *)

Section SortRanges.

Import sort sorting.

Local Open Scope nat_scope.

Context {A : Type}.
Variable key : A -> Z.

Local Abbreviation Less := (sort.Less (byKey key)).
Local Abbreviation keyAt := (sorting.keyAt key).
Local Abbreviation sortedOn := (sorting.sortedOn key).

Lemma swapsIn_one (a b : nat) (data : list A) (i j : nat) :
  a <= i < b -> a <= j < b -> swapsIn a b data (Swap data i j).
Proof. intros Hi Hj. eapply swapsIn_swap; [exact Hi | exact Hj | constructor]. Qed.

Lemma swapsIn_trans (a b : nat) (d1 d2 d3 : list A) :
  swapsIn a b d1 d2 -> swapsIn a b d2 d3 -> swapsIn a b d1 d3.
Proof.
  induction 1 as [d | d d' i j Hi Hj _ IH]; intros H; [exact H|].
  eapply swapsIn_swap; [exact Hi | exact Hj | apply IH, H].
Qed.

Lemma swapsIn_wider (a b a' b' : nat) (d d' : list A) :
  a' <= a -> b <= b' -> swapsIn a b d d' -> swapsIn a' b' d d'.
Proof.
  intros Ha Hb. induction 1 as [d | d d' i j Hi Hj _ IH]; [constructor|].
  eapply swapsIn_swap; [| | exact IH]; lia.
Qed.

Lemma swapsIn_length (a b : nat) (d d' : list A) :
  swapsIn a b d d' -> length d' = length d.
Proof.
  induction 1 as [d | d d' i j _ _ _ IH]; [reflexivity|].
  rewrite IH. apply Swap_length.
Qed.

Lemma swapsIn_Permutation (a b : nat) (d d' : list A) :
  swapsIn a b d d' -> Permutation d' d.
Proof.
  induction 1 as [d | d d' i j _ _ _ IH]; [reflexivity|].
  rewrite IH. apply Swap_Permutation.
Qed.

Lemma swapsIn_outside (a b : nat) (d d' : list A) (k : nat) :
  swapsIn a b d d' -> ~ (a <= k < b) -> d' !! k = d !! k.
Proof.
  induction 1 as [d | d d' i j Hi Hj _ IH]; intros Hk; [reflexivity|].
  rewrite IH by exact Hk. apply Swap_lookup_other; lia.
Qed.

Lemma swapsIn_keyAt_outside (a b : nat) (d d' : list A) (k : nat) :
  swapsIn a b d d' -> ~ (a <= k < b) -> keyAt d' k = keyAt d k.
Proof.
  intros H Hk. unfold sorting.keyAt. rewrite (swapsIn_outside a b d d' k H Hk).
  reflexivity.
Qed.

(** What holds of every key of the range still holds after the swaps. *)
Lemma swapsIn_all (a b : nat) (d d' : list A) (P : Z -> Prop) :
  swapsIn a b d d' -> b <= length d ->
  (forall k, a <= k < b -> P (keyAt d k)) ->
  (forall k, a <= k < b -> P (keyAt d' k)).
Proof.
  induction 1 as [d | d d' i j Hi Hj _ IH]; intros Hb HP; [exact HP|].
  apply IH; [rewrite Swap_length; exact Hb|].
  intros k Hk. rewrite keyAt_Swap by lia.
  destruct (decide (k = i)); [apply HP; lia|].
  destruct (decide (k = j)); apply HP; lia.
Qed.

Lemma sortedOn_outside (a b : nat) (d d' : list A) (lo hi : nat) :
  swapsIn a b d d' -> (hi <= a \/ b <= lo) ->
  sortedOn d lo hi -> sortedOn d' lo hi.
Proof.
  intros H Hdis Hs i j Hi Hij Hj.
  rewrite !(swapsIn_keyAt_outside a b d d') by (assumption || lia).
  apply Hs; assumption.
Qed.

(** *** insertionSort_func *)

Lemma insertionSort_inner_swapsIn (data : list A) (a j : nat) :
  swapsIn a (S j) data (insertionSort_inner (byKey key) data a j).
Proof.
  revert data. induction j as [|j IH]; intros data; simpl; [constructor|].
  destruct (Nat.ltb_spec a (S j)) as [Ha|Ha]; simpl; [|constructor].
  destruct (Less data (S j) j); [|constructor].
  eapply swapsIn_swap with (i := S j) (j := j); [lia | lia |].
  eapply swapsIn_wider; [| | apply IH]; lia.
Qed.

Lemma insertionSort_inner_sorted (data : list A) (a j m : nat) :
  a <= j -> j <= m -> m < length data ->
  sortedOn data a j -> sortedOn data j (S m) ->
  (forall p q, a <= p -> p < j -> j < q -> q <= m ->
               (keyAt data p <= keyAt data q)%Z) ->
  sortedOn (insertionSort_inner (byKey key) data a j) a (S m).
Proof.
  revert data. induction j as [|j IH]; intros data Ha Hm Hlen H1 H2 H3; simpl.
  - assert (a = 0) by lia. subst a. exact H2.
  - destruct (Nat.ltb_spec a (S j)) as [Haj|Haj]; simpl.
    + rewrite Less_keyAt by lia.
      destruct (Z.ltb_spec (keyAt data (S j)) (keyAt data j)) as [Hlt|Hge].
      * apply IH; try lia; [rewrite Swap_length; lia | | |].
        -- intros p q Hp Hpq Hq. rewrite !keyAt_Swap by lia.
           repeat case_decide; try lia. apply H1; lia.
        -- intros p q Hp Hpq Hq. rewrite !keyAt_Swap by lia.
           repeat case_decide; subst;
             first [ lia
                   | specialize (H2 (S j) q); lia
                   | specialize (H3 j q); lia
                   | apply H2; lia ].
        -- intros p q Hp Hpj Hjq Hq. rewrite !keyAt_Swap by lia.
           repeat case_decide; subst;
             first [ lia | apply H1; lia | apply H3; lia ].
      * intros p q Hp Hpq Hq.
        destruct (le_lt_dec (S j) p); [apply H2; lia|].
        destruct (le_lt_dec (S j) q); [|apply H1; lia].
        specialize (H1 p j). specialize (H2 (S j) q). lia.
    + assert (a = S j) by lia. subst a. exact H2.
Qed.

Lemma insertionSort_outer_swapsIn (n : nat) (data : list A) (a i : nat) :
  a <= i ->
  swapsIn a (i + n) data (insertionSort_outer (byKey key) n data a i).
Proof.
  revert data i. induction n as [|n IH]; intros data i Hai; simpl; [constructor|].
  apply swapsIn_trans with (d2 := insertionSort_inner (byKey key) data a i).
  - eapply swapsIn_wider; [| | apply insertionSort_inner_swapsIn]; lia.
  - replace (i + S n) with (S i + n) by lia. apply IH. lia.
Qed.

Lemma insertionSort_outer_sorted (n : nat) (data : list A) (a i : nat) :
  a <= i -> i + n <= length data -> sortedOn data a i ->
  sortedOn (insertionSort_outer (byKey key) n data a i) a (i + n).
Proof.
  revert data i. induction n as [|n IH]; intros data i Hai Hlen Hs; simpl.
  - rewrite Nat.add_0_r. exact Hs.
  - replace (i + S n) with (S i + n) by lia. apply IH; [lia | |].
    + rewrite (swapsIn_length _ _ _ _ (insertionSort_inner_swapsIn data a i)). lia.
    + apply insertionSort_inner_sorted; try lia; [exact Hs |].
      intros p q Hp Hpq Hq. assert (p = q) by lia. subst. lia.
Qed.

Lemma insertionSort_swapsIn (data : list A) (a b : nat) :
  swapsIn a b data (insertionSort_func (byKey key) data a b).
Proof.
  unfold insertionSort_func.
  destruct (le_lt_dec b a) as [H|H].
  - replace (b - (a + 1)) with 0 by lia. constructor.
  - replace b with ((a + 1) + (b - (a + 1))) at 1 by lia.
    apply insertionSort_outer_swapsIn. lia.
Qed.

Lemma insertionSort_sorted (data : list A) (a b : nat) :
  b <= length data ->
  sortedOn (insertionSort_func (byKey key) data a b) a b.
Proof.
  intros Hb. unfold insertionSort_func.
  destruct (le_lt_dec b a) as [H|H].
  - intros i j Hi Hij Hj. lia.
  - replace b with ((a + 1) + (b - (a + 1))) at 2 by lia.
    apply insertionSort_outer_sorted; [lia | lia |].
    intros i j Hi Hij Hj. assert (i = j) by lia. subst. lia.
Qed.

End SortRanges.

(** ** sort.Slice: partitioning *)

Section SortPartition.

Import sort sorting.

Local Open Scope nat_scope.

Context {A : Type}.
Variable key : A -> Z.

Local Abbreviation Less := (sort.Less (byKey key)).
Local Abbreviation keyAt := (sorting.keyAt key).
Local Abbreviation sortedOn := (sorting.sortedOn key).

Lemma scanUp_less_spec (fuel : nat) (data : list A) (a i j : nat) :
  S j - i <= fuel -> j < length data -> a < length data ->
  let i' := scanUp_less (byKey key) fuel data a i j in
  i <= i' /\ (i <= S j -> i' <= S j) /\
  (forall k, i <= k -> k < i' -> (keyAt data k < keyAt data a)%Z) /\
  (i' <= j -> (keyAt data a <= keyAt data i')%Z).
Proof.
  revert i. induction fuel as [|fuel IH]; intros i Hf Hj Ha; cbn zeta; simpl.
  - repeat split; try lia.
  - destruct (Nat.leb_spec i j) as [Hij|Hij]; simpl.
    + rewrite Less_keyAt by lia.
      destruct (Z.ltb_spec (keyAt data i) (keyAt data a)) as [Hlt|Hge].
      * destruct (IH (S i)) as (H1 & H2 & H3 & H4); try lia.
        cbn zeta in *. repeat split; try lia.
        intros k Hk1 Hk2. destruct (decide (k = i)) as [->|]; [lia|].
        apply H3; lia.
      * repeat split; try lia.
    + repeat split; try lia.
Qed.

Lemma scanDown_notless_spec (fuel : nat) (data : list A) (a i j : nat) :
  S j - i <= fuel -> j < length data -> a < length data -> 1 <= i ->
  let j' := scanDown_notless (byKey key) fuel data a i j in
  j' <= j /\ (i <= S j -> i <= S j') /\
  (forall k, j' < k -> k <= j -> (keyAt data a <= keyAt data k)%Z) /\
  (i <= j' -> (keyAt data j' < keyAt data a)%Z).
Proof.
  revert j. induction fuel as [|fuel IH]; intros j Hf Hj Ha Hi; cbn zeta; simpl.
  - repeat split; try lia.
  - destruct (Nat.leb_spec i j) as [Hij|Hij]; simpl.
    + rewrite Less_keyAt by lia.
      destruct (Z.ltb_spec (keyAt data j) (keyAt data a)) as [Hlt|Hge]; simpl.
      * repeat split; try lia.
      * destruct (IH (j - 1)) as (H1 & H2 & H3 & H4); try lia.
        cbn zeta in *. repeat split; try lia.
        intros k Hk1 Hk2. destruct (decide (k = j)) as [->|]; [lia|].
        apply H3; lia.
    + repeat split; try lia.
Qed.

(** The state of [partition_func] between two swaps: the pivot is at [a],
    smaller keys fill [a+1, i) and the keys of (j, b) are not smaller. *)
Lemma partition_loop_spec (fuel : nat) (data : list A) (a b i j : nat) :
  S j - i <= fuel -> b <= length data ->
  a < i -> i <= S j -> j < b ->
  (forall k, a < k -> k < i -> (keyAt data k < keyAt data a)%Z) ->
  (forall k, j < k -> k < b -> (keyAt data a <= keyAt data k)%Z) ->
  let r := partition_loop (byKey key) fuel data a i j in
  swapsIn (a + 1) b data (fst r) /\
  a <= snd r /\ snd r < b /\
  (forall k, a < k -> k <= snd r -> (keyAt (fst r) k < keyAt (fst r) a)%Z) /\
  (forall k, snd r < k -> k < b -> (keyAt (fst r) a <= keyAt (fst r) k)%Z).
Proof.
  revert data i j. induction fuel as [|fuel IH];
    intros data i j Hf Hb Hai Hij Hjb Hlo Hhi; cbn zeta.
  - simpl. assert (i = S j) by lia. subst i.
    split; [constructor|]. repeat split; try lia.
    + intros k Hk1 Hk2. apply Hlo; lia.
    + exact Hhi.
  - simpl.
    destruct (scanUp_less_spec (S j - i) data a i j) as (U1 & U2 & U3 & U4);
      try lia.
    cbn zeta in *.
    remember (scanUp_less (byKey key) (S j - i) data a i j) as i1 eqn:Ei1. clear Ei1.
    destruct (scanDown_notless_spec (S j - i1) data a i1 j) as (D1 & D2 & D3 & D4);
      try lia.
    cbn zeta in *.
    remember (scanDown_notless (byKey key) (S j - i1) data a i1 j) as j1 eqn:Ej1. clear Ej1.
    assert (Hlo1 : forall k, a < k -> k < i1 -> (keyAt data k < keyAt data a)%Z).
    { intros k Hk1 Hk2. destruct (le_lt_dec i k); [apply U3 | apply Hlo]; lia. }
    assert (Hhi1 : forall k, j1 < k -> k < b -> (keyAt data a <= keyAt data k)%Z).
    { intros k Hk1 Hk2. destruct (le_lt_dec k j); [apply D3 | apply Hhi]; lia. }
    destruct (Nat.ltb_spec j1 i1) as [Hlt|Hge]; simpl.
    + split; [constructor|]. repeat split; try lia.
      * intros k Hk1 Hk2. apply Hlo1; lia.
      * exact Hhi1.
    + assert (Hne : i1 <> j1).
      { intros E. specialize (U4 ltac:(lia)). specialize (D4 ltac:(lia)).
        rewrite E in U4. lia. }
      destruct (IH (Swap data i1 j1) (S i1) (j1 - 1)) as (R1 & R2 & R3 & R4 & R5);
        try lia.
      * rewrite Swap_length. lia.
      * intros k Hk1 Hk2. rewrite !keyAt_Swap by lia.
        repeat case_decide; subst;
          first [lia | apply D4; lia | apply Hlo1; lia].
      * intros k Hk1 Hk2. rewrite !keyAt_Swap by lia.
        repeat case_decide; subst;
          first [lia | apply U4; lia | apply Hhi1; lia].
      * cbn zeta in *. split; [|repeat split; assumption].
        eapply swapsIn_swap with (i := i1) (j := j1); [lia | lia | exact R1].
Qed.

Lemma partition_func_spec (data : list A) (a b pivot : nat) :
  a <= pivot -> pivot < b -> b <= length data ->
  let r := partition_func (byKey key) data a b pivot in
  let data' := fst (fst r) in
  let mid := snd (fst r) in
  swapsIn a b data data' /\
  a <= mid /\ mid < b /\
  (forall k, a <= k -> k < mid -> (keyAt data' k < keyAt data' mid)%Z) /\
  (forall k, mid < k -> k < b -> (keyAt data' mid <= keyAt data' k)%Z).
Proof.
  intros Hap Hpb Hb. cbn zeta. unfold partition_func.
  set (d0 := Swap data a pivot).
  assert (Hd0 : swapsIn a b data d0) by (apply swapsIn_one; lia).
  assert (Hl0 : length d0 = length data) by apply Swap_length.
  replace (S (b - 1) - (a + 1)) with (b - 1 - a) by lia.
  destruct (scanUp_less_spec (b - 1 - a) d0 a (a + 1) (b - 1))
    as (U1 & U2 & U3 & U4); try lia.
  cbn zeta in *.
  remember (scanUp_less (byKey key) (b - 1 - a) d0 a (a + 1) (b - 1)) as i1 eqn:Ei1. clear Ei1.
  destruct (scanDown_notless_spec (S (b - 1) - i1) d0 a i1 (b - 1))
    as (D1 & D2 & D3 & D4); try lia.
  cbn zeta in *.
  remember (scanDown_notless (byKey key) (S (b - 1) - i1) d0 a i1 (b - 1)) as j1 eqn:Ej1. clear Ej1.
  (* the last step: the pivot goes to its place *)
  assert (Last : forall (d : list A) (j : nat),
            swapsIn a b data d -> a <= j -> j < b ->
            (forall k, a < k -> k <= j -> (keyAt d k < keyAt d a)%Z) ->
            (forall k, j < k -> k < b -> (keyAt d a <= keyAt d k)%Z) ->
            swapsIn a b data (Swap d j a) /\
            a <= j /\ j < b /\
            (forall k, a <= k -> k < j ->
                       (keyAt (Swap d j a) k < keyAt (Swap d j a) j)%Z) /\
            (forall k, j < k -> k < b ->
                       (keyAt (Swap d j a) j <= keyAt (Swap d j a) k)%Z)).
  { intros d j Hd Haj Hjb Hlo Hhi.
    assert (Hl : length d = length data) by (eapply swapsIn_length, Hd).
    split; [eapply swapsIn_trans; [exact Hd | apply swapsIn_one; lia]|].
    repeat split; try lia.
    - intros k Hk1 Hk2. rewrite !keyAt_Swap by lia.
      repeat case_decide; subst; first [lia | apply Hlo; lia].
    - intros k Hk1 Hk2. rewrite !keyAt_Swap by lia.
      repeat case_decide; subst; first [lia | apply Hhi; lia]. }
  destruct (Nat.ltb_spec j1 i1) as [Hlt|Hge]; simpl.
  - apply Last; try lia; [exact Hd0 | |].
    + intros k Hk1 Hk2. apply U3; lia.
    + intros k Hk1 Hk2. apply D3; lia.
  - assert (Hne : i1 <> j1).
    { intros E. specialize (U4 ltac:(lia)). specialize (D4 ltac:(lia)).
      rewrite E in U4. lia. }
    destruct (partition_loop_spec (b - a) (Swap d0 i1 j1) a b (S i1) (j1 - 1))
      as (R1 & R2 & R3 & R4 & R5); try lia.
    + rewrite Swap_length. lia.
    + intros k Hk1 Hk2. rewrite !keyAt_Swap by lia.
      repeat case_decide; subst;
        first [lia | apply D4; lia | apply U3; lia].
    + intros k Hk1 Hk2. rewrite !keyAt_Swap by lia.
      repeat case_decide; subst;
        first [lia | apply U4; lia | apply D3; lia].
    + cbn zeta in *.
      destruct (partition_loop (byKey key) (b - a) (Swap d0 i1 j1) a (S i1) (j1 - 1))
        as [d2 j2]. simpl in *.
      apply Last; try lia; try assumption.
      eapply swapsIn_trans; [exact Hd0|].
      eapply swapsIn_swap with (i := i1) (j := j1); [lia | lia |].
      eapply swapsIn_wider; [| | exact R1]; lia.
Qed.

End SortPartition.

(** ** sort.Slice: partitioning around equal keys *)

Section SortPartitionEqual.

Import sort sorting.

Local Open Scope nat_scope.

Context {A : Type}.
Variable key : A -> Z.

Local Abbreviation Less := (sort.Less (byKey key)).
Local Abbreviation keyAt := (sorting.keyAt key).
Local Abbreviation sortedOn := (sorting.sortedOn key).

Lemma scanUp_notgreater_spec (fuel : nat) (data : list A) (a i j : nat) :
  S j - i <= fuel -> j < length data -> a < length data ->
  let i' := scanUp_notgreater (byKey key) fuel data a i j in
  i <= i' /\ (i <= S j -> i' <= S j) /\
  (forall k, i <= k -> k < i' -> (keyAt data k <= keyAt data a)%Z) /\
  (i' <= j -> (keyAt data a < keyAt data i')%Z).
Proof.
  revert i. induction fuel as [|fuel IH]; intros i Hf Hj Ha; cbn zeta; simpl.
  - repeat split; try lia.
  - destruct (Nat.leb_spec i j) as [Hij|Hij]; simpl.
    + rewrite Less_keyAt by lia.
      destruct (Z.ltb_spec (keyAt data a) (keyAt data i)) as [Hlt|Hge]; simpl.
      * repeat split; try lia.
      * destruct (IH (S i)) as (H1 & H2 & H3 & H4); try lia.
        cbn zeta in *. repeat split; try lia.
        intros k Hk1 Hk2. destruct (decide (k = i)) as [->|]; [lia|].
        apply H3; lia.
    + repeat split; try lia.
Qed.

Lemma scanDown_greater_spec (fuel : nat) (data : list A) (a i j : nat) :
  S j - i <= fuel -> j < length data -> a < length data -> 1 <= i ->
  let j' := scanDown_greater (byKey key) fuel data a i j in
  j' <= j /\ (i <= S j -> i <= S j') /\
  (forall k, j' < k -> k <= j -> (keyAt data a < keyAt data k)%Z) /\
  (i <= j' -> (keyAt data j' <= keyAt data a)%Z).
Proof.
  revert j. induction fuel as [|fuel IH]; intros j Hf Hj Ha Hi; cbn zeta; simpl.
  - repeat split; try lia.
  - destruct (Nat.leb_spec i j) as [Hij|Hij]; simpl.
    + rewrite Less_keyAt by lia.
      destruct (Z.ltb_spec (keyAt data a) (keyAt data j)) as [Hlt|Hge]; simpl.
      * destruct (IH (j - 1)) as (H1 & H2 & H3 & H4); try lia.
        cbn zeta in *. repeat split; try lia.
        intros k Hk1 Hk2. destruct (decide (k = j)) as [->|]; [lia|].
        apply H3; lia.
      * repeat split; try lia.
    + repeat split; try lia.
Qed.

Lemma partitionEqual_loop_spec (fuel : nat) (data : list A) (a b i j : nat) :
  S j - i <= fuel -> b <= length data ->
  a < i -> i <= S j -> j < b ->
  (forall k, a < k -> k < i -> (keyAt data k <= keyAt data a)%Z) ->
  (forall k, j < k -> k < b -> (keyAt data a < keyAt data k)%Z) ->
  let r := partitionEqual_loop (byKey key) fuel data a i j in
  swapsIn (a + 1) b data (fst r) /\
  a < snd r /\ snd r <= b /\
  keyAt (fst r) a = keyAt data a /\
  (forall k, a < k -> k < snd r -> (keyAt (fst r) k <= keyAt (fst r) a)%Z) /\
  (forall k, snd r <= k -> k < b -> (keyAt (fst r) a < keyAt (fst r) k)%Z).
Proof.
  revert data i j. induction fuel as [|fuel IH];
    intros data i j Hf Hb Hai Hij Hjb Hlo Hhi; cbn zeta.
  - simpl. assert (i = S j) by lia. subst i.
    split; [constructor|]. repeat split; try lia.
    + exact Hlo.
    + intros k Hk1 Hk2. apply Hhi; lia.
  - simpl.
    destruct (scanUp_notgreater_spec (S j - i) data a i j)
      as (U1 & U2 & U3 & U4); try lia.
    cbn zeta in *.
    remember (scanUp_notgreater (byKey key) (S j - i) data a i j) as i1 eqn:Ei1.
    clear Ei1.
    destruct (scanDown_greater_spec (S j - i1) data a i1 j)
      as (D1 & D2 & D3 & D4); try lia.
    cbn zeta in *.
    remember (scanDown_greater (byKey key) (S j - i1) data a i1 j) as j1 eqn:Ej1.
    clear Ej1.
    assert (Hlo1 : forall k, a < k -> k < i1 -> (keyAt data k <= keyAt data a)%Z).
    { intros k Hk1 Hk2. destruct (le_lt_dec i k); [apply U3 | apply Hlo]; lia. }
    assert (Hhi1 : forall k, j1 < k -> k < b -> (keyAt data a < keyAt data k)%Z).
    { intros k Hk1 Hk2. destruct (le_lt_dec k j); [apply D3 | apply Hhi]; lia. }
    destruct (Nat.ltb_spec j1 i1) as [Hlt|Hge]; simpl.
    + split; [constructor|]. repeat split; try lia.
      * exact Hlo1.
      * intros k Hk1 Hk2. apply Hhi1; lia.
    + assert (Hne : i1 <> j1).
      { intros E. specialize (U4 ltac:(lia)). specialize (D4 ltac:(lia)).
        rewrite E in U4. lia. }
      destruct (IH (Swap data i1 j1) (S i1) (j1 - 1))
        as (R1 & R2 & R3 & R4 & R5 & R6); try lia.
      * rewrite Swap_length. lia.
      * intros k Hk1 Hk2. rewrite !keyAt_Swap by lia.
        repeat case_decide; subst;
          first [lia | apply D4; lia | apply Hlo1; lia].
      * intros k Hk1 Hk2. rewrite !keyAt_Swap by lia.
        repeat case_decide; subst;
          first [lia | apply U4; lia | apply Hhi1; lia].
      * cbn zeta in *.
        split; [eapply swapsIn_swap with (i := i1) (j := j1);
                [lia | lia | exact R1]|].
        split; [lia|]. split; [lia|]. split; [|split; assumption].
        rewrite R4. rewrite keyAt_Swap by lia.
        repeat case_decide; subst; lia.
Qed.

Lemma partitionEqual_func_spec (data : list A) (a b pivot : nat) :
  a <= pivot -> pivot < b -> b <= length data ->
  let r := partitionEqual_func (byKey key) data a b pivot in
  swapsIn a b data (fst r) /\
  a < snd r /\ snd r <= b /\
  (forall k, a <= k -> k < snd r -> (keyAt (fst r) k <= keyAt data pivot)%Z) /\
  (forall k, snd r <= k -> k < b -> (keyAt data pivot < keyAt (fst r) k)%Z).
Proof.
  intros Hap Hpb Hb. cbn zeta. unfold partitionEqual_func.
  set (d0 := Swap data a pivot).
  assert (Hd0 : swapsIn a b data d0) by (apply swapsIn_one; lia).
  assert (Hl0 : length d0 = length data) by apply Swap_length.
  assert (Hp : keyAt d0 a = keyAt data pivot).
  { unfold d0. rewrite keyAt_Swap by lia. case_decide; [reflexivity | lia]. }
  destruct (partitionEqual_loop_spec (S (b - a)) d0 a b (a + 1) (b - 1))
    as (R1 & R2 & R3 & R4 & R5 & R6); try lia.
  cbn zeta in *.
  destruct (partitionEqual_loop (byKey key) (S (b - a)) d0 a (a + 1) (b - 1))
    as [d1 mid]. simpl in *.
  split.
  { eapply swapsIn_trans; [exact Hd0|].
    eapply swapsIn_wider; [| | exact R1]; lia. }
  split; [lia|]. split; [lia|]. rewrite <- Hp, <- R4. split.
  - intros k Hk1 Hk2. destruct (decide (k = a)) as [->|]; [lia|].
    apply R5; lia.
  - exact R6.
Qed.

End SortPartitionEqual.

(** ** sort.Slice: heap sort *)

Section SortHeap.

Import sort sorting.

Local Open Scope nat_scope.

Context {A : Type}.
Variable key : A -> Z.

Local Abbreviation Less := (sort.Less (byKey key)).
Local Abbreviation keyAt := (sorting.keyAt key).
Local Abbreviation sortedOn := (sorting.sortedOn key).
Local Abbreviation heapFrom := (sorting.heapFrom key).

(** Sifting down from [root]: before, the heap order holds from [lo] on
    except at [root], and the parent of [root] is not below the children
    of [root]; after, it holds from [lo] on. *)
Lemma siftDown_loop_spec (fuel : nat) (data : list A) (root hi first lo : nat) :
  hi - root <= fuel -> first + hi <= length data -> lo <= root ->
  (forall i c, lo <= i -> i <> root -> (c = 2 * i + 1 \/ c = 2 * i + 2) ->
               c < hi -> (keyAt data (first + c) <= keyAt data (first + i))%Z) ->
  (forall p c, lo <= p -> (root = 2 * p + 1 \/ root = 2 * p + 2) ->
               (c = 2 * root + 1 \/ c = 2 * root + 2) -> c < hi ->
               (keyAt data (first + c) <= keyAt data (first + p))%Z) ->
  let r := siftDown_loop (byKey key) fuel data root hi first in
  swapsIn (first + root) (first + hi) data r /\ heapFrom r first lo hi.
Proof.
  revert data root. induction fuel as [|fuel IH];
    intros data root Hf Hlen Hlo Hheap Hgp; cbn zeta.
  - simpl. split; [constructor|]. intros i c Hi Hc Hch.
    destruct (decide (i = root)) as [->|Hne]; [lia|].
    apply Hheap; assumption.
  - simpl. destruct (Nat.leb_spec hi (2 * root + 1)) as [Hleaf|Hin].
    { replace (root + (root + 0) + 1) with (2 * root + 1) by lia.
      destruct (Nat.leb_spec hi (2 * root + 1)); [|lia].
      split; [constructor|]. intros i c Hi Hc Hch.
      destruct (decide (i = root)) as [->|Hne]; [lia|].
      apply Hheap; assumption. }
    replace (root + (root + 0) + 1) with (2 * root + 1) by lia.
    destruct (Nat.leb_spec hi (2 * root + 1)); [lia|].
    remember (2 * root + 1) as c1 eqn:Ec1.
    (* the child to compare with: the larger one *)
    assert (Hpick : exists c',
              (if (c1 + 1 <? hi) && Less data (first + c1) (first + c1 + 1)
               then c1 + 1 else c1) = c' /\
              (c' = c1 \/ c' = c1 + 1) /\ c' < hi /\
              (forall c, (c = c1 \/ c = c1 + 1) -> c < hi ->
                         (keyAt data (first + c) <= keyAt data (first + c'))%Z)).
    { replace (first + c1 + 1) with (first + (c1 + 1)) by lia.
      destruct (Nat.ltb_spec (c1 + 1) hi) as [H2|H2]; simpl.
      - rewrite Less_keyAt by lia.
        destruct (Z.ltb_spec (keyAt data (first + c1))
                             (keyAt data (first + (c1 + 1)))) as [Hlt|Hge].
        + exists (c1 + 1). repeat split; try lia.
          intros c [-> | ->] Hc; lia.
        + exists c1. repeat split; try lia.
          intros c [-> | ->] Hc; lia.
      - exists c1. repeat split; try lia.
        intros c [-> | ->] Hc; lia. }
    destruct Hpick as (c' & -> & Hc' & Hc'hi & Hmax).
    rewrite Less_keyAt by lia.
    destruct (Z.ltb_spec (keyAt data (first + root)) (keyAt data (first + c')))
      as [Hlt|Hge]; simpl.
    + (* swap and go down *)
      destruct (IH (Swap data (first + root) (first + c')) c') as [R1 R2];
        try lia.
      * rewrite Swap_length. lia.
      * intros i c Hi Hne Hc Hch. rewrite !keyAt_Swap by lia.
        repeat case_decide;
          first [ lia
                | assert (i = root) by lia; subst i; apply Hmax; lia
                | assert (c = root) by lia; subst c; apply (Hgp i c'); lia
                | apply Hheap; lia ].
      * intros p c Hp Hpc Hc Hch. rewrite !keyAt_Swap by lia.
        assert (p = root) by lia. subst p.
        repeat case_decide; first [lia | apply Hheap; lia].
      * cbn zeta in *. split; [|exact R2].
        eapply swapsIn_swap with (i := first + root) (j := first + c');
          [lia | lia |].
        eapply swapsIn_wider; [| | exact R1]; lia.
    + split; [constructor|]. intros i c Hi Hc Hch.
      destruct (decide (i = root)) as [->|Hne]; [|apply Hheap; assumption].
      assert (keyAt data (first + c) <= keyAt data (first + c'))%Z
        by (apply Hmax; lia).
      lia.
Qed.

Lemma siftDown_func_spec (data : list A) (lo hi first : nat) :
  first + hi <= length data ->
  heapFrom data first (S lo) hi ->
  let r := siftDown_func (byKey key) data lo hi first in
  swapsIn (first + lo) (first + hi) data r /\ heapFrom r first lo hi.
Proof.
  intros Hlen Hheap. unfold siftDown_func.
  apply siftDown_loop_spec; try lia.
  intros i c Hi Hne Hc Hch. apply Hheap; try assumption. lia.
Qed.

Lemma heapSort_build_spec (n : nat) (data : list A) (hi first : nat) :
  first + hi <= length data -> heapFrom data first n hi ->
  let r := heapSort_build (byKey key) n data hi first in
  swapsIn first (first + hi) data r /\ heapFrom r first 0 hi.
Proof.
  revert data. induction n as [|n IH]; intros data Hlen Hheap; cbn zeta; simpl.
  - split; [constructor | exact Hheap].
  - destruct (siftDown_func_spec data n hi first Hlen Hheap) as [S1 S2].
    cbn zeta in *.
    destruct (IH (siftDown_func (byKey key) data n hi first)) as [R1 R2].
    + rewrite (swapsIn_length _ _ _ _ S1). exact Hlen.
    + exact S2.
    + split; [|exact R2].
      eapply swapsIn_trans; [|exact R1].
      eapply swapsIn_wider; [| | exact S1]; lia.
Qed.

(** The root of a heap holds a largest key. *)
Lemma heap_root_max (data : list A) (first hi : nat) :
  heapFrom data first 0 hi ->
  forall k, k < hi -> (keyAt data (first + k) <= keyAt data (first + 0))%Z.
Proof.
  intros Hheap k. induction k as [k IH] using lt_wf_ind. intros Hk.
  destruct k as [|k]; [lia|].
  (* the parent of [S k] *)
  destruct (Nat.Even_or_Odd k) as [[p Hp] | [p Hp]].
  - (* S k = 2p + 1 *)
    specialize (Hheap p (S k)). specialize (IH p).
    assert (keyAt data (first + S k) <= keyAt data (first + p))%Z
      by (apply Hheap; lia).
    assert (keyAt data (first + p) <= keyAt data (first + 0))%Z
      by (apply IH; lia).
    lia.
  - (* S k = 2p + 2 *)
    specialize (Hheap p (S k)). specialize (IH p).
    assert (keyAt data (first + S k) <= keyAt data (first + p))%Z
      by (apply Hheap; lia).
    assert (keyAt data (first + p) <= keyAt data (first + 0))%Z
      by (apply IH; lia).
    lia.
Qed.

Lemma heapSort_pop_spec (n : nat) (data : list A) (first hi : nat) :
  n <= hi -> first + hi <= length data ->
  heapFrom data first 0 n ->
  sortedOn data (first + n) (first + hi) ->
  (forall k m, k < n -> n <= m -> m < hi ->
               (keyAt data (first + k) <= keyAt data (first + m))%Z) ->
  let r := heapSort_pop (byKey key) n data first in
  swapsIn first (first + hi) data r /\ sortedOn r first (first + hi).
Proof.
  revert data. induction n as [|i IH];
    intros data Hn Hlen Hheap Hsorted Hcross; cbn zeta; simpl.
  - split; [constructor|]. rewrite Nat.add_0_r in Hsorted. exact Hsorted.
  - set (d1 := Swap data first (first + i)).
    assert (Hl1 : length d1 = length data) by apply Swap_length.
    assert (Hmax : forall k, k < S i ->
              (keyAt data (first + k) <= keyAt data first)%Z).
    { intros k Hk. pose proof (heap_root_max data first (S i) Hheap k Hk) as H.
      rewrite Nat.add_0_r in H. exact H. }
    assert (Hheap1 : heapFrom d1 first 1 i).
    { intros p c Hp Hc Hch. unfold d1. rewrite !keyAt_Swap by lia.
      repeat case_decide; try lia. apply Hheap; lia. }
    destruct (siftDown_func_spec d1 0 i first ltac:(lia) Hheap1) as [S1 S2].
    cbn zeta in *.
    set (d2 := siftDown_func (byKey key) d1 0 i first) in *.
    assert (Hl2 : length d2 = length data)
      by (rewrite (swapsIn_length _ _ _ _ S1); exact Hl1).
    assert (Hout : forall k, i <= k -> keyAt d2 (first + k) = keyAt d1 (first + k)).
    { intros k Hk. apply (swapsIn_keyAt_outside key _ _ _ _ _ S1). lia. }
    assert (Hd1i : keyAt d1 (first + i) = keyAt data first).
    { unfold d1. rewrite keyAt_Swap by lia.
      repeat case_decide; try lia; try reflexivity.
      replace (first + i) with first by lia. reflexivity. }
    assert (Hd1hi : forall m, S i <= m -> m < hi ->
              keyAt d1 (first + m) = keyAt data (first + m)).
    { intros m Hm1 Hm2. unfold d1. rewrite keyAt_Swap by lia.
      repeat case_decide; first [lia | reflexivity]. }
    assert (Hd1lo : forall k, first <= k -> k < first + i ->
              (keyAt d1 k <= keyAt data first)%Z /\
              (forall m, S i <= m -> m < hi ->
                         (keyAt d1 k <= keyAt data (first + m))%Z)).
    { intros k Hk1 Hk2. unfold d1. rewrite keyAt_Swap by lia.
      destruct (decide (k = first)) as [->|Hkf].
      - split; [specialize (Hmax i); apply Hmax; lia|].
        intros m Hm1 Hm2. apply Hcross; lia.
      - destruct (decide (k = first + i)); [lia|].
        replace k with (first + (k - first)) by lia.
        split; [apply Hmax; lia|]. intros m Hm1 Hm2. apply Hcross; lia. }
    assert (Hd2lo : forall k, first + 0 <= k -> k < first + i ->
              (keyAt d2 k <= keyAt data first)%Z /\
              (forall m, S i <= m -> m < hi ->
                         (keyAt d2 k <= keyAt data (first + m))%Z)).
    { intros k Hk1 Hk2.
      refine (swapsIn_all key (first + 0) (first + i) d1 d2
               (fun z => (z <= keyAt data first)%Z /\
                         (forall m, S i <= m -> m < hi ->
                                    (z <= keyAt data (first + m))%Z))
               S1 _ _ k _); [lia | | lia].
      intros k' Hk'. apply Hd1lo; lia. }
    destruct (IH d2) as [R1 R2]; try lia.
    + exact S2.
    + intros p q Hp Hpq Hq.
      replace p with (first + (p - first)) by lia.
      replace q with (first + (q - first)) by lia.
      rewrite !Hout by lia.
      destruct (decide (p - first = i)) as [Ep|Ep];
        destruct (decide (q - first = i)) as [Eq|Eq]; try lia.
      * rewrite Ep, Eq. lia.
      * rewrite Ep, Hd1i, Hd1hi by lia.
        specialize (Hcross 0 (q - first)). rewrite Nat.add_0_r in Hcross.
        apply Hcross; lia.
      * rewrite !Hd1hi by lia. apply Hsorted; lia.
    + intros k m Hk Hm1 Hm2. rewrite (Hout m) by lia.
      destruct (Hd2lo (first + k)) as [B1 B2]; try lia.
      destruct (decide (m = i)) as [->|Em].
      * rewrite Hd1i. exact B1.
      * rewrite Hd1hi by lia. apply B2; lia.
    + cbn zeta in *. split; [|exact R2].
      eapply swapsIn_swap with (i := first) (j := first + i); [lia | lia |].
      fold d1. eapply swapsIn_trans; [|exact R1].
      eapply swapsIn_wider; [| | exact S1]; lia.
Qed.

Lemma heapSort_func_spec (data : list A) (a b : nat) :
  a <= b -> b <= length data ->
  let r := heapSort_func (byKey key) data a b in
  swapsIn a b data r /\ sortedOn r a b.
Proof.
  intros Hab Hb. cbn zeta. unfold heapSort_func.
  set (hi := b - a).
  assert (Hmid : hi <= 2 * ((hi - 1) / 2 + 1)).
  { pose proof (Nat.div_mod_eq (hi - 1) 2) as E.
    pose proof (Nat.mod_upper_bound (hi - 1) 2 ltac:(lia)) as U. lia. }
  destruct (heapSort_build_spec ((hi - 1) / 2 + 1) data hi a) as [B1 B2].
  { unfold hi. lia. }
  { intros i c Hi Hc Hch. lia. }
  cbn zeta in *.
  set (d1 := heapSort_build (byKey key) ((hi - 1) / 2 + 1) data hi a) in *.
  destruct (heapSort_pop_spec hi d1 a hi) as [P1 P2]; try lia.
  { rewrite (swapsIn_length _ _ _ _ B1). unfold hi. lia. }
  { exact B2. }
  { intros i j Hi Hij Hj. lia. }
  cbn zeta in *. replace (a + hi) with b in * by (unfold hi; lia).
  split; [eapply swapsIn_trans; eassumption | exact P2].
Qed.

End SortHeap.

(** ** sort.Slice: the helpers of pdqsort *)

Section SortHelpers.

Import sort sorting.

Local Open Scope nat_scope.

Context {A : Type}.
Variable key : A -> Z.

Local Abbreviation Less := (sort.Less (byKey key)).
Local Abbreviation keyAt := (sorting.keyAt key).
Local Abbreviation sortedOn := (sorting.sortedOn key).
Local Abbreviation boundedBelow := (sorting.boundedBelow key).

Lemma boundedBelow_swapsIn (data data' : list A) (a b : nat) :
  swapsIn a b data data' -> b <= length data ->
  boundedBelow data a b -> boundedBelow data' a b.
Proof.
  intros Hs Hb Hbd Ha k Hk1 Hk2.
  rewrite (swapsIn_keyAt_outside key a b data data' (a - 1) Hs) by lia.
  refine (swapsIn_all key a b data data'
            (fun z => (keyAt data (a - 1) <= z)%Z) Hs Hb _ k _); [|lia].
  intros k' Hk'. apply Hbd; lia.
Qed.

Lemma scanSorted_spec (fuel : nat) (data : list A) (a i b : nat) :
  b - i <= fuel -> a < i -> i <= b -> b <= length data ->
  sortedOn data a i ->
  let i' := scanSorted (byKey key) fuel data i b in
  i <= i' /\ i' <= b /\ sortedOn data a i' /\
  (i' < b -> (keyAt data i' < keyAt data (i' - 1))%Z).
Proof.
  revert i. induction fuel as [|fuel IH]; intros i Hf Hai Hib Hb Hs;
    cbn zeta; simpl.
  - assert (i = b) by lia. subst i. repeat split; try lia. exact Hs.
  - destruct (Nat.ltb_spec i b) as [Hlt|Hge]; simpl.
    + rewrite Less_keyAt by lia.
      destruct (Z.ltb_spec (keyAt data i) (keyAt data (i - 1))) as [Hless|Hnot];
        simpl.
      * repeat split; try lia. exact Hs.
      * destruct (IH (S i)) as (H1 & H2 & H3 & H4); try lia.
        { intros p q Hp Hpq Hq.
          destruct (decide (q = i)) as [->|Hne]; [|apply Hs; lia].
          destruct (decide (p = i)) as [->|Hne']; [lia|].
          specialize (Hs p (i - 1)).
          assert (keyAt data p <= keyAt data (i - 1))%Z by (apply Hs; lia).
          lia. }
        cbn zeta in *. repeat split; try lia; assumption.
    + assert (i = b) by lia. subst i. repeat split; try lia. exact Hs.
Qed.

Lemma shiftLeft_as_inner (data : list A) (a b j : nat) :
  a <= j -> j < b -> b <= length data -> boundedBelow data a b ->
  shiftLeft (byKey key) data j = insertionSort_inner (byKey key) data a j.
Proof.
  revert data. induction j as [|j IH]; intros data Haj Hjb Hb Hbd; simpl;
    [reflexivity|].
  destruct (Nat.ltb_spec a (S j)) as [Hlt|Hge]; simpl.
  - destruct (Less data (S j) j); simpl; [|reflexivity].
    apply IH; try lia; [rewrite Swap_length; lia|].
    eapply boundedBelow_swapsIn; [apply swapsIn_one| |]; try eassumption; lia.
  - assert (a = S j) by lia. subst a.
    rewrite Less_keyAt by lia.
    specialize (Hbd ltac:(lia) (S j) ltac:(lia) ltac:(lia)).
    replace (S j - 1) with j in Hbd by lia.
    destruct (Z.ltb_spec (keyAt data (S j)) (keyAt data j)); [lia|].
    reflexivity.
Qed.

Lemma shiftRight_swapsIn (fuel : nat) (data : list A) (j b : nat) :
  1 <= j -> j + fuel <= b ->
  swapsIn (j - 1) b data (shiftRight (byKey key) fuel data j).
Proof.
  revert data j. induction fuel as [|fuel IH]; intros data j Hj Hb; simpl;
    [constructor|].
  destruct (Less data j (j - 1)); simpl; [|constructor].
  eapply swapsIn_swap with (i := j) (j := j - 1); [lia | lia |].
  eapply swapsIn_wider; [| | apply IH]; lia.
Qed.

Lemma partialInsertionSort_loop_spec (steps : nat) (data : list A) (a b i : nat) :
  a < i -> i <= b -> b <= length data ->
  boundedBelow data a b -> sortedOn data a i ->
  let r := partialInsertionSort_loop (byKey key) steps data a b i in
  swapsIn a b data (fst r) /\ (snd r = true -> sortedOn (fst r) a b).
Proof.
  revert data i. induction steps as [|steps IH];
    intros data i Hai Hib Hb Hbd Hs; cbn zeta; simpl.
  - split; [constructor | discriminate].
  - destruct (scanSorted_spec (b - i) data a i b) as (C1 & C2 & C3 & C4);
      try lia; [exact Hs|].
    cbn zeta in *.
    remember (scanSorted (byKey key) (b - i) data i b) as i1 eqn:Ei1. clear Ei1.
    destruct (Nat.eqb_spec i1 b) as [->|Hne]; simpl.
    { split; [constructor | intros _; exact C3]. }
    destruct (b - a <? 50); simpl.
    { split; [constructor | discriminate]. }
    set (d1 := Swap data i1 (i1 - 1)).
    assert (S1 : swapsIn a b data d1) by (apply swapsIn_one; lia).
    assert (L1 : length d1 = length data) by apply Swap_length.
    assert (B1 : boundedBelow d1 a b)
      by (eapply boundedBelow_swapsIn; eassumption).
    assert (Hsd1 : sortedOn d1 a (i1 - 1)).
    { intros p q Hp Hpq Hq. unfold d1. rewrite !keyAt_Swap by lia.
      repeat case_decide; try lia. apply C3; lia. }
    set (d2 := if 2 <=? i1 - a then shiftLeft (byKey key) d1 (i1 - 1) else d1).
    assert (S2 : swapsIn a i1 d1 d2 /\ sortedOn d2 a i1).
    { unfold d2. destruct (Nat.leb_spec 2 (i1 - a)) as [H2|H2].
      - rewrite (shiftLeft_as_inner d1 a b (i1 - 1)) by (lia || exact B1).
        split.
        + replace i1 with (S (i1 - 1)) at 1 by lia.
          apply insertionSort_inner_swapsIn.
        + replace i1 with (S (i1 - 1)) at 2 by lia.
          apply insertionSort_inner_sorted; try lia; [exact Hsd1 |].
          intros p q Hp Hpq Hq. assert (p = q) by lia. subst. lia.
      - split; [constructor|]. intros p q Hp Hpq Hq.
        assert (p = q) by lia. subst. lia. }
    destruct S2 as [S2 Hsd2].
    assert (L2 : length d2 = length data)
      by (rewrite (swapsIn_length _ _ _ _ S2); exact L1).
    set (d3 := if 2 <=? b - i1
               then shiftRight (byKey key) (b - (i1 + 1)) d2 (i1 + 1) else d2).
    assert (S3 : swapsIn i1 b d2 d3).
    { unfold d3. destruct (Nat.leb_spec 2 (b - i1)) as [H2|H2]; [|constructor].
      replace i1 with (i1 + 1 - 1) at 1 by lia.
      apply shiftRight_swapsIn; lia. }
    assert (S13 : swapsIn a b data d3).
    { eapply swapsIn_trans; [exact S1|]. eapply swapsIn_trans.
      - eapply swapsIn_wider; [| | exact S2]; lia.
      - eapply swapsIn_wider; [| | exact S3]; lia. }
    destruct (IH d3 i1) as [R1 R2]; try lia.
    + rewrite (swapsIn_length _ _ _ _ S3). lia.
    + eapply boundedBelow_swapsIn; eassumption.
    + eapply sortedOn_outside; [exact S3 | lia | exact Hsd2].
    + cbn zeta in *. split; [|exact R2].
      eapply swapsIn_trans; [exact S13 | exact R1].
Qed.

Lemma partialInsertionSort_func_spec (data : list A) (a b : nat) :
  a < b -> b <= length data -> boundedBelow data a b ->
  let r := partialInsertionSort_func (byKey key) data a b in
  swapsIn a b data (fst r) /\ (snd r = true -> sortedOn (fst r) a b).
Proof.
  intros Hab Hb Hbd. unfold partialInsertionSort_func.
  apply partialInsertionSort_loop_spec; try lia; [exact Hbd|].
  intros p q Hp Hpq Hq. assert (p = q) by lia. subst. lia.
Qed.

Lemma reverseRange_loop_swapsIn (fuel : nat) (data : list A) (a b i j : nat) :
  a <= i -> j < b ->
  swapsIn a b data (reverseRange_loop fuel data i j).
Proof.
  revert data i j. induction fuel as [|fuel IH]; intros data i j Hi Hj; simpl;
    [constructor|].
  destruct (Nat.ltb_spec i j) as [Hlt|Hge]; [|constructor].
  eapply swapsIn_swap with (i := i) (j := j); [lia | lia |].
  apply IH; lia.
Qed.

Lemma reverseRange_func_swapsIn (data : list A) (a b : nat) :
  a < b -> swapsIn a b data (reverseRange_func data a b).
Proof. intros Hab. apply reverseRange_loop_swapsIn; lia. Qed.

End SortHelpers.

(** ** sort.Slice: pivots and patterns *)

Section SortPivot.

Import sort sorting.

Local Open Scope nat_scope.

Context {A : Type}.
Variable key : A -> Z.

Local Abbreviation Less := (sort.Less (byKey key)).
Local Abbreviation keyAt := (sorting.keyAt key).
Local Abbreviation sortedOn := (sorting.sortedOn key).

Lemma nextPowerOfTwo_bound (length : nat) :
  0 < length ->
  exists k : Z, (0 <= k)%Z /\ nextPowerOfTwo length = (2 ^ k)%Z /\
                (2 ^ k <= 2 * Z.of_nat length)%Z.
Proof.
  intros Hpos. unfold nextPowerOfTwo, bits_Len.
  destruct length as [|n]; [lia|].
  exists (Z.of_nat (S (Nat.log2 (S n)))). split; [lia|].
  split; [apply Z.shiftl_1_l|].
  rewrite Nat2Z.inj_succ, Z.pow_succ_r by lia.
  destruct (Nat.log2_spec (S n) ltac:(lia)) as [Hlo _].
  apply Nat2Z.inj_le in Hlo. rewrite Nat2Z.inj_pow in Hlo.
  change (Z.of_nat 2) with 2%Z in Hlo. lia.
Qed.

Lemma masked_below (random k : Z) :
  (0 <= k)%Z -> (0 <= Z.land random (2 ^ k - 1) < 2 ^ k)%Z.
Proof.
  intros Hk. replace (2 ^ k - 1)%Z with (Z.ones k)
    by (rewrite Z.ones_equiv; lia).
  rewrite Z.land_ones by exact Hk. apply Z.mod_pos_bound. lia.
Qed.

Lemma breakPatterns_loop_swapsIn (n : nat) (data : list A)
    (a length idx i : nat) (random k : Z) :
  (0 <= k)%Z -> (2 ^ k <= 2 * Z.of_nat length)%Z -> 0 < length ->
  a <= idx - 1 + i -> idx - 1 + i + n <= a + length ->
  swapsIn a (a + length) data
    (breakPatterns_loop n data a length idx i random (2 ^ k)%Z).
Proof.
  revert data i random. induction n as [|n IH];
    intros data i random Hk Hmod Hlen Hlo Hhi; simpl; [constructor|].
  pose proof (masked_below (xorshift_Next random) k Hk) as Hm.
  remember (Z.to_nat (Z.land (xorshift_Next random) (2 ^ k - 1))) as other
    eqn:Eo.
  assert (Ho : other < 2 * length) by lia.
  eapply swapsIn_swap; [| |apply IH; try assumption; lia].
  - lia.
  - destruct (Nat.leb_spec length other); lia.
Qed.

Lemma breakPatterns_func_swapsIn (data : list A) (a b : nat) :
  a <= b -> swapsIn a b data (breakPatterns_func data a b).
Proof.
  intros Hab. unfold breakPatterns_func.
  destruct (Nat.leb_spec 8 (b - a)) as [H8|H8]; [|constructor].
  destruct (nextPowerOfTwo_bound (b - a) ltac:(lia)) as (k & Hk & -> & Hle).
  pose proof (Nat.div_mod_eq (b - a) 4) as E.
  pose proof (Nat.mod_upper_bound (b - a) 4 ltac:(lia)) as U.
  replace b with (a + (b - a)) at 1 by lia.
  apply breakPatterns_loop_swapsIn; try assumption; lia.
Qed.

Lemma median_func_one_of (data : list A) (a b c swaps : nat) :
  let m := fst (median_func (byKey key) data a b c swaps) in
  m = a \/ m = b \/ m = c.
Proof.
  cbn zeta. unfold median_func, order2_func.
  destruct (Less data b a); destruct (Less data c a); destruct (Less data c b);
    simpl; repeat match goal with
                  | |- context [if ?x then _ else _] => destruct x; simpl
                  end; tauto.
Qed.

Lemma choosePivot_func_range (data : list A) (a b : nat) :
  8 <= b - a ->
  let pivot := fst (choosePivot_func (byKey key) data a b) in
  a <= pivot /\ pivot < b.
Proof.
  intros H8. cbn zeta. unfold choosePivot_func.
  pose proof (Nat.div_mod_eq (b - a) 4) as E.
  pose proof (Nat.mod_upper_bound (b - a) 4 ltac:(lia)) as U.
  destruct (Nat.leb_spec 8 (b - a)) as [_|?]; [|lia].
  remember ((b - a) / 4) as q eqn:Eq.
  assert (G : forall i j k s,
            a <= i < b -> a <= j < b -> a <= k < b ->
            let r := median_func (byKey key) data i j k s in
            let p := fst (let '(j0, swaps) := r in
                          if swaps =? 0 then (j0, increasingHint)
                          else if swaps =? 4 * 3 then (j0, decreasingHint)
                               else (j0, unknownHint)) in
            a <= p /\ p < b).
  { intros i j k s Hi Hj Hk. cbn zeta.
    pose proof (median_func_one_of data i j k s) as Hm. cbn zeta in Hm.
    destruct (median_func (byKey key) data i j k s) as [m s']. simpl in Hm.
    destruct (s' =? 0); [simpl; lia|].
    destruct (s' =? 4 * 3); simpl; lia. }
  destruct (Nat.leb_spec 50 (b - a)) as [H50|H50].
  - unfold medianAdjacent_func.
    pose proof (median_func_one_of data (a + q * 1 - 1) (a + q * 1)
                  (a + q * 1 + 1) 0) as M1. cbn zeta in M1.
    destruct (median_func (byKey key) data (a + q * 1 - 1) (a + q * 1)
                (a + q * 1 + 1) 0) as [i1 s1]. simpl in M1.
    pose proof (median_func_one_of data (a + q * 2 - 1) (a + q * 2)
                  (a + q * 2 + 1) s1) as M2. cbn zeta in M2.
    destruct (median_func (byKey key) data (a + q * 2 - 1) (a + q * 2)
                (a + q * 2 + 1) s1) as [j1 s2]. simpl in M2.
    pose proof (median_func_one_of data (a + q * 3 - 1) (a + q * 3)
                  (a + q * 3 + 1) s2) as M3. cbn zeta in M3.
    destruct (median_func (byKey key) data (a + q * 3 - 1) (a + q * 3)
                (a + q * 3 + 1) s2) as [k1 s3]. simpl in M3.
    apply (G i1 j1 k1 s3); lia.
  - apply (G (a + q * 1) (a + q * 2) (a + q * 3) 0); lia.
Qed.

End SortPivot.

(** ** sort.Slice: pdqsort *)

Section SortPdq.

Import sort sorting.

Local Open Scope nat_scope.

Context {A : Type}.
Variable key : A -> Z.

Local Abbreviation Less := (sort.Less (byKey key)).
Local Abbreviation keyAt := (sorting.keyAt key).
Local Abbreviation sortedOn := (sorting.sortedOn key).
Local Abbreviation boundedBelow := (sorting.boundedBelow key).

Lemma sortedOn_split (d : list A) (a mid b : nat) :
  sortedOn d a mid -> sortedOn d mid b ->
  (forall i j, a <= i -> i < mid -> mid <= j -> j < b ->
               (keyAt d i <= keyAt d j)%Z) ->
  sortedOn d a b.
Proof.
  intros Hl Hr Hx i j Hi Hij Hj.
  destruct (Nat.lt_ge_cases j mid) as [Hjm|Hjm]; [apply Hl; lia|].
  destruct (Nat.lt_ge_cases i mid) as [Him|Him]; [apply Hx; lia|].
  apply Hr; lia.
Qed.

Lemma sortedOn_around (d : list A) (a mid b : nat) :
  sortedOn d a mid -> sortedOn d (mid + 1) b ->
  (forall k, a <= k -> k < mid -> (keyAt d k <= keyAt d mid)%Z) ->
  (forall k, mid < k -> k < b -> (keyAt d mid <= keyAt d k)%Z) ->
  sortedOn d a b.
Proof.
  intros Hl Hr Hlo Hhi i j Hi Hij Hj.
  destruct (Nat.lt_trichotomy j mid) as [Hjm|[->|Hjm]].
  - apply Hl; lia.
  - destruct (Nat.eq_dec i mid) as [->|Hne]; [lia|]. apply Hlo; lia.
  - destruct (Nat.lt_trichotomy i mid) as [Him|[->|Him]].
    + specialize (Hlo i ltac:(lia) ltac:(lia)).
      specialize (Hhi j ltac:(lia) ltac:(lia)). lia.
    + apply Hhi; lia.
    + apply Hr; lia.
Qed.

Lemma pdqsort_loop_spec (fuel : nat) :
  forall (data : list A) (a b limit : nat) (wasBalanced wasPartitioned : bool),
    b - a < fuel -> a <= b -> b <= length data -> boundedBelow data a b ->
    let r := pdqsort_loop (byKey key) fuel data a b limit
               wasBalanced wasPartitioned in
    swapsIn a b data r /\ sortedOn r a b.
Proof.
  induction fuel as [|fuel IH];
    intros data a b limit wb wp Hfuel Hab Hb Hbound; [lia|].
  cbn zeta. cbn [pdqsort_loop]. cbn zeta.
  destruct (Nat.leb_spec (b - a) 12) as [H12|H12].
  { split; [apply insertionSort_swapsIn|apply insertionSort_sorted; exact Hb]. }
  destruct (limit =? 0).
  { apply heapSort_func_spec; assumption. }
  (* breakPatterns *)
  assert (S1 : swapsIn a b data
                 (fst (if negb wb then (breakPatterns_func data a b, limit - 1)
                       else (data, limit)))).
  { destruct (negb wb); simpl; [apply breakPatterns_func_swapsIn; lia|constructor]. }
  destruct (if negb wb then (breakPatterns_func data a b, limit - 1)
            else (data, limit)) as [d1 limit1]. simpl in S1.
  assert (L1 : b <= length d1) by (rewrite (swapsIn_length _ _ _ _ S1); exact Hb).
  (* choosePivot *)
  pose proof (choosePivot_func_range key d1 a b ltac:(lia)) as Hp.
  cbn zeta in Hp.
  destruct (choosePivot_func (byKey key) d1 a b) as [pivot0 hint0]. simpl in Hp.
  assert (S2 : let t := (if isDecreasing hint0
                         then (reverseRange_func d1 a b,
                               b - 1 - (pivot0 - a), increasingHint)
                         else (d1, pivot0, hint0)) in
               swapsIn a b d1 (fst (fst t)) /\
               a <= snd (fst t) /\ snd (fst t) < b).
  { cbn zeta. destruct (isDecreasing hint0); simpl.
    - split; [apply reverseRange_func_swapsIn; lia|lia].
    - split; [constructor|lia]. }
  cbn zeta in S2.
  destruct (if isDecreasing hint0
            then (reverseRange_func d1 a b, b - 1 - (pivot0 - a), increasingHint)
            else (d1, pivot0, hint0)) as [[d2 pivot] hint].
  simpl in S2. destruct S2 as (S2 & Hpa & Hpb).
  assert (L2 : b <= length d2) by (rewrite (swapsIn_length _ _ _ _ S2); exact L1).
  assert (B2 : boundedBelow d2 a b).
  { apply boundedBelow_swapsIn with (data := data); try assumption.
    apply swapsIn_trans with (d2 := d1); assumption. }
  (* partialInsertionSort *)
  assert (S3 : let t := (if wb && wp && isIncreasing hint
                         then partialInsertionSort_func (byKey key) d2 a b
                         else (d2, false)) in
               swapsIn a b d2 (fst t) /\ (snd t = true -> sortedOn (fst t) a b)).
  { cbn zeta. destruct (wb && wp && isIncreasing hint).
    - apply partialInsertionSort_func_spec; try assumption; lia.
    - simpl. split; [constructor|discriminate]. }
  cbn zeta in S3.
  destruct (if wb && wp && isIncreasing hint
            then partialInsertionSort_func (byKey key) d2 a b
            else (d2, false)) as [d3 sorted].
  simpl in S3. destruct S3 as (S3 & Hsorted).
  assert (S03 : swapsIn a b data d3).
  { apply swapsIn_trans with (d2 := d2); [|exact S3].
    apply swapsIn_trans with (d2 := d1); assumption. }
  assert (L3 : b <= length d3) by (rewrite (swapsIn_length _ _ _ _ S03); exact Hb).
  assert (B3 : boundedBelow d3 a b)
    by (apply boundedBelow_swapsIn with (data := data); assumption).
  destruct sorted.
  { split; [exact S03|apply Hsorted; reflexivity]. }
  destruct ((0 <? a) && negb (Less d3 (a - 1) pivot)) eqn:Eeq.
  - (* the elements equal to the pivot go first *)
    apply andb_true_iff in Eeq. destruct Eeq as [Ha Hnl].
    apply Nat.ltb_lt in Ha. apply negb_true_iff in Hnl.
    pose proof (Less_keyAt key d3 (a - 1) pivot ltac:(lia) ltac:(lia)) as HL.
    pose proof (partitionEqual_func_spec key d3 a b pivot Hpa Hpb L3) as Hpe.
    cbn zeta in Hpe.
    destruct (partitionEqual_func (byKey key) d3 a b pivot) as [d4 mid].
    simpl in Hpe. destruct Hpe as (S4 & Hma & Hmb & Hle & Hgt).
    assert (L4 : b <= length d4)
      by (rewrite (swapsIn_length _ _ _ _ S4); exact L3).
    assert (B4 : boundedBelow d4 a b)
      by (apply boundedBelow_swapsIn with (data := d3); assumption).
    assert (Hpk : keyAt d3 (a - 1) = keyAt d3 pivot).
    { specialize (B3 Ha pivot Hpa Hpb).
      assert (Hge : (keyAt d3 pivot <= keyAt d3 (a - 1))%Z); [|lia].
      rewrite HL in Hnl. apply Z.ltb_ge in Hnl. exact Hnl. }
    assert (Ho : keyAt d4 (a - 1) = keyAt d3 (a - 1))
      by (apply (swapsIn_keyAt_outside key a b); [exact S4|lia]).
    assert (Heq : forall k, a <= k -> k < mid -> keyAt d4 k = keyAt d3 pivot).
    { intros k Hk1 Hk2. specialize (Hle k Hk1 Hk2).
      specialize (B4 Ha k Hk1 ltac:(lia)). lia. }
    destruct (IH d4 mid b limit1 wb wp) as [S5 Hs5]; try lia.
    { intros _ k Hk1 Hk2. rewrite (Heq (mid - 1)) by lia.
      specialize (Hgt k Hk1 Hk2). lia. }
    set (r := pdqsort_loop (byKey key) fuel d4 mid b limit1 wb wp) in *.
    split.
    + apply swapsIn_trans with (d2 := d3); [exact S03|].
      apply swapsIn_trans with (d2 := d4); [exact S4|].
      apply swapsIn_wider with (a := mid) (b := b); [lia|lia|exact S5].
    + assert (Hleft : forall k, a <= k -> k < mid -> keyAt r k = keyAt d3 pivot).
      { intros k Hk1 Hk2.
        rewrite (swapsIn_keyAt_outside key mid b d4 r k S5) by lia.
        apply Heq; assumption. }
      apply sortedOn_split with (mid := mid); [|exact Hs5|].
      * intros i j Hi Hij Hj. rewrite !Hleft by lia. lia.
      * intros i j Hi1 Hi2 Hj1 Hj2. rewrite Hleft by lia.
        pose proof (swapsIn_all key mid b d4 r
                      (fun z => (keyAt d3 pivot < z)%Z) S5 L4) as Hall.
        simpl in Hall. specialize (Hall ltac:(intros; apply Hgt; lia) j).
        specialize (Hall ltac:(lia)). lia.
  - (* the elements below the pivot go first *)
    clear Eeq.
    pose proof (partition_func_spec key d3 a b pivot Hpa Hpb L3) as Hpf.
    cbn zeta in Hpf.
    destruct (partition_func (byKey key) d3 a b pivot) as [[d4 mid] already].
    simpl in Hpf. destruct Hpf as (S4 & Hma & Hmb & Hlt & Hge).
    assert (L4 : b <= length d4)
      by (rewrite (swapsIn_length _ _ _ _ S4); exact L3).
    assert (B4 : boundedBelow d4 a b)
      by (apply boundedBelow_swapsIn with (data := d3); assumption).
    assert (S04 : swapsIn a b data d4)
      by (apply swapsIn_trans with (d2 := d3); assumption).
    assert (Bl : boundedBelow d4 a mid).
    { intros Ha k Hk1 Hk2. apply B4; lia. }
    assert (Br : boundedBelow d4 (mid + 1) b).
    { intros _ k Hk1 Hk2. replace (mid + 1 - 1) with mid by lia.
      apply Hge; lia. }
    destruct (mid - a <? b - mid).
    + destruct (IH d4 a mid limit1 true true) as [S5 Hs5]; try lia; [exact Bl|].
      set (d5 := pdqsort_loop (byKey key) fuel d4 a mid limit1 true true) in *.
      assert (L5 : b <= length d5)
        by (rewrite (swapsIn_length _ _ _ _ S5); exact L4).
      assert (Hlt5 : forall k, a <= k < mid -> (keyAt d5 k < keyAt d4 mid)%Z).
      { apply (swapsIn_all key a mid d4 d5 (fun z => (z < keyAt d4 mid)%Z) S5);
          [lia|]. intros k Hk. apply Hlt; lia. }
      assert (Hmid5 : keyAt d5 mid = keyAt d4 mid)
        by (apply (swapsIn_keyAt_outside key a mid); [exact S5|lia]).
      assert (Hge5 : forall k, mid < k -> k < b ->
                               (keyAt d4 mid <= keyAt d5 k)%Z).
      { intros k Hk1 Hk2.
        rewrite (swapsIn_keyAt_outside key a mid d4 d5 k S5) by lia.
        apply Hge; lia. }
      destruct (IH d5 (mid + 1) b limit1 ((b - a) / 8 <=? mid - a) already)
        as [S6 Hs6]; try lia.
      { intros _ k Hk1 Hk2. replace (mid + 1 - 1) with mid by lia.
        rewrite Hmid5. apply Hge5; lia. }
      set (d6 := pdqsort_loop (byKey key) fuel d5 (mid + 1) b limit1
                   ((b - a) / 8 <=? mid - a) already) in *.
      split.
      * apply swapsIn_trans with (d2 := d4); [exact S04|].
        apply swapsIn_trans with (d2 := d5).
        -- apply swapsIn_wider with (a := a) (b := mid); [lia|lia|exact S5].
        -- apply swapsIn_wider with (a := mid + 1) (b := b); [lia|lia|exact S6].
      * assert (Hmid6 : keyAt d6 mid = keyAt d4 mid).
        { rewrite (swapsIn_keyAt_outside key (mid + 1) b d5 d6 mid S6) by lia.
          exact Hmid5. }
        apply sortedOn_around with (mid := mid).
        -- apply (sortedOn_outside key (mid + 1) b d5 d6 a mid S6);
             [lia|exact Hs5].
        -- exact Hs6.
        -- intros k Hk1 Hk2. rewrite Hmid6.
           rewrite (swapsIn_keyAt_outside key (mid + 1) b d5 d6 k S6) by lia.
           specialize (Hlt5 k ltac:(lia)). lia.
        -- intros k Hk1 Hk2. rewrite Hmid6.
           apply (swapsIn_all key (mid + 1) b d5 d6
                    (fun z => (keyAt d4 mid <= z)%Z) S6 L5); [|lia].
           intros k' Hk'. apply Hge5; lia.
    + destruct (IH d4 (mid + 1) b limit1 true true) as [S5 Hs5]; try lia;
        [exact Br|].
      set (d5 := pdqsort_loop (byKey key) fuel d4 (mid + 1) b limit1 true true)
        in *.
      assert (L5 : b <= length d5)
        by (rewrite (swapsIn_length _ _ _ _ S5); exact L4).
      assert (Hge5 : forall k, mid + 1 <= k < b ->
                               (keyAt d4 mid <= keyAt d5 k)%Z).
      { apply (swapsIn_all key (mid + 1) b d4 d5
                 (fun z => (keyAt d4 mid <= z)%Z) S5); [lia|].
        intros k Hk. apply Hge; lia. }
      assert (Hmid5 : keyAt d5 mid = keyAt d4 mid)
        by (apply (swapsIn_keyAt_outside key (mid + 1) b); [exact S5|lia]).
      assert (Hlt5 : forall k, a <= k -> k < mid ->
                               (keyAt d5 k < keyAt d4 mid)%Z).
      { intros k Hk1 Hk2.
        rewrite (swapsIn_keyAt_outside key (mid + 1) b d4 d5 k S5) by lia.
        apply Hlt; lia. }
      destruct (IH d5 a mid limit1 ((b - a) / 8 <=? b - mid) already)
        as [S6 Hs6]; try lia.
      { intros Ha k Hk1 Hk2.
        rewrite !(swapsIn_keyAt_outside key (mid + 1) b d4 d5 _ S5) by lia.
        apply B4; lia. }
      set (d6 := pdqsort_loop (byKey key) fuel d5 a mid limit1
                   ((b - a) / 8 <=? b - mid) already) in *.
      split.
      * apply swapsIn_trans with (d2 := d4); [exact S04|].
        apply swapsIn_trans with (d2 := d5).
        -- apply swapsIn_wider with (a := mid + 1) (b := b); [lia|lia|exact S5].
        -- apply swapsIn_wider with (a := a) (b := mid); [lia|lia|exact S6].
      * assert (Hmid6 : keyAt d6 mid = keyAt d4 mid).
        { rewrite (swapsIn_keyAt_outside key a mid d5 d6 mid S6) by lia.
          exact Hmid5. }
        apply sortedOn_around with (mid := mid).
        -- exact Hs6.
        -- apply (sortedOn_outside key a mid d5 d6 (mid + 1) b S6);
             [lia|exact Hs5].
        -- intros k Hk1 Hk2. rewrite Hmid6.
           assert (Hk : (keyAt d6 k < keyAt d4 mid)%Z); [|lia].
           apply (swapsIn_all key a mid d5 d6
                    (fun z => (z < keyAt d4 mid)%Z) S6); [lia| |lia].
           intros k' Hk'. apply Hlt5; lia.
        -- intros k Hk1 Hk2. rewrite Hmid6.
           rewrite (swapsIn_keyAt_outside key a mid d5 d6 k S6) by lia.
           apply Hge5; lia.
Qed.

Lemma Slice_spec (x : list A) :
  swapsIn 0 (length x) x (Slice (byKey key) x) /\
  sortedOn (Slice (byKey key) x) 0 (length x).
Proof.
  unfold Slice, pdqsort_func. apply pdqsort_loop_spec; try lia.
  intros H. lia.
Qed.

End SortPdq.

(** ** sort.Slice on a sorted slice, and on a short one *)

Section SortFixed.

Import sort sorting.

Local Open Scope nat_scope.

Local Open Scope list_scope.

Context {A : Type}.
Variable key : A -> Z.

Local Abbreviation Less := (sort.Less (byKey key)).
Local Abbreviation keyAt := (sorting.keyAt key).
Local Abbreviation sortedOn := (sorting.sortedOn key).

Lemma Less_sorted (data : list A) (a b p q : nat) :
  sortedOn data a b -> b <= length data -> a <= p -> p <= q -> q < b ->
  Less data q p = false.
Proof.
  intros Hs Hb Hap Hpq Hqb. rewrite Less_keyAt by lia.
  apply Z.ltb_ge. apply Hs; lia.
Qed.

Lemma insertionSort_inner_fixed (data : list A) (a b j : nat) :
  sortedOn data a b -> b <= length data -> j < b ->
  insertionSort_inner (byKey key) data a j = data.
Proof.
  intros Hs Hb Hj. destruct j as [|j]; simpl; [reflexivity|].
  destruct (Nat.ltb_spec a (S j)) as [Ha|Ha]; simpl; [|reflexivity].
  rewrite (Less_sorted data a b j (S j)) by (assumption || lia). reflexivity.
Qed.

Lemma insertionSort_outer_fixed (n : nat) (data : list A) (a b i : nat) :
  sortedOn data a b -> b <= length data -> i + n <= b ->
  insertionSort_outer (byKey key) n data a i = data.
Proof.
  revert i. induction n as [|n IH]; intros i Hs Hb Hi; simpl; [reflexivity|].
  rewrite (insertionSort_inner_fixed data a b i) by (assumption || lia).
  apply IH; (assumption || lia).
Qed.

Lemma insertionSort_func_fixed (data : list A) (a b : nat) :
  sortedOn data a b -> b <= length data ->
  insertionSort_func (byKey key) data a b = data.
Proof.
  intros Hs Hb. unfold insertionSort_func.
  destruct (Nat.le_gt_cases b a) as [Hba|Hab].
  - replace (b - (a + 1)) with 0 by lia. reflexivity.
  - apply (insertionSort_outer_fixed _ data a b); (assumption || lia).
Qed.

Lemma median_func_fixed (data : list A) (a b i j k swaps : nat) :
  sortedOn data a b -> b <= length data ->
  a <= i -> i <= j -> j <= k -> k < b ->
  median_func (byKey key) data i j k swaps = (j, swaps).
Proof.
  intros Hs Hb Hai Hij Hjk Hkb. unfold median_func, order2_func.
  rewrite (Less_sorted data a b i j) by (assumption || lia).
  rewrite (Less_sorted data a b j k) by (assumption || lia).
  rewrite (Less_sorted data a b i j) by (assumption || lia).
  reflexivity.
Qed.

Lemma choosePivot_func_fixed (data : list A) (a b : nat) :
  sortedOn data a b -> b <= length data -> 8 <= b - a ->
  snd (choosePivot_func (byKey key) data a b) = increasingHint.
Proof.
  intros Hs Hb H8. unfold choosePivot_func, medianAdjacent_func.
  pose proof (Nat.div_mod_eq (b - a) 4) as E.
  pose proof (Nat.mod_upper_bound (b - a) 4 ltac:(lia)) as U.
  destruct (Nat.leb_spec 8 (b - a)) as [_|?]; [|lia].
  remember ((b - a) / 4) as q eqn:Eq.
  destruct (Nat.leb_spec 50 (b - a)) as [H50|H50].
  - rewrite !(median_func_fixed data a b) by (assumption || lia).
    reflexivity.
  - rewrite (median_func_fixed data a b) by (assumption || lia).
    reflexivity.
Qed.

Lemma partialInsertionSort_loop_fixed (steps : nat) (data : list A)
    (a b i : nat) :
  scanSorted (byKey key) (b - i) data i b = b ->
  partialInsertionSort_loop (byKey key) (S steps) data a b i = (data, true).
Proof.
  intros Hscan. cbn [partialInsertionSort_loop]. cbn zeta.
  rewrite Hscan, Nat.eqb_refl. reflexivity.
Qed.

Lemma partialInsertionSort_func_fixed (data : list A) (a b : nat) :
  sortedOn data a b -> b <= length data -> a < b ->
  partialInsertionSort_func (byKey key) data a b = (data, true).
Proof.
  intros Hs Hb Hab. unfold partialInsertionSort_func.
  apply partialInsertionSort_loop_fixed.
  destruct (scanSorted_spec key (b - (a + 1)) data a (a + 1) b)
    as (Hlo & Hhi & _ & Hstop); try lia.
  { intros i j Hi Hij Hj. assert (i = j) by lia. subst. lia. }
  remember (scanSorted (byKey key) (b - (a + 1)) data (a + 1) b) as i' eqn:Ei.
  destruct (Nat.eq_dec i' b) as [Heq|Hne]; [exact Heq|].
  specialize (Hstop ltac:(lia)).
  specialize (Hs (i' - 1) i' ltac:(lia) ltac:(lia) ltac:(lia)). lia.
Qed.

Lemma pdqsort_loop_fixed (fuel : nat) (data : list A) (a b limit : nat) :
  sortedOn data a b -> b <= length data -> limit <> 0 ->
  pdqsort_loop (byKey key) fuel data a b limit true true = data.
Proof.
  intros Hs Hb Hl. destruct fuel as [|fuel]; [reflexivity|].
  cbn [pdqsort_loop]. cbn zeta.
  destruct (Nat.leb_spec (b - a) 12) as [H12|H12].
  { apply insertionSort_func_fixed; assumption. }
  destruct (Nat.eqb_spec limit 0) as [?|_]; [contradiction|].
  cbn [negb].
  pose proof (choosePivot_func_fixed data a b Hs Hb ltac:(lia)) as Hh.
  destruct (choosePivot_func (byKey key) data a b) as [pivot hint].
  simpl in Hh. subst hint. cbn [isDecreasing isIncreasing andb].
  rewrite partialInsertionSort_func_fixed by (assumption || lia).
  reflexivity.
Qed.

Lemma bits_Len_nonzero (n : nat) : 0 < n -> bits_Len n <> 0.
Proof. intros Hn. destruct n; [lia|]. unfold bits_Len. lia. Qed.

Lemma Slice_fixed (x : list A) :
  sortedOn x 0 (length x) -> Slice (byKey key) x = x.
Proof.
  intros Hs. unfold Slice, pdqsort_func.
  destruct x as [|e x]; [reflexivity|].
  apply pdqsort_loop_fixed; [exact Hs|lia|].
  apply bits_Len_nonzero. simpl. lia.
Qed.

Lemma Slice_idempotent (x : list A) :
  Slice (byKey key) (Slice (byKey key) x) = Slice (byKey key) x.
Proof.
  destruct (Slice_spec key x) as [Hsw Hs].
  apply Slice_fixed. rewrite (swapsIn_length _ _ _ _ Hsw). exact Hs.
Qed.

(** Insertion sort swaps neighbours of different keys only. *)

Lemma Swap_neighbours (l1 l2 : list A) (x y : A) :
  Swap (l1 ++ y :: x :: l2) (S (length l1)) (length l1) = l1 ++ x :: y :: l2.
Proof.
  unfold Swap.
  rewrite (lookup_app_r l1) by lia. rewrite (lookup_app_r l1) by lia.
  replace (S (length l1) - length l1) with 1 by lia.
  replace (length l1 - length l1) with 0 by lia. simpl.
  rewrite (insert_app_r_alt l1) by lia.
  replace (length l1 - length l1) with 0 by lia. simpl.
  rewrite (insert_app_r_alt l1) by lia.
  replace (S (length l1) - length l1) with 1 by lia. reflexivity.
Qed.

Lemma Swap_neighbours_stable (data : list A) (j : nat) :
  Less data (S j) j = true -> stable key data (Swap data (S j) j).
Proof.
  intros Hless k. unfold sort.Less in Hless.
  destruct (data !! S j) as [x|] eqn:Ex; [|discriminate].
  destruct (data !! j) as [y|] eqn:Ey; [|discriminate].
  unfold byKey in Hless. apply Z.ltb_lt in Hless.
  pose proof (take_drop_middle data j y Ey) as Hd.
  assert (Hx : drop (S j) data = x :: drop (S (S j)) data)
    by (apply drop_S; exact Ex).
  rewrite Hx in Hd.
  assert (Hj : length (take j data) = j).
  { apply length_take_le. apply lookup_lt_Some in Ey. lia. }
  remember (take j data) as l1 eqn:E1.
  remember (drop (S (S j)) data) as l2 eqn:E2.
  clear E1 E2 Hx Ex Ey. subst data j.
  rewrite Swap_neighbours. unfold withKey.
  rewrite !List.filter_app. f_equal. simpl.
  destruct (Z.eqb_spec (key x) k); destruct (Z.eqb_spec (key y) k);
    try reflexivity. lia.
Qed.

Lemma stable_trans (d1 d2 d3 : list A) :
  stable key d1 d2 -> stable key d2 d3 -> stable key d1 d3.
Proof. intros H12 H23 k. rewrite H23. apply H12. Qed.

Lemma insertionSort_inner_stable (data : list A) (a j : nat) :
  stable key data (insertionSort_inner (byKey key) data a j).
Proof.
  revert data. induction j as [|j IH]; intros data; simpl; [intros k; reflexivity|].
  destruct (a <? S j); simpl; [|intros k; reflexivity].
  destruct (Less data (S j) j) eqn:El; [|intros k; reflexivity].
  apply stable_trans with (d2 := Swap data (S j) j);
    [apply Swap_neighbours_stable; exact El|apply IH].
Qed.

Lemma insertionSort_outer_stable (n : nat) (data : list A) (a i : nat) :
  stable key data (insertionSort_outer (byKey key) n data a i).
Proof.
  revert data i. induction n as [|n IH]; intros data i; simpl;
    [intros k; reflexivity|].
  apply stable_trans with (d2 := insertionSort_inner (byKey key) data a i);
    [apply insertionSort_inner_stable|apply IH].
Qed.

Lemma Slice_short_stable (x : list A) :
  length x <= 12 -> stable key x (Slice (byKey key) x).
Proof.
  intros Hlen. unfold Slice, pdqsort_func. cbn [pdqsort_loop]. cbn zeta.
  destruct (Nat.leb_spec (length x - 0) 12) as [_|?]; [|lia].
  apply insertionSort_outer_stable.
Qed.

End SortFixed.

(** ** SortByTime *)

Section SortByTime.

Import GoTime models analyzer sorting ordering.

Local Open Scope nat_scope.

Lemma byTimestamp_byKey : byTimestamp = byKey Timestamp.
Proof. reflexivity. Qed.

Lemma sortedOn_nonDecreasing (es : list LogEntry) :
  sortedOn Timestamp es 0 (length es) -> nonDecreasing es.
Proof.
  intros Hs i j x y Hij Hx Hy.
  assert (Hj : j < length es) by (apply lookup_lt_Some in Hy; exact Hy).
  specialize (Hs i j ltac:(lia) Hij Hj). unfold keyAt in Hs.
  rewrite Hx, Hy in Hs. unfold After. apply Z.ltb_ge. exact Hs.
Qed.

(** C3 (as amended): [SortByTime] rearranges the entries of the aggregator
    (the result is a permutation of them) into a sequence that is
    non-decreasing by timestamp, and sorting twice gives the same
    aggregator as sorting once; entries with equal timestamps keep their
    relative order when the aggregator holds at most 12 entries. *)
Theorem SortByTime_sorts (a : Aggregator) :
  Permutation (entries (SortByTime a)) (entries a) /\
  nonDecreasing (entries (SortByTime a)) /\
  SortByTime (SortByTime a) = SortByTime a /\
  (length (entries a) <= 12 -> keepsTies (entries a) (entries (SortByTime a))).
Proof.
  unfold SortByTime. cbn [entries stats]. rewrite byTimestamp_byKey.
  destruct (Slice_spec Timestamp (entries a)) as [Hsw Hs].
  split; [eapply swapsIn_Permutation; exact Hsw|].
  split.
  { apply sortedOn_nonDecreasing.
    rewrite (swapsIn_length _ _ _ _ Hsw). exact Hs. }
  split; [rewrite Slice_idempotent; reflexivity|].
  intros Hlen t. apply Slice_short_stable. exact Hlen.
Qed.

End SortByTime.

Section SortByTimeExamples.

Import GoTime models analyzer sorting ordering.

Local Open Scope nat_scope.

Lemma SortByTime_sorts_witness :
  length (entries three) <= 12 /\
  keepsTies (entries three) (entries (SortByTime three)).
Proof.
  assert (Hlen : length (entries three) <= 12) by (vm_compute; lia).
  split; [exact Hlen|].
  apply (SortByTime_sorts three). exact Hlen.
Defined.

(** C3: with thirteen entries, twelve of the same second followed by an
    earlier one, [SortByTime] changes the relative order of the twelve. *)
Lemma SortByTime_reorders_ties :
  map Message (entries thirteen) =
    ["a"; "b"; "c"; "d"; "e"; "f"; "g"; "h"; "i"; "j"; "k"; "l"; "m"]%string /\
  map Message (entries (SortByTime thirteen)) =
    ["m"; "g"; "c"; "d"; "e"; "f"; "a"; "h"; "i"; "j"; "k"; "l"; "b"]%string /\
  ~ keepsTies (entries thirteen) (entries (SortByTime thirteen)).
Proof.
  split; [vm_compute; reflexivity|].
  split; [vm_compute; reflexivity|].
  intros Hkeep. specialize (Hkeep (Date 2024 1 20 15 4 6 0)).
  vm_compute in Hkeep. discriminate Hkeep.
Qed.

End SortByTimeExamples.

(** ** Level names *)

Section LevelNames.

Import models.

(** X1.  [ParseLogLevel] reads back the name that [String] gives a level
    exactly for the six levels DEBUG to UNKNOWN (a number outside them is
    named UNKNOWN); and [String] gives back the text that [ParseLogLevel]
    read exactly for the six names (WARNING is read as WARN, any other
    text as UNKNOWN). *)
Theorem LogLevel_String_round_trip (l : Z) (s : string) :
  (ParseLogLevel (LogLevel_String l) = l <-> 0 <= l <= 5) /\
  (LogLevel_String (ParseLogLevel s) = s <->
   In s ["DEBUG"; "INFO"; "WARN"; "ERROR"; "FATAL"; "UNKNOWN"]).
Proof.
  split.
  - unfold LogLevel_String, DEBUG, INFO, WARN, ERROR, FATAL.
    destruct (Z.eqb_spec l 0) as [->|?];
      [split; [intros _; lia | intros _; reflexivity]|].
    destruct (Z.eqb_spec l 1) as [->|?];
      [split; [intros _; lia | intros _; reflexivity]|].
    destruct (Z.eqb_spec l 2) as [->|?];
      [split; [intros _; lia | intros _; reflexivity]|].
    destruct (Z.eqb_spec l 3) as [->|?];
      [split; [intros _; lia | intros _; reflexivity]|].
    destruct (Z.eqb_spec l 4) as [->|?];
      [split; [intros _; lia | intros _; reflexivity]|].
    change (ParseLogLevel "UNKNOWN") with 5. lia.
  - unfold ParseLogLevel.
    destruct (String.eqb_spec s "DEBUG") as [->|?];
      [split; [intros _; simpl; tauto | reflexivity]|].
    destruct (String.eqb_spec s "INFO") as [->|?];
      [split; [intros _; simpl; tauto | reflexivity]|].
    destruct (String.eqb_spec s "WARN") as [->|?];
      [split; [intros _; simpl; tauto | reflexivity]|].
    destruct (String.eqb_spec s "WARNING") as [->|?].
    { split; [discriminate|]. simpl.
      intros H; repeat (destruct H as [H|H]; [discriminate H|]); contradiction. }
    cbn [orb].
    destruct (String.eqb_spec s "ERROR") as [->|?];
      [split; [intros _; simpl; tauto | reflexivity]|].
    destruct (String.eqb_spec s "FATAL") as [->|?];
      [split; [intros _; simpl; tauto | reflexivity]|].
    change (LogLevel_String UNKNOWN) with "UNKNOWN".
    split.
    + intros <-. simpl. tauto.
    + simpl. intros H.
      repeat (destruct H as [H|H]; [congruence|]). contradiction.
Qed.

End LevelNames.

(** ** Strings *)

Section StringFacts.

Import GoString models filtering.

Local Arguments String.append !_ _ /.

Lemma Contains_occursIn (s sub : string) :
  Contains s sub = true <-> occursIn sub s.
Proof.
  unfold occursIn. induction s as [|c s IH].
  - cbn [Contains]. rewrite orb_false_r, HasPrefix_app. split.
    + intros [post H]. exists ""%string, post. exact H.
    + intros (pre & post & H). destruct pre; [exists post; exact H|discriminate].
  - cbn [Contains]. rewrite orb_true_iff, IH, HasPrefix_app. split.
    + intros [[post H] | (pre & post & H)].
      * exists ""%string, post. exact H.
      * exists (String c pre), post. simpl. rewrite H. reflexivity.
    + intros (pre & post & H). destruct pre as [|d pre].
      * left. exists post. exact H.
      * right. simpl in H. exists pre, post. congruence.
Qed.

(** X2.  The substring search that log.go writes out by hand ([contains]
    with [findSubstring]) gives the answer of [strings.Contains] on every
    pair of strings. *)
Theorem contains_as_strings_Contains (s substr : string) :
  contains s substr = Contains s substr.
Proof.
  apply eq_true_iff_eq. rewrite contains_occursIn, Contains_occursIn.
  reflexivity.
Qed.

End StringFacts.

(** ** The parsers *)

Section Parsers.

Import GoString GoTime models parser.

Variable json_Unmarshal : string -> result jsonLogEntry.

Lemma matchLevelPrefix_level (lvls : list string) (line : string)
    (r : Z * string) :
  Forall (fun lvl => DEBUG <= ParseLogLevel lvl <= FATAL) lvls ->
  matchLevelPrefix lvls line = Some r -> DEBUG <= fst r <= FATAL.
Proof.
  induction lvls as [|lvl lvls IH]; intros Hall; [discriminate|].
  inversion Hall as [|? ? Hlvl Hrest]; subst. cbn [matchLevelPrefix].
  destruct (matchPatterns _ line) as [message|].
  - intros [= <-]. exact Hlvl.
  - apply IH, Hrest.
Qed.

Lemma matchLevelAnywhere_level (lvls : list string) (line : string)
    (r : Z * string) :
  Forall (fun lvl => DEBUG <= ParseLogLevel lvl <= FATAL) lvls ->
  matchLevelAnywhere lvls line = Some r -> DEBUG <= fst r <= FATAL.
Proof.
  induction lvls as [|lvl lvls IH]; intros Hall; [discriminate|].
  inversion Hall as [|? ? Hlvl Hrest]; subst. cbn [matchLevelAnywhere].
  destruct (Contains _ lvl).
  - intros [= <-]. exact Hlvl.
  - apply IH, Hrest.
Qed.

Lemma levels_known :
  Forall (fun lvl => DEBUG <= ParseLogLevel lvl <= FATAL) levels.
Proof. unfold levels. repeat constructor; vm_compute; discriminate. Qed.

Lemma extractLevelAndMessage_level (line : string) :
  DEBUG <= fst (extractLevelAndMessage line) <= FATAL.
Proof.
  unfold extractLevelAndMessage.
  destruct (matchLevelPrefix levels _) as [r|] eqn:E1.
  - eapply matchLevelPrefix_level; [apply levels_known | exact E1].
  - destruct (matchLevelAnywhere levels _) as [r|] eqn:E2.
    + eapply matchLevelAnywhere_level; [apply levels_known | exact E2].
    + simpl. unfold DEBUG, INFO, FATAL. lia.
Qed.

(** X3.  On a line that is not blank the free-text parser always returns
    an entry: its level is one of DEBUG, INFO, WARN, ERROR, FATAL (never
    UNKNOWN), its message has no white space at either end, and it keeps
    the line as raw text and the source label it was given. *)
Theorem PlainTextLogParser_Parse_nonblank (now : Z) (line source : string) :
  TrimSpace line <> "" ->
  exists e, PlainTextLogParser_Parse now line source = Ok e /\
            DEBUG <= Level e <= FATAL /\
            TrimSpace (Message e) = Message e /\
            Raw e = line /\ Source e = source.
Proof.
  intros Hnb. unfold PlainTextLogParser_Parse.
  destruct (String.eqb_spec (TrimSpace line) "") as [E|_]; [contradiction|].
  destruct (match extractTimestamp line with
            | Ok (timestamp, rest) => (timestamp, rest)
            | Err _ => (now, line)
            end) as [timestamp rest].
  pose proof (extractLevelAndMessage_level rest) as Hlevel.
  destruct (extractLevelAndMessage rest) as [level message]. simpl in Hlevel.
  eexists. split; [reflexivity|]. cbn [Level Message Raw Source].
  split; [exact Hlevel|]. split; [apply TrimSpace_idempotent|]. split; reflexivity.
Qed.

(** X4.  Both parsers refuse a line with the error ErrEmptyLine exactly
    when the line is empty or all white space, and an entry that either
    of them returns carries the line as its raw text and the given
    source label. *)
Theorem Parse_empty_line_and_labels (p : LogParser) (now : Z)
    (line source : string) :
  (Parse json_Unmarshal p now line source = Err ErrEmptyLine <->
   TrimSpace line = "") /\
  (forall e, Parse json_Unmarshal p now line source = Ok e ->
             Raw e = line /\ Source e = source).
Proof.
  destruct p; cbn [Parse].
  - unfold JSONLogParser_Parse.
    destruct (String.eqb_spec (TrimSpace line) "") as [E|E].
    + split; [tauto | discriminate].
    + destruct (json_Unmarshal line) as [jsonEntry|err].
      * split; [split; [discriminate | contradiction]|].
        intros e [= <-]. split; reflexivity.
      * split; [split; [discriminate | contradiction] | discriminate].
  - split.
    + unfold PlainTextLogParser_Parse.
      destruct (String.eqb_spec (TrimSpace line) "") as [E|E]; [tauto|].
      destruct (match extractTimestamp line with
                | Ok (timestamp, rest) => (timestamp, rest)
                | Err _ => (now, line)
                end) as [timestamp rest].
      destruct (extractLevelAndMessage rest) as [level message].
      split; [discriminate | contradiction].
    + intros e He. unfold PlainTextLogParser_Parse in He.
      destruct (String.eqb (TrimSpace line) ""); [discriminate|].
      destruct (match extractTimestamp line with
                | Ok (timestamp, rest) => (timestamp, rest)
                | Err _ => (now, line)
                end) as [timestamp rest].
      destruct (extractLevelAndMessage rest) as [level message].
      injection He as <-. split; reflexivity.
Qed.

Lemma JSONLogParser_CanParse_trimmed (line : string) :
  JSONLogParser_CanParse (TrimSpace line) = JSONLogParser_CanParse line.
Proof. unfold JSONLogParser_CanParse. rewrite TrimSpace_idempotent. reflexivity. Qed.

(** X5.  [DetectParser] chooses the JSON parser exactly for the lines that
    the JSON parser says it can parse (after trimming, a line from an
    opening to a closing brace) and the free-text parser for every other
    line; the parser it chooses can parse every line that is not
    blank. *)
Theorem DetectParser_choice (line : string) :
  (DetectParser line = JSONLogParser <-> JSONLogParser_CanParse line = true) /\
  (DetectParser line = PlainTextLogParser <->
   JSONLogParser_CanParse line = false) /\
  (TrimSpace line <> "" -> CanParse (DetectParser line) line = true).
Proof.
  unfold DetectParser. rewrite JSONLogParser_CanParse_trimmed.
  destruct (JSONLogParser_CanParse line) eqn:E.
  - split; [tauto|]. split; [split; discriminate|]. intros _. exact E.
  - split; [split; discriminate|]. split; [tauto|].
    intros Hnb. cbn [CanParse]. unfold PlainTextLogParser_CanParse.
    destruct (TrimSpace line); [contradiction | reflexivity].
Qed.

End Parsers.

(** ** Filters *)

Section Filters.

Import GoTime models analyzer.

Local Open Scope list_scope.

(** X6.  [CombineFilters] and [ApplyFilters] give the same answer, and
    they accept an entry exactly when every filter of the list accepts
    it: the empty list accepts every entry and the order of the filters
    does not matter. *)
Theorem CombineFilters_accepts (filters : list FilterFunc) (entry : LogEntry) :
  CombineFilters filters entry = ApplyFilters entry filters /\
  (ApplyFilters entry filters = true <->
   Forall (fun filter => filter entry = true) filters).
Proof.
  split; [reflexivity|].
  induction filters as [|f filters IH]; cbn [ApplyFilters].
  - split; [constructor | reflexivity].
  - destruct (f entry) eqn:Ef; cbn [negb].
    + rewrite IH. split; [intros H; constructor; assumption|].
      intros H. inversion H; assumption.
    + split; [discriminate|]. intros H. inversion H; congruence.
Qed.

(** X7.  The test that the analyzer applies to every entry is the
    combination of the filters of filters.go built from its
    configuration: the minimum-level filter (left out when the level is
    UNKNOWN), the pattern filter and the time-range filter. *)
Theorem shouldInclude_as_filters (cfg : Config) (entry : LogEntry) :
  shouldInclude cfg entry =
  CombineFilters
    ((if Level cfg =? UNKNOWN then [] else [MinLevelFilter (Level cfg)])
     ++ [PatternFilter (Pattern cfg);
         TimeRangeFilter (StartTime cfg) (EndTime cfg)])
    entry.
Proof.
  unfold shouldInclude, CombineFilters, MinLevelFilter, PatternFilter,
    TimeRangeFilter, MatchesPattern.
  destruct (Level cfg =? UNKNOWN); cbn [negb andb app ApplyFilters].
  - destruct (String.eqb (Pattern cfg) ""); cbn [negb andb];
      [|destruct (contains _ _ || contains _ _); cbn [negb]];
      try reflexivity;
      destruct (negb (IsZero (StartTime cfg)) && Before _ _);
      cbn [negb]; try reflexivity;
      destruct (negb (IsZero (EndTime cfg)) && After _ _); reflexivity.
  - rewrite (Z.leb_antisym (models.Level entry) (Level cfg)).
    destruct (models.Level entry <? Level cfg); cbn [negb]; [reflexivity|].
    destruct (String.eqb (Pattern cfg) ""); cbn [negb andb];
      [|destruct (contains _ _ || contains _ _); cbn [negb]];
      try reflexivity;
      destruct (negb (IsZero (StartTime cfg)) && Before _ _);
      cbn [negb]; try reflexivity;
      destruct (negb (IsZero (EndTime cfg)) && After _ _); reflexivity.
Qed.

End Filters.

(** ** The aggregator: entries and statistics together *)

Section AggregatorStates.

Import GoTime models analyzer aggregation sorting ordering states.

Local Open Scope list_scope.

Lemma SortByTime_Permutation (a : Aggregator) :
  Permutation (entries (SortByTime a)) (entries a).
Proof.
  unfold SortByTime. cbn [entries]. rewrite byTimestamp_byKey.
  destruct (Slice_spec Timestamp (entries a)) as [Hsw _].
  eapply swapsIn_Permutation. exact Hsw.
Qed.

Lemma SortByTime_nonDecreasing (a : Aggregator) :
  nonDecreasing (entries (SortByTime a)).
Proof.
  unfold SortByTime. cbn [entries]. rewrite byTimestamp_byKey.
  destruct (Slice_spec Timestamp (entries a)) as [Hsw Hs].
  apply sortedOn_nonDecreasing.
  rewrite (swapsIn_length _ _ _ _ Hsw). exact Hs.
Qed.

Lemma counted_AddBatch (a : Aggregator) (batch : list LogEntry) :
  counted a -> counted (AddBatch a batch).
Proof.
  unfold counted, Count, GetStats, GetLevelCount, FilterEntries.
  intros (Ht & Hl & Hs & Hp).
  destruct (AddBatch_counts a batch)
    as (Ht' & _ & _ & Hl' & Hs' & Hp' & _). cbn zeta in *.
  rewrite AddBatch_entries.
  split; [rewrite Ht', <- Ht, length_app; lia|].
  split; [|split].
  - intros level. rewrite Hl', Hl, List.filter_app, length_app.
    unfold countLevel, LevelFilter. lia.
  - intros source. rewrite Hs', Hs, List.filter_app, length_app.
    unfold countSource, SourceFilter. lia.
  - rewrite Hp'. exact Hp.
Qed.

Lemma built_counted (a : Aggregator) : built a -> counted a.
Proof.
  intros Hb.
  induction Hb as [|a e _ IH|a batch _ IH|a _ IH|a _ _|a n _ IH|a d _ IH].
  - unfold counted. repeat split.
  - change (Add a e) with (AddBatch a [e]). apply counted_AddBatch, IH.
  - apply counted_AddBatch, IH.
  - unfold counted, Count, GetStats, GetLevelCount, FilterEntries in *.
    destruct IH as (Ht & Hl & Hs & Hp).
    pose proof (SortByTime_Permutation a) as Hperm.
    change (stats (SortByTime a)) with (stats a).
    split; [rewrite (Permutation_length Hperm); exact Ht|].
    split; [|split; [|exact Hp]].
    + intros level. rewrite Hl. f_equal.
      symmetry. apply Permutation_length, filter_Permutation, Hperm.
    + intros source. rewrite Hs. f_equal.
      symmetry. apply Permutation_length, filter_Permutation, Hperm.
  - unfold counted. repeat split.
  - exact IH.
  - exact IH.
Qed.

(** X8.  In every aggregator that a program can hold (built from a new
    one by Add, AddBatch, SortByTime, Clear and the analyzer's updates of
    the statistics), the statistics agree with the entries: Count is
    TotalEntries, the count of a level is the number of entries that
    [FilterEntries] finds with [LevelFilter], the count of a source the
    number it finds with [SourceFilter]; and no pattern is ever
    counted. *)
Theorem built_statistics_match_entries (a : Aggregator) :
  built a ->
  Count a = TotalEntries (GetStats a) /\
  (forall level,
      GetLevelCount (GetStats a) level
      = Z.of_nat (length (FilterEntries a (LevelFilter level)))) /\
  (forall source,
      get (SourceCounts (GetStats a)) source
      = Z.of_nat (length (FilterEntries a (SourceFilter source)))) /\
  PatternCounts (GetStats a) = ∅.
Proof. intros Hb. exact (built_counted a Hb). Qed.

Lemma stats_AddBatch (a : Aggregator) (es : list LogEntry) :
  stats (AddBatch a es) = fold_left AddEntry es (stats a).
Proof.
  revert a. induction es as [|e es IH]; intros a; [reflexivity|].
  cbn [AddBatch fold_left]. apply (IH (Add a e)).
Qed.

Lemma AddEntry_comm (s : Statistics) (e1 e2 : LogEntry) :
  Timestamp e1 <> zero -> Timestamp e2 <> zero ->
  AddEntry (AddEntry s e1) e2 = AddEntry (AddEntry s e2) e1.
Proof.
  intros H1 H2. unfold AddEntry. cbn. unfold IsZero, Before, After, zero in *.
  f_equal.
  - apply incr_comm.
  - apply incr_comm.
  - repeat (match goal with
            | |- context [Z.eqb ?x ?y] =>
                lazymatch x with
                | context [if _ then _ else _] => fail
                | _ => destruct (Z.eqb_spec x y)
                end
            | |- context [Z.ltb ?x ?y] =>
                lazymatch constr:((x, y)) with
                | context [if _ then _ else _] => fail
                | _ => destruct (Z.ltb_spec x y)
                end
            end; cbn [orb]); lia.
  - repeat (match goal with
            | |- context [Z.ltb ?x ?y] =>
                lazymatch constr:((x, y)) with
                | context [if _ then _ else _] => fail
                | _ => destruct (Z.ltb_spec x y)
                end
            end; cbn [orb]); lia.
Qed.

Lemma fold_AddEntry_Permutation (es es' : list LogEntry) :
  Permutation es es' ->
  (forall e, In e es -> Timestamp e <> zero) ->
  forall s, fold_left AddEntry es s = fold_left AddEntry es' s.
Proof.
  induction 1 as [|x l l' Hp IH|x y l|l l' l'' Hp1 IH1 Hp2 IH2];
    intros Hnz s; cbn [fold_left].
  - reflexivity.
  - apply IH. intros e He. apply Hnz. right. exact He.
  - rewrite AddEntry_comm; [reflexivity| |]; apply Hnz; simpl; tauto.
  - rewrite IH1 by exact Hnz. apply IH2.
    intros e He. apply Hnz. eapply Permutation_in; [symmetry|]; eassumption.
Qed.

(** X9.  The statistics do not depend on the order in which entries
    arrive: two batches with the same entries in different orders leave
    the same statistics (counters, first and last timestamp), provided
    that no entry carries the zero time. *)
Theorem statistics_independent_of_order
    (a : Aggregator) (batch batch' : list LogEntry) :
  Permutation batch batch' ->
  (forall e, In e batch -> Timestamp e <> zero) ->
  GetStats (AddBatch a batch) = GetStats (AddBatch a batch').
Proof.
  intros Hperm Hnz. unfold GetStats. rewrite !stats_AddBatch.
  apply fold_AddEntry_Permutation; assumption.
Qed.

End AggregatorStates.

(** ** The aggregator: queries *)

Section AggregatorQueries.

Import GoTime models analyzer sorting ordering.

Local Open Scope list_scope.

Lemma After_false (t u : Z) : After t u = false <-> t <= u.
Proof. unfold After. rewrite Z.ltb_ge. reflexivity. Qed.

Lemma nonDecreasing_cons (x : LogEntry) (es : list LogEntry) :
  nonDecreasing (x :: es) <->
  (forall y, In y es -> Timestamp x <= Timestamp y) /\ nonDecreasing es.
Proof.
  unfold nonDecreasing. split.
  - intros H. split.
    + intros y Hy. apply list_elem_of_In, list_elem_of_lookup_1 in Hy.
      destruct Hy as [j Hj]. apply After_false.
      apply (H 0%nat (S j)); [lia | reflexivity | exact Hj].
    + intros i j u v Hij Hu Hv. apply (H (S i) (S j)); [lia | exact Hu | exact Hv].
  - intros [Hhead Htail] i j u v Hij Hu Hv.
    destruct i as [|i]; destruct j as [|j]; try lia.
    + simpl in Hu, Hv. assert (u = v) by congruence. subst.
      apply After_false. lia.
    + simpl in Hu, Hv. injection Hu as <-. apply After_false, Hhead.
      apply list_elem_of_In. eapply list_elem_of_lookup_2, Hv.
    + simpl in Hu, Hv. apply (Htail i j); [lia | exact Hu | exact Hv].
Qed.

Lemma nonDecreasing_filter (f : LogEntry -> bool) (es : list LogEntry) :
  nonDecreasing es -> nonDecreasing (List.filter f es).
Proof.
  induction es as [|x es IH]; intros H; [exact H|].
  apply nonDecreasing_cons in H. destruct H as [Hhead Htail]. simpl.
  destruct (f x); [|apply IH, Htail].
  apply nonDecreasing_cons. split; [|apply IH, Htail].
  intros y Hy. apply filter_In in Hy. apply Hhead, Hy.
Qed.

Lemma nonDecreasing_app (top rest : list LogEntry) (x y : LogEntry) :
  nonDecreasing (top ++ rest) -> In x top -> In y rest ->
  Timestamp x <= Timestamp y.
Proof.
  induction top as [|z top IH]; intros H Hx Hy; [contradiction|].
  simpl in H. apply nonDecreasing_cons in H. destruct H as [Hhead Htail].
  destruct Hx as [->|Hx].
  - apply Hhead, in_or_app. right. exact Hy.
  - apply IH; assumption.
Qed.

Lemma GetTopN_prefix_aux (a : Aggregator) (n : Z) (top : list LogEntry) :
  GetTopN a n = Some top ->
  exists rest, entries a = top ++ rest /\
               Z.of_nat (length top) = Z.min n (Count a).
Proof.
  unfold GetTopN, Count.
  destruct (Z.ltb_spec (Z.of_nat (length (entries a))) n) as [Hlt|Hge].
  - destruct (Z.ltb_spec (Z.of_nat (length (entries a))) 0) as [?|_]; [lia|].
    intros [= <-]. exists []. rewrite Nat2Z.id, firstn_all, app_nil_r.
    split; [reflexivity | lia].
  - destruct (Z.ltb_spec n 0) as [Hneg|Hpos]; [discriminate|].
    intros [= <-]. exists (skipn (Z.to_nat n) (entries a)).
    rewrite firstn_skipn, length_firstn. split; [reflexivity | lia].
Qed.

(** X10.  [GetTopN] panics exactly when [n] is negative; for any other
    [n] it returns the first [n] entries of the collection, in their
    order, or the whole collection when it has fewer than [n]. *)
Theorem GetTopN_prefix (a : Aggregator) (n : Z) :
  (GetTopN a n = None <-> n < 0) /\
  (0 <= n ->
   exists top rest,
     GetTopN a n = Some top /\ GetEntries a = top ++ rest /\
     Z.of_nat (length top) = Z.min n (Count a)).
Proof.
  unfold GetTopN, GetEntries, Count.
  destruct (Z.ltb_spec (Z.of_nat (length (entries a))) n) as [Hlt|Hge].
  - destruct (Z.ltb_spec (Z.of_nat (length (entries a))) 0) as [?|_]; [lia|].
    split; [split; [discriminate | lia]|]. intros _.
    exists (entries a), []. rewrite Nat2Z.id, firstn_all, app_nil_r.
    repeat split. lia.
  - destruct (Z.ltb_spec n 0) as [Hneg|Hpos].
    + split; [tauto | lia].
    + split; [split; [discriminate | lia]|]. intros _.
      exists (firstn (Z.to_nat n) (entries a)), (skipn (Z.to_nat n) (entries a)).
      rewrite firstn_skipn, length_firstn. repeat split. lia.
Qed.

(** X11.  After [SortByTime], [GetTopN] returns the earliest entries:
    what it returns and what it leaves out are together the entries of
    the aggregator, and nothing left out is earlier than anything
    returned. *)
Theorem GetTopN_after_SortByTime (a : Aggregator) (n : Z)
    (top : list LogEntry) :
  GetTopN (SortByTime a) n = Some top ->
  exists rest,
    Permutation (top ++ rest) (GetEntries a) /\
    Z.of_nat (length top) = Z.min n (Count a) /\
    (forall x y, In x top -> In y rest -> Timestamp x <= Timestamp y).
Proof.
  intros Htop.
  destruct (GetTopN_prefix_aux (SortByTime a) n top Htop)
    as (rest & Hsplit & Hlen).
  exists rest. split; [|split].
  - rewrite <- Hsplit. apply SortByTime_Permutation.
  - rewrite Hlen. unfold Count.
    rewrite (Permutation_length (SortByTime_Permutation a)). reflexivity.
  - intros x y Hx Hy. apply (nonDecreasing_app top rest); try assumption.
    rewrite <- Hsplit. apply SortByTime_nonDecreasing.
Qed.

(** X12.  Filtering a sorted aggregator keeps it sorted, and selects the
    entries that the filter selects before sorting:
    [FilterEntries] after [SortByTime] is non-decreasing by timestamp and
    a permutation of [FilterEntries] before it. *)
Theorem FilterEntries_after_SortByTime (a : Aggregator) (filter : FilterFunc) :
  nonDecreasing (FilterEntries (SortByTime a) filter) /\
  Permutation (FilterEntries (SortByTime a) filter) (FilterEntries a filter).
Proof.
  unfold FilterEntries. split.
  - apply nonDecreasing_filter, SortByTime_nonDecreasing.
  - apply filter_Permutation, SortByTime_Permutation.
Qed.

End AggregatorQueries.

(** ** AnalyzeFile: what it adds and what it counts *)

Section AnalyzeFileAccounts.

Import GoTime models parser analyzer analysis pool.

Local Open Scope list_scope.

Variable json_Unmarshal : string -> result jsonLogEntry.
Variable os_Open : string -> result OsFile.
Variable time_Now : string -> nat -> Z.

Lemma Parse_Ok_labels (p : LogParser) (now : Z) (line source : string)
    (e : LogEntry) :
  Parse json_Unmarshal p now line source = Ok e ->
  Raw e = line /\ Source e = source.
Proof.
  destruct p; cbn [Parse].
  - unfold JSONLogParser_Parse.
    destruct (String.eqb (GoString.TrimSpace line) ""); [discriminate|].
    destruct (json_Unmarshal line) as [jsonEntry|err]; [|discriminate].
    intros [= <-]. split; reflexivity.
  - unfold PlainTextLogParser_Parse.
    destruct (String.eqb (GoString.TrimSpace line) ""); [discriminate|].
    destruct (match extractTimestamp line with
              | Ok (timestamp, rest) => (timestamp, rest)
              | Err _ => (now, line)
              end) as [timestamp rest].
    destruct (extractLevelAndMessage rest) as [level message].
    intros [= <-]. split; reflexivity.
Qed.

Lemma kept_Forall (a : Analyzer) (filePath : string) (lines : list string)
    (lineCount : nat) :
  Forall (fun e => Source e = filepath.Base filePath /\
                   shouldInclude (config a) e = true /\
                   In (Raw e) lines /\ Raw e <> "")
         (kept json_Unmarshal time_Now a filePath lines lineCount).
Proof.
  revert lineCount. induction lines as [|line lines IH]; intros lineCount;
    cbn [kept]; [constructor|].
  apply Forall_app. split.
  - unfold lineEntries.
    destruct (String.eqb_spec line "") as [|Hne]; [constructor|].
    destruct (Parse json_Unmarshal _ _ line _) as [entry|err] eqn:E;
      [|constructor].
    destruct (shouldInclude (config a) entry) eqn:Hin; [|constructor].
    apply Parse_Ok_labels in E. destruct E as [Hraw Hsrc].
    constructor; [|constructor].
    rewrite Hraw. repeat split; try assumption. left. reflexivity.
  - eapply List.Forall_impl; [|apply IH]. cbn beta.
    intros e (H1 & H2 & H3 & H4). repeat split; try assumption.
    right. exact H3.
Qed.

Lemma trace_entries (a : Analyzer) (filePath : string) :
  let t := AnalyzeFile_trace json_Unmarshal os_Open time_Now a filePath in
  actionEntries (fst t) = [] \/
  exists file,
    os_Open filePath = Ok file /\
    actionEntries (fst t)
    = kept json_Unmarshal time_Now a filePath
        (bufio.tokens (bufio.Scan (1024 * 1024) (file_bytes file))) 0.
Proof.
  cbn zeta. unfold AnalyzeFile_trace.
  destruct (os_Open filePath) as [file|e]; [|left; reflexivity].
  destruct (file_Stat file) as [size|e]; [|left; reflexivity].
  right. exists file. split; [reflexivity|].
  destruct (if bufio.tooLong _ then _ else _); cbn [fst].
  - apply AnalyzeFile_loop_entries.
  - rewrite actionEntries_app, AnalyzeFile_loop_entries. simpl.
    apply app_nil_r.
Qed.

(** X13.  Every entry that [AnalyzeFile] hands to the aggregator comes
    from a non-empty line of the file (one of the lines that the scanner
    returns), which it keeps as raw text; it has passed the filters of
    the configuration; and its source is the base name of the file path,
    so files of the same name in different directories are counted as
    one source. *)
Theorem AnalyzeFile_entries_labelled (a : Analyzer) (filePath : string) :
  let r := AnalyzeFile json_Unmarshal os_Open time_Now a filePath in
  exists added,
    GetEntries (GetResults (fst r)) = GetEntries (GetResults a) ++ added /\
    Forall (fun e => Source e = filepath.Base filePath /\
                     shouldInclude (config a) e = true /\
                     Raw e <> "" /\
                     exists file,
                       os_Open filePath = Ok file /\
                       In (Raw e)
                          (bufio.tokens
                             (bufio.Scan (1024 * 1024) (file_bytes file))))
           added.
Proof.
  cbn zeta. unfold AnalyzeFile, GetEntries, GetResults.
  pose proof (trace_entries a filePath) as Ht. cbn zeta in Ht.
  destruct (AnalyzeFile_trace json_Unmarshal os_Open time_Now a filePath)
    as [actions err]. cbn [fst] in *. cbn [withAggregator aggregator].
  exists (actionEntries actions). split; [apply perform_entries|].
  destruct Ht as [-> | (file & Hopen & ->)]; [constructor|].
  eapply List.Forall_impl; [|apply kept_Forall]. cbn beta.
  intros e (H1 & H2 & H3 & H4). repeat split; try assumption.
  exists file. split; assumption.
Qed.

Lemma AnalyzeFile_loop_batches (a : Analyzer) (filePath : string)
    (lines : list string) (lineCount : nat) (local : list LogEntry) :
  (length local < 1000)%nat ->
  Forall (fun act => match act with
                     | DoAddBatch batch =>
                         (1 <= length batch /\ length batch <= 1000)%nat
                     | DoAddFile _ => True
                     end)
         (AnalyzeFile_loop json_Unmarshal time_Now a filePath lines lineCount
                           local).
Proof.
  revert lineCount local.
  induction lines as [|line lines IH]; intros lineCount local Hlocal;
    cbn [AnalyzeFile_loop]; cbn zeta.
  - destruct (Nat.ltb_spec 0 (length local)); [|constructor].
    constructor; [lia | constructor].
  - destruct (String.eqb line ""); [apply IH; exact Hlocal|].
    destruct (Parse json_Unmarshal _ _ line _) as [entry|err];
      [|apply IH; exact Hlocal].
    destruct (negb (shouldInclude (config a) entry)); [apply IH; exact Hlocal|].
    assert (Hlen : length (local ++ [entry]) = S (length local))
      by (rewrite length_app; simpl; lia).
    destruct (Z.leb_spec 1000 (Z.of_nat (length (local ++ [entry])))).
    + constructor; [lia|]. apply IH. simpl. lia.
    + apply IH. lia.
Qed.

(** X14.  [AnalyzeFile] hands its entries to the aggregator in batches of
    at least one and at most 1000 entries: no call of [AddBatch] is empty
    and none holds the lock for more than 1000 entries. *)
Theorem AnalyzeFile_batches_bounded (a : Analyzer) (filePath : string) :
  Forall (fun act => match act with
                     | DoAddBatch batch =>
                         (1 <= length batch /\ length batch <= 1000)%nat
                     | DoAddFile _ => True
                     end)
         (fst (AnalyzeFile_trace json_Unmarshal os_Open time_Now a filePath)).
Proof.
  unfold AnalyzeFile_trace.
  destruct (os_Open filePath) as [file|e]; [|constructor].
  destruct (file_Stat file) as [size|e]; [|constructor].
  assert (Hloop := AnalyzeFile_loop_batches a filePath
                     (bufio.tokens (bufio.Scan (1024 * 1024) (file_bytes file)))
                     0 [] ltac:(simpl; lia)).
  destruct (if bufio.tooLong _ then _ else _); cbn [fst]; [exact Hloop|].
  apply Forall_app. split; [exact Hloop|]. constructor; [exact I|constructor].
Qed.

(** X15.  [AnalyzeFile] counts a file only when it returns no error: then
    the file was opened, FilesProcessed grows by one and BytesProcessed by
    the size that [Stat] reported.  When it returns an error (the file
    does not open, [Stat] fails, a line is too long for the scanner or
    reading fails) neither counter changes, although the entries read
    before the error stay in the aggregator. *)
Theorem AnalyzeFile_counts_file (a : Analyzer) (filePath : string) :
  let r := AnalyzeFile json_Unmarshal os_Open time_Now a filePath in
  let s := GetStats (GetResults a) in
  let s' := GetStats (GetResults (fst r)) in
  match snd r with
  | None =>
      exists file size,
        os_Open filePath = Ok file /\ file_Stat file = Ok size /\
        FilesProcessed s' = FilesProcessed s + 1 /\
        BytesProcessed s' = BytesProcessed s + size
  | Some _ =>
      FilesProcessed s' = FilesProcessed s /\
      BytesProcessed s' = BytesProcessed s
  end.
Proof.
  cbn zeta. unfold AnalyzeFile, GetStats, GetResults.
  pose proof (trace_contents json_Unmarshal os_Open time_Now a filePath) as Ht.
  cbn zeta in Ht.
  destruct (AnalyzeFile_trace json_Unmarshal os_Open time_Now a filePath)
    as [actions err]. cbn [fst snd] in *. cbn [withAggregator aggregator].
  destruct (perform_counters actions (aggregator a))
    as (_ & _ & _ & _ & Hf & Hb). cbn zeta in Hf, Hb.
  destruct (os_Open filePath) as [file|e].
  - destruct (file_Stat file) as [size|e] eqn:Estat.
    + destruct Ht as [_ Ht].
      destruct (bufio.tooLong _ || _).
      * destruct Ht as [Hsz Herr]. rewrite Hsz in Hf, Hb.
        destruct err; [|contradiction]. unfold sumZ in Hb. simpl in Hf, Hb.
        split; lia.
      * destruct Ht as [Hsz Herr]. rewrite Hsz in Hf, Hb.
        destruct err; [discriminate|]. exists file, size.
        unfold sumZ in Hb. simpl in Hf, Hb.
        repeat split; try reflexivity; try exact Estat; lia.
    + destruct Ht as (_ & Hsz & Herr). rewrite Hsz in Hf, Hb.
      destruct err; [|contradiction]. unfold sumZ in Hb. simpl in Hf, Hb.
        split; lia.
  - destruct Ht as (_ & Hsz & Herr). rewrite Hsz in Hf, Hb.
    destruct err; [|contradiction]. unfold sumZ in Hb. simpl in Hf, Hb.
        split; lia.
Qed.

End AnalyzeFileAccounts.

(** ** findLogFiles *)

Section FindLogFiles.

Import GoString GoTime models parser analyzer directory.

Local Open Scope list_scope.

Local Arguments String.append !_ _ /.

Variable filepath_Walk : string -> list filepath.Visit.

Lemma string_of_list_ascii_app (l1 l2 : list ascii) :
  string_of_list_ascii (l1 ++ l2)
  = (string_of_list_ascii l1 ++ string_of_list_ascii l2)%string.
Proof. induction l1 as [|c l1 IH]; simpl; [reflexivity | rewrite IH; reflexivity]. Qed.

Lemma Ext_loop_length (r acc : list ascii) :
  filepath.Ext_loop r acc = ""%string \/
  (length acc < String.length (filepath.Ext_loop r acc))%nat.
Proof.
  revert acc. induction r as [|c r IH]; intros acc; cbn [filepath.Ext_loop];
    [left; reflexivity|].
  destruct (filepath.isSep c); [left; reflexivity|].
  destruct (Ascii.eqb c "."); [right; simpl|].
  - clear. induction acc as [|d acc IH]; simpl in *; lia.
  - destruct (IH (c :: acc)) as [H|H]; [left; exact H|right]. simpl in H. lia.
Qed.

Lemma Ext_log_reversed (r : list ascii) :
  filepath.Ext_loop r [] = ".log"%string <->
  exists r', r = "g"%char :: "o"%char :: "l"%char :: "."%char :: r'.
Proof.
  split.
  - destruct r as [|c1 r]; [discriminate|]. cbn [filepath.Ext_loop].
    destruct (filepath.isSep c1); [discriminate|].
    destruct (Ascii.eqb c1 "."); [discriminate|].
    destruct r as [|c2 r]; [discriminate|]. cbn [filepath.Ext_loop].
    destruct (filepath.isSep c2); [discriminate|].
    destruct (Ascii.eqb c2 "."); [discriminate|].
    destruct r as [|c3 r]; [discriminate|]. cbn [filepath.Ext_loop].
    destruct (filepath.isSep c3); [discriminate|].
    destruct (Ascii.eqb c3 "."); [discriminate|].
    destruct r as [|c4 r]; [discriminate|]. cbn [filepath.Ext_loop].
    destruct (filepath.isSep c4); [discriminate|].
    destruct (Ascii.eqb_spec c4 ".") as [->|_].
    + simpl. intros [= -> -> ->]. exists r. reflexivity.
    + intros H.
      destruct (Ext_loop_length r [c4; c3; c2; c1]) as [H'|H'];
        rewrite H in H'; [discriminate | simpl in H'; lia].
  - intros [r' ->]. reflexivity.
Qed.

Lemma Ext_log (path : string) :
  String.eqb (filepath.Ext path) ".log" = HasSuffix path ".log".
Proof.
  apply eq_true_iff_eq. rewrite String.eqb_eq, HasSuffix_app.
  unfold filepath.Ext. rewrite Ext_log_reversed. split.
  - intros [r' Hr]. exists (string_of_list_ascii (rev r')).
    rewrite <- (string_of_list_ascii_of_string path).
    rewrite <- (rev_involutive (list_ascii_of_string path)), Hr.
    simpl. rewrite <- !app_assoc. rewrite string_of_list_ascii_app.
    reflexivity.
  - intros [pre ->]. exists (rev (list_ascii_of_string pre)).
    rewrite <- (string_of_list_ascii_of_string pre) at 1.
    change ".log"%string with (string_of_list_ascii ["."; "l"; "o"; "g"]%char).
    rewrite <- string_of_list_ascii_app, list_ascii_of_string_of_list_ascii.
    rewrite rev_app_distr. reflexivity.
Qed.

Lemma findLogFiles_walk_spec (visits : list filepath.Visit) (files : list string) :
  findLogFiles_walk visits files
  = (files ++ map filepath.v_path (List.filter isLogFile (beforeError visits)),
     firstError visits).
Proof.
  revert files. induction visits as [|v visits IH]; intros files;
    cbn [findLogFiles_walk beforeError firstError].
  - simpl. rewrite app_nil_r. reflexivity.
  - destruct (filepath.v_err v) as [err|].
    + simpl. rewrite app_nil_r. reflexivity.
    + cbn [List.filter]. unfold isLogFile at 1. rewrite Ext_log.
      destruct (negb (filepath.v_isDir v)
                && HasSuffix (filepath.v_path v) ".log").
      * rewrite IH. cbn [map]. rewrite <- app_assoc. reflexivity.
      * apply IH.
Qed.

(** X16.  [findLogFiles] returns, in the order of the walk, the paths of
    the visited entries that are not directories and whose path ends in
    [.log] (in lower case), up to the first entry at which the walk
    reports an error; it returns that error with the files found before
    it. *)
Theorem findLogFiles_result (dirPath : string) :
  findLogFiles filepath_Walk dirPath
  = (map filepath.v_path
         (List.filter isLogFile (beforeError (filepath_Walk dirPath))),
     firstError (filepath_Walk dirPath)).
Proof. unfold findLogFiles. apply findLogFiles_walk_spec. Qed.

End FindLogFiles.

(** ** AnalyzeDirectory: what it leaves and what it reports *)

Section AnalyzeDirectoryResults.

Import GoTime models parser analyzer analysis pool ordering states directory.

Local Open Scope list_scope.

Variable json_Unmarshal : string -> result jsonLogEntry.
Variable os_Open : string -> result OsFile.
Variable filepath_Walk : string -> list filepath.Visit.
Variable time_Now : string -> nat -> Z.

Local Abbreviation trace := (AnalyzeFile_trace json_Unmarshal os_Open time_Now).
Local Abbreviation actionsOf := (fileActions json_Unmarshal os_Open time_Now).
Local Abbreviation errorsOf := (fileError json_Unmarshal os_Open time_Now).
Local Abbreviation fails := (directory.fails json_Unmarshal os_Open time_Now).
Local Abbreviation failed := (directory.failed json_Unmarshal os_Open time_Now).
Local Abbreviation analyzed :=
  (directory.analyzed json_Unmarshal os_Open time_Now).

Lemma perform_built (acts : list Action) (agg : Aggregator) :
  built agg -> built (fold_left perform acts agg).
Proof.
  revert agg. induction acts as [|act acts IH]; intros agg Hb; [exact Hb|].
  cbn [fold_left]. apply IH. destruct act as [batch|n]; cbn [perform].
  - apply built_AddBatch, Hb.
  - apply built_AddFile, Hb.
Qed.

Lemma nonDecreasing_nil : nonDecreasing [].
Proof. intros i j x y _ H. discriminate H. Qed.

Lemma file_outcome (a : Analyzer) (filePath : string) :
  length (actionSizes (actionsOf a filePath))
  = (if fails a filePath then 0 else 1)%nat /\
  length (errorsOf a filePath) = (if fails a filePath then 1 else 0)%nat.
Proof.
  unfold fileActions, fileError, directory.fails.
  pose proof (trace_contents json_Unmarshal os_Open time_Now a filePath) as Ht.
  cbn zeta in Ht.
  destruct (trace a filePath) as [actions err]. cbn [fst snd] in *.
  assert (Hcases : (actionSizes actions = [] /\ errorOf err <> []) \/
                   (exists size, actionSizes actions = [size] /\ errorOf err = [])).
  { destruct (os_Open filePath) as [file|e]; [|left; tauto].
    destruct (file_Stat file) as [size|e]; [|left; tauto].
    destruct Ht as [_ Ht]. destruct (bufio.tooLong _ || _); [left; tauto|].
    right. exists size. exact Ht. }
  destruct Hcases as [[Hs He] | (size & Hs & He)]; rewrite Hs;
    destruct err as [e|]; simpl in *; try tauto; try discriminate.
Qed.

Lemma files_outcome (a : Analyzer) (files : list string) :
  length (actionSizes (flat_map (actionsOf a) files))
  = length (analyzed a files) /\
  length (flat_map (errorsOf a) files) = length (failed a files).
Proof.
  unfold directory.analyzed, directory.failed.
  induction files as [|f files [IH1 IH2]]; [split; reflexivity|].
  cbn [flat_map List.filter].
  rewrite actionSizes_app, !length_app, IH1, IH2.
  destruct (file_outcome a f) as [H1 H2]. rewrite H1, H2.
  destruct (fails a f); simpl; split; reflexivity.
Qed.

Lemma AnalyzeDirectory_built (a : Analyzer) (dirPath : string)
    (schedule : list nat) (elapsed : Z) :
  built (aggregator a) ->
  built (aggregator
           (fst (AnalyzeDirectory json_Unmarshal os_Open filepath_Walk time_Now
                   schedule elapsed a dirPath))).
Proof.
  intros Hb. unfold AnalyzeDirectory.
  destruct (findLogFiles filepath_Walk dirPath) as [files [err|]];
    [exact Hb|].
  destruct (length files =? 0)%nat; [exact Hb|]. cbn zeta.
  cbn [fst withAggregator aggregator].
  apply built_SortByTime.
  apply (built_SetProcessingTime
           (shared (runWorkers json_Unmarshal os_Open time_Now a schedule _))).
  destruct (runWorkers_result json_Unmarshal os_Open time_Now a schedule
              (Z.to_nat (if Workers (config a) <=? 0 then 4
                         else Workers (config a)))
              files (aggregator a))
    as [(done & Hshared & _) _].
  { destruct (Z.leb_spec (Workers (config a)) 0); lia. }
  cbn zeta in Hshared. rewrite Hshared. apply perform_built, Hb.
Qed.

(** X17.  Whatever the schedule of the workers, and whether or not it
    returns an error, [AnalyzeDirectory] on a new analyzer leaves entries
    that are sorted by timestamp and statistics that agree with them:
    Count is TotalEntries, and the counts per level and per source are
    the numbers of entries with that level and that source. *)
Theorem AnalyzeDirectory_new_analyzer (cfg : Config) (dirPath : string)
    (schedule : list nat) (elapsed : Z) :
  let r := AnalyzeDirectory json_Unmarshal os_Open filepath_Walk time_Now
             schedule elapsed (NewAnalyzer cfg) dirPath in
  let agg := GetResults (fst r) in
  nonDecreasing (GetEntries agg) /\
  Count agg = TotalEntries (GetStats agg) /\
  (forall level,
      GetLevelCount (GetStats agg) level
      = Z.of_nat (length (FilterEntries agg (LevelFilter level)))) /\
  (forall source,
      get (SourceCounts (GetStats agg)) source
      = Z.of_nat (length (FilterEntries agg (SourceFilter source)))).
Proof.
  cbn zeta. split.
  - unfold AnalyzeDirectory, GetResults, GetEntries.
    destruct (findLogFiles filepath_Walk dirPath) as [files [err|]];
      [apply nonDecreasing_nil|].
    destruct (length files =? 0)%nat; [apply nonDecreasing_nil|]. cbn zeta.
    cbn [fst withAggregator aggregator]. apply SortByTime_nonDecreasing.
  - pose proof (AnalyzeDirectory_built (NewAnalyzer cfg) dirPath schedule
                  elapsed built_New) as Hb.
    apply built_counted in Hb. unfold counted in Hb. unfold GetResults. tauto.
Qed.

(** X18.  When the walk succeeds and finds log files, [AnalyzeDirectory]
    returns no error exactly when [AnalyzeFile] fails on none of them, and
    otherwise the error [encountered N errors during processing] with [N]
    the number of files on which it fails; FilesProcessed grows by the
    number of the other files, the processing time is the elapsed time,
    and the entries are left sorted.  None of this depends on the number
    of workers or on their schedule. *)
Theorem AnalyzeDirectory_reports_failures (a : Analyzer) (dirPath : string)
    (files : list string) (schedule : list nat) (elapsed : Z) :
  findLogFiles filepath_Walk dirPath = (files, None) -> files <> [] ->
  let r := AnalyzeDirectory json_Unmarshal os_Open filepath_Walk time_Now
             schedule elapsed a dirPath in
  let s := GetStats (GetResults a) in
  let s' := GetStats (GetResults (fst r)) in
  let failures := Z.of_nat (length (failed a files)) in
  snd r = (if failures =? 0 then None
           else Some (fmt_Errorf "encountered %d errors during processing"
                                 [op_int failures])) /\
  FilesProcessed s' = FilesProcessed s + Z.of_nat (length (analyzed a files)) /\
  ProcessingTime s' = elapsed /\
  nonDecreasing (GetEntries (GetResults (fst r))).
Proof.
  intros Hfind Hfiles. cbn zeta.
  unfold AnalyzeDirectory, GetStats, GetResults, GetEntries. rewrite Hfind.
  destruct files as [|f files]; [contradiction|].
  cbn [length Nat.eqb]. cbn zeta. cbn [fst snd withAggregator aggregator].
  destruct (runWorkers_result json_Unmarshal os_Open time_Now a schedule
              (Z.to_nat (if Workers (config a) <=? 0 then 4
                         else Workers (config a)))
              (f :: files) (aggregator a))
    as [(done & Hshared & Hperm) Herrs].
  { destruct (Z.leb_spec (Workers (config a)) 0); lia. }
  cbn zeta in Hshared, Herrs.
  destruct (files_outcome a (f :: files)) as [Hsizes Hfailed].
  rewrite Herrs, Hfailed.
  split; [|split; [|split]].
  - destruct (length (failed a (f :: files))) as [|k]; reflexivity.
  - change (stats (SortByTime ?x)) with (stats x). cbn [stats SetProcessingTime
      FilesProcessed].
    rewrite Hshared.
    destruct (perform_counters done (aggregator a)) as (_ & _ & _ & _ & Hf & _).
    cbn zeta in Hf. rewrite Hf.
    rewrite (Permutation_length (actionSizes_Permutation _ _ Hperm)), Hsizes.
    reflexivity.
  - reflexivity.
  - apply SortByTime_nonDecreasing.
Qed.

End AnalyzeDirectoryResults.

(** ** AnalyzeDirectory: two runs *)

Section AnalyzeDirectoryRuns.

Import GoTime models parser analyzer analysis pool aggregation.

Local Open Scope list_scope.

Variable json_Unmarshal : string -> result jsonLogEntry.
Variable os_Open : string -> result OsFile.
Variable filepath_Walk : string -> list filepath.Visit.





End AnalyzeDirectoryRuns.

Section DirectoryRunsExamples.

Import GoTime models parser analyzer analysis pool scenarioA scenarioE.

Local Open Scope list_scope.



(** The premise on the clock is needed: with a time window, a line
    without a timestamp is kept or not according to the time at which it
    is read, and the counters of two runs differ. *)
Lemma AnalyzeDirectory_window_depends_on_clock :
  let r1 := AnalyzeDirectory decoder untimedDisk logsWalk clock [] 1000
              (withWorkers (NewAnalyzer windowed) 1) "logs" in
  let r2 := AnalyzeDirectory decoder untimedDisk logsWalk lateClock
              secondFirst 1000 (withWorkers (NewAnalyzer windowed) 2) "logs" in
  hasTimeWindow (config (NewAnalyzer windowed)) /\
  TotalEntries (stats (aggregator (fst r1))) = 2 /\
  TotalEntries (stats (aggregator (fst r2))) = 1.
Proof.
  cbn zeta. split; [right; vm_compute; discriminate|].
  split; vm_compute; reflexivity.
Qed.

End DirectoryRunsExamples.

(** ** The watcher: what a step displays *)

Section WatcherSteps.

Import GoTime models parser watcher tailing watching.

Local Open Scope list_scope.

Variable json_Unmarshal : string -> result jsonLogEntry.

Lemma drop_all (s : string) : GoString.drop (String.length s) s = ""%string.
Proof. induction s as [|c s IH]; simpl; [reflexivity | exact IH]. Qed.

(** A step on a file in which the reads find [old ++ new], taken by a
    watcher whose file stands at the end of [old] and whose last offset
    is not above the size that [Stat] reports. *)
Lemma readNewLines_from (w : Watcher) (time_Now : nat -> Z) (size : Z)
    (old new : string) :
  fileOffset w = Z.of_nat (String.length old) ->
  lastOffset w <= size ->
  let r := readNewLines json_Unmarshal w time_Now
             (viewed size (old ++ new)%string) in
  snd r = processLines json_Unmarshal w time_Now
            (bufio.tokens (bufio.Scan bufio.MaxScanTokenSize new)) 0 /\
  lastOffset (fst r) = size /\
  fileOffset (fst r)
  = Z.of_nat (String.length old)
    + bufio.consumed (bufio.Scan bufio.MaxScanTokenSize new) /\
  config (fst r) = config w.
Proof.
  intros Hf Hl. cbn zeta.
  destruct (readNewLines_reads json_Unmarshal w time_Now
              (viewed size (old ++ new)%string) eq_refl)
    as (HL & HF & HC & HS).
  cbn zeta in HL, HF, HS. unfold readStart, scanFrom in *.
  change (Size (viewed size (old ++ new)%string)) with size in *.
  destruct (Z.ltb_spec size (lastOffset w)); [lia|].
  rewrite Hf in HS, HF. rewrite Nat2Z.id in HS, HF.
  unfold viewed in HS, HF. cbn [view_bytes] in HS, HF.
  rewrite drop_app_length in HS, HF.
  repeat split; assumption.
Qed.

(** A step on a file that grew from [old] to [old ++ new] and is not
    written to during the step, taken by a watcher whose file stands at
    the end of [old]. *)
Lemma readNewLines_appended (w : Watcher) (time_Now : nat -> Z)
    (old new : string) :
  fileOffset w = Z.of_nat (String.length old) ->
  lastOffset w = Z.of_nat (String.length old) ->
  let r := readNewLines json_Unmarshal w time_Now (view (old ++ new)%string) in
  snd r = processLines json_Unmarshal w time_Now
            (bufio.tokens (bufio.Scan bufio.MaxScanTokenSize new)) 0 /\
  lastOffset (fst r)
  = Z.of_nat (String.length old) + Z.of_nat (String.length new) /\
  fileOffset (fst r)
  = Z.of_nat (String.length old)
    + bufio.consumed (bufio.Scan bufio.MaxScanTokenSize new) /\
  config (fst r) = config w.
Proof.
  intros Hf Hl. cbn zeta.
  change (view (old ++ new)%string)
    with (viewed (Z.of_nat (String.length (old ++ new)%string))
                 (old ++ new)%string).
  assert (Hsize : Z.of_nat (String.length (old ++ new)%string)
                  = Z.of_nat (String.length old) + Z.of_nat (String.length new))
    by (rewrite string_length_app; lia).
  destruct (readNewLines_from w time_Now
              (Z.of_nat (String.length (old ++ new)%string)) old new Hf
              ltac:(lia)) as (HS & HL & HF & HC).
  cbn zeta in HS, HL, HF.
  split; [exact HS|]. split; [rewrite HL; exact Hsize|].
  split; [exact HF | exact HC].
Qed.

(** X19.  The first step of a watch reads the file as [Watch] left it:
    with ShowAll it displays the lines of the whole file; without it,
    [Watch] has moved to the end of the file, and the step displays the
    lines of the bytes appended since, and nothing when nothing was
    appended. *)
Theorem Watch_first_step (cfg : Config) (old new : string) (w : Watcher)
    (time_Now : nat -> Z) :
  Watch_open (NewWatcher cfg) (Ok (view old)) None = Ok w ->
  snd (readNewLines json_Unmarshal w time_Now (view (old ++ new)%string))
  = processLines json_Unmarshal w time_Now
      (bufio.tokens
         (bufio.Scan bufio.MaxScanTokenSize
            (if ShowAll cfg then (old ++ new)%string else new))) 0.
Proof.
  unfold Watch_open, NewWatcher. cbn [config ShowAll view view_statErr].
  destruct (ShowAll cfg); cbn [negb].
  - intros [= <-].
    apply (readNewLines_appended _ time_Now ""%string (old ++ new)%string);
      reflexivity.
  - intros [= <-].
    apply (readNewLines_appended _ time_Now old new); reflexivity.
Qed.

(** X20.  Two steps in a row of a watcher whose open file stands at the
    end of [old], neither of them finding the file cut: whatever sizes
    [Stat] reports, the first step displays the lines of [first], the
    bytes that its reads find behind [old], and the second the lines of
    [second], the bytes that came after the first scan; each piece is
    scanned on its own.  So a line that is written in two pieces, the
    first one read before the second is there, is displayed as two
    lines. *)
Theorem readNewLines_twice (w : Watcher) (time_Now1 time_Now2 : nat -> Z)
    (old first second : string) (size1 size2 : Z) :
  fileOffset w = Z.of_nat (String.length old) ->
  lastOffset w <= size1 -> size1 <= size2 ->
  bufio.tooLong (bufio.Scan bufio.MaxScanTokenSize first) = false ->
  let r1 := readNewLines json_Unmarshal w time_Now1
              (viewed size1 (old ++ first)%string) in
  let r2 := readNewLines json_Unmarshal (fst r1) time_Now2
              (viewed size2 (old ++ first ++ second)%string) in
  snd r1 = processLines json_Unmarshal w time_Now1
             (bufio.tokens (bufio.Scan bufio.MaxScanTokenSize first)) 0 /\
  snd r2 = processLines json_Unmarshal (fst r1) time_Now2
             (bufio.tokens (bufio.Scan bufio.MaxScanTokenSize second)) 0.
Proof.
  intros Hpos Hlast Hsizes Hwhole. cbn zeta.
  destruct (readNewLines_from w time_Now1 size1 old first Hpos Hlast)
    as (HS & HL & HF & _).
  cbn zeta in HS, HL, HF. split; [exact HS|].
  unfold bufio.Scan in HF, Hwhole.
  rewrite (scan_consumed _ _ _ _ _ Hwhole) in HF.
  rewrite <- string_app_assoc.
  apply (readNewLines_from _ time_Now2 size2 (old ++ first)%string second);
    [rewrite string_length_app; lia | lia].
Qed.

(** X21.  The watcher displays a line exactly when the analyzer, with
    the watcher's level and pattern and no time window, would keep it:
    the line is not empty, the detected parser returns an entry for it
    (labelled with the watched path), and [shouldInclude] accepts the
    entry. *)
Theorem processLine_as_shouldInclude (w : Watcher) (now : Z) (line : string)
    (entry : LogEntry) :
  processLine json_Unmarshal w now line = Some entry <->
  line <> ""%string /\
  Parse json_Unmarshal (DetectParser line) now line (FilePath (config w))
  = Ok entry /\
  analyzer.shouldInclude (asAnalyzerConfig (config w)) entry = true.
Proof.
  unfold processLine, analyzer.shouldInclude, asAnalyzerConfig.
  cbn [analyzer.Level analyzer.Pattern analyzer.StartTime analyzer.EndTime].
  change (IsZero zero) with true. cbn [negb andb].
  destruct (String.eqb_spec line "") as [->|Hne].
  - split; [discriminate | intros [H _]; contradiction].
  - destruct (Parse json_Unmarshal (DetectParser line) now line _)
      as [e|err].
    + split.
      * intros H.
        destruct (negb (MinLevel (config w) =? UNKNOWN)
                  && (Level e <? MinLevel (config w))) eqn:E1;
          [discriminate|].
        destruct (negb (String.eqb (Pattern (config w)) "")
                  && negb (MatchesPattern e (Pattern (config w)))) eqn:E2;
          [discriminate|].
        injection H as <-. rewrite E1, E2. repeat split; assumption.
      * intros (_ & [= <-] & H).
        destruct (negb (MinLevel (config w) =? UNKNOWN)
                  && (Level e <? MinLevel (config w)));
          [discriminate H|].
        destruct (negb (String.eqb (Pattern (config w)) "")
                  && negb (MatchesPattern e (Pattern (config w))));
          [discriminate H | reflexivity].
    + split; [discriminate|]. intros (_ & H & _). discriminate H.
Qed.

End WatcherSteps.

(** ** The table reporter *)

Section Truncate.

Import GoString reporter.

Local Arguments String.append !_ _ /.

Lemma substring_prefix (n : nat) (s : string) :
  (n <= String.length s)%nat ->
  exists post, s = (String.substring 0 n s ++ post)%string /\
               String.length (String.substring 0 n s) = n.
Proof.
  revert s. induction n as [|n IH]; intros s Hn.
  - exists s. destruct s; split; reflexivity.
  - destruct s as [|c s]; [simpl in Hn; lia|].
    destruct (IH s ltac:(simpl in Hn; lia)) as (post & Hs & Hlen).
    exists post. simpl. rewrite <- Hs, Hlen. split; reflexivity.
Qed.

(** X22.  [truncate] panics exactly when the string is longer than
    [maxLen] and [maxLen] is below 3.  When it returns, the result has at
    most [maxLen] bytes: it is the string itself if that fits, and
    otherwise the first [maxLen - 3] bytes of the string followed by
    three dots, [maxLen] bytes in all. *)
Theorem truncate_bounds (s : string) (maxLen : Z) :
  (truncate s maxLen = None <->
   maxLen < Z.of_nat (String.length s) /\ maxLen < 3) /\
  (forall t,
      truncate s maxLen = Some t ->
      Z.of_nat (String.length t) <= maxLen /\
      (Z.of_nat (String.length s) <= maxLen -> t = s) /\
      (maxLen < Z.of_nat (String.length s) ->
       Z.of_nat (String.length t) = maxLen /\
       exists pre post, s = (pre ++ post)%string /\ t = (pre ++ "...")%string)).
Proof.
  unfold truncate.
  destruct (Z.leb_spec (Z.of_nat (String.length s)) maxLen) as [Hfit|Hlong].
  - split; [split; [discriminate | lia]|].
    intros t [= <-]. split; [lia|]. split; [intros _; reflexivity | lia].
  - destruct (Z.ltb_spec (maxLen - 3) 0) as [Hneg|Hpos].
    + split; [split; [lia | reflexivity] | discriminate].
    + split; [split; [discriminate | lia]|].
      intros t [= <-]. unfold slice. rewrite Nat.sub_0_r.
      destruct (substring_prefix (Z.to_nat (maxLen - 3)) s ltac:(lia))
        as (post & Hs & Hlen).
      rewrite string_length_app, Hlen. cbn [String.length].
      split; [lia|]. split; [lia|]. intros _. split; [lia|].
      exists (String.substring 0 (Z.to_nat (maxLen - 3)) s), post.
      split; [exact Hs | reflexivity].
Qed.

End Truncate.

(** ** PrintTopErrors *)

Section TopErrors.

Import sort sorting reporter ranking states.

Local Open Scope nat_scope.
Local Open Scope list_scope.

Local Abbreviation Less := (sort.Less (byKey byCount)).
Local Abbreviation keyAt := (sorting.keyAt byCount).
Local Abbreviation sortedOn := (sorting.sortedOn byCount).
Local Abbreviation swapsIn := (@sorting.swapsIn patternCount).

Lemma exchange_as_Swap (patterns : list patternCount) (i j : nat) :
  match patterns !! i, patterns !! j with
  | Some pi, Some pj =>
      if (count pi <? count pj)%Z
      then <[i := pj]> (<[j := pi]> patterns)
      else patterns
  | _, _ => patterns
  end
  = if Less patterns j i then Swap patterns i j else patterns.
Proof.
  unfold sort.Less, Swap, byKey, byCount.
  destruct (patterns !! i) as [pi|]; destruct (patterns !! j) as [pj|];
    try reflexivity.
  destruct (Z.ltb_spec (count pi) (count pj));
    destruct (Z.ltb_spec (- count pj) (- count pi)); try reflexivity; lia.
Qed.

Lemma PrintTopErrors_inner_spec (n : nat) :
  forall (patterns : list patternCount) (i j : nat),
    i < j -> j + n = length patterns ->
    (forall k, i < k -> k < j -> (keyAt patterns i <= keyAt patterns k)%Z) ->
    let r := PrintTopErrors_inner n patterns i j in
    swapsIn i (length patterns) patterns r /\
    (forall k, i < k -> k < length patterns -> (keyAt r i <= keyAt r k)%Z).
Proof.
  induction n as [|n IH]; intros patterns i j Hij Hlen Hinv; cbn zeta.
  - cbn [PrintTopErrors_inner]. split; [constructor|].
    intros k Hk1 Hk2. apply Hinv; lia.
  - cbn [PrintTopErrors_inner]. cbn zeta. rewrite exchange_as_Swap.
    rewrite (Less_keyAt byCount) by lia.
    destruct (Z.ltb_spec (keyAt patterns j) (keyAt patterns i)) as [Hlt|Hge].
    + destruct (IH (Swap patterns i j) i (S j)) as [Hsw Hmin].
      * lia.
      * rewrite Swap_length. lia.
      * intros k Hk1 Hk2. rewrite !(keyAt_Swap byCount) by lia.
        destruct (decide (i = i)) as [_|?]; [|congruence].
        destruct (decide (k = i)) as [?|_]; [lia|].
        destruct (decide (k = j)) as [_|Hkj]; [lia|].
        specialize (Hinv k ltac:(lia) ltac:(lia)). lia.
      * rewrite Swap_length in Hsw, Hmin. split; [|exact Hmin].
        eapply swapsIn_swap; [| |exact Hsw]; lia.
    + apply IH; [lia | lia |].
      intros k Hk1 Hk2. destruct (decide (k = j)) as [->|Hkj]; [exact Hge|].
      apply Hinv; lia.
Qed.

Lemma PrintTopErrors_outer_spec (n : nat) :
  forall (patterns : list patternCount) (i : nat),
    i + n = length patterns ->
    sortedOn patterns 0 i ->
    (forall k m, k < i -> i <= m -> m < length patterns ->
                 (keyAt patterns k <= keyAt patterns m)%Z) ->
    let r := PrintTopErrors_outer n patterns i in
    Permutation r patterns /\ sortedOn r 0 (length patterns).
Proof.
  induction n as [|n IH]; intros patterns i Hlen Hsorted Hdom; cbn zeta.
  - cbn [PrintTopErrors_outer]. split; [reflexivity|].
    replace (length patterns) with i by lia. exact Hsorted.
  - cbn [PrintTopErrors_outer].
    destruct (PrintTopErrors_inner_spec (length patterns - (i + 1)) patterns i
                (i + 1)) as [Hsw Hmin]; [lia | lia | intros; lia |].
    cbn zeta in Hsw, Hmin.
    set (patterns' := PrintTopErrors_inner (length patterns - (i + 1))
                        patterns i (i + 1)) in *.
    assert (Hlen' : length patterns' = length patterns)
      by (eapply swapsIn_length; exact Hsw).
    assert (Hout : forall k, k < i -> keyAt patterns' k = keyAt patterns k).
    { intros k Hk. apply (swapsIn_keyAt_outside byCount i (length patterns));
        [exact Hsw | lia]. }
    assert (Hin : forall k m, k < i -> i <= m -> m < length patterns ->
                  (keyAt patterns k <= keyAt patterns' m)%Z).
    { intros k m Hk Hm1 Hm2.
      apply (swapsIn_all byCount i (length patterns) patterns patterns'
               (fun z => (keyAt patterns k <= z)%Z) Hsw); [lia| |lia].
      intros m' Hm'. apply Hdom; lia. }
    destruct (IH patterns' (S i)) as [Hperm Hs].
    + lia.
    + intros p q Hp Hpq Hq.
      destruct (decide (q = i)) as [->|Hqi].
      * destruct (decide (p = i)) as [->|Hpi]; [lia|].
        rewrite (Hout p) by lia. apply Hin; lia.
      * rewrite (Hout p), (Hout q) by lia. apply Hsorted; lia.
    + intros k m Hk Hm1 Hm2. rewrite Hlen' in Hm2.
      destruct (decide (k = i)) as [->|Hki]; [apply Hmin; lia|].
      rewrite (Hout k) by lia. apply Hin; lia.
    + rewrite Hlen' in Hs. split; [|exact Hs].
      etransitivity; [exact Hperm|].
      eapply swapsIn_Permutation. exact Hsw.
Qed.

Lemma PrintTopErrors_rows_spec (n : nat) :
  forall (patterns : list patternCount) (i : nat),
    i + n <= length patterns ->
    PrintTopErrors_rows n patterns i
    = imap (fun k => topErrorRow (i + k)) (take n (drop i patterns)).
Proof.
  induction n as [|n IH]; intros patterns i Hlen; [reflexivity|].
  cbn [PrintTopErrors_rows].
  destruct (patterns !! i) as [p|] eqn:Hp;
    [|apply lookup_ge_None in Hp; lia].
  rewrite (drop_S patterns p i Hp). cbn [take imap].
  rewrite Nat.add_0_r. f_equal. rewrite IH by lia.
  apply imap_ext. intros k x _. cbn. f_equal. lia.
Qed.

Lemma sortedOn_nonIncreasing (ps : list patternCount) :
  sortedOn ps 0 (length ps) -> nonIncreasing ps.
Proof.
  intros Hs i j x y Hij Hx Hy.
  assert (Hj : j < length ps) by (apply lookup_lt_Some in Hy; exact Hy).
  specialize (Hs i j ltac:(lia) Hij Hj). unfold sorting.keyAt in Hs.
  rewrite Hx, Hy in Hs. unfold byCount in Hs. lia.
Qed.

Lemma nonIncreasing_take_drop (ps : list patternCount) (k : nat) :
  nonIncreasing ps ->
  nonIncreasing (take k ps) /\
  (forall x y, In x (take k ps) -> In y (drop k ps) -> (count y <= count x)%Z).
Proof.
  intros Hs. split.
  - intros i j x y Hij Hx Hy.
    apply lookup_take_Some in Hx, Hy. destruct Hx as [Hx _], Hy as [Hy _].
    apply (Hs i j); assumption.
  - intros x y Hx Hy.
    apply list_elem_of_In, list_elem_of_lookup_1 in Hx, Hy.
    destruct Hx as [i Hi], Hy as [j Hj].
    apply lookup_take_Some in Hi. destruct Hi as [Hi Hik].
    rewrite lookup_drop in Hj.
    apply (Hs i (k + j)); [lia | exact Hi | exact Hj].
Qed.

Lemma PrintTopErrors_sorted (patterns : list patternCount) :
  let r := PrintTopErrors_outer (length patterns) patterns 0 in
  Permutation r patterns /\ nonIncreasing r.
Proof.
  cbn zeta.
  destruct (PrintTopErrors_outer_spec (length patterns) patterns 0)
    as [Hperm Hs]; [lia | intros p q; lia | intros k m; lia |].
  cbn zeta in Hperm, Hs. split; [exact Hperm|].
  apply sortedOn_nonIncreasing.
  rewrite (Permutation_length Hperm). exact Hs.
Qed.

(** X23.  [PrintTopErrors] writes its two header lines and then one line
    per pattern for the [limit] patterns with the greatest counts (all of
    them if there are fewer, none if [limit] is not positive), numbered
    from 1, in order of non-increasing count: the exchange sort leaves no
    pattern out and puts no pattern before one with a greater count, in
    whatever order the map was ranged over. *)
Theorem PrintTopErrors_ranks (ranged : list (string * Z)) (limit : Z) :
  exists top rest,
    PrintTopErrors ranged limit
    = [Fprintln (String bufio.LF "🔥 Top Error Patterns");
       Fprintln (Repeat "─" 80)] ++ imap topErrorRow top /\
    Permutation (top ++ rest)
                (map (fun kv => mkPatternCount (fst kv) (snd kv)) ranged) /\
    Z.of_nat (length top) = Z.max 0 (Z.min limit (Z.of_nat (length ranged))) /\
    nonIncreasing top /\
    (forall x y, In x top -> In y rest -> (count y <= count x)%Z).
Proof.
  unfold PrintTopErrors. cbn zeta.
  set (patterns := map (fun kv => mkPatternCount (fst kv) (snd kv)) ranged).
  destruct (PrintTopErrors_sorted patterns) as [Hperm Hs]. cbn zeta in *.
  set (sorted := PrintTopErrors_outer (length patterns) patterns 0) in *.
  assert (Hlen : length sorted = length ranged).
  { rewrite (Permutation_length Hperm). unfold patterns. apply length_map. }
  set (k := Z.to_nat (if (Z.of_nat (length sorted) <? limit)%Z
                      then Z.of_nat (length sorted) else limit)).
  assert (Hk : Z.of_nat k = Z.max 0 (Z.min limit (Z.of_nat (length ranged)))).
  { unfold k. rewrite Hlen.
    destruct (Z.ltb_spec (Z.of_nat (length ranged)) limit); lia. }
  exists (take k sorted), (drop k sorted).
  destruct (nonIncreasing_take_drop sorted k Hs) as [Htop Hrest].
  split; [|split; [|split; [|split]]].
  - f_equal. rewrite PrintTopErrors_rows_spec by lia.
    rewrite drop_0. reflexivity.
  - rewrite take_drop. exact Hperm.
  - rewrite length_take. lia.
  - exact Htop.
  - exact Hrest.
Qed.

(** X24.  No aggregator that a program can hold has counted a pattern
    ([IncrementPattern] is never called), so for the statistics of any
    analysis [PrintTopErrors] writes its header and no pattern, whatever
    the limit. *)
Theorem PrintTopErrors_after_analysis (a : analyzer.Aggregator)
    (ranged : list (string * Z)) (limit : Z) :
  built a ->
  ranges ranged (models.PatternCounts (analyzer.GetStats a)) ->
  PrintTopErrors ranged limit
  = [Fprintln (String bufio.LF "🔥 Top Error Patterns");
     Fprintln (Repeat "─" 80)].
Proof.
  intros Hb Hr. apply built_counted in Hb. destruct Hb as (_ & _ & _ & Hp).
  unfold ranges in Hr. rewrite Hp, map_to_list_empty in Hr.
  apply Permutation_nil_r in Hr. subst ranged.
  unfold PrintTopErrors. cbn [map length PrintTopErrors_outer].
  destruct (Z.to_nat _); reflexivity.
Qed.

End TopErrors.

(** ** Timestamps at the head of a line *)

Section Stamps.

Import GoString GoTime models parser stamps whitespace.

Local Arguments String.append !_ _ /.

Lemma digit_facts (k : Z) :
  0 <= k <= 9 ->
  isDigit (digit k) = true /\ digitVal (digit k) = k /\
  plain (digit k) = true /\ Ascii.eqb (digit k) " " = false.
Proof.
  intros Hk.
  assert (H : k = 0 \/ k = 1 \/ k = 2 \/ k = 3 \/ k = 4 \/ k = 5 \/ k = 6 \/
              k = 7 \/ k = 8 \/ k = 9) by lia.
  repeat (destruct H as [->|H]; [repeat split; reflexivity|]).
  subst k. repeat split; reflexivity.
Qed.

Lemma two_digits (n : Z) :
  0 <= n <= 99 -> 0 <= n / 10 <= 9 /\ 0 <= n mod 10 <= 9 /\
                  n / 10 * 10 + n mod 10 = n.
Proof. intros Hn. Z.div_mod_to_equations. lia. Qed.

Lemma getnum_two (n : Z) (rest : string) (fixed : bool) :
  0 <= n <= 99 -> getnum (two n ++ rest) fixed = Some (n, rest).
Proof.
  intros Hn. destruct (two_digits n Hn) as (H1 & H2 & H3).
  destruct (digit_facts _ H1) as (D1 & V1 & _).
  destruct (digit_facts _ H2) as (D2 & V2 & _).
  unfold two. cbn [String.append getnum]. rewrite D1, D2, V1, V2, H3.
  reflexivity.
Qed.

Lemma step_year (layout : list chunk) (v : string) (f : fields) (y : Z) :
  0 <= y <= 9999 ->
  parseChunks (stdLongYear :: layout) (four y ++ v) f
  = parseChunks layout v
      {| f_year := y; f_month := f_month f; f_day := f_day f;
         f_hour := f_hour f; f_min := f_min f; f_sec := f_sec f;
         f_nsec := f_nsec f; f_zoneOffset := f_zoneOffset f |}.
Proof.
  intros Hy.
  assert (Hhi : 0 <= y / 100 <= 99) by (Z.div_mod_to_equations; lia).
  assert (Hlo : 0 <= y mod 100 <= 99) by (Z.div_mod_to_equations; lia).
  destruct (two_digits _ Hhi) as (H1 & H2 & H3).
  destruct (two_digits _ Hlo) as (H4 & H5 & H6).
  destruct (digit_facts _ H1) as (D1 & V1 & _).
  destruct (digit_facts _ H2) as (D2 & V2 & _).
  destruct (digit_facts _ H4) as (D3 & V3 & _).
  destruct (digit_facts _ H5) as (D4 & V4 & _).
  unfold four, two. cbn [String.append parseChunks].
  rewrite D1, D2, D3, D4, V1, V2, V3, V4. cbn [andb].
  do 2 f_equal. Z.div_mod_to_equations. lia.
Qed.

Lemma step_literal (c d : ascii) (layout : list chunk) (v : string) (f : fields) :
  c <> " "%char ->
  parseChunks (literal c :: layout) (String d v) f
  = if Ascii.eqb d c then parseChunks layout v f else None.
Proof.
  intros Hc. cbn [parseChunks]. unfold skip.
  destruct (Ascii.eqb_spec c " ") as [?|_]; [contradiction|].
  destruct (Ascii.eqb d c); reflexivity.
Qed.

Lemma step_space (d : ascii) (layout : list chunk) (n : Z) (v : string)
    (f : fields) :
  0 <= n <= 99 ->
  parseChunks (literal " " :: layout) (String d (two n ++ v)) f
  = if Ascii.eqb d " " then parseChunks layout (two n ++ v) f else None.
Proof.
  intros Hn. cbn [parseChunks]. unfold skip.
  change (Ascii.eqb " " " ") with true. cbn iota.
  destruct (Ascii.eqb d " ") eqn:Ed; [|reflexivity].
  destruct (two_digits n Hn) as (H1 & _).
  destruct (digit_facts _ H1) as (_ & _ & _ & E).
  unfold two. cbn [String.append cutspace]. rewrite Ed, E. reflexivity.
Qed.

Lemma step_month (layout : list chunk) (v : string) (f : fields) (m : Z) :
  0 <= m <= 99 ->
  parseChunks (stdZeroMonth :: layout) (two m ++ v) f
  = if (m <=? 0) || (12 <? m) then None
    else parseChunks layout v
           {| f_year := f_year f; f_month := m; f_day := f_day f;
              f_hour := f_hour f; f_min := f_min f; f_sec := f_sec f;
              f_nsec := f_nsec f; f_zoneOffset := f_zoneOffset f |}.
Proof. intros H. cbn [parseChunks]. rewrite getnum_two by exact H. reflexivity. Qed.

Lemma step_day (layout : list chunk) (v : string) (f : fields) (d : Z) :
  0 <= d <= 99 ->
  parseChunks (stdZeroDay :: layout) (two d ++ v) f
  = parseChunks layout v
      {| f_year := f_year f; f_month := f_month f; f_day := d;
         f_hour := f_hour f; f_min := f_min f; f_sec := f_sec f;
         f_nsec := f_nsec f; f_zoneOffset := f_zoneOffset f |}.
Proof. intros H. cbn [parseChunks]. rewrite getnum_two by exact H. reflexivity. Qed.

Lemma step_hour (layout : list chunk) (v : string) (f : fields) (h : Z) :
  0 <= h <= 99 ->
  parseChunks (stdHour :: layout) (two h ++ v) f
  = if 24 <=? h then None
    else parseChunks layout v
           {| f_year := f_year f; f_month := f_month f; f_day := f_day f;
              f_hour := h; f_min := f_min f; f_sec := f_sec f;
              f_nsec := f_nsec f; f_zoneOffset := f_zoneOffset f |}.
Proof. intros H. cbn [parseChunks]. rewrite getnum_two by exact H. reflexivity. Qed.

Lemma step_minute (layout : list chunk) (v : string) (f : fields) (mi : Z) :
  0 <= mi <= 99 ->
  parseChunks (stdZeroMinute :: layout) (two mi ++ v) f
  = if 60 <=? mi then None
    else parseChunks layout v
           {| f_year := f_year f; f_month := f_month f; f_day := f_day f;
              f_hour := f_hour f; f_min := mi; f_sec := f_sec f;
              f_nsec := f_nsec f; f_zoneOffset := f_zoneOffset f |}.
Proof. intros H. cbn [parseChunks]. rewrite getnum_two by exact H. reflexivity. Qed.

Lemma step_second (f : fields) (s : Z) :
  0 <= s <= 99 ->
  parseChunks [stdZeroSecond] (two s ++ "") f
  = if 60 <=? s then None
    else Some {| f_year := f_year f; f_month := f_month f; f_day := f_day f;
                 f_hour := f_hour f; f_min := f_min f; f_sec := s;
                 f_nsec := f_nsec f; f_zoneOffset := f_zoneOffset f |}.
Proof.
  intros H. cbn [parseChunks]. rewrite getnum_two by exact H.
  destruct (60 <=? s); reflexivity.
Qed.

Lemma stamp_shape (ds ts : ascii) (y m d h mi s : Z) :
  stamp ds ts y m d h mi s
  = (four y ++ String ds (two m ++ String ds (two d ++ String ts
       (two h ++ String ":" (two mi ++ String ":" (two s ++ ""))))))%string.
Proof. reflexivity. Qed.

Lemma chunks_layoutOf (ds ts : ascii) :
  known ds ts ->
  chunks (layoutOf ds ts)
  = [stdLongYear; literal ds; stdZeroMonth; literal ds; stdZeroDay;
     literal ts; stdHour; literal ":"; stdZeroMinute; literal ":";
     stdZeroSecond].
Proof. intros [[-> ->] | [[-> ->] | [-> ->]]]; reflexivity. Qed.

(** What [time.Parse] makes of a written stamp, for the layouts and the
    ways of writing of [extractTimestamp]. *)
Lemma Parse_stamp (ds ts ds' ts' : ascii) (y m d h mi s : Z) :
  known ds ts -> known ds' ts' -> writable y m d h mi s ->
  match GoTime.Parse (layoutOf ds ts) (stamp ds' ts' y m d h mi s) with
  | Some t => ds = ds' /\ ts = ts' /\ valid y m d h mi s /\
              t = Date y m d h mi s 0
  | None => ~ (ds = ds' /\ ts = ts' /\ valid y m d h mi s)
  end.
Proof.
  intros Hk Hk' (Hy & Hm & Hd & Hh & Hmi & Hs).
  unfold GoTime.Parse. rewrite (chunks_layoutOf ds ts Hk), stamp_shape.
  rewrite step_year by exact Hy.
  assert (Hds : ds <> " "%char)
    by (destruct Hk as [[-> _] | [[-> _] | [-> _]]]; discriminate).
  rewrite step_literal by exact Hds.
  destruct (Ascii.eqb_spec ds' ds) as [->|Hne];
    [|intros (E & _); congruence].
  rewrite step_month by exact Hm.
  destruct (Z.leb_spec m 0) as [Hm0|Hm0]; cbn [orb];
    [unfold valid; intros (_ & _ & ?); lia|].
  destruct (Z.ltb_spec 12 m) as [Hm12|Hm12];
    [unfold valid; intros (_ & _ & ?); lia|].
  rewrite step_literal by exact Hds. rewrite Ascii.eqb_refl.
  rewrite step_day by exact Hd.
  assert (Hts : parseChunks
                  (literal ts :: [stdHour; literal ":"; stdZeroMinute;
                                  literal ":"; stdZeroSecond])
                  (String ts' (two h ++ String ":" (two mi ++ String ":"
                                                      (two s ++ ""))))
                  {| f_year := y; f_month := m; f_day := d;
                     f_hour := f_hour fields0; f_min := f_min fields0;
                     f_sec := f_sec fields0; f_nsec := f_nsec fields0;
                     f_zoneOffset := f_zoneOffset fields0 |}
                = if Ascii.eqb ts' ts
                  then parseChunks
                         [stdHour; literal ":"; stdZeroMinute; literal ":";
                          stdZeroSecond]
                         (two h ++ String ":" (two mi ++ String ":"
                                                 (two s ++ "")))
                         {| f_year := y; f_month := m; f_day := d;
                            f_hour := f_hour fields0; f_min := f_min fields0;
                            f_sec := f_sec fields0; f_nsec := f_nsec fields0;
                            f_zoneOffset := f_zoneOffset fields0 |}
                  else None).
  { destruct (Ascii.eqb_spec ts " ") as [->|Hsp].
    - apply step_space. exact Hh.
    - apply step_literal. exact Hsp. }
  cbn [f_year f_month f_day f_hour f_min f_sec f_nsec f_zoneOffset] in *.
  rewrite Hts. clear Hts.
  destruct (Ascii.eqb_spec ts' ts) as [->|Hne];
    [|intros (_ & E & _); congruence].
  rewrite step_hour by exact Hh.
  cbn [f_year f_month f_day f_hour f_min f_sec f_nsec f_zoneOffset].
  destruct (Z.leb_spec 24 h) as [H24|H24];
    [unfold valid; intros (_ & _ & ?); lia|].
  rewrite step_literal by discriminate. rewrite Ascii.eqb_refl.
  rewrite step_minute by exact Hmi.
  cbn [f_year f_month f_day f_hour f_min f_sec f_nsec f_zoneOffset].
  destruct (Z.leb_spec 60 mi) as [H60|H60];
    [unfold valid; intros (_ & _ & ?); lia|].
  rewrite step_literal by discriminate. rewrite Ascii.eqb_refl.
  rewrite step_second by exact Hs.
  cbn [f_year f_month f_day f_hour f_min f_sec f_nsec f_zoneOffset].
  destruct (Z.leb_spec 60 s) as [Hs60|Hs60];
    [unfold valid; intros (_ & _ & ?); lia|].
  cbn [f_year f_month f_day f_hour f_min f_sec f_nsec f_zoneOffset].
  destruct (Z.ltb_spec d 1) as [Hd1|Hd1]; cbn [orb];
    [unfold valid; intros (_ & _ & ?); lia|].
  destruct (Z.ltb_spec (daysIn m y) d) as [Hdm|Hdm];
    [unfold valid; intros (_ & _ & ?); lia|].
  unfold valid. cbn [f_zoneOffset fields0].
  repeat split; try lia.
  change (f_nsec fields0) with 0. apply Z.sub_0_r.
Qed.

End Stamps.

(** ** extractTimestamp on written stamps *)

Section ExtractStamps.

Import GoString GoTime models parser stamps whitespace.

Local Arguments String.append !_ _ /.

Lemma stamp_digits (y s : Z) :
  0 <= y <= 9999 -> 0 <= s <= 99 ->
  0 <= y / 100 / 10 <= 9 /\ 0 <= s mod 10 <= 9.
Proof. intros Hy Hs. Z.div_mod_to_equations. lia. Qed.

Lemma digit_not_bracket (k : Z) :
  0 <= k <= 9 -> Ascii.eqb "[" (digit k) = false.
Proof.
  intros Hk.
  assert (H : k = 0 \/ k = 1 \/ k = 2 \/ k = 3 \/ k = 4 \/ k = 5 \/ k = 6 \/
              k = 7 \/ k = 8 \/ k = 9) by lia.
  repeat (destruct H as [->|H]; [reflexivity|]). subst k. reflexivity.
Qed.

(** A written stamp has 19 bytes; it starts and ends with a digit. *)
Lemma stamp_solid (ds ts : ascii) (y m d h mi s : Z) :
  known ds ts -> writable y m d h mi s ->
  let st := stamp ds ts y m d h mi s in
  String.length st = 19%nat /\
  HasPrefix st "[" = false /\
  exists first mid last pre,
    st = String first mid /\ st = (pre ++ String last "")%string /\
    plain first = true /\ plain last = true.
Proof.
  intros Hk (Hy & _ & _ & _ & _ & Hs). cbn zeta.
  destruct (stamp_digits y s Hy Hs) as [H1 H2].
  destruct (digit_facts _ H1) as (_ & _ & Sp1 & _).
  destruct (digit_facts _ H2) as (_ & _ & Sp2 & _).
  pose proof (digit_not_bracket _ H1) as Br.
  rewrite stamp_shape. unfold four, two.
  cbn [String.append String.length HasPrefix].
  rewrite Br. split; [reflexivity|]. split; [reflexivity|].
  eexists (digit (y / 100 / 10)), _, (digit (s mod 10)),
    (String _ (String _ (String _ (String _ (String _ (String _ (String _
    (String _ (String _ (String _ (String _ (String _ (String _ (String _
    (String _ (String _ (String _ (String _ "")))))))))))))))))).
  split; [reflexivity|]. split; [reflexivity|]. split; assumption.
Qed.

Local Abbreviation formats :=
  [("2006-01-02 15:04:05"%string, 19%nat);
   ("2006/01/02 15:04:05"%string, 19%nat);
   ("2006-01-02T15:04:05"%string, 19%nat)].

Lemma loop_step (format : string) (formats' : list (string * nat))
    (st r : string) (hasBracket : bool) :
  String.length st = 19%nat ->
  extractTimestamp_loop ((format, 19%nat) :: formats') (st ++ r) hasBracket
  = match GoTime.Parse format st with
    | Some t =>
        Some (t, TrimSpace (if hasBracket && HasPrefix r "]"
                            then GoString.drop 1 r else r))
    | None => extractTimestamp_loop formats' (st ++ r) hasBracket
    end.
Proof.
  intros Hlen. cbn [extractTimestamp_loop]. cbn zeta.
  rewrite string_length_app, Hlen.
  destruct (Nat.leb_spec 19 (19 + String.length r)) as [_|?]; [|lia].
  replace (slice (st ++ r) 0 19) with st
    by (rewrite <- Hlen; symmetry; apply slice_prefix).
  replace (GoString.drop 19 (st ++ r)) with r
    by (rewrite <- Hlen; symmetry; apply drop_app_length).
  reflexivity.
Qed.

Lemma extractTimestamp_loop_stamp (ds ts : ascii) (y m d h mi s : Z)
    (r : string) (hasBracket : bool) :
  known ds ts -> writable y m d h mi s ->
  let found :=
    extractTimestamp_loop formats (stamp ds ts y m d h mi s ++ r) hasBracket in
  (valid y m d h mi s ->
   found = Some (Date y m d h mi s 0,
                 TrimSpace (if hasBracket && HasPrefix r "]"
                            then GoString.drop 1 r else r))) /\
  (~ valid y m d h mi s -> found = None).
Proof.
  intros Hk Hw. cbn zeta.
  destruct (stamp_solid ds ts y m d h mi s Hk Hw) as (Hlen & _).
  assert (K1 : known "-" " ") by (left; split; reflexivity).
  assert (K2 : known "/" " ") by (right; left; split; reflexivity).
  assert (K3 : known "-" "T") by (right; right; split; reflexivity).
  pose proof (Parse_stamp "-" " " ds ts y m d h mi s K1 Hk Hw) as P1.
  pose proof (Parse_stamp "/" " " ds ts y m d h mi s K2 Hk Hw) as P2.
  pose proof (Parse_stamp "-" "T" ds ts y m d h mi s K3 Hk Hw) as P3.
  change (layoutOf "-" " ") with "2006-01-02 15:04:05"%string in P1.
  change (layoutOf "/" " ") with "2006/01/02 15:04:05"%string in P2.
  change (layoutOf "-" "T") with "2006-01-02T15:04:05"%string in P3.
  rewrite loop_step by exact Hlen.
  destruct (GoTime.Parse "2006-01-02 15:04:05" _) as [t1|].
  { destruct P1 as (_ & _ & Hv & ->).
    split; [intros _; reflexivity | intros Hn; contradiction]. }
  rewrite loop_step by exact Hlen.
  destruct (GoTime.Parse "2006/01/02 15:04:05" _) as [t2|].
  { destruct P2 as (_ & _ & Hv & ->).
    split; [intros _; reflexivity | intros Hn; contradiction]. }
  rewrite loop_step by exact Hlen.
  destruct (GoTime.Parse "2006-01-02T15:04:05" _) as [t3|].
  { destruct P3 as (_ & _ & Hv & ->).
    split; [intros _; reflexivity | intros Hn; contradiction]. }
  cbn [extractTimestamp_loop]. split; [|reflexivity].
  intros Hv. exfalso. destruct Hk as [[-> ->] | [[-> ->] | [-> ->]]];
    [apply P1 | apply P2 | apply P3]; repeat split; try reflexivity; apply Hv.
Qed.

Lemma HasPrefix_nil (s : string) : HasPrefix s "" = true.
Proof. destruct s; reflexivity. Qed.

Lemma TrimSpace_stamp (ds ts : ascii) (y m d h mi s : Z) (rest : string) :
  known ds ts -> writable y m d h mi s ->
  let st := stamp ds ts y m d h mi s in
  st <> ""%string /\
  TrimSpace (st ++ rest) = (st ++ trimRight rest)%string /\
  TrimSpace (String "[" (st ++ String "]" rest))
  = String "[" (st ++ String "]" (trimRight rest)).
Proof.
  intros Hk Hw. cbn zeta.
  destruct (stamp_solid ds ts y m d h mi s Hk Hw)
    as (Hlen & _ & first & mid & last & pre & Hfirst & Hlast & Pf & Pl).
  assert (Hne : stamp ds ts y m d h mi s <> ""%string).
  { intros E. rewrite E in Hlen. discriminate Hlen. }
  split; [exact Hne|]. unfold TrimSpace. split.
  - rewrite Hfirst at 1. cbn [String.append].
    rewrite trimLeft_plain by exact Pf.
    change (String first (mid ++ rest))
      with (String first mid ++ rest)%string.
    rewrite <- Hfirst, Hlast, !string_app_assoc. cbn [String.append].
    apply trimRight_plain, Pl.
  - rewrite trimLeft_plain by reflexivity.
    change (String "[" (stamp ds ts y m d h mi s ++ String "]" rest))
      with (String "[" (stamp ds ts y m d h mi s) ++ String "]" rest)%string.
    rewrite trimRight_plain by reflexivity. reflexivity.
Qed.

(** X25.  A line that begins with a date and a time of day written as
    YYYY-MM-DD HH:MM:SS, YYYY/MM/DD HH:MM:SS or YYYY-MM-DDTHH:MM:SS, bare
    or between brackets, gets that instant as its timestamp whenever the
    date exists and the time is a time of day: [extractTimestamp] returns
    it with the rest of the line, trimmed, and the entry of the free-text
    parser carries it whatever the clock reads. *)
Theorem extractTimestamp_written (ds ts : ascii) (y m d h mi s : Z)
    (rest : string) :
  known ds ts -> writable y m d h mi s -> valid y m d h mi s ->
  let st := stamp ds ts y m d h mi s in
  extractTimestamp (st ++ rest)
  = Ok (Date y m d h mi s 0, TrimSpace rest) /\
  extractTimestamp (String "[" (st ++ String "]" rest))
  = Ok (Date y m d h mi s 0, TrimSpace rest) /\
  (forall now source,
      exists e, PlainTextLogParser_Parse now (st ++ rest) source = Ok e /\
                Timestamp e = Date y m d h mi s 0) /\
  (forall now source,
      exists e,
        PlainTextLogParser_Parse now (String "[" (st ++ String "]" rest)) source
        = Ok e /\
        Timestamp e = Date y m d h mi s 0).
Proof.
  intros Hk Hw Hv. cbn zeta.
  destruct (TrimSpace_stamp ds ts y m d h mi s rest Hk Hw) as (Hne & T1 & T2).
  destruct (stamp_solid ds ts y m d h mi s Hk Hw) as (_ & Hnb & _).
  assert (E1 : extractTimestamp (stamp ds ts y m d h mi s ++ rest)
               = Ok (Date y m d h mi s 0, TrimSpace rest)).
  { unfold extractTimestamp. rewrite T1.
    assert (Hb : HasPrefix (stamp ds ts y m d h mi s ++ trimRight rest) "["
                 = false).
    { destruct (stamp ds ts y m d h mi s) as [|c st]; [contradiction|].
      cbn [String.append HasPrefix] in *.
      destruct (Ascii.eqb "[" c); [|reflexivity].
      rewrite HasPrefix_nil in Hnb. discriminate Hnb. }
    rewrite Hb.
    destruct (extractTimestamp_loop_stamp ds ts y m d h mi s
                (trimRight rest) false Hk Hw) as [Hfound _].
    cbn zeta in Hfound. rewrite (Hfound Hv). cbn [andb].
    rewrite TrimSpace_trimRight. reflexivity. }
  assert (E2 : extractTimestamp
                 (String "[" (stamp ds ts y m d h mi s ++ String "]" rest))
               = Ok (Date y m d h mi s 0, TrimSpace rest)).
  { unfold extractTimestamp. rewrite T2.
    change (HasPrefix (String "[" ?x) "[") with (HasPrefix x "").
    rewrite HasPrefix_nil.
    change (GoString.drop 1 (String "[" ?x)) with x.
    destruct (extractTimestamp_loop_stamp ds ts y m d h mi s
                (String "]" (trimRight rest)) true Hk Hw) as [Hfound _].
    cbn zeta in Hfound. rewrite (Hfound Hv).
    change (HasPrefix (String "]" ?x) "]") with (HasPrefix x "").
    rewrite HasPrefix_nil. cbn [andb].
    change (GoString.drop 1 (String "]" ?x)) with x.
    rewrite TrimSpace_trimRight. reflexivity. }
  split; [exact E1|]. split; [exact E2|]. split.
  - intros now source. unfold PlainTextLogParser_Parse. rewrite T1, E1.
    destruct (String.eqb_spec (stamp ds ts y m d h mi s ++ trimRight rest) "")
      as [E|_].
    { destruct (stamp ds ts y m d h mi s); [contradiction | discriminate E]. }
    destruct (extractLevelAndMessage (TrimSpace rest)) as [level message].
    eexists. split; reflexivity.
  - intros now source. unfold PlainTextLogParser_Parse. rewrite T2, E2.
    destruct (String.eqb_spec
                (String "[" (stamp ds ts y m d h mi s
                             ++ String "]" (trimRight rest))) "")
      as [E|_]; [discriminate E|].
    destruct (extractLevelAndMessage (TrimSpace rest)) as [level message].
    eexists. split; reflexivity.
Qed.

(** X26.  When the date does not exist (a day that the month does not
    have, a month above 12) or the time is not a time of day, such a
    stamp is not taken as a timestamp: [extractTimestamp] returns its
    error, and the entry of the free-text parser is stamped with the
    clock. *)
Theorem extractTimestamp_not_a_time (ds ts : ascii) (y m d h mi s : Z)
    (rest : string) :
  known ds ts -> writable y m d h mi s -> ~ valid y m d h mi s ->
  let st := stamp ds ts y m d h mi s in
  extractTimestamp (st ++ rest) = Err (fmt_Errorf "no timestamp found" []) /\
  (forall now source,
      exists e, PlainTextLogParser_Parse now (st ++ rest) source = Ok e /\
                Timestamp e = now).
Proof.
  intros Hk Hw Hv. cbn zeta.
  destruct (TrimSpace_stamp ds ts y m d h mi s rest Hk Hw) as (Hne & T1 & _).
  destruct (stamp_solid ds ts y m d h mi s Hk Hw) as (_ & Hnb & _).
  assert (E1 : extractTimestamp (stamp ds ts y m d h mi s ++ rest)
               = Err (fmt_Errorf "no timestamp found" [])).
  { unfold extractTimestamp. rewrite T1.
    assert (Hb : HasPrefix (stamp ds ts y m d h mi s ++ trimRight rest) "["
                 = false).
    { destruct (stamp ds ts y m d h mi s) as [|c st]; [contradiction|].
      cbn [String.append HasPrefix] in *.
      destruct (Ascii.eqb "[" c); [|reflexivity].
      rewrite HasPrefix_nil in Hnb. discriminate Hnb. }
    rewrite Hb.
    destruct (extractTimestamp_loop_stamp ds ts y m d h mi s
                (trimRight rest) false Hk Hw) as [_ Hnone].
    cbn zeta in Hnone. rewrite (Hnone Hv). reflexivity. }
  split; [exact E1|].
  intros now source. unfold PlainTextLogParser_Parse. rewrite T1, E1.
  destruct (String.eqb_spec (stamp ds ts y m d h mi s ++ trimRight rest) "")
    as [E|_].
  { destruct (stamp ds ts y m d h mi s); [contradiction | discriminate E]. }
  destruct (extractLevelAndMessage (stamp ds ts y m d h mi s ++ rest))
    as [level message].
  eexists. split; reflexivity.
Qed.

End ExtractStamps.

(** ** The filters of the commands *)

Section Commands.

Import GoString GoTime models parser analyzer main.

Variable json_Unmarshal : string -> result jsonLogEntry.

Lemma ParseLogLevel_range (s : string) : DEBUG <= ParseLogLevel s <= UNKNOWN.
Proof.
  unfold ParseLogLevel, DEBUG, INFO, WARN, ERROR, FATAL, UNKNOWN.
  repeat match goal with
         | |- context [if ?c then _ else _] => destruct c
         end; lia.
Qed.

Lemma Parse_level_range (p : LogParser) (now : Z) (line source : string)
    (e : LogEntry) :
  Parse json_Unmarshal p now line source = Ok e -> DEBUG <= models.Level e <= UNKNOWN.
Proof.
  destruct p; cbn [Parse].
  - unfold JSONLogParser_Parse.
    destruct (String.eqb (TrimSpace line) ""); [discriminate|].
    destruct (json_Unmarshal line) as [jsonEntry|err]; [|discriminate].
    intros [= <-]. cbn [models.Level]. apply ParseLogLevel_range.
  - unfold PlainTextLogParser_Parse.
    destruct (String.eqb (TrimSpace line) ""); [discriminate|].
    destruct (match extractTimestamp line with
              | Ok (timestamp, rest) => (timestamp, rest)
              | Err _ => (now, line)
              end) as [timestamp rest].
    pose proof (extractLevelAndMessage_level rest) as Hl.
    destruct (extractLevelAndMessage rest) as [level message].
    intros [= <-]. cbn [models.Level fst] in *. unfold FATAL, UNKNOWN in *. lia.
Qed.

(** X27.  The configuration of the analyze command never has the level
    UNKNOWN and never a time window: an entry is kept exactly when its
    level is at least the level named by [--level] (DEBUG when the flag
    is empty or names no level) and it matches the pattern.  The
    configuration of the stats command keeps every entry that a parser
    returns. *)
Theorem command_filters (level pattern : string) (workers : Z)
    (entry : LogEntry) :
  shouldInclude (fst (handleAnalyze_config level pattern workers)) entry
  = ((let l := ParseLogLevel (ToUpper level) in
      if l =? UNKNOWN then DEBUG else l) <=? models.Level entry)
    && MatchesPattern entry pattern /\
  (forall p now line source,
      Parse json_Unmarshal p now line source = Ok entry ->
      shouldInclude (handleStats_config workers) entry = true).
Proof.
  split.
  - unfold handleAnalyze_config, shouldInclude. cbn zeta.
    assert (Hempty : (ParseLogLevel (ToUpper "") =? UNKNOWN) = true)
      by reflexivity.
    destruct (String.eqb_spec level "") as [->|Hne]; cbn [negb].
    + rewrite Hempty.
      cbn [fst analyzer.Level analyzer.Pattern analyzer.StartTime
             analyzer.EndTime].
      change (IsZero zero) with true. cbn [negb andb].
      change (DEBUG =? UNKNOWN) with false. cbn [negb andb].
      rewrite (Z.leb_antisym (models.Level entry) DEBUG).
      destruct (models.Level entry <? DEBUG); cbn [negb andb]; [reflexivity|].
      unfold MatchesPattern.
      destruct (String.eqb pattern ""); cbn [negb andb]; [reflexivity|].
      destruct (contains _ _ || contains _ _); reflexivity.
    + destruct (Z.eqb_spec (ParseLogLevel (ToUpper level)) UNKNOWN)
        as [E|E];
        cbn [fst analyzer.Level analyzer.Pattern analyzer.StartTime
               analyzer.EndTime];
        change (IsZero zero) with true; cbn [negb andb].
      * change (DEBUG =? UNKNOWN) with false. cbn [negb andb].
        rewrite (Z.leb_antisym (models.Level entry) DEBUG).
        destruct (models.Level entry <? DEBUG); cbn [negb andb]; [reflexivity|].
        unfold MatchesPattern.
        destruct (String.eqb pattern ""); cbn [negb andb]; [reflexivity|].
        destruct (contains _ _ || contains _ _); reflexivity.
      * apply Z.eqb_neq in E. rewrite E. cbn [negb andb].
        rewrite (Z.leb_antisym (models.Level entry) (ParseLogLevel (ToUpper level))).
        destruct (models.Level entry <? ParseLogLevel (ToUpper level));
          cbn [negb andb]; [reflexivity|].
        unfold MatchesPattern.
        destruct (String.eqb pattern ""); cbn [negb andb]; [reflexivity|].
        destruct (contains _ _ || contains _ _); reflexivity.
  - intros p now line source Hparse.
    apply Parse_level_range in Hparse.
    unfold shouldInclude, handleStats_config.
    cbn [analyzer.Level analyzer.Pattern analyzer.StartTime analyzer.EndTime].
    destruct (Z.ltb_spec (models.Level entry) DEBUG) as [Hlt|_]; [lia|].
    reflexivity.
Qed.

End Commands.

(** ** Instances of the properties that have a premise *)

Section Instances.

Import GoString GoTime models parser analyzer aggregation examples analysis.
Import ordering states directory scenarioA scenarioE tailing watching.
Import reporter ranking stamps.

Local Open Scope list_scope.

Lemma PlainTextLogParser_Parse_nonblank_witness :
  TrimSpace "  WARNING: disk almost full  " <> ""%string /\
  exists e,
    PlainTextLogParser_Parse 0 "  WARNING: disk almost full  " "app.log"
    = Ok e /\
    DEBUG <= models.Level e <= FATAL /\
    TrimSpace (Message e) = Message e /\
    Raw e = "  WARNING: disk almost full  "%string /\
    Source e = "app.log"%string.
Proof.
  assert (H : TrimSpace "  WARNING: disk almost full  " <> ""%string)
    by (vm_compute; discriminate).
  split; [exact H|].
  exact (PlainTextLogParser_Parse_nonblank 0 "  WARNING: disk almost full  "
           "app.log" H).
Defined.

Lemma built_statistics_match_entries_witness :
  built three /\
  Count three = TotalEntries (GetStats three) /\
  (forall level,
      GetLevelCount (GetStats three) level
      = Z.of_nat (length (FilterEntries three (LevelFilter level)))) /\
  (forall source,
      get (SourceCounts (GetStats three)) source
      = Z.of_nat (length (FilterEntries three (SourceFilter source)))) /\
  PatternCounts (GetStats three) = ∅.
Proof.
  assert (H : built three) by (apply built_AddBatch, built_New).
  split; [exact H|]. exact (built_statistics_match_entries three H).
Defined.

Lemma statistics_independent_of_order_witness :
  Permutation [diskFull; started] [started; diskFull] /\
  (forall e, In e [diskFull; started] -> Timestamp e <> zero) /\
  GetStats (AddBatch NewAggregator [diskFull; started])
  = GetStats (AddBatch NewAggregator [started; diskFull]).
Proof.
  assert (Hp : Permutation [diskFull; started] [started; diskFull])
    by apply perm_swap.
  assert (Hz : forall e, In e [diskFull; started] -> Timestamp e <> zero).
  { intros e [<-|[<-|[]]]; vm_compute; discriminate. }
  split; [exact Hp|]. split; [exact Hz|].
  exact (statistics_independent_of_order NewAggregator _ _ Hp Hz).
Defined.

Lemma GetTopN_after_SortByTime_witness :
  GetTopN (SortByTime three) 2 = Some [entryAt 5 "c"; entryAt 6 "a"] /\
  exists rest,
    Permutation ([entryAt 5 "c"; entryAt 6 "a"] ++ rest) (GetEntries three) /\
    Z.of_nat (length [entryAt 5 "c"; entryAt 6 "a"]) = Z.min 2 (Count three) /\
    (forall x y, In x [entryAt 5 "c"; entryAt 6 "a"] -> In y rest ->
                 Timestamp x <= Timestamp y).
Proof.
  assert (H : GetTopN (SortByTime three) 2
              = Some [entryAt 5 "c"; entryAt 6 "a"])
    by (vm_compute; reflexivity).
  split; [exact H|]. exact (GetTopN_after_SortByTime three 2 _ H).
Defined.

Lemma AnalyzeDirectory_reports_failures_witness :
  findLogFiles logsWalk "logs" = (["logs/one.log"; "logs/two.log"]%string, None) /\
  ["logs/one.log"; "logs/two.log"]%string <> [] /\
  let a := NewAnalyzer unfiltered in
  let files := ["logs/one.log"; "logs/two.log"]%string in
  let r := AnalyzeDirectory decoder disk logsWalk clock interleaved 900 a
             "logs" in
  let s := GetStats (GetResults a) in
  let s' := GetStats (GetResults (fst r)) in
  let failures := Z.of_nat (length (failed decoder disk clock a files)) in
  snd r = (if failures =? 0 then None
           else Some (fmt_Errorf "encountered %d errors during processing"
                                 [op_int failures])) /\
  FilesProcessed s'
  = FilesProcessed s + Z.of_nat (length (analyzed decoder disk clock a files)) /\
  ProcessingTime s' = 900 /\
  nonDecreasing (GetEntries (GetResults (fst r))).
Proof.
  assert (Hf : findLogFiles logsWalk "logs"
               = (["logs/one.log"; "logs/two.log"]%string, None))
    by (vm_compute; reflexivity).
  assert (Hn : ["logs/one.log"; "logs/two.log"]%string <> []) by discriminate.
  split; [exact Hf|]. split; [exact Hn|].
  exact (AnalyzeDirectory_reports_failures decoder disk logsWalk clock
           (NewAnalyzer unfiltered) "logs" _ interleaved 900 Hf Hn).
Defined.

Lemma Watch_first_step_witness :
  let old := ("INFO started" ++ String bufio.LF "")%string in
  let new := ("ERROR boom" ++ String bufio.LF "")%string in
  let w := {| watcher.config := tailOnly;
              watcher.parser := PlainTextLogParser;
              watcher.fileOffset := 13; watcher.lastOffset := 13 |} in
  watcher.Watch_open (watcher.NewWatcher tailOnly) (Ok (view old)) None = Ok w /\
  snd (watcher.readNewLines noDecoder w fixedClock (view (old ++ new)%string))
  = watcher.processLines noDecoder w fixedClock
      (bufio.tokens
         (bufio.Scan bufio.MaxScanTokenSize
            (if watcher.ShowAll tailOnly then (old ++ new)%string else new))) 0.
Proof.
  cbn zeta.
  assert (H : watcher.Watch_open (watcher.NewWatcher tailOnly)
                (Ok (view ("INFO started" ++ String bufio.LF "")%string)) None
              = Ok {| watcher.config := tailOnly;
                      watcher.parser := PlainTextLogParser;
                      watcher.fileOffset := 13; watcher.lastOffset := 13 |})
    by (vm_compute; reflexivity).
  split; [exact H|].
  exact (Watch_first_step noDecoder tailOnly _
           ("ERROR boom" ++ String bufio.LF "")%string _ fixedClock H).
Defined.

Lemma readNewLines_twice_witness :
  let old := ("INFO started" ++ String bufio.LF "")%string in
  let w := {| watcher.config := tailOnly;
              watcher.parser := PlainTextLogParser;
              watcher.fileOffset := 13; watcher.lastOffset := 13 |} in
  watcher.Watch_open (watcher.NewWatcher tailOnly) (Ok (view old)) None = Ok w /\
  watcher.fileOffset w = Z.of_nat (String.length old) /\
  watcher.lastOffset w <= 18 /\ 18 <= 28 /\
  bufio.tooLong (bufio.Scan bufio.MaxScanTokenSize "ERROR disk") = false /\
  let r1 := watcher.readNewLines noDecoder w fixedClock
              (viewed 18 (old ++ "ERROR disk")%string) in
  let r2 := watcher.readNewLines noDecoder (fst r1) fixedClock
              (viewed 28 (old ++ "ERROR disk" ++ " full")%string) in
  snd r1 = watcher.processLines noDecoder w fixedClock
             (bufio.tokens (bufio.Scan bufio.MaxScanTokenSize "ERROR disk")) 0 /\
  snd r2 = watcher.processLines noDecoder (fst r1) fixedClock
             (bufio.tokens (bufio.Scan bufio.MaxScanTokenSize " full")) 0.
Proof.
  cbn zeta.
  assert (Ho : watcher.Watch_open (watcher.NewWatcher tailOnly)
                 (Ok (view ("INFO started" ++ String bufio.LF "")%string)) None
               = Ok {| watcher.config := tailOnly;
                       watcher.parser := PlainTextLogParser;
                       watcher.fileOffset := 13; watcher.lastOffset := 13 |})
    by (vm_compute; reflexivity).
  assert (Hp : watcher.fileOffset
                 {| watcher.config := tailOnly;
                    watcher.parser := PlainTextLogParser;
                    watcher.fileOffset := 13; watcher.lastOffset := 13 |}
               = Z.of_nat (String.length
                             ("INFO started" ++ String bufio.LF "")%string))
    by (vm_compute; reflexivity).
  assert (Hl : watcher.lastOffset
                 {| watcher.config := tailOnly;
                    watcher.parser := PlainTextLogParser;
                    watcher.fileOffset := 13; watcher.lastOffset := 13 |}
               <= 18) by (cbn [watcher.lastOffset]; lia).
  assert (Hs : 18 <= 28) by lia.
  assert (Ht : bufio.tooLong (bufio.Scan bufio.MaxScanTokenSize "ERROR disk")
               = false) by (vm_compute; reflexivity).
  split; [exact Ho|]. split; [exact Hp|]. split; [exact Hl|].
  split; [exact Hs|]. split; [exact Ht|].
  exact (readNewLines_twice noDecoder _ fixedClock fixedClock
           ("INFO started" ++ String bufio.LF "")%string "ERROR disk" " full"
           18 28 Hp Hl Hs Ht).
Defined.

Lemma PrintTopErrors_after_analysis_witness :
  built three /\
  ranges [] (PatternCounts (GetStats three)) /\
  PrintTopErrors [] 5
  = [Fprintln (String bufio.LF "🔥 Top Error Patterns");
     Fprintln (Repeat "─" 80)].
Proof.
  assert (Hb : built three) by (apply built_AddBatch, built_New).
  assert (Hr : ranges [] (PatternCounts (GetStats three)))
    by (vm_compute; constructor).
  split; [exact Hb|]. split; [exact Hr|].
  exact (PrintTopErrors_after_analysis three [] 5 Hb Hr).
Defined.

Lemma extractTimestamp_written_witness :
  known "/" " " /\ writable 2024 2 29 23 59 59 /\ valid 2024 2 29 23 59 59 /\
  let st := stamp "/" " " 2024 2 29 23 59 59 in
  extractTimestamp (st ++ " ERROR: disk full")
  = Ok (Date 2024 2 29 23 59 59 0, TrimSpace " ERROR: disk full") /\
  extractTimestamp (String "[" (st ++ String "]" " ERROR: disk full"))
  = Ok (Date 2024 2 29 23 59 59 0, TrimSpace " ERROR: disk full") /\
  (forall now source,
      exists e,
        PlainTextLogParser_Parse now (st ++ " ERROR: disk full") source = Ok e /\
        Timestamp e = Date 2024 2 29 23 59 59 0) /\
  (forall now source,
      exists e,
        PlainTextLogParser_Parse now
          (String "[" (st ++ String "]" " ERROR: disk full")) source = Ok e /\
        Timestamp e = Date 2024 2 29 23 59 59 0).
Proof.
  assert (Hk : known "/" " ") by (right; left; split; reflexivity).
  assert (Hw : writable 2024 2 29 23 59 59) by (unfold writable; lia).
  assert (Hv : valid 2024 2 29 23 59 59).
  { unfold valid. change (daysIn 2 2024) with 29. lia. }
  split; [exact Hk|]. split; [exact Hw|]. split; [exact Hv|].
  exact (extractTimestamp_written "/" " " 2024 2 29 23 59 59
           " ERROR: disk full" Hk Hw Hv).
Defined.

Lemma extractTimestamp_not_a_time_witness :
  known "-" " " /\ writable 2023 2 29 10 0 0 /\ ~ valid 2023 2 29 10 0 0 /\
  let st := stamp "-" " " 2023 2 29 10 0 0 in
  extractTimestamp (st ++ " INFO leap") = Err (fmt_Errorf "no timestamp found" []) /\
  (forall now source,
      exists e,
        PlainTextLogParser_Parse now (st ++ " INFO leap") source = Ok e /\
        Timestamp e = now).
Proof.
  assert (Hk : known "-" " ") by (left; split; reflexivity).
  assert (Hw : writable 2023 2 29 10 0 0) by (unfold writable; lia).
  assert (Hv : ~ valid 2023 2 29 10 0 0).
  { unfold valid. change (daysIn 2 2023) with 28. lia. }
  split; [exact Hk|]. split; [exact Hw|]. split; [exact Hv|].
  exact (extractTimestamp_not_a_time "-" " " 2023 2 29 10 0 0 " INFO leap"
           Hk Hw Hv).
Defined.

End Instances.
